(** * Ride-request metrics pipeline: producer, two consumers, aggregator

    A shallow embedding of the four Lambda functions of the repository

      - [lambda/producer/lambda_function.py]
      - [lambda/consumer-sqs/lambda_function.py]
      - [lambda/consumer-rabbitmq/lambda_function.py]
      - [lambda/comparison/lambda_function.py]

    Conventions of the embedding.

    - Python values decoded from JSON are the inductive type [value]; a
      dictionary with string keys is an association list in insertion order.
    - Python exceptions are the constructor [Raise] of a small error monad;
      only the exception class is kept, not its message.
    - Python [int] is [Z].  A finite Python [float] is the exact rational
      value of its binary64 number; every operation that yields a float
      rounds its exact result to the nearest binary64 number, ties to even
      ([binary64]), as IEEE 754 arithmetic does.  [round(x, n)] on a float
      rounds the exact value of [x] half to even at [n] decimals and takes
      the binary64 number nearest to that decimal, as CPython does.  NaN,
      the infinities and the overflow of the exponent range are not
      represented: [binary64] keeps 53 bits at any magnitude, where Python
      returns [inf] or raises [OverflowError].  [binary64] returns a float
      nearest to its argument ([binary64_nearest]), and it is checked
      against the Standard Library's bit-level model of IEEE 754 on sample
      quotients, products and sums, see [Binary64].  [sum] adds from left
      to right, as CPython does up to 3.11; no statement depends on the
      value of a mean.
    - The one product with a float literal that is truncated
      ([int(len(xs) * 0.95)]) is computed exactly, and checked against the
      bit-level model for the sizes up to 10000, see [Binary64].
    - Effects (clock, random draws, object store, queue transports) are
      explicit inputs and outputs of the functions that perform them.
    - Library functions that parse text ([json.loads],
      [datetime.fromisoformat], [int] on a string) are section variables:
      every theorem holds for any implementation of them. *)

From Stdlib Require Import ZArith QArith Qround Qabs Qpower String Ascii List Bool Lia Lqa.
From Stdlib Require Import Sorting.Sorted Sorting.Permutation.
From Stdlib Require Floats.SpecFloat.
Import ListNotations.

Local Open Scope string_scope.
Local Open Scope list_scope.
Local Open Scope Z_scope.

(** ** Python values, exceptions and builtins *)

Module Py.

Inductive exn : Type :=
| TypeError
| ValueError
| KeyError
| IndexError
| AttributeError
| ZeroDivisionError
| JSONDecodeError
| TransportError.

Inductive result (A : Type) : Type :=
| Ok (a : A)
| Raise (e : exn).

Arguments Ok {A} a.
Arguments Raise {A} e.

Definition bind {A B : Type} (c : result A) (k : A -> result B) : result B :=
  match c with
  | Ok a => k a
  | Raise e => Raise e
  end.

#[warnings="-register-all"]
Inductive value : Type :=
| VNone
| VBool (b : bool)
| VInt (z : Z)
| VFloat (q : Q)
| VStr (s : string)
| VList (l : list value)
| VDict (d : list (string * value)).

End Py.

Export Py.

Notation "x <- c1 ;; c2" := (bind c1 (fun x => c2))
  (at level 61, c1 at next level, right associativity).

Module Builtins.

(** [d[k]] and [d.get(k, default)] on an association list: first binding. *)
Fixpoint assoc (k : string) (d : list (string * value)) : option value :=
  match d with
  | [] => None
  | (k', v) :: d' => if String.eqb k' k then Some v else assoc k d'
  end.

(** [x.get(k, default)]: only dictionaries have the method. *)
Definition py_get (x : value) (k : string) (default : value) : result value :=
  match x with
  | VDict d => Ok (match assoc k d with Some v => v | None => default end)
  | _ => Raise AttributeError
  end.

(** [bool(x)]: the falsy values are None, False, zero, and empty containers. *)
Definition truthy (x : value) : bool :=
  match x with
  | VNone => false
  | VBool b => b
  | VInt z => negb (z =? 0)
  | VFloat q => negb (Qeq_bool q 0)
  | VStr s => negb (String.eqb s EmptyString)
  | VList l => match l with [] => false | _ => true end
  | VDict d => match d with [] => false | _ => true end
  end.

(** The numeric tower: bool is a subtype of int, int coerces to float. *)
Definition as_number (x : value) : option Q :=
  match x with
  | VBool b => Some (if b then 1%Q else 0%Q)
  | VInt z => Some (inject_Z z)
  | VFloat q => Some q
  | _ => None
  end.

Definition as_int (x : value) : option Z :=
  match x with
  | VBool b => Some (if b then 1 else 0)
  | VInt z => Some z
  | _ => None
  end.

Definition Qlt_bool (a b : Q) : bool := negb (Qle_bool b a).

(** [a < b].  Numbers compare by value, strings by code point; None and
    dictionaries support no ordering, and neither does a pair of values of
    different kinds.  (Python orders two lists element-wise; list-valued
    operands are not modelled and raise here.) *)
Definition py_lt (a b : value) : result bool :=
  match as_number a, as_number b with
  | Some x, Some y => Ok (Qlt_bool x y)
  | _, _ =>
      match a, b with
      | VStr s, VStr t => Ok (String.ltb s t)
      | _, _ => Raise TypeError
      end
  end.

(** [a == b] on hashable values, as used for dictionary keys: numbers by
    value (so [1 == 1.0 == True]), strings by content. *)
Definition key_eqb (a b : value) : bool :=
  match as_number a, as_number b with
  | Some x, Some y => Qeq_bool x y
  | _, _ =>
      match a, b with
      | VStr s, VStr t => String.eqb s t
      | VNone, VNone => true
      | _, _ => false
      end
  end.

Definition hashable (x : value) : bool :=
  match x with
  | VList _ | VDict _ => false
  | _ => true
  end.

(** [x == 'literal'] for a string literal. *)
Definition eq_str (x : value) (lit : string) : bool :=
  match x with
  | VStr s => String.eqb s lit
  | _ => false
  end.

(** *** Floats *)

(** The integer nearest to [x], the even one at a tie. *)
Definition nearest_even (x : Q) : Z :=
  let f := Qfloor x in
  match Qcompare (x - inject_Z f) (1 # 2) with
  | Lt => f
  | Gt => f + 1
  | Eq => if Z.even f then f else f + 1
  end.

Definition pow2 (e : Z) : Q := Qpower 2 e.

(** [floor(log2(a))] for a positive rational. *)
Definition ilog2 (a : Q) : Z :=
  let k := Z.log2 (Qnum a) - Z.log2 (Z.pos (Qden a)) in
  if Qle_bool (pow2 k) a then k else k - 1.

(** The exponent of the last bit of the binary64 numbers around a positive
    rational: 53 bits of precision, and no exponent below -1074. *)
Definition ulp_exponent (a : Q) : Z := Z.max (-1074) (ilog2 a - 52).

Definition binary64_pos (a : Q) : Q :=
  let e := ulp_exponent a in
  (inject_Z (nearest_even (a * pow2 (- e))) * pow2 e)%Q.

(** The binary64 number nearest to [q], the one with an even last bit at a
    tie: the result of a float operation whose exact result is [q], and the
    float written as the decimal literal [q]. *)
Definition binary64 (q : Q) : Q :=
  let a := Qred q in
  match Qcompare a 0 with
  | Eq => 0%Q
  | Gt => Qred (binary64_pos a)
  | Lt => Qred (- binary64_pos (- a))
  end.

(** [float(x)] for the operand of a float operation: an int is converted
    to the nearest float.  An int beyond the range of a float, for which
    Python raises [OverflowError], is rounded like any other. *)
Definition to_float (x : value) : option Q :=
  match x with
  | VBool b => Some (if b then 1%Q else 0%Q)
  | VInt z => Some (binary64 (inject_Z z))
  | VFloat q => Some q
  | _ => None
  end.

(** Round half to even at [10^-ndigits], on the exact value. *)
Definition round_half_even (q : Q) (ndigits : Z) : Q :=
  let scale := 10 ^ ndigits in
  let x := (q * inject_Z scale)%Q in
  let f := Qfloor x in
  let r := (x - inject_Z f)%Q in
  let n :=
    match Qcompare r (1 # 2) with
    | Lt => f
    | Gt => f + 1
    | Eq => if Z.even f then f else f + 1
    end in
  Qred (Qmake n (Z.to_pos scale)).

(** [round(x, ndigits)]: an int is returned unchanged; for a float the
    exact value is rounded half to even to a decimal with [ndigits] digits,
    and the result is the float nearest to that decimal. *)
Definition py_round (x : value) (ndigits : Z) : result value :=
  match x with
  | VBool b => Ok (VInt (if b then 1 else 0))
  | VInt z => Ok (VInt z)
  | VFloat q => Ok (VFloat (binary64 (round_half_even q ndigits)))
  | _ => Raise TypeError
  end.

(** [a + b] on numbers: int + int is an int; with a float operand the other
    one is converted and the sum is rounded. *)
Definition py_add (a b : value) : result value :=
  match as_int a, as_int b with
  | Some x, Some y => Ok (VInt (x + y))
  | _, _ =>
      match to_float a, to_float b with
      | Some x, Some y => Ok (VFloat (binary64 (x + y)))
      | _, _ => Raise TypeError
      end
  end.

(** [sum(xs)]: a left fold of [+] starting from the int 0, each float
    addition rounded (CPython up to 3.11; from 3.12 on [sum] also carries a
    compensation term for the rounding errors of the float additions). *)
Fixpoint sum_from (start : value) (xs : list value) : result value :=
  match xs with
  | [] => Ok start
  | x :: xs' => s <- py_add start x ;; sum_from s xs'
  end.

Definition py_sum (xs : list value) : result value := sum_from (VInt 0) xs.

(** [a / b]: true division always yields a float.  The quotient of two
    ints is rounded once, from the exact quotient; with a float operand the
    other one is converted first.  A quotient beyond the range of a float,
    for which Python raises [OverflowError], is rounded like any other. *)
Definition py_truediv (a b : value) : result value :=
  match as_int a, as_int b with
  | Some x, Some y =>
      if y =? 0 then Raise ZeroDivisionError
      else Ok (VFloat (binary64 (inject_Z x / inject_Z y)))
  | _, _ =>
      match to_float a, to_float b with
      | Some x, Some y =>
          if Qeq_bool y 0 then Raise ZeroDivisionError
          else Ok (VFloat (binary64 (x / y)))
      | _, _ => Raise TypeError
      end
  end.

(** [min(xs)] and [max(xs)]: the first extremal element, found with [<]
    resp. [>]. *)
Fixpoint min_from (best : value) (xs : list value) : result value :=
  match xs with
  | [] => Ok best
  | x :: xs' => b <- py_lt x best ;; min_from (if b then x else best) xs'
  end.

Fixpoint max_from (best : value) (xs : list value) : result value :=
  match xs with
  | [] => Ok best
  | x :: xs' => b <- py_lt best x ;; max_from (if b then x else best) xs'
  end.

Definition py_min (xs : list value) : result value :=
  match xs with
  | [] => Raise ValueError
  | x :: xs' => min_from x xs'
  end.

Definition py_max (xs : list value) : result value :=
  match xs with
  | [] => Raise ValueError
  | x :: xs' => max_from x xs'
  end.

Definition len {A : Type} (xs : list A) : Z := Z.of_nat (List.length xs).

(** [xs[i]] for a non-negative or negative index. *)
Definition index {A : Type} (xs : list A) (i : Z) : result A :=
  let j := if i <? 0 then i + len xs else i in
  if j <? 0 then Raise IndexError
  else match nth_error xs (Z.to_nat j) with
       | Some x => Ok x
       | None => Raise IndexError
       end.

(** [xs[:stop]]: a negative [stop] counts from the end. *)
Definition slice_to {A : Type} (xs : list A) (stop : Z) : list A :=
  let j := if stop <? 0 then Z.max 0 (stop + len xs) else stop in
  firstn (Z.to_nat j) xs.

(** [int(x)] on a float truncates toward zero. *)
Definition trunc (q : Q) : Z := Z.quot (Qnum q) (Z.pos (Qden q)).

(** A stable sort by insertion, with the comparison in the error monad.
    On a list that [<] orders totally the result is the one of any stable
    sort; a comparison that raises aborts the sort. *)
Section Sort.
Context {A : Type} (lt : A -> A -> result bool).

Fixpoint insert (x : A) (l : list A) : result (list A) :=
  match l with
  | [] => Ok [x]
  | y :: l' =>
      b <- lt y x ;;
      if b then (r <- insert x l' ;; Ok (y :: r)) else Ok (x :: y :: l')
  end.

Fixpoint sort (l : list A) : result (list A) :=
  match l with
  | [] => Ok []
  | x :: l' => s <- sort l' ;; insert x s
  end.
End Sort.

(** [sorted(xs)] *)
Definition sorted (xs : list value) : result (list value) := sort py_lt xs.

Fixpoint mapM {A B : Type} (f : A -> result B) (xs : list A) : result (list B) :=
  match xs with
  | [] => Ok []
  | x :: xs' => y <- f x ;; ys <- mapM f xs' ;; Ok (y :: ys)
  end.

(** [sorted(xs, key=f, reverse=True)]: all keys are computed first; the list
    is reversed, sorted stably by key, and reversed again, so that records
    with equal keys keep their original relative order. *)
Definition sorted_key_reverse (key : value -> result value) (xs : list value)
  : result (list value) :=
  ks <- mapM key xs ;;
  s <- sort (fun a b => py_lt (fst a) (fst b)) (rev (combine ks xs)) ;;
  Ok (map snd (rev s)).

(** [s.lower()] on the ASCII letters. *)
Definition lower_ascii (c : ascii) : ascii :=
  let n := nat_of_ascii c in
  if ((65 <=? n)%nat && (n <=? 90)%nat)%bool then ascii_of_nat (n + 32) else c.

Fixpoint lower (s : string) : string :=
  match s with
  | EmptyString => EmptyString
  | String c s' => String (lower_ascii c) (lower s')
  end.

(** [s.replace(old, new)] for a one-character [old]. *)
Fixpoint replace_char (old : ascii) (new : string) (s : string) : string :=
  match s with
  | EmptyString => EmptyString
  | String c s' =>
      if Ascii.eqb c old then (new ++ replace_char old new s')%string
      else String c (replace_char old new s')
  end.

(** A word between double quotes; also the JSON text of a string without
    escapes. *)
Definition quoted (s : string) : string :=
  (String (ascii_of_nat 34) s ++ String (ascii_of_nat 34) EmptyString)%string.

(** [s.endswith(suffix)] *)
Definition endswith (s suffix : string) : bool :=
  let n := String.length s in
  let m := String.length suffix in
  ((m <=? n)%nat && String.eqb (substring (n - m) m s) suffix)%bool.

End Builtins.

Export Builtins.

(** ** The aggregator: [lambda/comparison/lambda_function.py] *)

Module Comparison.

(** The per-queue accumulator created by the [defaultdict] factory. *)
Record stats : Type := {
  s_count : Z;
  s_latencies : list value;
  s_processing_times : list value;
  s_successful : Z;
  s_failed : Z
}.

Definition default_stats : stats :=
  {| s_count := 0; s_latencies := []; s_processing_times := [];
     s_successful := 0; s_failed := 0 |}.

Record latency_summary : Type := {
  avg_ms : value;
  min_ms : value;
  max_ms : value;
  median_ms : value;
  p95_ms : value;
  p99_ms : value
}.

Record processing_time_summary : Type := {
  pt_avg_ms : value;
  pt_min_ms : value;
  pt_max_ms : value
}.

(** One entry of the [summary] dictionary. *)
Record stat_summary : Type := {
  count : Z;
  latency : latency_summary;
  processing_time : processing_time_summary;
  success_rate : value;
  successful_count : Z;
  failed_count : Z
}.

(** [stats_by_queue[queue_type]] followed by the in-place updates of the
    entry: the entry of an existing key is updated where it stands, a new key
    is appended with the factory's value.  The dictionary keeps the key
    object that was inserted first. *)
Fixpoint update (k : value) (f : stats -> stats) (m : list (value * stats))
  : list (value * stats) :=
  match m with
  | [] => [(k, f default_stats)]
  | (k', s) :: m' =>
      if key_eqb k' k then (k', f s) :: m' else (k', s) :: update k f m'
  end.

Definition record_metric (latency_ms processing_time_ms status : value) (s : stats)
  : stats :=
  let ok := eq_str status "successful" in
  {| s_count := s_count s + 1;
     s_latencies := s_latencies s ++ [latency_ms];
     s_processing_times := s_processing_times s ++ [processing_time_ms];
     s_successful := if ok then s_successful s + 1 else s_successful s;
     s_failed := if ok then s_failed s else s_failed s + 1 |}.

(** The body of the grouping loop for one metric. *)
Definition group_metric (stats_by_queue : list (value * stats)) (metric : value)
  : result (list (value * stats)) :=
  queue_type <- py_get metric "queue_type" (VStr "unknown") ;;
  if negb (hashable queue_type) then Raise TypeError else
  latency_ms <- py_get metric "latency_ms" (VInt 0) ;;
  processing_time_ms <- py_get metric "processing_time_ms" (VInt 0) ;;
  status <- py_get metric "status" VNone ;;
  Ok (update queue_type (record_metric latency_ms processing_time_ms status)
        stats_by_queue).

Fixpoint group_metrics (stats_by_queue : list (value * stats)) (metrics : list value)
  : result (list (value * stats)) :=
  match metrics with
  | [] => Ok stats_by_queue
  | metric :: rest =>
      m <- group_metric stats_by_queue metric ;; group_metrics m rest
  end.

(** [int(len(latencies) * p)] for a float literal [p]. *)
Definition percentile_index (n : Z) (p : Q) : Z := trunc (inject_Z n * p).

(** [round(latencies[int(len(latencies) * p)], 2) if len(latencies) > 1
     else round(latencies[0], 2)] *)
Definition percentile (latencies : list value) (p : Q) : result value :=
  if 1 <? len latencies
  then x <- index latencies (percentile_index (len latencies) p) ;; py_round x 2
  else x <- index latencies 0 ;; py_round x 2.

Definition p95 : Q := 95 # 100.
Definition p99 : Q := 99 # 100.

Definition summarize_latency (latencies : list value) : result latency_summary :=
  total <- py_sum latencies ;;
  avg <- py_truediv total (VInt (len latencies)) ;;
  avg <- py_round avg 2 ;;
  mn <- py_min latencies ;;
  mn <- py_round mn 2 ;;
  mx <- py_max latencies ;;
  mx <- py_round mx 2 ;;
  med <- index latencies (len latencies / 2) ;;
  med <- py_round med 2 ;;
  q95 <- percentile latencies p95 ;;
  q99 <- percentile latencies p99 ;;
  Ok {| avg_ms := avg; min_ms := mn; max_ms := mx; median_ms := med;
        p95_ms := q95; p99_ms := q99 |}.

Definition summarize_processing_time (processing_times : list value)
  : result processing_time_summary :=
  total <- py_sum processing_times ;;
  avg <- py_truediv total (VInt (len processing_times)) ;;
  avg <- py_round avg 2 ;;
  mn <- py_min processing_times ;;
  mn <- py_round mn 2 ;;
  mx <- py_max processing_times ;;
  mx <- py_round mx 2 ;;
  Ok {| pt_avg_ms := avg; pt_min_ms := mn; pt_max_ms := mx |}.

(** The value stored under [summary[queue_type]]. *)
Definition summarize (s : stats) : result stat_summary :=
  latencies <- sorted (s_latencies s) ;;
  processing_times <- sorted (s_processing_times s) ;;
  lat <- summarize_latency latencies ;;
  pt <- summarize_processing_time processing_times ;;
  rate <- py_truediv (VInt (s_successful s)) (VInt (s_count s)) ;;
  rate <- py_round rate 4 ;;
  Ok {| count := s_count s; latency := lat; processing_time := pt;
        success_rate := rate; successful_count := s_successful s;
        failed_count := s_failed s |}.

(** The second loop: groups with [count == 0] are skipped. *)
Fixpoint summarize_all (stats_by_queue : list (value * stats))
  : result (list (value * stat_summary)) :=
  match stats_by_queue with
  | [] => Ok []
  | (queue_type, s) :: rest =>
      if s_count s =? 0 then summarize_all rest
      else
        entry <- summarize s ;;
        summary <- summarize_all rest ;;
        Ok ((queue_type, entry) :: summary)
  end.

Definition calculate_statistics (metrics : list value)
  : result (list (value * stat_summary)) :=
  stats_by_queue <- group_metrics [] metrics ;;
  summarize_all stats_by_queue.

(** *** The object store as seen by [get_all_metrics_from_s3] *)

(** One listed object: its key and what [get_object], [read] and [decode]
    produce for it. *)
Record s3_object : Type := {
  Key : string;
  Body : result string
}.

(** One page of the listing: [None] when it has no ['Contents']. *)
Definition page : Type := option (list s3_object).

(** The pages the paginator yields; a [Raise] is a listing call that fails. *)
Definition bucket : Type := list (result page).

Record response_data : Type := {
  message : option string;
  total_messages : Z;
  statistics : list (value * stat_summary);
  timestamp : option string;
  messages : option (list value)
}.

(** [response_data['messages'] = xs] and [response_data['message'] = s] *)
Definition set_messages (d : response_data) (xs : list value) : response_data :=
  {| message := message d; total_messages := total_messages d;
     statistics := statistics d; timestamp := timestamp d;
     messages := Some xs |}.

Definition set_message (d : response_data) (s : string) : response_data :=
  {| message := Some s; total_messages := total_messages d;
     statistics := statistics d; timestamp := timestamp d;
     messages := messages d |}.

Inductive body : Type :=
| Data (d : response_data)
| Error (error : string) (details : exn).

Record response : Type := {
  statusCode : Z;
  headers : list (string * string);
  response_body : body
}.

Definition json_headers : list (string * string) :=
  [("Content-Type", "application/json"); ("Access-Control-Allow-Origin", "*")].

Section Handler.
(** [json.loads] and [int] on a string. *)
Variable json_loads : string -> result value.
Variable int_of_str : string -> option Z.

(** The inner [try]: an object that cannot be read or parsed is skipped. *)
Fixpoint read_objects (contents : list s3_object) : list value :=
  match contents with
  | [] => []
  | obj :: rest =>
      if negb (endswith (Key obj) ".json") then read_objects rest
      else
        match (content <- Body obj ;; json_loads content) with
        | Ok metric => metric :: read_objects rest
        | Raise _ => read_objects rest
        end
  end.

Fixpoint read_pages (pages : bucket) (all_metrics : list value)
  : result (list value) :=
  match pages with
  | [] => Ok all_metrics
  | Raise e :: _ => Raise e
  | Ok None :: rest => read_pages rest all_metrics
  | Ok (Some contents) :: rest =>
      read_pages rest (all_metrics ++ read_objects contents)
  end.

(** The outer [try]: a failing listing call discards what was read. *)
Definition get_all_metrics_from_s3 (s3 : bucket) : list value :=
  match read_pages s3 [] with
  | Ok all_metrics => all_metrics
  | Raise _ => []
  end.

(** [s.lower()] *)
Definition py_lower (x : value) : result string :=
  match x with
  | VStr s => Ok (lower s)
  | _ => Raise AttributeError
  end.

(** [int(x)] *)
Definition py_int (x : value) : result Z :=
  match x with
  | VBool b => Ok (if b then 1 else 0)
  | VInt z => Ok z
  | VFloat q => Ok (trunc q)
  | VStr s =>
      match int_of_str s with
      | Some z => Ok z
      | None => Raise ValueError
      end
  | _ => Raise TypeError
  end.

Definition timestamp_received_key (x : value) : result value :=
  py_get x "timestamp_received" (VStr EmptyString).

(** The two query parameters: [details] and [limit]. *)
Definition query_parameters (event : value) : result (bool * Z) :=
  qsp <- py_get event "queryStringParameters" VNone ;;
  let query_params := if truthy qsp then qsp else VDict [] in
  details <- py_get query_params "details" (VStr "false") ;;
  details <- py_lower details ;;
  let include_details := String.eqb details "true" in
  limit <- py_get query_params "limit" (VInt 100) ;;
  limit <- py_int limit ;;
  Ok (include_details, limit).

(** The statements of the handler after the emptiness test; [now] is
    [datetime.utcnow().isoformat()]. *)
Definition compare (event : value) (all_metrics : list value) (now : string)
  : result response :=
  statistics <- calculate_statistics all_metrics ;;
  sorted_metrics <- sorted_key_reverse timestamp_received_key all_metrics ;;
  params <- query_parameters event ;;
  let '(include_details, limit) := params in
  let response_data :=
    {| message := None;
       total_messages := len all_metrics;
       statistics := statistics;
       timestamp := Some (now ++ "Z")%string;
       messages := None |} in
  let response_data :=
    if include_details : bool
    then set_messages response_data (slice_to sorted_metrics limit)
    else set_message response_data "Add ?details=true to see individual messages" in
  Ok {| statusCode := 200; headers := json_headers;
        response_body := Data response_data |}.

Definition lambda_handler (event : value) (s3 : bucket) (now : string)
  : response :=
  let all_metrics := get_all_metrics_from_s3 s3 in
  match all_metrics with
  | [] =>
      {| statusCode := 200; headers := json_headers;
         response_body :=
           Data {| message := Some "No metrics found";
                   total_messages := 0;
                   statistics := [];
                   timestamp := None;
                   messages := Some [] |} |}
  | _ :: _ =>
      match compare event all_metrics now with
      | Ok r => r
      | Raise e =>
          {| statusCode := 500; headers := json_headers;
             response_body := Error "Internal server error" e |}
      end
  end.
End Handler.

End Comparison.

(** ** Code shared by the two consumers

    [calculate_latency], [simulate_processing] and [store_metrics_to_s3] are
    textually the same in [consumer-sqs] and [consumer-rabbitmq], up to the
    key prefix of the stored object. *)

Module Consumer.

(** A [datetime]: wall-clock microseconds since the start of the calendar and
    the UTC offset in microseconds, absent for a naive value. *)
Record datetime : Type := {
  wall : Z;
  utcoffset : option Z
}.

(** [a - b] in microseconds; a naive and an aware value do not subtract. *)
Definition datetime_sub (a b : datetime) : result Z :=
  match utcoffset a, utcoffset b with
  | None, None => Ok (wall a - wall b)
  | Some oa, Some ob => Ok ((wall a - oa) - (wall b - ob))
  | _, _ => Raise TypeError
  end.

(** [delta.total_seconds() * 1000]: the microseconds divided by [10**6],
    a quotient of two ints, and the product of that float with 1000. *)
Definition total_ms (delta : Z) : Q :=
  binary64 (binary64 (inject_Z delta / 1000000) * 1000).

(** [x.replace('Z', '+00:00')] *)
Definition replace_Z (x : value) : result string :=
  match x with
  | VStr s => Ok (replace_char "Z"%char "+00:00" s)
  | _ => Raise AttributeError
  end.

(** The two random draws of [simulate_processing]. *)
Record draw : Type := {
  uniform : Q;   (* random.uniform(0.1, 0.5) *)
  random : Q     (* random.random() *)
}.

(** [(success, processing_time * 1000)]; [0.02] is a float literal. *)
Definition simulate_processing (d : draw) : bool * Q :=
  (Qlt_bool (binary64 (2 # 100)) (random d), binary64 (uniform d * 1000)).

(** What happens around one message: the clock readings, the draws and the
    outcome of [put_object]. *)
Record effects : Type := {
  now_received : string;    (* utcnow().isoformat() when the message is taken *)
  draws : draw;
  now_processed : string;   (* utcnow().isoformat() after the simulated delay *)
  now_stored : string;      (* utcnow().strftime('%Y%m%d_%H%M%S') *)
  put_object : result unit
}.

(** An object written to the bucket under
    [<prefix>/<timestamp>_<message_id>.json]. *)
Record stored_object : Type := {
  prefix : string;
  stamp : string;
  message_id : value;
  content : value
}.

(** [store_metrics_to_s3]: the success flag and the object written, if any. *)
Definition store_metrics_to_s3 (queue : string) (metrics : value) (fx : effects)
  : bool * list stored_object :=
  match (mid <- (match metrics with
                 | VDict d =>
                     match assoc "message_id" d with
                     | Some v => Ok v
                     | None => Raise KeyError
                     end
                 | _ => Raise TypeError
                 end) ;;
         _ <- put_object fx ;;
         Ok mid) with
  | Ok mid =>
      (true, [{| prefix := queue; stamp := now_stored fx;
                 message_id := mid; content := metrics |}])
  | Raise _ => (false, [])
  end.

(** The key of an object, [f"{prefix}/{timestamp}_{message_id}.json"], where
    [str] gives the text of a value inside the f-string. *)
Definition key_of (str : value -> string) (o : stored_object) : string :=
  (prefix o ++ "/" ++ stamp o ++ "_" ++ str (message_id o) ++ ".json")%string.

(** [put_object] on the objects a bucket holds: the object replaces the one
    stored under its key, if there is one. *)
Fixpoint put (str : value -> string) (o : stored_object)
    (objects : list stored_object) : list stored_object :=
  match objects with
  | [] => [o]
  | o' :: rest =>
      if String.eqb (key_of str o') (key_of str o)
      then o :: rest
      else o' :: put str o rest
  end.

(** The objects an empty bucket holds after the writes [ws], in that
    order. *)
Definition stored (str : value -> string) (ws : list stored_object)
  : list stored_object :=
  fold_left (fun objects o => put str o objects) ws [].

(** [x[k]] for a string key. *)
Definition getitem (x : value) (k : string) : result value :=
  match x with
  | VDict d =>
      match assoc k d with
      | Some v => Ok v
      | None => Raise KeyError
      end
  | _ => Raise TypeError
  end.

Section Parsers.
Variable json_loads : string -> result value.
Variable fromisoformat : string -> result datetime.

(** [json.loads(x)]: the argument must be text. *)
Definition py_json_loads (x : value) : result value :=
  match x with
  | VStr s => json_loads s
  | _ => Raise TypeError
  end.

Definition calculate_latency (timestamp_sent timestamp_received : value) : value :=
  match (s <- replace_Z timestamp_sent ;;
         sent <- fromisoformat s ;;
         r <- replace_Z timestamp_received ;;
         received <- fromisoformat r ;;
         delta <- datetime_sub received sent ;;
         Ok (VFloat (total_ms delta))) with
  | Ok latency_ms => latency_ms
  | Raise _ => VInt 0
  end.

(** The metrics dictionary built from a decoded message body; [extra] are
    the transport-specific fields at its end. *)
Definition build_metrics (queue : string) (message_body : value)
    (extra : list (string * value)) (fx : effects) : result value :=
  message_id <- py_get message_body "message_id" (VStr "unknown") ;;
  timestamp_sent <- py_get message_body "timestamp_sent" VNone ;;
  let timestamp_received := VStr (now_received fx ++ "Z") in
  let latency_ms := calculate_latency timestamp_sent timestamp_received in
  let '(success, processing_time_ms) := simulate_processing (draws fx) in
  latency_ms <- py_round latency_ms 2 ;;
  processing_time_ms <- py_round (VFloat processing_time_ms) 2 ;;
  passenger_name <- py_get message_body "passenger_name" (VStr "N/A") ;;
  current_address <- py_get message_body "current_address" (VStr "N/A") ;;
  destination <- py_get message_body "destination" (VStr "N/A") ;;
  Ok (VDict ([("message_id", message_id);
              ("queue_type", VStr queue);
              ("timestamp_sent", timestamp_sent);
              ("timestamp_received", timestamp_received);
              ("timestamp_processed", VStr (now_processed fx ++ "Z"));
              ("latency_ms", latency_ms);
              ("processing_time_ms", processing_time_ms);
              ("status", VStr (if success then "successful" else "failed"));
              ("passenger_name", passenger_name);
              ("current_address", current_address);
              ("destination", destination)] ++ extra)).
End Parsers.

End Consumer.

(** ** The push-mode consumer: [lambda/consumer-sqs/lambda_function.py] *)

Module ConsumerSqs.
Import Consumer.

Record result_summary : Type := {
  statusCode : Z;
  processed : Z;
  failed : Z;
  total : Z
}.

(** The loop variables, and the writes made so far: the objects of the
    [put_object] calls that succeeded, in order.  What the bucket holds
    after them is [Consumer.stored] of this list. *)
Record batch : Type := {
  processed_count : Z;
  failed_count : Z;
  writes : list stored_object
}.

(** [for record in xs]: a list yields its elements, a dictionary its keys, a
    string its characters (bytes here: exact for ASCII text); other JSON
    values are not iterable. *)
Definition iterate (xs : value) : result (list value) :=
  match xs with
  | VList l => Ok l
  | VDict d => Ok (map (fun kv => VStr (fst kv)) d)
  | VStr s => Ok (map (fun c => VStr (String c EmptyString)) (list_ascii_of_string s))
  | _ => Raise TypeError
  end.

Section Handler.
Variable json_loads : string -> result value.
Variable fromisoformat : string -> result datetime.

(** The statements of the [try] block up to the metrics dictionary.  The two
    [record.get] of the dictionary literal are read first: they cannot raise
    once [record['body']] has succeeded. *)
Definition metrics_of_record (record : value) (fx : effects) : result value :=
  body <- getitem record "body" ;;
  message_body <- py_json_loads json_loads body ;;
  sqs_message_id <- py_get record "messageId" VNone ;;
  receipt_handle <- py_get record "receiptHandle" VNone ;;
  build_metrics fromisoformat "sqs" message_body
    [("sqs_message_id", sqs_message_id); ("receipt_handle", receipt_handle)] fx.

(** One iteration of the loop, with its [except] clause. *)
Definition process_record (b : batch) (record : value) (fx : effects) : batch :=
  match metrics_of_record record fx with
  | Ok metrics =>
      let '(ok, written) := store_metrics_to_s3 "sqs" metrics fx in
      if ok
      then {| processed_count := processed_count b + 1;
              failed_count := failed_count b;
              writes := writes b ++ written |}
      else {| processed_count := processed_count b;
              failed_count := failed_count b + 1;
              writes := writes b ++ written |}
  | Raise _ =>
      {| processed_count := processed_count b;
         failed_count := failed_count b + 1;
         writes := writes b |}
  end.

(** The loop; [world i] are the effects around the [i]-th record. *)
Fixpoint process_records (world : nat -> effects) (i : nat) (b : batch)
    (records : list value) : batch :=
  match records with
  | [] => b
  | record :: rest =>
      process_records world (S i) (process_record b record (world i)) rest
  end.

(** The handler returns the summary; the writes it made are returned with
    it. *)
Definition lambda_handler (event : value) (world : nat -> effects)
  : result (result_summary * list stored_object) :=
  records <- py_get event "Records" (VList []) ;;
  items <- iterate records ;;
  let b := process_records world 0
             {| processed_count := 0; failed_count := 0; writes := [] |} items in
  Ok ({| statusCode := 200;
         processed := processed_count b;
         failed := failed_count b;
         total := len items |}, writes b).
End Handler.

End ConsumerSqs.

(** ** The pull-mode consumer: [lambda/consumer-rabbitmq/lambda_function.py] *)

Module ConsumerRabbitmq.
Import Consumer.

(** A delivered message: the delivery tag of its method frame and its body
    (bytes). *)
Record delivery : Type := {
  delivery_tag : Z;
  body : string
}.

(** What [channel.consume] yields next: a message, the [(None, None, None)]
    of an inactivity timeout, or an exception of the transport. *)
Inductive frame : Type :=
| Message (d : delivery)
| Inactive
| Broken (e : exn).

Inductive channel_call : Type :=
| basic_ack (delivery_tag : Z)
| basic_nack (delivery_tag : Z) (requeue : bool)
| cancel
| close.

(** The mutable state of one poll: the two loop variables, the calls made on
    the channel and the connection so far (in order, a call that raised
    included), and the writes made so far: the objects of the [put_object]
    calls that succeeded, in order.  What the bucket holds after them is
    [Consumer.stored] of this list. *)
Record session : Type := {
  processed_messages : list value;
  messages_consumed : Z;
  calls : list channel_call;
  writes : list stored_object
}.

Definition start : session :=
  {| processed_messages := []; messages_consumed := 0; calls := []; writes := [] |}.

(** State that survives an exception, as Python's does. *)
Definition M (A : Type) : Type := session -> result A * session.

Definition ret {A : Type} (a : A) : M A := fun s => (Ok a, s).

Definition bindM {A B : Type} (c : M A) (k : A -> M B) : M B :=
  fun s =>
    match c s with
    | (Ok a, s') => k a s'
    | (Raise e, s') => (Raise e, s')
    end.

Definition lift {A : Type} (r : result A) : M A := fun s => (r, s).

(** [try: c  except Exception: handler] *)
Definition try {A : Type} (c : M A) (handler : M A) : M A :=
  fun s =>
    match c s with
    | (Ok a, s') => (Ok a, s')
    | (Raise _, s') => handler s'
    end.

Notation "x <~ c1 ;; c2" := (bindM c1 (fun x => c2))
  (at level 61, c1 at next level, right associativity).

Definition append_processed (metrics : value) : M unit :=
  fun s =>
    (Ok tt, {| processed_messages := processed_messages s ++ [metrics];
               messages_consumed := messages_consumed s;
               calls := calls s;
               writes := writes s |}).

Definition count_consumed : M Z :=
  fun s =>
    (Ok (messages_consumed s + 1),
     {| processed_messages := processed_messages s;
        messages_consumed := messages_consumed s + 1;
        calls := calls s;
        writes := writes s |}).

Definition store (metrics : value) (fx : effects) : M bool :=
  fun s =>
    let '(ok, written) := store_metrics_to_s3 "rabbitmq" metrics fx in
    (Ok ok, {| processed_messages := processed_messages s;
               messages_consumed := messages_consumed s;
               calls := calls s;
               writes := writes s ++ written |}).

(** [a >= b] for an int [a]. *)
Definition int_ge (a : Z) (b : value) : result bool :=
  match as_number b with
  | Some y => Ok (Qle_bool y (inject_Z a))
  | None => Raise TypeError
  end.

Record result_summary : Type := {
  statusCode : Z;
  processed : Z;
  timestamp : string
}.

Section Handler.
Variable utf8_decode : string -> result string.
Variable json_loads : string -> result value.
Variable fromisoformat : string -> result datetime.

(** [transport n] is the outcome of the [n]-th call made on the channel or
    the connection after the consumer was started. *)
Variable transport : nat -> result unit.

Definition call (c : channel_call) : M unit :=
  fun s =>
    (transport (List.length (calls s)),
     {| processed_messages := processed_messages s;
        messages_consumed := messages_consumed s;
        calls := calls s ++ [c];
        writes := writes s |}).

(** The statements of the inner [try] block up to the metrics dictionary. *)
Definition metrics_of_delivery (d : delivery) (fx : effects) : result value :=
  text <- utf8_decode (body d) ;;
  message_body <- json_loads text ;;
  build_metrics fromisoformat "rabbitmq" message_body
    [("delivery_tag", VInt (delivery_tag d))] fx.

(** The body of the loop for one message; the result tells whether the
    loop is left by [break]. *)
Definition handle_delivery (max_messages : value) (d : delivery) (fx : effects)
  : M bool :=
  try
    (metrics <~ lift (metrics_of_delivery d fx) ;;
     ok <~ store metrics fx ;;
     _ <~ (if ok : bool
           then _ <~ call (basic_ack (delivery_tag d)) ;; append_processed metrics
           else call (basic_nack (delivery_tag d) true)) ;;
     consumed <~ count_consumed ;;
     stop <~ lift (int_ge consumed max_messages) ;;
     ret stop)
    (_ <~ call (basic_nack (delivery_tag d) true) ;; ret false).

(** The [for] loop over [channel.consume]; [world i] are the effects around
    the [i]-th frame. *)
Fixpoint consume_loop (max_messages : value) (world : nat -> effects) (i : nat)
    (frames : list frame) : M unit :=
  match frames with
  | [] => ret tt
  | Inactive :: _ => ret tt
  | Broken e :: _ => lift (Raise e)
  | Message d :: rest =>
      stop <~ handle_delivery max_messages d (world i) ;;
      if stop : bool then ret tt else consume_loop max_messages world (S i) rest
  end.

(** [connect] is the outcome of opening the connection and the channel and
    declaring the queue.  Both the normal and the exceptional exit return
    [processed_messages]; the final session is returned with it. *)
Definition consume_messages_from_rabbitmq (max_messages : value)
    (connect : result unit) (frames : list frame) (world : nat -> effects)
  : list value * session :=
  let '(_, s) :=
    (_ <~ lift connect ;;
     _ <~ consume_loop max_messages world 0 frames ;;
     _ <~ call cancel ;;
     call close) start in
  (processed_messages s, s).

Definition lambda_handler (event : value) (connect : result unit)
    (frames : list frame) (world : nat -> effects) (now : string)
  : result (result_summary * session) :=
  max_messages <- py_get event "max_messages" (VInt 10) ;;
  let '(processed_messages, s) :=
    consume_messages_from_rabbitmq max_messages connect frames world in
  Ok ({| statusCode := 200;
         processed := len processed_messages;
         timestamp := (now ++ "Z")%string |}, s).
End Handler.

End ConsumerRabbitmq.

(** ** The producer: [lambda/producer/lambda_function.py] *)

Module Producer.

(** [field in body] for a string [field]: key membership in a dictionary,
    element membership in a list, substring test in a string. *)
Definition contains (container : value) (field : string) : result bool :=
  match container with
  | VDict d => Ok (match assoc field d with Some _ => true | None => false end)
  | VList l => Ok (existsb (fun x => eq_str x field) l)
  | VStr s => Ok (match String.index 0 field s with Some _ => true | None => false end)
  | _ => Raise TypeError
  end.

Definition required_fields : list string :=
  ["passenger_name"; "current_address"; "destination"].

(** The loop of [validate_request_body]. *)
Fixpoint check_fields (fields : list string) (body : value)
  : result (bool * option string) :=
  match fields with
  | [] => Ok (true, None)
  | field :: rest =>
      present <- contains body field ;;
      if negb present
      then Ok (false, Some ("Missing required field: " ++ field)%string)
      else
        v <- Consumer.getitem body field ;;
        if negb (truthy v)
        then Ok (false, Some ("Missing required field: " ++ field)%string)
        else check_fields rest body
  end.

Definition validate_request_body (body : value) : result (bool * option string) :=
  if negb (truthy body) then Ok (false, Some "Request body is empty")
  else check_fields required_fields body.

(** The message handed to a queue adapter. *)
Record message : Type := {
  message_id : string;
  timestamp_sent : string;
  queue_type : string;
  passenger_name : value;
  current_address : value;
  destination : value;
  phone : value
}.

Inductive body : Type :=
| ErrorBody (error : string) (details : option exn)
| Queued (message_id timestamp queue_type status : string) (passenger_name : value).

Record response : Type := {
  statusCode : Z;
  headers : list (string * string);
  response_body : body
}.

(** The text [Invalid queue parameter. Use "sqs" or "rabbitmq"]. *)
Definition invalid_queue_parameter : string :=
  ("Invalid queue parameter. Use " ++ quoted "sqs" ++ " or " ++ quoted "rabbitmq")%string.

Definition reply (code : Z) (b : body) : response :=
  {| statusCode := code; headers := Comparison.json_headers; response_body := b |}.

(** The environment of one invocation: the fresh identifier, the clock and
    the outcome of the transport chosen by the selector. *)
Record effects : Type := {
  uuid4 : string;
  utcnow : string;          (* datetime.utcnow().isoformat() *)
  send_message : result unit  (* sqs send_message, or connect/publish/close *)
}.

Section Handler.
Variable json_loads : string -> result value.

Definition py_lower (x : value) : result string :=
  match x with
  | VStr s => Ok (lower s)
  | _ => Raise AttributeError
  end.

(** The selector: [queue_params.get('queue', 'sqs').lower() if queue_params
    else 'sqs'] *)
Definition selector (event : value) : result string :=
  queue_params <- py_get event "queryStringParameters" (VDict []) ;;
  if truthy queue_params
  then q <- py_get queue_params "queue" (VStr "sqs") ;; py_lower q
  else Ok "sqs".

(** The [try] block.  The second component lists the messages handed to
    [send_to_sqs] or [send_to_rabbitmq], with the queue they were sent to. *)
Definition submit (event : value) (fx : effects)
  : result response * list (string * message) :=
  match selector event with
  | Raise e => (Raise e, [])
  | Ok queue_type =>
      if negb (String.eqb queue_type "sqs" || String.eqb queue_type "rabbitmq")
      then (Ok (reply 400 (ErrorBody invalid_queue_parameter None)), [])
      else
        match (raw <- py_get event "body" (VStr "{}") ;;
               body <- Consumer.py_json_loads json_loads raw ;;
               v <- validate_request_body body ;;
               Ok (body, v)) with
        | Raise e => (Raise e, [])
        | Ok (body, (is_valid, error_message)) =>
            if negb is_valid
            then (Ok (reply 400 (ErrorBody
                        (match error_message with Some m => m | None => EmptyString end)
                        None)), [])
            else
              match (name <- Consumer.getitem body "passenger_name" ;;
                     address <- Consumer.getitem body "current_address" ;;
                     dest <- Consumer.getitem body "destination" ;;
                     ph <- py_get body "phone" (VStr "N/A") ;;
                     Ok {| message_id := uuid4 fx;
                           timestamp_sent := (utcnow fx ++ "Z")%string;
                           queue_type := queue_type;
                           passenger_name := name;
                           current_address := address;
                           destination := dest;
                           phone := ph |}) with
              | Raise e => (Raise e, [])
              | Ok msg =>
                  let sent := [(queue_type, msg)] in
                  match send_message fx with
                  | Raise e =>
                      (Ok (reply 500 (ErrorBody "Failed to queue message" (Some e))),
                       sent)
                  | Ok _ =>
                      (Ok (reply 200 (Queued (message_id msg) (timestamp_sent msg)
                                        queue_type "queued" (passenger_name msg))),
                       sent)
                  end
              end
        end
  end.

(** The handler with its two [except] clauses. *)
Definition lambda_handler (event : value) (fx : effects)
  : response * list (string * message) :=
  match submit event fx with
  | (Ok r, sent) => (r, sent)
  | (Raise JSONDecodeError, sent) =>
      (reply 400 (ErrorBody "Invalid JSON in request body" None), sent)
  | (Raise e, sent) =>
      (reply 500 (ErrorBody "Internal server error" (Some e)), sent)
  end.
End Handler.

End Producer.

(** ** A bit-exact model of [int(n * p)] in binary64

    [Comparison.percentile_index] multiplies in exact arithmetic.  The source
    multiplies the integer [len(latencies)] by the binary64 number nearest to
    the decimal literal and truncates the rounded product.  This module
    computes that with the IEEE 754 operations of [SpecFloat]. *)

Module Binary64.
Import SpecFloat.

Definition prec : Z := 53.
Definition emax : Z := 1024.

(** [float(n)], exact for an integer below [2^53]. *)
Definition of_int (n : Z) : spec_float := binary_normalize prec emax n 0 false.

(** The binary64 numbers written [0.95] and [0.99]. *)
Definition literal_0_95 : spec_float := S754_finite false 8556839292003942 (-53).
Definition literal_0_99 : spec_float := S754_finite false 8917127262193582 (-53).

(** The exact value of a finite binary64 number. *)
Definition to_Q (f : spec_float) : option Q :=
  match f with
  | S754_zero _ => Some 0%Q
  | S754_finite s m e =>
      Some (inject_Z (cond_Zopp s (Z.pos m)) * (if 0 <=? e then inject_Z (2 ^ e)
                                                 else / inject_Z (2 ^ (- e))))%Q
  | _ => None
  end.

(** [int(f)]: truncation toward zero. *)
Definition to_int (f : spec_float) : option Z :=
  match to_Q f with
  | Some q => Some (trunc q)
  | None => None
  end.

(** [int(n * p)] *)
Definition index_of (n : Z) (p : spec_float) : option Z :=
  to_int (SFmul prec emax (of_int n) p).

(** [agree_from fuel n] checks that the binary64 index and the exact one
    coincide for the sizes [n, n+1, ..., n+fuel-1], for both percentiles. *)
Definition agree_at (n : Z) : bool :=
  match index_of n literal_0_95, index_of n literal_0_99 with
  | Some i, Some j =>
      (i =? Comparison.percentile_index n Comparison.p95)
      && (j =? Comparison.percentile_index n Comparison.p99)
  | _, _ => false
  end.

Fixpoint agree_from (fuel : nat) (n : Z) : bool :=
  match fuel with
  | O => true
  | S fuel' => agree_at n && agree_from fuel' (n + 1)
  end.

(** The finite binary64 number [f] has the value [q]. *)
Definition same (f : spec_float) (q : Q) : bool :=
  match to_Q f with
  | Some x => Qeq_bool x q
  | None => false
  end.

(** [binary64] against the IEEE 754 operations, for the ints [a] and [b]:
    the quotient [a / b], its product with 1000, and its sum with another
    quotient. *)
Definition check (a b : Z) : bool :=
  let x := SFdiv prec emax (of_int a) (of_int b) in
  let qx := binary64 (inject_Z a / inject_Z b) in
  same x qx
  && same (SFmul prec emax x (of_int 1000)) (binary64 (qx * 1000))
  && same (SFadd prec emax x (SFdiv prec emax (of_int b) (of_int (a * a + 7))))
          (binary64 (qx + binary64 (inject_Z b / inject_Z (a * a + 7)))).

(** [check a b] for the [n] denominators from [b] on, and that for the
    [fuel] numerators from [a] on. *)
Fixpoint row (n : nat) (a b : Z) : bool :=
  match n with
  | O => true
  | S n' => check a b && row n' a (b + 1)
  end.

Fixpoint rows (fuel : nat) (a : Z) (n : nat) : bool :=
  match fuel with
  | O => true
  | S fuel' => row n a 1 && rows fuel' (a + 1) n
  end.

(** The same below the normal range: [a / 2^1000 / 2^k]. *)
Definition tiny (a k : Z) : bool :=
  let x := SFdiv prec emax (SFdiv prec emax (of_int a) (of_int (2 ^ 1000)))
             (of_int (2 ^ k)) in
  same x (binary64 (binary64 (inject_Z a / inject_Z (2 ^ 1000)) / inject_Z (2 ^ k))).

End Binary64.

(** ** Instances of the library functions

    Small implementations of the text parsers, used to run the model on
    concrete inputs.  Each agrees with the library function on the inputs it
    is applied to in this file. *)

Module Instances.
Import Consumer.

(** The JSON text of an object whose members are given as a key and the
    JSON text of its value. *)
Fixpoint json_members (members : list (string * string)) : string :=
  match members with
  | [] => EmptyString
  | [(k, v)] => (quoted k ++ ": " ++ v)%string
  | (k, v) :: rest => (quoted k ++ ": " ++ v ++ ", " ++ json_members rest)%string
  end.

Definition json_object (members : list (string * string)) : string :=
  ("{" ++ json_members members ++ "}")%string.

(** [json.loads] given by a table of JSON texts and their values. *)
Fixpoint json_loads_table (table : list (string * value)) (s : string)
  : result value :=
  match table with
  | [] => Raise JSONDecodeError
  | (text, v) :: rest =>
      if String.eqb text s then Ok v else json_loads_table rest s
  end.

Definition digit (c : ascii) : option Z :=
  let n := Z.of_nat (nat_of_ascii c) in
  if (48 <=? n) && (n <=? 57) then Some (n - 48) else None.

Fixpoint digits (s : string) (acc : Z) : option Z :=
  match s with
  | EmptyString => Some acc
  | String c s' =>
      match digit c with
      | Some d => digits s' (acc * 10 + d)
      | None => None
      end
  end.

Definition unsigned (s : string) : option Z :=
  match s with
  | EmptyString => None
  | _ => digits s 0
  end.

(** [int(s)] for an optional sign followed by decimal digits. *)
Definition int_of_str (s : string) : option Z :=
  match s with
  | String "-"%char s' => option_map Z.opp (unsigned s')
  | String "+"%char s' => unsigned s'
  | _ => unsigned s
  end.

(** Exactly [n] decimal digits at the head of the text. *)
Fixpoint take_digits (n : nat) (s : string) (acc : Z) : option (Z * string) :=
  match n with
  | O => Some (acc, s)
  | S n' =>
      match s with
      | EmptyString => None
      | String c s' =>
          match digit c with
          | Some d => take_digits n' s' (acc * 10 + d)
          | None => None
          end
      end
  end.

Definition expect (c : ascii) (s : string) : option string :=
  match s with
  | String c' s' => if Ascii.eqb c c' then Some s' else None
  | EmptyString => None
  end.

Definition is_leap (y : Z) : bool :=
  (y mod 4 =? 0) && (negb (y mod 100 =? 0) || (y mod 400 =? 0)).

Definition days_in_month (y m : Z) : Z :=
  if m =? 2 then (if is_leap y then 29 else 28)
  else if (m =? 4) || (m =? 6) || (m =? 9) || (m =? 11) then 30
  else 31.

(** Days from 1970-01-01 to the given date of the proleptic Gregorian
    calendar. *)
Definition days_from_civil (y m d : Z) : Z :=
  let y' := if m <=? 2 then y - 1 else y in
  let era := y' / 400 in
  let yoe := y' - era * 400 in
  let doy := (153 * (if 2 <? m then m - 3 else m + 9) + 2) / 5 + d - 1 in
  let doe := yoe * 365 + yoe / 4 - yoe / 100 + doy in
  era * 146097 + doe - 719468.

Definition opt_bind {A B : Type} (o : option A) (k : A -> option B) : option B :=
  match o with
  | Some a => k a
  | None => None
  end.

Notation "x <-? c1 ;; c2" := (opt_bind c1 (fun x => c2))
  (at level 61, c1 at next level, right associativity).

(** The optional fraction [.ffffff] (six digits). *)
Definition fraction (s : string) : option (Z * string) :=
  match s with
  | String "."%char s' => take_digits 6 s' 0
  | _ => Some (0, s)
  end.

(** The optional offset [+HH:MM] or [-HH:MM], in microseconds; nothing may
    follow it. *)
Definition offset (s : string) : option (option Z) :=
  match s with
  | EmptyString => Some None
  | String c s' =>
      sign <-? (if Ascii.eqb c "+" then Some 1
                else if Ascii.eqb c "-" then Some (-1) else None) ;;
      hs <-? take_digits 2 s' 0 ;;
      s2 <-? expect ":" (snd hs) ;;
      ms <-? take_digits 2 s2 0 ;;
      match snd ms with
      | EmptyString =>
          if (fst hs <? 24) && (fst ms <? 60)
          then Some (Some (sign * (fst hs * 3600 + fst ms * 60) * 1000000))
          else None
      | _ => None
      end
  end.

Definition parse_datetime (s : string) : option datetime :=
  y <-? take_digits 4 s 0 ;;
  s1 <-? expect "-" (snd y) ;;
  m <-? take_digits 2 s1 0 ;;
  s2 <-? expect "-" (snd m) ;;
  d <-? take_digits 2 s2 0 ;;
  s3 <-? expect "T" (snd d) ;;
  hh <-? take_digits 2 s3 0 ;;
  s4 <-? expect ":" (snd hh) ;;
  mm <-? take_digits 2 s4 0 ;;
  s5 <-? expect ":" (snd mm) ;;
  ss <-? take_digits 2 s5 0 ;;
  us <-? fraction (snd ss) ;;
  off <-? offset (snd us) ;;
  if (1 <=? fst y) && (1 <=? fst m) && (fst m <=? 12) && (1 <=? fst d)
     && (fst d <=? days_in_month (fst y) (fst m))
     && (fst hh <? 24) && (fst mm <? 60) && (fst ss <? 60)
  then Some {| wall := ((days_from_civil (fst y) (fst m) (fst d) * 86400
                         + fst hh * 3600 + fst mm * 60 + fst ss) * 1000000
                        + fst us);
               utcoffset := off |}
  else None.

(** [datetime.fromisoformat] on the texts
    [YYYY-MM-DDTHH:MM:SS[.ffffff][+HH:MM]]. *)
Definition fromisoformat (s : string) : result datetime :=
  match parse_datetime s with
  | Some dt => Ok dt
  | None => Raise ValueError
  end.

(** [str] on text, where it is the identity.  The identifiers of the examples
    are text; other values get the empty text here. *)
Definition str_of_text (x : value) : string :=
  match x with
  | VStr s => s
  | _ => EmptyString
  end.

(** [bytes.decode('utf-8')] on ASCII bytes. *)
Definition utf8_decode (s : string) : result string := Ok s.

End Instances.

(** ** Vocabulary of the statements *)

Module Spec.
Import Comparison.

(** A number: a bool, an int or a float. *)
Definition numeric (x : value) : bool :=
  match as_number x with
  | Some _ => true
  | None => false
  end.

(** The order of numbers by value. *)
Definition num_le (a b : value) : Prop :=
  match as_number a, as_number b with
  | Some x, Some y => (x <= y)%Q
  | _, _ => False
  end.

(** [metric.get(k, default)] of a dictionary. *)
Definition field (metric : value) (k : string) (default : value) : value :=
  match metric with
  | VDict d => match assoc k d with Some v => v | None => default end
  | _ => default
  end.

Definition queue_type_of (metric : value) : value :=
  field metric "queue_type" (VStr "unknown").
Definition latency_of (metric : value) : value := field metric "latency_ms" (VInt 0).
Definition processing_time_of (metric : value) : value :=
  field metric "processing_time_ms" (VInt 0).
Definition status_of (metric : value) : value := field metric "status" VNone.

Definition is_dict (x : value) : bool :=
  match x with
  | VDict _ => true
  | _ => false
  end.

(** A metric the aggregator can summarize: a dictionary whose queue type is
    hashable and whose latency and processing time, where present, are
    numbers.  Nothing is asked of the other fields. *)
Definition well_formed (metric : value) : bool :=
  is_dict metric
  && hashable (queue_type_of metric)
  && numeric (latency_of metric)
  && numeric (processing_time_of metric).

(** The records of one queue type, in the order they were fetched. *)
Definition in_group (k : value) (metric : value) : bool :=
  key_eqb k (queue_type_of metric).

Definition group (k : value) (metrics : list value) : list value :=
  filter (in_group k) metrics.

Definition is_successful (metric : value) : bool :=
  eq_str (status_of metric) "successful".

(** [d] is [x] rounded to [n] decimals: a multiple [m / 10^n] of [10^-n] at
    distance at most half of [10^-n] from [x], and of two such multiples
    the one with [m] even. *)
Definition rounds_to (x : Q) (n : Z) (d : Q) : Prop :=
  exists m : Z,
    (d == inject_Z m / inject_Z (10 ^ n))%Q
    /\ (Qabs (x - d) <= 1 / inject_Z (2 * 10 ^ n))%Q
    /\ ((Qabs (x - d) == 1 / inject_Z (2 * 10 ^ n))%Q -> Z.even m = true).

(** A finite binary64 number: an integer of at most 53 bits times a power of
    two that is not below [2^-1074]. *)
Definition is_float (f : Q) : Prop :=
  exists m e : Z, (f == inject_Z m * pow2 e)%Q /\ Z.abs m <= 2 ^ 53 /\ -1074 <= e.

(** [f] is a float nearest to [q]. *)
Definition nearest_float (q f : Q) : Prop :=
  is_float f /\ forall g, is_float g -> (Qabs (f - q) <= Qabs (g - q))%Q.

(** [v] is what [round(x, n)] returns for the float [x]: a float nearest to
    the decimal with [n] digits that [x] rounds to, the one [binary64]
    selects where two floats are as near. *)
Definition float_round (x : Q) (n : Z) (v : value) : Prop :=
  exists d f,
    rounds_to x n d /\ nearest_float d f /\ f = binary64 d /\ v = VFloat f.

(** [v] is the number [x] rounded to [n] decimals by [round]: an int is
    returned as it is, a float is rounded as [float_round] says. *)
Definition number_round (x : value) (n : Z) (v : value) : Prop :=
  match x with
  | VFloat q => float_round q n v
  | _ => exists z, as_int x = Some z /\ v = VInt z
  end.

(** [v] is the element of [xs] at position [i], rounded to 2 decimals. *)
Definition stat_at (xs : list value) (i : Z) (v : value) : Prop :=
  exists x, index xs i = Ok x /\ py_round x 2 = Ok v /\ number_round x 2 v.

(** A value that rounding to 2 decimals leaves unchanged, as the latency the
    consumers store: an int, or the float nearest to a decimal with 2
    digits. *)
Definition rounded2 (x : value) : Prop := py_round x 2 = Ok x.

(** The keys of the grouping dictionary are pairwise different. *)
Definition distinct_keys (m : list (value * stats)) : Prop :=
  ForallOrdPairs (fun a b => key_eqb (fst a) (fst b) = false) m.

(** The accumulator of key [k] after the metrics [seen]. *)
Definition accumulates (seen : list value) (k : value) (s : stats) : Prop :=
  s_latencies s = map latency_of (group k seen)
  /\ s_processing_times s = map processing_time_of (group k seen)
  /\ s_count s = len (group k seen)
  /\ s_successful s = len (filter is_successful (group k seen))
  /\ s_failed s = len (filter (fun x => negb (is_successful x)) (group k seen)).

Definition grouped (seen : list value) (m : list (value * stats)) : Prop :=
  distinct_keys m
  /\ (forall k s, In (k, s) m -> accumulates seen k s /\ group k seen <> [])
  /\ (forall x, In x seen -> exists k s, In (k, s) m /\ in_group k x = true).

(** What [summarize] returns for a group with numeric entries. *)
Definition summary_of (s : stats) (entry : stat_summary) : Prop :=
  count entry = s_count s
  /\ successful_count entry = s_successful s
  /\ failed_count entry = s_failed s
  /\ (exists rate,
        py_truediv (VInt (s_successful s)) (VInt (s_count s)) = Ok rate
        /\ py_round rate 4 = Ok (success_rate entry))
  /\ exists xs,
       sorted (s_latencies s) = Ok xs
       /\ Permutation (s_latencies s) xs
       /\ StronglySorted num_le xs
       /\ (exists m, py_min xs = Ok m /\ In m xs
             /\ py_round m 2 = Ok (min_ms (latency entry)))
       /\ stat_at xs (len xs / 2) (median_ms (latency entry))
       /\ stat_at xs (Qfloor (inject_Z (len xs) * p95)) (p95_ms (latency entry))
       /\ stat_at xs (Qfloor (inject_Z (len xs) * p99)) (p99_ms (latency entry)).

(** The percentile convention for a group with latencies [lat] (in the order
    fetched) and summary [entry]: the statistics are read off the ascending
    sort of [lat] at the positions [floor(L/2)], [floor(L * 0.95)] and
    [floor(L * 0.99)], and rounded to 2 decimals for the output; the rounding
    changes nothing when the latencies are stored with 2 decimals. *)
Definition percentile_convention (lat : list value) (entry : stat_summary) : Prop :=
  let L := len lat in
  1 <= L
  /\ exists xs,
       sorted lat = Ok xs
       /\ Permutation lat xs
       /\ StronglySorted num_le xs
       /\ stat_at xs (L / 2) (median_ms (latency entry))
       /\ stat_at xs (Qfloor (inject_Z L * p95)) (p95_ms (latency entry))
       /\ stat_at xs (Qfloor (inject_Z L * p99)) (p99_ms (latency entry))
       /\ (Forall rounded2 lat ->
           index xs (L / 2) = Ok (median_ms (latency entry))
           /\ index xs (Qfloor (inject_Z L * p95)) = Ok (p95_ms (latency entry))
           /\ index xs (Qfloor (inject_Z L * p99)) = Ok (p99_ms (latency entry)))
       /\ (forall x, lat = [x] ->
           exists v, py_round x 2 = Ok v
                     /\ min_ms (latency entry) = v
                     /\ median_ms (latency entry) = v
                     /\ p95_ms (latency entry) = v
                     /\ p99_ms (latency entry) = v).

(** The accounting of a group with the records [members]: the three counters
    and the success rate, which is a float nearest to the quotient of the
    two counters, rounded to 4 decimals. *)
Definition accounting (members : list value) (entry : stat_summary) : Prop :=
  count entry = len members
  /\ successful_count entry = len (filter is_successful members)
  /\ failed_count entry = len (filter (fun x => negb (is_successful x)) members)
  /\ successful_count entry + failed_count entry = count entry
  /\ (exists rate,
        py_truediv (VInt (successful_count entry)) (VInt (count entry)) = Ok rate
        /\ py_round rate 4 = Ok (success_rate entry))
  /\ exists quotient,
       nearest_float (inject_Z (successful_count entry) / inject_Z (count entry))
         quotient
       /\ quotient
          = binary64 (inject_Z (successful_count entry) / inject_Z (count entry))
       /\ float_round quotient 4 (success_rate entry).

(** The number of records counted by a summary, over all its groups. *)
Definition total_count (summary : list (value * stat_summary)) : Z :=
  fold_right (fun ke acc => count (snd ke) + acc) 0 summary.

Definition total_s_count (m : list (value * stats)) : Z :=
  fold_right (fun ks acc => s_count (snd ks) + acc) 0 m.

(** A stored record of queue [q] with the given latency. *)
Definition metric_with (q : string) (latency_ms : value) : value :=
  VDict [("queue_type", VStr q); ("latency_ms", latency_ms)].

(** The sort key of the detail list, for a record whose
    [timestamp_received] is text or absent. *)
Definition ts_key (metric : value) : string :=
  match field metric "timestamp_received" (VStr EmptyString) with
  | VStr s => s
  | _ => EmptyString
  end.

Definition has_text_timestamp (metric : value) : bool :=
  match field metric "timestamp_received" (VStr EmptyString) with
  | VStr _ => true
  | _ => false
  end.

(** Most recent first. *)
Definition ts_desc (a b : value) : Prop := String.leb (ts_key b) (ts_key a) = true.

(** The raw [limit] and [details] query parameters of a request, if present. *)
Definition query_parameter (event : value) (name : string) : option value :=
  match field event "queryStringParameters" VNone with
  | VDict d => assoc name d
  | _ => None
  end.

(** The three shapes of the aggregator's response. *)
Definition no_metrics_response : response :=
  {| statusCode := 200; headers := json_headers;
     response_body :=
       Data {| message := Some "No metrics found"; total_messages := 0;
               statistics := []; timestamp := None; messages := Some [] |} |}.

Definition details_response (total : Z) (stats : list (value * stat_summary))
    (now : string) (records : list value) : response :=
  {| statusCode := 200; headers := json_headers;
     response_body :=
       Data {| message := None; total_messages := total; statistics := stats;
               timestamp := Some (now ++ "Z")%string;
               messages := Some records |} |}.

Definition hint_response (total : Z) (stats : list (value * stat_summary))
    (now : string) : response :=
  {| statusCode := 200; headers := json_headers;
     response_body :=
       Data {| message := Some "Add ?details=true to see individual messages";
               total_messages := total; statistics := stats;
               timestamp := Some (now ++ "Z")%string;
               messages := None |} |}.

Definition internal_error_response (e : exn) : response :=
  {| statusCode := 500; headers := json_headers;
     response_body := Error "Internal server error" e |}.

(** The [messages] array of a response, if it has one. *)
Definition messages_of (r : response) : option (list value) :=
  match response_body r with
  | Data d => messages d
  | Error _ _ => None
  end.

(** *** The consumers *)

(** [x] is text that [fromisoformat] reads as [d], after the replacement of
    [Z]. *)
Definition parses (fromisoformat : string -> result Consumer.datetime)
    (x : value) (d : Consumer.datetime) : Prop :=
  exists s, Consumer.replace_Z x = Ok s /\ fromisoformat s = Ok d.

(** The [latency_ms] field of a metrics dictionary. *)
Definition stored_latency (metrics : value) : option value :=
  match metrics with
  | VDict d => assoc "latency_ms" d
  | _ => None
  end.

(** [v] is the latency of the message [message_body] taken under the effects
    [fx]: a number; when both timestamps are read and subtract, the float
    [(received - sent).total_seconds() * 1000], which is the difference in
    milliseconds up to the rounding of its two operations, rounded to 2
    decimals, and it has the sign of the difference; the int 0 when the two
    values do not subtract (one with and one without a UTC offset) and when
    one of the timestamps cannot be read. *)
Definition latency_of_message (fromisoformat : string -> result Consumer.datetime)
    (message_body : value) (fx : Consumer.effects) (v : value) : Prop :=
  let timestamp_sent := field message_body "timestamp_sent" VNone in
  let timestamp_received := VStr (Consumer.now_received fx ++ "Z") in
  exists q,
    as_number v = Some q
    /\ (forall sent received delta,
          parses fromisoformat timestamp_sent sent ->
          parses fromisoformat timestamp_received received ->
          Consumer.datetime_sub received sent = Ok delta ->
          float_round (Consumer.total_ms delta) 2 v
          /\ (Qabs (Consumer.total_ms delta - inject_Z delta / 1000)
              <= Qabs (inject_Z delta / 1000) * pow2 (-51))%Q
          /\ (0 <= delta -> (0 <= q)%Q)
          /\ (delta <= 0 -> (q <= 0)%Q))
    /\ (forall sent received e,
          parses fromisoformat timestamp_sent sent ->
          parses fromisoformat timestamp_received received ->
          Consumer.datetime_sub received sent = Raise e ->
          v = VInt 0)
    /\ ((forall d, ~ parses fromisoformat timestamp_sent d) -> v = VInt 0)
    /\ ((forall d, ~ parses fromisoformat timestamp_received d) -> v = VInt 0).

(** A record of a push-delivered batch fails when its processing raises or
    when the write of its metrics to the bucket fails. *)
Definition record_fails (json_loads : string -> result value)
    (fromisoformat : string -> result Consumer.datetime)
    (record : value) (fx : Consumer.effects) : bool :=
  match ConsumerSqs.metrics_of_record json_loads fromisoformat record fx with
  | Raise _ => true
  | Ok _ =>
      match Consumer.put_object fx with
      | Raise _ => true
      | Ok _ => false
      end
  end.

(** The number of failing records of a batch whose first record is the
    [i]-th of the invocation. *)
Fixpoint count_failed (json_loads : string -> result value)
    (fromisoformat : string -> result Consumer.datetime)
    (world : nat -> Consumer.effects) (i : nat) (records : list value) : Z :=
  match records with
  | [] => 0
  | record :: rest =>
      (if record_fails json_loads fromisoformat record (world i) then 1 else 0)
      + count_failed json_loads fromisoformat world (S i) rest
  end.

(** *** The pull-mode poll *)

(** The channel call that answers a well-formed message: an ack when its
    metrics were written, a nack with requeue when they were not. *)
Definition decision (d : ConsumerRabbitmq.delivery) (fx : Consumer.effects)
  : ConsumerRabbitmq.channel_call :=
  match Consumer.put_object fx with
  | Ok _ => ConsumerRabbitmq.basic_ack (ConsumerRabbitmq.delivery_tag d)
  | Raise _ => ConsumerRabbitmq.basic_nack (ConsumerRabbitmq.delivery_tag d) true
  end.

(** A map that passes the position of each element, counted from [i]. *)
Fixpoint imap {A B : Type} (f : nat -> A -> B) (i : nat) (xs : list A) : list B :=
  match xs with
  | [] => []
  | x :: rest => f i x :: imap f (S i) rest
  end.

Section Poll.
Variable utf8_decode : string -> result string.
Variable json_loads : string -> result value.
Variable fromisoformat : string -> result Consumer.datetime.

(** The metrics of a message that is returned as processed: those of a
    well-formed message whose metrics were written. *)
Definition kept (d : ConsumerRabbitmq.delivery) (fx : Consumer.effects) : list value :=
  match ConsumerRabbitmq.metrics_of_delivery utf8_decode json_loads fromisoformat d fx,
        Consumer.put_object fx with
  | Ok metrics, Ok _ => [metrics]
  | _, _ => []
  end.

(** Every message of the list is decoded to a dictionary. *)
Fixpoint all_well_formed (world : nat -> Consumer.effects) (i : nat)
    (ds : list ConsumerRabbitmq.delivery) : bool :=
  match ds with
  | [] => true
  | d :: rest =>
      match ConsumerRabbitmq.metrics_of_delivery utf8_decode json_loads
              fromisoformat d (world i) with
      | Ok _ => all_well_formed world (S i) rest
      | Raise _ => false
      end
  end.
End Poll.

(** The list without its [j]-th element. *)
Definition without {A : Type} (j : nat) (xs : list A) : list A :=
  firstn j xs ++ skipn (S j) xs.

(** *** The producer *)

(** A required field is missing from a request body when it is absent or
    its value is empty (falsy). *)
Definition missing (body : value) (name : string) : bool :=
  match body with
  | VDict d =>
      match assoc name d with
      | Some v => negb (truthy v)
      | None => true
      end
  | _ => true
  end.

(** The first missing field in the fixed order. *)
Definition first_missing (body : value) : option string :=
  find (missing body) Producer.required_fields.

(** The request body of an event, decoded. *)
Definition decoded_body (json_loads : string -> result value) (event : value)
  : result value :=
  raw <- py_get event "body" (VStr "{}") ;;
  Consumer.py_json_loads json_loads raw.

(** The 400 response of a validation error. *)
Definition validation_error (text : string) : Producer.response :=
  Producer.reply 400 (Producer.ErrorBody text None).

End Spec.

(** ** Concrete inputs *)

Module Examples.
Import Comparison Instances.

(** Two stored metric records and the JSON texts they are stored as. *)
Definition older : value :=
  VDict [("message_id", VStr "a"); ("queue_type", VStr "sqs");
         ("timestamp_received", VStr "2024-01-01T00:00:00.000000Z");
         ("latency_ms", VFloat (binary64 (1234 # 100))); ("status", VStr "successful")].

Definition older_text : string :=
  json_object [("message_id", quoted "a"); ("queue_type", quoted "sqs");
               ("timestamp_received", quoted "2024-01-01T00:00:00.000000Z");
               ("latency_ms", "12.34"); ("status", quoted "successful")].

Definition newer : value :=
  VDict [("message_id", VStr "b"); ("queue_type", VStr "rabbitmq");
         ("timestamp_received", VStr "2024-01-02T00:00:00.000000Z");
         ("latency_ms", VFloat (binary64 (250 # 100))); ("status", VStr "failed")].

Definition newer_text : string :=
  json_object [("message_id", quoted "b"); ("queue_type", quoted "rabbitmq");
               ("timestamp_received", quoted "2024-01-02T00:00:00.000000Z");
               ("latency_ms", "2.5"); ("status", quoted "failed")].

(** Two queue messages: one sent a quarter of a second before the clock
    readings below, one stamped a second after them. *)
Definition message (id sent : string) : value :=
  VDict [("message_id", VStr id); ("timestamp_sent", VStr sent);
         ("passenger_name", VStr "Ana")].

Definition message_text (id sent : string) : string :=
  json_object [("message_id", quoted id); ("timestamp_sent", quoted sent);
               ("passenger_name", quoted "Ana")].

Definition on_time : value := message "m1" "2024-01-01T00:00:00.250000Z".
Definition on_time_text : string := message_text "m1" "2024-01-01T00:00:00.250000Z".
Definition early_clock : value := message "m2" "2024-01-01T00:00:01.500000Z".
Definition early_clock_text : string :=
  message_text "m2" "2024-01-01T00:00:01.500000Z".

(** One sent 250.025 ms before the clock readings, and one whose send
    timestamp carries no UTC offset. *)
Definition odd_time : value := message "m3" "2024-01-01T00:00:00.249975Z".
Definition odd_time_text : string := message_text "m3" "2024-01-01T00:00:00.249975Z".
Definition zoneless : value := message "m4" "2024-01-01T00:00:00.250000".
Definition zoneless_text : string := message_text "m4" "2024-01-01T00:00:00.250000".

(** Five queue messages with the identifiers 0 to 4. *)
Definition numbered (n : Z) : value :=
  VDict [("message_id", VInt n)].

Definition numbered_text (n : string) : string :=
  json_object [("message_id", n)].

(** A ride request without [destination]. *)
Definition incomplete : list (string * value) :=
  [("passenger_name", VStr "Ana"); ("current_address", VStr "1 Main St")].

Definition incomplete_text : string :=
  json_object [("passenger_name", quoted "Ana");
               ("current_address", quoted "1 Main St")].

Definition json_loads : string -> result value :=
  json_loads_table
    [(older_text, older); (newer_text, newer);
     (incomplete_text, VDict incomplete);
     (on_time_text, on_time); (early_clock_text, early_clock);
     (odd_time_text, odd_time); (zoneless_text, zoneless);
     (numbered_text "0", numbered 0); (numbered_text "1", numbered 1);
     (numbered_text "2", numbered 2); (numbered_text "3", numbered 3);
     (numbered_text "4", numbered 4);
     ("{}", VDict [])].

(** A bucket with the two records, and one without any. *)
Definition two_records : bucket :=
  [Ok (Some [{| Key := "sqs/20240101_000000_a.json"; Body := Ok older_text |};
             {| Key := "rabbitmq/20240102_000000_b.json"; Body := Ok newer_text |}])].

Definition no_records : bucket :=
  [Ok None;
   Ok (Some [{| Key := "notes.txt"; Body := Ok older_text |};
             {| Key := "broken.json"; Body := Ok "not json" |};
             {| Key := "gone.json"; Body := Raise TransportError |}])].

(** A request with the given query parameters. *)
Definition request (params : list (string * value)) : value :=
  VDict [("queryStringParameters", VDict params)].

(** The effects around a message taken at midnight and a half second, with
    a simulated delay of 300 ms, a successful draw and the given outcome of
    the write to the bucket. *)
Definition effects_with (put : result unit) : Consumer.effects :=
  {| Consumer.now_received := "2024-01-01T00:00:00.500000";
     Consumer.draws := {| Consumer.uniform := binary64 (3 # 10);
                         Consumer.random := 1 # 2 |};
     Consumer.now_processed := "2024-01-01T00:00:00.800000";
     Consumer.now_stored := "20240101_000000";
     Consumer.put_object := put |}.

(** A world in which every write succeeds, and one in which only the write
    for the [j]-th message fails. *)
Definition all_stored (i : nat) : Consumer.effects := effects_with (Ok tt).

Definition one_failure (j : nat) (i : nat) : Consumer.effects :=
  effects_with (if Nat.eqb i j then Raise TransportError else Ok tt).

(** A push-delivered record with the given body. *)
Definition sqs_record (body : string) : value :=
  VDict [("messageId", VStr "r"); ("receiptHandle", VStr "h"); ("body", VStr body)].

(** The effects of one invocation of the producer. *)
Definition producer_effects : Producer.effects :=
  {| Producer.uuid4 := "0b0e7a3c-5f1d-4c1e-9d2a-7e6f5a4b3c2d";
     Producer.utcnow := "2024-01-01T00:00:00";
     Producer.send_message := Ok tt |}.

(** A reliable transport. *)
Definition reliable (n : nat) : result unit := Ok tt.

(** The delivery with the given tag of the message numbered [n]. *)
Definition delivery (tag : Z) (n : string) : ConsumerRabbitmq.delivery :=
  {| ConsumerRabbitmq.delivery_tag := tag;
     ConsumerRabbitmq.body := numbered_text n |}.

End Examples.

(** ** Vocabulary of the further properties *)

Module Extra.
Import Comparison.

Section Fetch.
Variable json_loads : string -> result value.

(** The metric an object of the listing contributes, if any: its key ends in
    [.json], its body is read and the text is decoded. *)
Definition metric_of_object (obj : s3_object) (m : value) : Prop :=
  endswith (Key obj) ".json" = true
  /\ exists text, Body obj = Ok text /\ json_loads text = Ok m.

(** The metrics one page of the listing contributes. *)
Definition page_metrics (p : result page) : list value :=
  match p with
  | Ok (Some contents) => read_objects json_loads contents
  | _ => []
  end.
End Fetch.

(** An int that a float holds exactly: below [2^53] in absolute value.
    Nothing is asked of a value that is no int. *)
Definition exact_int (x : value) : bool :=
  match as_int x with
  | Some z => Z.abs z <? 2 ^ 53
  | None => true
  end.

(** A record whose latency and processing time, where they are ints, are
    held exactly by a float, as the 0 that stands for a latency that could
    not be computed. *)
Definition float_sized (metric : value) : bool :=
  exact_int (Spec.latency_of metric) && exact_int (Spec.processing_time_of metric).

(** The statistics of one summary entry are in order.  The mean is left
    out: it is rounded from a sum of floats, and the rounded mean of the
    three latencies 0.045 is 0.05, above their rounded maximum 0.04. *)
Definition ordered_statistics (entry : stat_summary) : Prop :=
  let l := latency entry in
  let p := processing_time entry in
  Spec.num_le (min_ms l) (median_ms l)
  /\ Spec.num_le (median_ms l) (p95_ms l)
  /\ Spec.num_le (p95_ms l) (p99_ms l)
  /\ Spec.num_le (p99_ms l) (max_ms l)
  /\ Spec.num_le (pt_min_ms p) (pt_max_ms p).

(** The grouping dictionary holds the latency and the processing time of a
    record in one of its accumulators. *)
Definition holds_record (m : list (value * stats)) (x : value) : Prop :=
  exists k s, In (k, s) m
              /\ In (Spec.latency_of x) (s_latencies s)
              /\ In (Spec.processing_time_of x) (s_processing_times s).

(** Every accumulator of the dictionary has counted a record. *)
Definition counted (m : list (value * stats)) : Prop :=
  forall k s, In (k, s) m -> 1 <= s_count s.

(** A stored record whose latency is [null], and a bucket that holds it
    beside a well-formed one. *)
Definition unmeasured : value :=
  VDict [("queue_type", VStr "sqs"); ("latency_ms", VNone)].

Definition unmeasured_text : string :=
  Instances.json_object [("queue_type", quoted "sqs"); ("latency_ms", "null")].

Definition json_loads_example : string -> result value :=
  Instances.json_loads_table
    [(Examples.older_text, Examples.older); (unmeasured_text, unmeasured)].

Definition one_bad_record : bucket :=
  [Ok (Some [{| Key := "sqs/20240101_000000_a.json"; Body := Ok Examples.older_text |};
             {| Key := "sqs/20240101_000001_c.json"; Body := Ok unmeasured_text |}])].

(** The dictionary literal of the consumers' loop body, for a decoded
    message [message_body], the rounded latency [latency_ms] and the
    transport-specific fields [extra]. *)
Definition metrics_literal (queue : string) (message_body latency_ms : value)
    (extra : list (string * value)) (fx : Consumer.effects) : value :=
  VDict ([("message_id", Spec.field message_body "message_id" (VStr "unknown"));
          ("queue_type", VStr queue);
          ("timestamp_sent", Spec.field message_body "timestamp_sent" VNone);
          ("timestamp_received", VStr (Consumer.now_received fx ++ "Z"));
          ("timestamp_processed", VStr (Consumer.now_processed fx ++ "Z"));
          ("latency_ms", latency_ms);
          ("processing_time_ms",
           VFloat (binary64
                     (round_half_even
                        (snd (Consumer.simulate_processing (Consumer.draws fx))) 2)));
          ("status",
           VStr (if fst (Consumer.simulate_processing (Consumer.draws fx))
                 then "successful" else "failed"));
          ("passenger_name", Spec.field message_body "passenger_name" (VStr "N/A"));
          ("current_address", Spec.field message_body "current_address" (VStr "N/A"));
          ("destination", Spec.field message_body "destination" (VStr "N/A"))]
         ++ extra).

(** An object in the bucket that a consumer of [queue] wrote: stored under
    the queue's prefix and the identifier of its own record, which was built
    from a decoded message, after a write that succeeded. *)
Definition written_by (fromisoformat : string -> result Consumer.datetime)
    (queue : string) (o : Consumer.stored_object) : Prop :=
  Consumer.prefix o = queue
  /\ Consumer.getitem (Consumer.content o) "message_id" = Ok (Consumer.message_id o)
  /\ exists message_body extra fx,
       Consumer.build_metrics fromisoformat queue message_body extra fx
       = Ok (Consumer.content o)
       /\ Consumer.stamp o = Consumer.now_stored fx
       /\ Consumer.put_object fx = Ok tt.

(** What one poll has added between two of its states: metrics appended to
    the processed list, objects written under the prefix [rabbitmq], and
    calls made on the channel.  Every metrics appended was written and
    counted. *)
Definition grows (fromisoformat : string -> result Consumer.datetime)
    (s s' : ConsumerRabbitmq.session) : Prop :=
  exists new written cs,
    ConsumerRabbitmq.processed_messages s'
    = ConsumerRabbitmq.processed_messages s ++ new
    /\ ConsumerRabbitmq.writes s' = ConsumerRabbitmq.writes s ++ written
    /\ ConsumerRabbitmq.calls s' = ConsumerRabbitmq.calls s ++ cs
    /\ Forall (written_by fromisoformat "rabbitmq") written
    /\ (forall x, In x new -> exists o, In o written /\ Consumer.content o = x)
    /\ len new <= len written
    /\ len new
       <= ConsumerRabbitmq.messages_consumed s' - ConsumerRabbitmq.messages_consumed s.

Section PollVocabulary.
Variable utf8_decode : string -> result string.
Variable json_loads : string -> result value.
Variable fromisoformat : string -> result Consumer.datetime.

(** No message of the list is decoded to a metrics dictionary: its bytes,
    its JSON text or the decoded value are not what the loop expects. *)
Fixpoint all_malformed (world : nat -> Consumer.effects) (i : nat)
    (ds : list ConsumerRabbitmq.delivery) : bool :=
  match ds with
  | [] => true
  | d :: rest =>
      match ConsumerRabbitmq.metrics_of_delivery utf8_decode json_loads
              fromisoformat d (world i) with
      | Ok _ => false
      | Raise _ => all_malformed world (S i) rest
      end
  end.
End PollVocabulary.

(** The negative acknowledgement with requeue of a delivery. *)
Definition requeue (d : ConsumerRabbitmq.delivery) : ConsumerRabbitmq.channel_call :=
  ConsumerRabbitmq.basic_nack (ConsumerRabbitmq.delivery_tag d) true.

(** Three deliveries whose bodies are not JSON. *)
Definition undecodable : list ConsumerRabbitmq.delivery :=
  [{| ConsumerRabbitmq.delivery_tag := 1; ConsumerRabbitmq.body := "not json" |};
   {| ConsumerRabbitmq.delivery_tag := 2; ConsumerRabbitmq.body := "{" |};
   {| ConsumerRabbitmq.delivery_tag := 3; ConsumerRabbitmq.body := "ride" |}].

(** A transport whose first call fails. *)
Definition first_call_fails (n : nat) : result unit :=
  if Nat.eqb n 0 then Raise TransportError else Ok tt.

(** A ride request with the three required fields, its JSON text, and a
    decoder that reads it. *)
Definition complete : list (string * value) :=
  [("passenger_name", VStr "Ana"); ("current_address", VStr "1 Main St");
   ("destination", VStr "Airport")].

Definition complete_text : string :=
  Instances.json_object [("passenger_name", quoted "Ana");
                         ("current_address", quoted "1 Main St");
                         ("destination", quoted "Airport")].

Definition json_loads_requests : string -> result value :=
  Instances.json_loads_table [(complete_text, VDict complete)].

(** A request body that passes validation: a dictionary in which the three
    required fields are present and not empty. *)
Definition valid_body (body : value) : Prop :=
  exists d, body = VDict d /\ Spec.first_missing body = None.

(** The message the producer makes of a valid body. *)
Definition message_of (queue : string) (body : value) (fx : Producer.effects)
  : Producer.message :=
  {| Producer.message_id := Producer.uuid4 fx;
     Producer.timestamp_sent := (Producer.utcnow fx ++ "Z")%string;
     Producer.queue_type := queue;
     Producer.passenger_name := Spec.field body "passenger_name" VNone;
     Producer.current_address := Spec.field body "current_address" VNone;
     Producer.destination := Spec.field body "destination" VNone;
     Producer.phone := Spec.field body "phone" (VStr "N/A") |}.

(** The dictionary the producer serializes for a message, as a consumer
    decodes it. *)
Definition message_value (m : Producer.message) : value :=
  VDict [("message_id", VStr (Producer.message_id m));
         ("timestamp_sent", VStr (Producer.timestamp_sent m));
         ("queue_type", VStr (Producer.queue_type m));
         ("passenger_name", Producer.passenger_name m);
         ("current_address", Producer.current_address m);
         ("destination", Producer.destination m);
         ("phone", Producer.phone m)].

(** The key of a stored object whose identifier is text:
    [<prefix>/<timestamp>_<message_id>.json]. *)
Definition object_key (o : Consumer.stored_object) : option string :=
  match Consumer.message_id o with
  | VStr id =>
      Some (Consumer.prefix o ++ "/" ++ Consumer.stamp o ++ "_" ++ id ++ ".json")%string
  | _ => None
  end.

(** A listing call that succeeded. *)
Definition listed (p : result page) : Prop := exists pg, p = Ok pg.

End Extra.

(** * Properties *)

(** ** The error monad *)

Lemma bind_Ok {A B : Type} (c : result A) (k : A -> result B) (b : B) :
  bind c k = Ok b -> exists a, c = Ok a /\ k a = Ok b.
Proof.
  destruct c as [a | e]; simpl; intros H; [eauto | discriminate].
Qed.

(** Decompose a hypothesis [x <- c ;; k = Ok b] into its steps. *)
Ltac inv_bind H :=
  repeat match type of H with
         | bind ?c ?k = Ok ?b =>
             let a := fresh "a" in
             let Ha := fresh "Ha" in
             apply bind_Ok in H; destruct H as [a [Ha H]]
         end.

(** ** Rounding to binary64 *)

Lemma pow2_pos (e : Z) : (0 < pow2 e)%Q.
Proof. apply Qpower_0_lt. reflexivity. Qed.

Lemma pow2_plus (a b : Z) : (pow2 (a + b) == pow2 a * pow2 b)%Q.
Proof. apply Qpower_plus. discriminate. Qed.

Lemma pow2_le (a b : Z) : a <= b -> (pow2 a <= pow2 b)%Q.
Proof. intros H. apply Qpower_le_compat_l; [assumption | discriminate]. Qed.

Lemma pow2_inject (e : Z) : 0 <= e -> (pow2 e == inject_Z (2 ^ e))%Q.
Proof. intros H. unfold pow2. rewrite Zpower_Qpower by assumption. reflexivity. Qed.

Lemma pow2_cancel (e : Z) : (pow2 (- e) * pow2 e == 1)%Q.
Proof. rewrite <- pow2_plus. replace (- e + e) with 0 by lia. reflexivity. Qed.

(** ** The nearest integer *)

Lemma nearest_even_monotone (x y : Q) :
  (x <= y)%Q -> nearest_even x <= nearest_even y.
Proof.
  intros Hx. unfold nearest_even. lazy zeta.
  pose proof (Qfloor_resp_le _ _ Hx) as Hf.
  set (f1 := Qfloor x) in *. set (f2 := Qfloor y) in *.
  destruct (Z.eq_dec f1 f2) as [E | NE].
  - assert (Hr : (x - inject_Z f1 <= y - inject_Z f2)%Q).
    { rewrite E. unfold Qminus. apply Qplus_le_compat; [assumption | apply Qle_refl]. }
    rewrite <- E in *.
    destruct (Qcompare (x - inject_Z f1) (1 # 2)) eqn:C1;
      destruct (Qcompare (y - inject_Z f1) (1 # 2)) eqn:C2;
      try (destruct (Z.even f1); lia); exfalso.
    + apply Qeq_alt in C1. apply Qlt_alt in C2. rewrite C1 in Hr.
      apply (Qlt_irrefl (1 # 2)). eapply Qle_lt_trans; eassumption.
    + apply Qgt_alt in C1. apply Qeq_alt in C2. rewrite C2 in Hr.
      apply (Qlt_irrefl (1 # 2)). eapply Qlt_le_trans; eassumption.
    + apply Qgt_alt in C1. apply Qlt_alt in C2.
      apply (Qlt_irrefl (1 # 2)). eapply Qlt_trans; [exact C1 |].
      eapply Qle_lt_trans; eassumption.
  - assert (Hlt : f1 + 1 <= f2) by lia.
    destruct (Qcompare (x - inject_Z f1) (1 # 2));
      destruct (Qcompare (y - inject_Z f2) (1 # 2));
      try destruct (Z.even f1); try destruct (Z.even f2); lia.
Qed.

Lemma nearest_even_integer (z : Z) : nearest_even (inject_Z z) = z.
Proof.
  unfold nearest_even. lazy zeta. rewrite Qfloor_Z.
  assert (Hc : Qcompare (inject_Z z - inject_Z z) (1 # 2) = Lt).
  { apply Qlt_alt. unfold Qminus. rewrite Qplus_opp_r. reflexivity. }
  rewrite Hc. reflexivity.
Qed.

Lemma nearest_even_comp (x y : Q) : (x == y)%Q -> nearest_even x = nearest_even y.
Proof.
  intros H. apply Z.le_antisymm; apply nearest_even_monotone; rewrite H; apply Qle_refl.
Qed.

(** The nearest integer is at distance at most one half, and even when the
    distance is one half. *)
Lemma nearest_even_spec (x : Q) :
  (Qabs (x - inject_Z (nearest_even x)) <= 1 # 2)%Q
  /\ ((Qabs (x - inject_Z (nearest_even x)) == 1 # 2)%Q ->
      Z.even (nearest_even x) = true).
Proof.
  unfold nearest_even. lazy zeta.
  pose proof (Qfloor_le x) as Hlo. pose proof (Qlt_floor x) as Hhi.
  set (f := Qfloor x) in *.
  assert (Hr0 : (0 <= x - inject_Z f)%Q).
  { unfold Qminus. rewrite <- (Qplus_opp_r (inject_Z f)).
    apply Qplus_le_compat; [assumption | apply Qle_refl]. }
  assert (Hf1 : (inject_Z (f + 1) == inject_Z f + 1)%Q) by (rewrite inject_Z_plus; reflexivity).
  destruct (Qcompare (x - inject_Z f) (1 # 2)) eqn:C.
  - apply Qeq_alt in C.
    destruct (Z.even f) eqn:Ef.
    + split; [| intros _; exact Ef].
      rewrite Qabs_pos by assumption. rewrite C. apply Qle_refl.
    + assert (Hneg : (x - inject_Z (f + 1) == - (1 # 2))%Q).
      { rewrite Hf1. setoid_replace (x - (inject_Z f + 1))%Q
          with ((x - inject_Z f) - 1)%Q by ring. rewrite C. reflexivity. }
      split.
      * rewrite Hneg. discriminate.
      * intros _. rewrite Z.even_add, Ef. reflexivity.
  - apply Qlt_alt in C. split.
    + rewrite Qabs_pos by assumption. apply Qlt_le_weak. assumption.
    + intros Habs. rewrite Qabs_pos in Habs by assumption. rewrite Habs in C.
      exfalso. apply (Qlt_irrefl _ C).
  - apply Qgt_alt in C.
    assert (Hlt1 : (x - inject_Z f < 1)%Q).
    { rewrite Hf1 in Hhi. unfold Qminus.
      setoid_replace (1 : Q) with ((inject_Z f + 1) + - inject_Z f)%Q by ring.
      apply Qplus_lt_l. assumption. }
    assert (Hneg : (x - inject_Z (f + 1) == (x - inject_Z f) - 1)%Q).
    { rewrite Hf1. ring. }
    assert (Hle0 : (x - inject_Z (f + 1) <= 0)%Q).
    { rewrite Hneg. setoid_replace (0 : Q) with (1 - 1)%Q by reflexivity.
      unfold Qminus. apply Qplus_le_compat; [apply Qlt_le_weak; assumption | apply Qle_refl]. }
    assert (Habs : (Qabs (x - inject_Z (f + 1)) == 1 - (x - inject_Z f))%Q).
    { rewrite Qabs_neg by assumption. rewrite Hneg. ring. }
    assert (Hstrict : (1 - (x - inject_Z f) < 1 # 2)%Q).
    { setoid_replace (1 # 2)%Q with (1 - (1 # 2))%Q by reflexivity.
      unfold Qminus. apply Qplus_lt_r. apply Qopp_lt_compat. assumption. }
    split.
    + rewrite Habs. apply Qlt_le_weak. assumption.
    + intros Heq. rewrite Habs in Heq. rewrite Heq in Hstrict.
      exfalso. apply (Qlt_irrefl _ Hstrict).
Qed.

(** ** The binary logarithm *)

Lemma Qlt_num_pos (a : Q) : (0 < a)%Q -> 0 < Qnum a.
Proof. unfold Qlt. simpl. lia. Qed.

Lemma ilog2_bounds (a : Q) :
  (0 < a)%Q ->
  let k := Z.log2 (Qnum a) - Z.log2 (Z.pos (Qden a)) in
  (pow2 (k - 1) <= a)%Q /\ (a < pow2 (k + 1))%Q.
Proof.
  intros Ha. cbn zeta. pose proof (Qlt_num_pos a Ha) as Hn.
  destruct a as [n d]. cbn [Qnum Qden] in *.
  pose proof (Z.log2_spec n Hn) as [Hn1 Hn2].
  pose proof (Z.log2_spec (Z.pos d) (Pos2Z.is_pos d)) as [Hd1 Hd2].
  pose proof (Z.log2_nonneg n) as Hln. pose proof (Z.log2_nonneg (Z.pos d)) as Hld.
  set (ln := Z.log2 n) in *. set (ld := Z.log2 (Z.pos d)) in *.
  assert (Hp1 : 0 < 2 ^ ln) by (apply Z.pow_pos_nonneg; lia).
  assert (Hp2 : 0 < 2 ^ ld) by (apply Z.pow_pos_nonneg; lia).
  split.
  - (* pow2 (k-1) * pow2 (ld+1) == pow2 ln <= n <= a * 2^(ld+1) *)
    apply (Qmult_le_r _ _ (pow2 (ld + 1))); [apply pow2_pos |].
    rewrite <- pow2_plus. replace (ln - ld - 1 + (ld + 1)) with ln by lia.
    rewrite !pow2_inject by lia.
    unfold Qle, Qmult. cbn [Qnum Qden inject_Z]. rewrite Z.mul_1_r.
    replace (Z.succ ld) with (ld + 1) in Hd2 by lia.
    rewrite Pos.mul_1_r. nia.
  - apply (Qmult_lt_r _ _ (pow2 ld)); [apply pow2_pos |].
    rewrite <- pow2_plus. replace (ln - ld + 1 + ld) with (ln + 1) by lia.
    rewrite !pow2_inject by lia.
    unfold Qlt, Qmult. cbn [Qnum Qden inject_Z]. rewrite Z.mul_1_r.
    replace (Z.succ ln) with (ln + 1) in Hn2 by lia.
    rewrite Pos.mul_1_r. nia.
Qed.

Lemma ilog2_spec (a : Q) :
  (0 < a)%Q -> (pow2 (ilog2 a) <= a)%Q /\ (a < pow2 (ilog2 a + 1))%Q.
Proof.
  intros Ha. destruct (ilog2_bounds a Ha) as [Hlo Hhi]. unfold ilog2.
  set (k := Z.log2 (Qnum a) - Z.log2 (Z.pos (Qden a))) in *.
  destruct (Qle_bool (pow2 k) a) eqn:E.
  - apply Qle_bool_iff in E. split; assumption.
  - split; [assumption |]. replace (k - 1 + 1) with k by lia.
    apply Qnot_le_lt. intros H. apply Qle_bool_iff in H. congruence.
Qed.

Lemma ilog2_monotone (a b : Q) : (0 < a)%Q -> (a <= b)%Q -> ilog2 a <= ilog2 b.
Proof.
  intros Ha Hab. assert (Hb : (0 < b)%Q) by (eapply Qlt_le_trans; eassumption).
  destruct (ilog2_spec a Ha) as [Ha1 _]. destruct (ilog2_spec b Hb) as [_ Hb2].
  destruct (Z_le_gt_dec (ilog2 a) (ilog2 b)) as [H | H]; [assumption |].
  exfalso. apply (Qlt_irrefl b).
  eapply Qlt_le_trans; [exact Hb2 |].
  eapply Qle_trans; [apply (pow2_le (ilog2 b + 1) (ilog2 a)); lia |].
  eapply Qle_trans; eassumption.
Qed.

(** ** Rounding to binary64 is monotone *)

Lemma ulp_exponent_monotone (a b : Q) :
  (0 < a)%Q -> (a <= b)%Q -> ulp_exponent a <= ulp_exponent b.
Proof.
  intros Ha Hab. unfold ulp_exponent. pose proof (ilog2_monotone a b Ha Hab). lia.
Qed.

(** Below the next power of two ... *)
Lemma scaled_upper (a : Q) :
  (0 < a)%Q -> (a * pow2 (- ulp_exponent a) < inject_Z (2 ^ 53))%Q.
Proof.
  intros Ha. destruct (ilog2_spec a Ha) as [_ Hhi].
  apply (Qmult_lt_r _ _ (pow2 (ulp_exponent a))); [apply pow2_pos |].
  rewrite <- Qmult_assoc, pow2_cancel, Qmult_1_r.
  rewrite <- (pow2_inject 53) by lia. rewrite <- pow2_plus.
  eapply Qlt_le_trans; [exact Hhi |]. apply pow2_le. unfold ulp_exponent. lia.
Qed.

(** ... and, away from the smallest exponent, at or above the previous one. *)
Lemma scaled_lower (a : Q) :
  (0 < a)%Q -> -1074 < ulp_exponent a ->
  (inject_Z (2 ^ 52) <= a * pow2 (- ulp_exponent a))%Q.
Proof.
  intros Ha He. destruct (ilog2_spec a Ha) as [Hlo _].
  apply (Qmult_le_r _ _ (pow2 (ulp_exponent a))); [apply pow2_pos |].
  rewrite <- Qmult_assoc, pow2_cancel, Qmult_1_r.
  rewrite <- (pow2_inject 52) by lia. rewrite <- pow2_plus.
  eapply Qle_trans; [| exact Hlo]. apply pow2_le. unfold ulp_exponent in *. lia.
Qed.

Lemma binary64_pos_monotone (a b : Q) :
  (0 < a)%Q -> (a <= b)%Q -> (binary64_pos a <= binary64_pos b)%Q.
Proof.
  intros Ha Hab. assert (Hb : (0 < b)%Q) by (eapply Qlt_le_trans; eassumption).
  pose proof (ulp_exponent_monotone a b Ha Hab) as He.
  unfold binary64_pos. lazy zeta.
  set (ea := ulp_exponent a) in *. set (eb := ulp_exponent b) in *.
  destruct (Z.eq_dec ea eb) as [E | NE].
  - rewrite <- E. apply Qmult_le_compat_r; [| apply Qlt_le_weak, pow2_pos].
    rewrite <- Zle_Qle. apply nearest_even_monotone.
    apply Qmult_le_compat_r; [assumption | apply Qlt_le_weak, pow2_pos].
  - assert (Hlt : ea + 1 <= eb) by lia.
    assert (Hea : -1074 <= ea) by (unfold ea, ulp_exponent; lia).
    apply (Qle_trans _ (pow2 (eb + 52))).
    + apply (Qle_trans _ (inject_Z (2 ^ 53) * pow2 ea)).
      * apply Qmult_le_compat_r; [| apply Qlt_le_weak, pow2_pos].
        rewrite <- Zle_Qle. rewrite <- (nearest_even_integer (2 ^ 53)).
        apply nearest_even_monotone. apply Qlt_le_weak. apply scaled_upper. assumption.
      * rewrite <- (pow2_inject 53) by lia. rewrite <- pow2_plus.
        apply pow2_le. lia.
    + apply (Qle_trans _ (inject_Z (2 ^ 52) * pow2 eb)).
      * rewrite <- (pow2_inject 52) by lia. rewrite <- pow2_plus.
        apply pow2_le. lia.
      * apply Qmult_le_compat_r; [| apply Qlt_le_weak, pow2_pos].
        rewrite <- Zle_Qle. rewrite <- (nearest_even_integer (2 ^ 52)).
        apply nearest_even_monotone. apply scaled_lower; [assumption |]. fold eb. lia.
Qed.

Lemma binary64_pos_nonneg (a : Q) : (0 < a)%Q -> (0 <= binary64_pos a)%Q.
Proof.
  intros Ha. unfold binary64_pos. lazy zeta.
  apply Qmult_le_0_compat; [| apply Qlt_le_weak, pow2_pos].
  change 0%Q with (inject_Z 0). rewrite <- Zle_Qle.
  rewrite <- (nearest_even_integer 0). apply nearest_even_monotone.
  apply Qmult_le_0_compat; [apply Qlt_le_weak; assumption | apply Qlt_le_weak, pow2_pos].
Qed.

Lemma binary64_nonneg (q : Q) : (0 <= q)%Q -> (0 <= binary64 q)%Q.
Proof.
  intros Hq. unfold binary64. lazy zeta.
  assert (Hr : (Qred q == q)%Q) by apply Qred_correct.
  destruct (Qcompare (Qred q) 0) eqn:C.
  - apply Qle_refl.
  - apply Qlt_alt in C. rewrite Hr in C. exfalso.
    apply (Qlt_irrefl 0). eapply Qle_lt_trans; eassumption.
  - apply Qgt_alt in C. rewrite Qred_correct. apply binary64_pos_nonneg. assumption.
Qed.

Lemma binary64_nonpos (q : Q) : (q <= 0)%Q -> (binary64 q <= 0)%Q.
Proof.
  intros Hq. unfold binary64. lazy zeta.
  assert (Hr : (Qred q == q)%Q) by apply Qred_correct.
  destruct (Qcompare (Qred q) 0) eqn:C.
  - apply Qle_refl.
  - apply Qlt_alt in C. rewrite Qred_correct.
    setoid_replace 0%Q with (- 0)%Q by reflexivity. apply Qopp_le_compat.
    apply binary64_pos_nonneg.
    setoid_replace 0%Q with (- 0)%Q by reflexivity. apply Qopp_lt_compat. assumption.
  - apply Qgt_alt in C. rewrite Hr in C. exfalso.
    apply (Qlt_irrefl 0). eapply Qlt_le_trans; eassumption.
Qed.

Lemma binary64_comp (q r : Q) : (q == r)%Q -> binary64 q = binary64 r.
Proof. intros H. unfold binary64. rewrite (Qred_complete q r H). reflexivity. Qed.

Lemma binary64_monotone (q r : Q) : (q <= r)%Q -> (binary64 q <= binary64 r)%Q.
Proof.
  intros H.
  destruct (Qlt_le_dec 0 q) as [Hq | Hq].
  - (* both positive *)
    assert (Hr : (0 < r)%Q) by (eapply Qlt_le_trans; eassumption).
    unfold binary64. lazy zeta.
    assert (Cq : Qcompare (Qred q) 0 = Gt) by (apply Qgt_alt; rewrite Qred_correct; assumption).
    assert (Cr : Qcompare (Qred r) 0 = Gt) by (apply Qgt_alt; rewrite Qred_correct; assumption).
    rewrite Cq, Cr.
    rewrite (Qred_correct (binary64_pos (Qred q))), (Qred_correct (binary64_pos (Qred r))).
    apply binary64_pos_monotone.
    + rewrite (Qred_correct q). assumption.
    + rewrite (Qred_correct q), (Qred_correct r). assumption.
  - destruct (Qlt_le_dec r 0) as [Hr | Hr].
    + (* both negative *)
      assert (Hq' : (q < 0)%Q) by exact (Qle_lt_trans _ _ _ H Hr).
      unfold binary64. lazy zeta.
      assert (Cq : Qcompare (Qred q) 0 = Lt) by (apply Qlt_alt; rewrite Qred_correct; assumption).
      assert (Cr : Qcompare (Qred r) 0 = Lt) by (apply Qlt_alt; rewrite Qred_correct; assumption).
      rewrite Cq, Cr.
      rewrite (Qred_correct (- binary64_pos (- Qred q))),
        (Qred_correct (- binary64_pos (- Qred r))).
      apply Qopp_le_compat. apply binary64_pos_monotone.
      * rewrite (Qred_correct r). setoid_replace 0%Q with (- 0)%Q by reflexivity.
        apply Qopp_lt_compat. assumption.
      * rewrite (Qred_correct q), (Qred_correct r). apply Qopp_le_compat. assumption.
    + eapply Qle_trans; [apply binary64_nonpos; assumption | apply binary64_nonneg; assumption].
Qed.

Lemma binary64_canonical (q : Q) : Qred (binary64 q) = binary64 q.
Proof.
  unfold binary64. lazy zeta. destruct (Qcompare (Qred q) 0); [reflexivity | |];
    apply Qred_complete, Qred_correct.
Qed.

(** The conversion of an int other than 0 is not 0. *)
Lemma binary64_integer_nonzero (n : Z) : n <> 0 -> ~ (binary64 (inject_Z n) == 0)%Q.
Proof.
  intros Hn H. destruct (Z_lt_le_dec n 0) as [Hneg | Hpos].
  - assert (Hle : (binary64 (inject_Z n) <= binary64 (inject_Z (-1)))%Q).
    { apply binary64_monotone. rewrite <- Zle_Qle. lia. }
    rewrite H in Hle. vm_compute in Hle. apply Hle. reflexivity.
  - assert (Hle : (binary64 (inject_Z 1) <= binary64 (inject_Z n))%Q).
    { apply binary64_monotone. rewrite <- Zle_Qle. lia. }
    rewrite H in Hle. vm_compute in Hle. apply Hle. reflexivity.
Qed.

(** ** Rounding to decimals *)

Lemma round_half_even_nearest (q : Q) (ndigits : Z) :
  round_half_even q ndigits
  = Qred (nearest_even (q * inject_Z (10 ^ ndigits)) # Z.to_pos (10 ^ ndigits)).
Proof. reflexivity. Qed.

Lemma Qabs_div_pos (a s : Q) : (0 < s)%Q -> (Qabs (a / s) == Qabs a / s)%Q.
Proof.
  intros Hs. unfold Qdiv. rewrite Qabs_Qmult.
  rewrite (Qabs_pos (/ s)); [reflexivity |].
  apply Qlt_le_weak. apply Qinv_lt_0_compat. assumption.
Qed.

Lemma round_half_even_rounds_to (q : Q) (ndigits : Z) :
  0 <= ndigits -> Spec.rounds_to q ndigits (round_half_even q ndigits).
Proof.
  intros Hn. assert (Hpos : 0 < 10 ^ ndigits) by (apply Z.pow_pos_nonneg; lia).
  unfold Spec.rounds_to. rewrite round_half_even_nearest.
  set (s := 10 ^ ndigits) in *. set (m := nearest_even (q * inject_Z s)).
  assert (Hs : (0 < inject_Z s)%Q) by (unfold Qlt; simpl; lia).
  assert (Hs0 : ~ (inject_Z s == 0)%Q).
  { intros H. rewrite H in Hs. apply (Qlt_irrefl 0 Hs). }
  assert (Hd : (Qred (m # Z.to_pos s) == inject_Z m / inject_Z s)%Q).
  { rewrite Qred_correct. unfold Qeq, Qdiv, Qmult, Qinv, inject_Z.
    destruct s as [| p | p]; try lia. simpl. lia. }
  assert (Hdiff : (q - Qred (m # Z.to_pos s)
                   == (q * inject_Z s - inject_Z m) / inject_Z s)%Q).
  { rewrite Hd. field. assumption. }
  assert (Hhalf : (1 / inject_Z (2 * s) == (1 # 2) / inject_Z s)%Q).
  { rewrite inject_Z_mult. field. assumption. }
  destruct (nearest_even_spec (q * inject_Z s)) as [Hle Heven]. fold m in Hle, Heven.
  exists m. split; [exact Hd |]. rewrite Hdiff, (Qabs_div_pos _ _ Hs), Hhalf.
  split.
  - apply Qmult_le_compat_r; [assumption |].
    apply Qlt_le_weak. apply Qinv_lt_0_compat. assumption.
  - intros Heq. apply Heven.
    apply (Qmult_inj_r _ _ (/ inject_Z s)); [| exact Heq].
    intros H. apply (Qlt_irrefl 0). rewrite <- H at 2.
    apply Qinv_lt_0_compat. assumption.
Qed.

(** ** The error of rounding to binary64 *)

Lemma binary64_pos_error (a : Q) :
  (0 < a)%Q -> (Qabs (binary64_pos a - a) <= pow2 (ulp_exponent a - 1))%Q.
Proof.
  intros Ha. unfold binary64_pos. lazy zeta. set (e := ulp_exponent a).
  destruct (nearest_even_spec (a * pow2 (- e))) as [Hle _].
  set (n := nearest_even (a * pow2 (- e))) in *.
  assert (Heq : (inject_Z n * pow2 e - a == - (a * pow2 (- e) - inject_Z n) * pow2 e)%Q).
  { setoid_replace (- (a * pow2 (- e) - inject_Z n) * pow2 e)%Q
      with (inject_Z n * pow2 e - a * (pow2 (- e) * pow2 e))%Q by ring.
    rewrite pow2_cancel. ring. }
  rewrite Heq, Qabs_Qmult, Qabs_opp.
  rewrite (Qabs_pos (pow2 e)) by (apply Qlt_le_weak, pow2_pos).
  replace (e - 1) with (-1 + e) by lia. rewrite pow2_plus.
  apply Qmult_le_compat_r; [exact Hle | apply Qlt_le_weak, pow2_pos].
Qed.

(** In the normal range the error is at most [2^-53] of the value. *)
Lemma binary64_relative_error (q : Q) :
  (pow2 (-1022) <= Qabs q)%Q ->
  (Qabs (binary64 q - q) <= Qabs q * pow2 (-53))%Q.
Proof.
  intros Hq.
  assert (Hgen : forall a, (pow2 (-1022) <= a)%Q ->
            (Qabs (binary64_pos a - a) <= a * pow2 (-53))%Q).
  { intros a Ha.
    assert (Hpos : (0 < a)%Q) by (eapply Qlt_le_trans; [apply (pow2_pos (-1022)) | exact Ha]).
    destruct (ilog2_spec a Hpos) as [Hlo Hhi].
    assert (Hk : -1022 <= ilog2 a).
    { destruct (Z_le_gt_dec (-1022) (ilog2 a)) as [H | H]; [assumption |].
      exfalso. apply (Qlt_irrefl a). eapply Qlt_le_trans; [exact Hhi |].
      eapply Qle_trans; [apply (pow2_le (ilog2 a + 1) (-1022)); lia | exact Ha]. }
    eapply Qle_trans; [apply binary64_pos_error; assumption |].
    unfold ulp_exponent. replace (Z.max (-1074) (ilog2 a - 52) - 1) with (ilog2 a + -53) by lia.
    rewrite pow2_plus. apply Qmult_le_compat_r; [exact Hlo | apply Qlt_le_weak, pow2_pos]. }
  unfold binary64. lazy zeta.
  assert (Hqa : (q == Qred q)%Q) by (symmetry; apply Qred_correct).
  set (a := Qred q) in *. rewrite Hqa in Hq. rewrite Hqa. clearbody a. clear Hqa.
  destruct (Qcompare a 0) eqn:C.
  - apply Qeq_alt in C. rewrite C in Hq. exfalso.
    apply (Qlt_irrefl 0). eapply Qlt_le_trans; [apply (pow2_pos (-1022)) | exact Hq].
  - apply Qlt_alt in C.
    assert (Ha : (Qabs a == - a)%Q) by (apply Qabs_neg; apply Qlt_le_weak; assumption).
    rewrite (Qred_correct (- binary64_pos (- a))).
    setoid_replace (- binary64_pos (- a) - a)%Q
      with (- (binary64_pos (- a) - - a))%Q by ring.
    rewrite Qabs_opp, Ha. apply Hgen. rewrite <- Ha. assumption.
  - apply Qgt_alt in C.
    assert (Ha : (Qabs a == a)%Q) by (apply Qabs_pos; apply Qlt_le_weak; assumption).
    rewrite (Qred_correct (binary64_pos a)).
    rewrite Ha. apply Hgen. rewrite <- Ha. assumption.
Qed.

Lemma pow2_m53 : (pow2 (-53) == 1 # 9007199254740992)%Q.
Proof. reflexivity. Qed.

Lemma pow2_m51 : (pow2 (-51) == 1 # 2251799813685248)%Q.
Proof. reflexivity. Qed.

(** ** Rounding to decimals is determined *)

(** The distance to a multiple of [1/s], in units of [1/s]. *)
Lemma scaled_distance (x d : Q) (m s : Z) :
  0 < s ->
  (d == inject_Z m / inject_Z s)%Q ->
  (Qabs (x - d) == Qabs (x * inject_Z s - inject_Z m) / inject_Z s)%Q.
Proof.
  intros Hs Hd.
  assert (HS : (0 < inject_Z s)%Q) by (unfold Qlt; simpl; lia).
  assert (HS0 : ~ (inject_Z s == 0)%Q).
  { intros H. rewrite H in HS. apply (Qlt_irrefl 0 HS). }
  rewrite <- (Qabs_div_pos _ _ HS). rewrite Hd.
  assert (E : (x - inject_Z m / inject_Z s
               == (x * inject_Z s - inject_Z m) / inject_Z s)%Q) by (field; assumption).
  rewrite E. reflexivity.
Qed.

Lemma half_unit (s : Z) :
  0 < s -> (1 / inject_Z (2 * s) == (1 # 2) / inject_Z s)%Q.
Proof.
  intros Hs. rewrite inject_Z_mult. field.
  intros H. assert (HS : (0 < inject_Z s)%Q) by (unfold Qlt; simpl; lia).
  rewrite H in HS. apply (Qlt_irrefl 0 HS).
Qed.

(** In units of [10^-n]: [d = m / 10^n] is [x] rounded when [m] is within
    a half of [x * 10^n], and even at exactly a half. *)
Lemma rounds_to_scaled (x d : Q) (n m : Z) :
  0 <= n ->
  (d == inject_Z m / inject_Z (10 ^ n))%Q ->
  ((Qabs (x - d) <= 1 / inject_Z (2 * 10 ^ n))%Q
   <-> (Qabs (x * inject_Z (10 ^ n) - inject_Z m) <= 1 # 2)%Q)
  /\ ((Qabs (x - d) == 1 / inject_Z (2 * 10 ^ n))%Q
      <-> (Qabs (x * inject_Z (10 ^ n) - inject_Z m) == 1 # 2)%Q).
Proof.
  intros Hn Hd. assert (Hs : 0 < 10 ^ n) by (apply Z.pow_pos_nonneg; lia).
  set (s := 10 ^ n) in *.
  assert (HS : (0 < inject_Z s)%Q) by (unfold Qlt; simpl; lia).
  assert (HI : (0 < / inject_Z s)%Q) by (apply Qinv_lt_0_compat; assumption).
  assert (HS0 : ~ (/ inject_Z s == 0)%Q).
  { intros H. rewrite H in HI. apply (Qlt_irrefl 0 HI). }
  rewrite (scaled_distance x d m s Hs Hd), (half_unit s Hs).
  set (a := Qabs (x * inject_Z s - inject_Z m)). unfold Qdiv. split; split; intros H.
  - apply (Qmult_le_r _ _ (/ inject_Z s)); assumption.
  - apply (Qmult_le_r _ _ (/ inject_Z s)); assumption.
  - apply (Qmult_inj_r _ _ (/ inject_Z s)); assumption.
  - rewrite H. reflexivity.
Qed.

Lemma rounds_to_unique (x : Q) (n : Z) (d d' : Q) :
  0 <= n -> Spec.rounds_to x n d -> Spec.rounds_to x n d' -> (d == d')%Q.
Proof.
  intros Hn [m [Hd [Hle Hev]]] [m' [Hd' [Hle' Hev']]].
  destruct (rounds_to_scaled x d n m Hn Hd) as [Hl He].
  destruct (rounds_to_scaled x d' n m' Hn Hd') as [Hl' He'].
  rewrite Hl in Hle. rewrite Hl' in Hle'. rewrite He in Hev. rewrite He' in Hev'.
  clear Hl He Hl' He'.
  set (y := (x * inject_Z (10 ^ n))%Q) in *.
  apply Qabs_Qle_condition in Hle. apply Qabs_Qle_condition in Hle'.
  assert (Hm : m = m').
  { destruct (Z_lt_le_dec m m') as [Hlt | Hge]; [| destruct (Z_lt_le_dec m' m) as [Hlt | Hge']].
    - exfalso.
      assert (H1 : (inject_Z m + 1 <= inject_Z m')%Q).
      { change 1%Q with (inject_Z 1). rewrite <- inject_Z_plus, <- Zle_Qle. lia. }
      assert (Ey : (y - inject_Z m == 1 # 2)%Q) by lra.
      assert (Ey' : (y - inject_Z m' == - (1 # 2))%Q) by lra.
      assert (E1 : Z.even m = true).
      { apply Hev. rewrite Ey. reflexivity. }
      assert (E2 : Z.even m' = true).
      { apply Hev'. rewrite Ey'. reflexivity. }
      assert (Hm' : m' = m + 1).
      { assert (H2 : (inject_Z m' <= inject_Z m + 1)%Q) by lra.
        change 1%Q with (inject_Z 1) in H2. rewrite <- inject_Z_plus, <- Zle_Qle in H2. lia. }
      subst m'. rewrite Z.even_add in E2. rewrite E1 in E2. discriminate.
    - exfalso.
      assert (H1 : (inject_Z m' + 1 <= inject_Z m)%Q).
      { change 1%Q with (inject_Z 1). rewrite <- inject_Z_plus, <- Zle_Qle. lia. }
      assert (Ey : (y - inject_Z m == - (1 # 2))%Q) by lra.
      assert (Ey' : (y - inject_Z m' == 1 # 2)%Q) by lra.
      assert (E1 : Z.even m = true).
      { apply Hev. rewrite Ey. reflexivity. }
      assert (E2 : Z.even m' = true).
      { apply Hev'. rewrite Ey'. reflexivity. }
      assert (Hm' : m = m' + 1).
      { assert (H2 : (inject_Z m <= inject_Z m' + 1)%Q) by lra.
        change 1%Q with (inject_Z 1) in H2. rewrite <- inject_Z_plus, <- Zle_Qle in H2. lia. }
      subst m. rewrite Z.even_add in E1. rewrite E2 in E1. discriminate.
    - lia. }
  subst m'. rewrite Hd, Hd'. reflexivity.
Qed.

(** A decimal with two digits that is not too large is recovered from the
    float nearest to it. *)
Lemma round_half_even_binary64 (d : Q) (m : Z) :
  (d == inject_Z m / inject_Z (10 ^ 2))%Q ->
  (Qabs d <= 10000000000000)%Q ->
  (round_half_even (binary64 d) 2 == d)%Q.
Proof.
  intros Hd Hb.
  apply (rounds_to_unique (binary64 d) 2); [lia | apply round_half_even_rounds_to; lia |].
  destruct (Z.eq_dec m 0) as [-> | Hm].
  - assert (H0 : (d == 0)%Q) by (rewrite Hd; reflexivity).
    rewrite (binary64_comp d 0 H0). exists 0. split; [exact Hd |].
    rewrite H0. split; [vm_compute; discriminate |].
    intros _. reflexivity.
  - assert (Hlow : (1 # 100 <= Qabs d)%Q).
    { rewrite Hd. rewrite Qabs_div_pos by reflexivity.
      change (Qabs (inject_Z m)) with (inject_Z (Z.abs m)).
      assert (H1 : (1 <= inject_Z (Z.abs m))%Q).
      { change 1%Q with (inject_Z 1). rewrite <- Zle_Qle. lia. }
      change (inject_Z (10 ^ 2)) with 100%Q.
      set (A := inject_Z (Z.abs m)) in *. clearbody A. unfold Qdiv. change (/ 100)%Q with (1 # 100)%Q. lra. }
    assert (Herr : (Qabs (binary64 d - d) <= Qabs d * pow2 (-53))%Q).
    { apply binary64_relative_error.
      eapply Qle_trans; [| exact Hlow]. vm_compute. discriminate. }
    rewrite pow2_m53 in Herr.
    assert (Hlt : (Qabs (binary64 d - d) < 1 / inject_Z (2 * 10 ^ 2))%Q).
    { change (1 / inject_Z (2 * 10 ^ 2))%Q with (1 # 200)%Q.
      set (A := Qabs d) in *. set (E := Qabs (binary64 d - d)) in *. lra. }
    exists m. split; [exact Hd |]. split.
    + apply Qlt_le_weak. exact Hlt.
    + intros Heq. rewrite Heq in Hlt. exfalso. apply (Qlt_irrefl _ Hlt).
Qed.

(** ** Strings are totally ordered by [String.leb] *)

Lemma ascii_compare_refl (a : ascii) : Ascii.compare a a = Eq.
Proof. unfold Ascii.compare. apply N.compare_refl. Qed.

Lemma string_compare_refl (s : string) : String.compare s s = Eq.
Proof.
  induction s as [| c s IH]; simpl; [reflexivity |].
  rewrite ascii_compare_refl. exact IH.
Qed.

Lemma string_leb_refl (s : string) : String.leb s s = true.
Proof. unfold String.leb. rewrite string_compare_refl. reflexivity. Qed.

Lemma string_leb_trans (a b c : string) :
  String.leb a b = true -> String.leb b c = true -> String.leb a c = true.
Proof.
  unfold String.leb. revert b c.
  induction a as [| x a IH]; intros [| y b] [| z c]; simpl; try congruence.
  unfold Ascii.compare.
  destruct (N.compare_spec (N_of_ascii x) (N_of_ascii y)) as [Exy | Lxy | Gxy];
    destruct (N.compare_spec (N_of_ascii y) (N_of_ascii z)) as [Eyz | Lyz | Gyz];
    destruct (N.compare_spec (N_of_ascii x) (N_of_ascii z)) as [Exz | Lxz | Gxz];
    try congruence; try lia; intros Hab Hbc.
  apply (IH b c); assumption.
Qed.

Lemma string_ltb_leb (a b : string) :
  String.ltb a b = true -> String.leb a b = true.
Proof.
  unfold String.ltb, String.leb. destruct (String.compare a b); congruence.
Qed.

Lemma string_ltb_false_leb (a b : string) :
  String.ltb a b = false -> String.leb b a = true.
Proof.
  unfold String.ltb, String.leb. rewrite (String.compare_antisym b a).
  destruct (String.compare a b); simpl; congruence.
Qed.

(** ** The insertion sort *)

Section SortFacts.
Context {A : Type} (lt : A -> A -> result bool).

Lemma insert_Permutation (x : A) (l r : list A) :
  insert lt x l = Ok r -> Permutation (x :: l) r.
Proof.
  revert r. induction l as [| y l IH]; simpl; intros r H.
  - injection H as <-. apply Permutation_refl.
  - inv_bind H. destruct a.
    + inv_bind H. injection H as <-.
      eapply perm_trans; [apply perm_swap |].
      apply perm_skip. apply IH. assumption.
    + injection H as <-. apply Permutation_refl.
Qed.

Lemma sort_Permutation (l r : list A) :
  sort lt l = Ok r -> Permutation l r.
Proof.
  revert r. induction l as [| x l IH]; simpl; intros r H.
  - injection H as <-. constructor.
  - inv_bind H. eapply perm_trans; [| eapply insert_Permutation; eassumption].
    apply perm_skip. apply IH. assumption.
Qed.

(** A domain on which [lt] decides a total, transitive order [le]. *)
Variable dom : A -> Prop.
Variable le : A -> A -> Prop.
Hypothesis lt_decides :
  forall x y, dom x -> dom y ->
    exists b, lt x y = Ok b /\ (if b : bool then le x y else le y x).
Hypothesis le_trans :
  forall x y z, le x y -> le y z -> le x z.

Lemma insert_sorted (x : A) (l : list A) :
  dom x -> Forall dom l -> StronglySorted le l ->
  exists r, insert lt x l = Ok r /\ StronglySorted le r.
Proof.
  intros Hx. induction l as [| y l IH]; simpl; intros Hl Hs.
  - eexists; split; [reflexivity |]. repeat constructor.
  - inversion Hl as [| ? ? Hy Hl']; subst.
    inversion Hs as [| ? ? Hs' Hall]; subst.
    destruct (lt_decides y x Hy Hx) as [b [Hb Hle]]. rewrite Hb. simpl.
    destruct b.
    + destruct (IH Hl' Hs') as [r [Hr Hsr]]. rewrite Hr. simpl.
      eexists; split; [reflexivity |]. constructor; [assumption |].
      apply insert_Permutation in Hr.
      eapply Permutation_Forall; [exact Hr |]. constructor; assumption.
    + eexists; split; [reflexivity |]. constructor; [assumption |].
      constructor; [assumption |].
      eapply Forall_impl; [| exact Hall]. intros z Hz. eapply le_trans; eassumption.
Qed.

Lemma sort_sorted (l : list A) :
  Forall dom l ->
  exists r, sort lt l = Ok r /\ Permutation l r /\ StronglySorted le r.
Proof.
  induction l as [| x l IH]; simpl; intros Hl.
  - eexists; repeat split; constructor.
  - inversion Hl as [| ? ? Hx Hl']; subst.
    destruct (IH Hl') as [s [Hs [Hp Hss]]]. rewrite Hs. simpl.
    destruct (insert_sorted x s Hx) as [r [Hr Hsr]]; [| assumption |].
    + eapply Permutation_Forall; eassumption.
    + exists r. repeat split; [assumption | | assumption].
      eapply perm_trans; [apply perm_skip; exact Hp |].
      eapply insert_Permutation; eassumption.
Qed.
End SortFacts.

Lemma StronglySorted_app_inv {A : Type} (R : A -> A -> Prop) (l1 l2 : list A) :
  StronglySorted R l1 -> StronglySorted R l2 ->
  (forall x y, In x l1 -> In y l2 -> R x y) ->
  StronglySorted R (l1 ++ l2).
Proof.
  induction l1 as [| a l1 IH]; simpl; intros H1 H2 H12; [assumption |].
  inversion H1 as [| ? ? H1' Hall]; subst.
  constructor.
  - apply IH; [assumption | assumption |]. intros x y Hx Hy. apply H12; auto.
  - apply Forall_app. split; [assumption |].
    apply Forall_forall. intros y Hy. apply H12; auto.
Qed.

Lemma StronglySorted_rev {A : Type} (R : A -> A -> Prop) (l : list A) :
  StronglySorted R l -> StronglySorted (fun a b => R b a) (rev l).
Proof.
  induction 1 as [| a l Hs IH Hall]; simpl; [constructor |].
  apply StronglySorted_app_inv; [assumption | repeat constructor |].
  intros x y Hx [<- | []]. rewrite Forall_forall in Hall.
  apply Hall. apply in_rev. assumption.
Qed.

Lemma StronglySorted_map {A B : Type} (f : A -> B) (R : B -> B -> Prop) (l : list A) :
  StronglySorted (fun a b => R (f a) (f b)) l -> StronglySorted R (map f l).
Proof.
  induction 1 as [| a l Hs IH Hall]; simpl; constructor; [assumption |].
  apply Forall_map. assumption.
Qed.

(** ** Numbers *)

Import Spec.

Lemma nearest_even_nearest (x : Q) (j : Z) :
  (Qabs (x - inject_Z (nearest_even x)) <= Qabs (x - inject_Z j))%Q.
Proof.
  destruct (nearest_even_spec x) as [Hle _].
  set (n := nearest_even x) in *.
  destruct (Z.eq_dec j n) as [-> | Hne]; [apply Qle_refl |].
  eapply Qle_trans; [exact Hle |].
  apply Qabs_Qle_condition in Hle.
  destruct (Z_lt_le_dec j n) as [Hlt | Hge].
  - assert (H1 : (inject_Z j + 1 <= inject_Z n)%Q).
    { change 1%Q with (inject_Z 1). rewrite <- inject_Z_plus, <- Zle_Qle. lia. }
    apply Qabs_ge. lra.
  - assert (H1 : (inject_Z n + 1 <= inject_Z j)%Q).
    { change 1%Q with (inject_Z 1). rewrite <- inject_Z_plus, <- Zle_Qle. lia. }
    rewrite <- Qabs_opp. apply Qabs_ge. lra.
Qed.

Lemma nearest_even_bounds (x : Q) (lo hi : Z) :
  (inject_Z lo <= x)%Q -> (x <= inject_Z hi)%Q -> lo <= nearest_even x <= hi.
Proof.
  intros Hlo Hhi.
  pose proof (nearest_even_monotone _ _ Hlo) as H1.
  pose proof (nearest_even_monotone _ _ Hhi) as H2.
  rewrite nearest_even_integer in H1, H2. lia.
Qed.

(** The distance to a multiple of [2^e], in units of [2^e]. *)
Lemma scaled_gap (a : Q) (j e : Z) :
  (Qabs (inject_Z j * pow2 e - a) == Qabs (a * pow2 (- e) - inject_Z j) * pow2 e)%Q.
Proof.
  assert (E : (inject_Z j * pow2 e - a
               == - ((a * pow2 (- e) - inject_Z j) * pow2 e))%Q).
  { setoid_replace (- ((a * pow2 (- e) - inject_Z j) * pow2 e))%Q
      with (inject_Z j * pow2 e - a * (pow2 (- e) * pow2 e))%Q by ring.
    rewrite pow2_cancel. ring. }
  rewrite E, Qabs_opp, Qabs_Qmult.
  rewrite (Qabs_pos (pow2 e)) by (apply Qlt_le_weak, pow2_pos). reflexivity.
Qed.

Lemma binary64_pos_nearest (a : Q) :
  (0 < a)%Q -> nearest_float a (binary64_pos a).
Proof.
  intros Ha. unfold binary64_pos. lazy zeta.
  set (e := ulp_exponent a). set (x := (a * pow2 (- e))%Q).
  set (n := nearest_even x).
  assert (He : -1074 <= e) by (unfold e, ulp_exponent; lia).
  assert (Hx0 : (inject_Z 0 <= x)%Q).
  { unfold x. apply Qmult_le_0_compat; [apply Qlt_le_weak; assumption |].
    apply Qlt_le_weak, pow2_pos. }
  assert (Hx1 : (x <= inject_Z (2 ^ 53))%Q).
  { apply Qlt_le_weak. apply scaled_upper. assumption. }
  destruct (nearest_even_bounds x 0 (2 ^ 53) Hx0 Hx1) as [Hn0 Hn1]. fold n in Hn0, Hn1.
  split.
  - exists n, e. split; [reflexivity |]. split; [lia | assumption].
  - intros g [m [e' [Hg [Hm He']]]].
    rewrite (scaled_gap a n e). fold x.
    rewrite (Qabs_Qminus x (inject_Z n)).
    destruct (Z_le_gt_dec e e') as [Hee | Hee].
    + (* g is a multiple of 2^e *)
      assert (Hgj : (g == inject_Z (m * 2 ^ (e' - e)) * pow2 e)%Q).
      { rewrite Hg, inject_Z_mult, <- (pow2_inject (e' - e)) by lia.
        rewrite <- Qmult_assoc, <- pow2_plus.
        replace (e' - e + e) with e' by lia. reflexivity. }
      rewrite Hgj, (scaled_gap a (m * 2 ^ (e' - e)) e). fold x.
      apply Qmult_le_compat_r; [| apply Qlt_le_weak, pow2_pos].
      rewrite <- (Qabs_Qminus x (inject_Z n)). apply nearest_even_nearest.
    + (* g is at most 2^52 * 2^e, which is at most a *)
      assert (Hlow : (inject_Z (2 ^ 52) <= x)%Q).
      { apply scaled_lower; [assumption | fold e; lia]. }
      assert (Hg_le : (g <= inject_Z (2 ^ 52) * pow2 e)%Q).
      { rewrite Hg.
        apply Qle_trans with (y := (inject_Z (2 ^ 53) * pow2 e')%Q).
        - apply Qmult_le_compat_r; [| apply Qlt_le_weak, pow2_pos].
          rewrite <- Zle_Qle. lia.
        - replace (2 ^ 53) with (2 ^ 52 * 2 ^ 1) by reflexivity.
          rewrite inject_Z_mult, <- (pow2_inject 1) by lia.
          rewrite <- Qmult_assoc, <- pow2_plus.
          apply Qmult_le_l; [reflexivity |]. apply pow2_le. lia. }
      assert (Hmid : (inject_Z (2 ^ 52) * pow2 e <= a)%Q).
      { apply (Qmult_le_r _ _ (pow2 (- e))); [apply pow2_pos |].
        rewrite <- Qmult_assoc.
        setoid_replace (pow2 e * pow2 (- e))%Q with 1%Q
          by (rewrite Qmult_comm; apply pow2_cancel).
        rewrite Qmult_1_r. exact Hlow. }
      apply Qle_trans with (y := Qabs (inject_Z (2 ^ 52) * pow2 e - a)).
      * rewrite (scaled_gap a (2 ^ 52) e). fold x.
        apply Qmult_le_compat_r; [| apply Qlt_le_weak, pow2_pos].
        rewrite <- (Qabs_Qminus x (inject_Z n)). apply nearest_even_nearest.
      * rewrite (Qabs_neg (inject_Z (2 ^ 52) * pow2 e - a)) by lra.
        rewrite (Qabs_neg (g - a)) by lra. lra.
Qed.

Lemma is_float_opp (f : Q) : is_float f -> is_float (- f).
Proof.
  intros [m [e [Hf [Hm He]]]]. exists (- m), e.
  split; [rewrite Hf, inject_Z_opp; ring | split; [lia | assumption]].
Qed.

Lemma is_float_comp (f g : Q) : (f == g)%Q -> is_float f -> is_float g.
Proof.
  intros E [m [e [Hf H]]]. exists m, e. split; [rewrite <- E; exact Hf | exact H].
Qed.

(** [binary64] returns a float nearest to its argument. *)
Lemma binary64_nearest (q : Q) : nearest_float q (binary64 q).
Proof.
  unfold binary64. lazy zeta.
  assert (Hq : (Qred q == q)%Q) by apply Qred_correct.
  set (a := Qred q) in *.
  destruct (Qcompare a 0) eqn:C.
  - apply Qeq_alt in C. split.
    + exists 0, 0. split; [reflexivity | split; [discriminate | discriminate]].
    + intros g _. rewrite <- Hq, C.
      setoid_replace (0 - 0)%Q with 0%Q by ring. apply Qabs_nonneg.
  - apply Qlt_alt in C.
    assert (Hpos : (0 < - a)%Q) by lra.
    destruct (binary64_pos_nearest (- a) Hpos) as [Hf Hmin]. split.
    + apply (is_float_comp (- binary64_pos (- a)));
        [symmetry; apply Qred_correct | apply is_float_opp; assumption].
    + intros g Hg. rewrite (Qred_correct (- binary64_pos (- a))), <- Hq.
      specialize (Hmin (- g)%Q (is_float_opp g Hg)).
      setoid_replace (- binary64_pos (- a) - a)%Q
        with (- (binary64_pos (- a) - - a))%Q by ring.
      setoid_replace (g - a)%Q with (- (- g - - a))%Q by ring.
      rewrite !Qabs_opp. exact Hmin.
  - apply Qgt_alt in C.
    destruct (binary64_pos_nearest a C) as [Hf Hmin]. split.
    + apply (is_float_comp (binary64_pos a)); [symmetry; apply Qred_correct | assumption].
    + intros g Hg. rewrite (Qred_correct (binary64_pos a)), <- Hq. apply Hmin. assumption.
Qed.

(** What [round] returns for a float. *)
Lemma py_round_float_round (q : Q) (ndigits : Z) (v : value) :
  0 <= ndigits -> py_round (VFloat q) ndigits = Ok v -> float_round q ndigits v.
Proof.
  intros Hn H. injection H as <-.
  exists (round_half_even q ndigits), (binary64 (round_half_even q ndigits)).
  split; [apply round_half_even_rounds_to; assumption |].
  split; [apply binary64_nearest | split; reflexivity].
Qed.

(** [float_round] determines the value. *)
Lemma float_round_functional (q : Q) (ndigits : Z) (v v' : value) :
  0 <= ndigits -> float_round q ndigits v -> float_round q ndigits v' -> v = v'.
Proof.
  intros Hn [d [f [Hd [_ [-> ->]]]]] [d' [f' [Hd' [_ [-> ->]]]]].
  rewrite (binary64_comp d d' (rounds_to_unique q ndigits d d' Hn Hd Hd')).
  reflexivity.
Qed.

(** What [round] returns for a number. *)
Lemma py_round_number_round (x v : value) (ndigits : Z) :
  0 <= ndigits -> py_round x ndigits = Ok v -> number_round x ndigits v.
Proof.
  intros Hn H. destruct x as [| b | z | q | | |]; try discriminate.
  - injection H as <-. eexists. split; reflexivity.
  - injection H as <-. eexists. split; reflexivity.
  - apply py_round_float_round; assumption.
Qed.

(** The quotient of two ints. *)
Lemma py_truediv_ints (x y : Z) (c : value) :
  py_truediv (VInt x) (VInt y) = Ok c ->
  y <> 0 /\ c = VFloat (binary64 (inject_Z x / inject_Z y)).
Proof.
  unfold py_truediv. cbn [as_int].
  destruct (y =? 0) eqn:E; [discriminate |].
  intros H. injection H as <-. apply Z.eqb_neq in E. auto.
Qed.

Lemma Qlt_bool_true (a b : Q) : Qlt_bool a b = true -> (a < b)%Q.
Proof.
  unfold Qlt_bool. intros H. apply negb_true_iff in H.
  apply Qnot_le_lt. intros Hle. apply Qle_bool_iff in Hle. congruence.
Qed.

Lemma Qlt_bool_false (a b : Q) : Qlt_bool a b = false -> (b <= a)%Q.
Proof.
  unfold Qlt_bool. intros H. apply negb_false_iff in H.
  apply Qle_bool_iff. assumption.
Qed.

Lemma numeric_as_number (x : value) :
  numeric x = true -> exists q, as_number x = Some q.
Proof. unfold numeric. destruct (as_number x); [eauto | discriminate]. Qed.

Lemma py_lt_numeric (x y : value) :
  numeric x = true -> numeric y = true ->
  exists b, py_lt x y = Ok b /\ (if b : bool then num_le x y else num_le y x).
Proof.
  intros Hx Hy.
  destruct (numeric_as_number x Hx) as [p Hp].
  destruct (numeric_as_number y Hy) as [q Hq].
  unfold py_lt, num_le. rewrite Hp, Hq.
  exists (Qlt_bool p q). split; [reflexivity |].
  destruct (Qlt_bool p q) eqn:E.
  - apply Qlt_le_weak. apply Qlt_bool_true. assumption.
  - apply Qlt_bool_false. assumption.
Qed.

Lemma num_le_trans (x y z : value) : num_le x y -> num_le y z -> num_le x z.
Proof.
  unfold num_le.
  destruct (as_number x), (as_number y), (as_number z); try tauto.
  apply Qle_trans.
Qed.

(** [sorted] succeeds on numbers and returns them in ascending order. *)
Lemma sorted_numeric (xs : list value) :
  Forall (fun x => numeric x = true) xs ->
  exists s, sorted xs = Ok s /\ Permutation xs s /\ StronglySorted num_le s.
Proof.
  intros H. unfold sorted.
  apply (sort_sorted py_lt (fun x => numeric x = true) num_le);
    [apply py_lt_numeric | apply num_le_trans | assumption].
Qed.

Lemma py_add_numeric (a b : value) :
  numeric a = true -> numeric b = true ->
  exists c, py_add a b = Ok c /\ numeric c = true.
Proof.
  intros Ha Hb.
  destruct a; try discriminate Ha; destruct b; try discriminate Hb;
    eexists; split; reflexivity.
Qed.

Lemma sum_from_numeric (xs : list value) (start : value) :
  numeric start = true -> Forall (fun x => numeric x = true) xs ->
  exists total, sum_from start xs = Ok total /\ numeric total = true.
Proof.
  revert start. induction xs as [| x xs IH]; simpl; intros start Hs Hxs.
  - eauto.
  - inversion Hxs as [| ? ? Hx Hxs']; subst.
    destruct (py_add_numeric start x Hs Hx) as [c [Hc Hn]]. rewrite Hc. simpl.
    apply IH; assumption.
Qed.

Lemma py_truediv_len (total : value) (n : Z) :
  numeric total = true -> n <> 0 ->
  exists q, py_truediv total (VInt n) = Ok (VFloat q).
Proof.
  intros Ht Hn. unfold py_truediv.
  destruct total; try discriminate Ht; cbn [as_int to_float].
  - apply Z.eqb_neq in Hn. rewrite Hn. eauto.
  - apply Z.eqb_neq in Hn. rewrite Hn. eauto.
  - destruct (Qeq_bool (binary64 (inject_Z n)) 0) eqn:E; [| eauto].
    apply Qeq_bool_iff in E. exfalso.
    apply (binary64_integer_nonzero n Hn). assumption.
Qed.

Lemma py_round_numeric (x : value) (ndigits : Z) :
  numeric x = true -> exists v, py_round x ndigits = Ok v /\ numeric v = true.
Proof.
  destruct x; simpl; try discriminate; intros _; eexists; split; reflexivity.
Qed.

Lemma min_from_numeric (xs : list value) (best : value) :
  numeric best = true -> Forall (fun x => numeric x = true) xs ->
  exists v, min_from best xs = Ok v /\ numeric v = true.
Proof.
  revert best. induction xs as [| x xs IH]; simpl; intros best Hb Hxs.
  - eauto.
  - inversion Hxs as [| ? ? Hx Hxs']; subst.
    destruct (py_lt_numeric x best Hx Hb) as [b [Hlt _]]. rewrite Hlt. simpl.
    apply IH; [destruct b |]; assumption.
Qed.

Lemma max_from_numeric (xs : list value) (best : value) :
  numeric best = true -> Forall (fun x => numeric x = true) xs ->
  exists v, max_from best xs = Ok v /\ numeric v = true.
Proof.
  revert best. induction xs as [| x xs IH]; simpl; intros best Hb Hxs.
  - eauto.
  - inversion Hxs as [| ? ? Hx Hxs']; subst.
    destruct (py_lt_numeric best x Hb Hx) as [b [Hlt _]]. rewrite Hlt. simpl.
    apply IH; [destruct b |]; assumption.
Qed.

Lemma len_nonneg {A : Type} (xs : list A) : 0 <= len xs.
Proof. unfold len. lia. Qed.

Lemma len_cons {A : Type} (x : A) (xs : list A) : len (x :: xs) = len xs + 1.
Proof. unfold len. simpl List.length. lia. Qed.

Lemma len_app {A : Type} (xs ys : list A) : len (xs ++ ys) = len xs + len ys.
Proof. unfold len. rewrite length_app. lia. Qed.

Lemma len_Permutation {A : Type} (xs ys : list A) :
  Permutation xs ys -> len xs = len ys.
Proof. intros H. unfold len. rewrite (Permutation_length H). reflexivity. Qed.

(** An index within bounds selects an element. *)
Lemma index_in_range {A : Type} (xs : list A) (i : Z) :
  0 <= i < len xs -> exists x, index xs i = Ok x /\ In x xs.
Proof.
  intros [Hlo Hhi]. unfold index.
  destruct (i <? 0) eqn:E; [apply Z.ltb_lt in E; lia |]. rewrite E.
  destruct (nth_error xs (Z.to_nat i)) as [x |] eqn:En.
  - exists x. split; [reflexivity |]. eapply nth_error_In; eassumption.
  - apply nth_error_None in En. unfold len in Hhi. lia.
Qed.

(** ** The percentile index *)

Lemma trunc_nonneg_floor (q : Q) : (0 <= q)%Q -> trunc q = Qfloor q.
Proof.
  destruct q as [n d]. unfold Qle, trunc, Qfloor. simpl. intros H.
  apply Z.quot_div_nonneg; lia.
Qed.

(** In exact arithmetic [int(n * p)] is the floor of the product. *)
Lemma percentile_index_floor (n : Z) (p : Q) :
  0 <= n -> (0 <= p)%Q ->
  Comparison.percentile_index n p = Qfloor (inject_Z n * p).
Proof.
  intros Hn Hp. unfold Comparison.percentile_index.
  apply trunc_nonneg_floor. apply Qmult_le_0_compat; [| assumption].
  unfold Qle. simpl. lia.
Qed.

Lemma floor_p95 (n : Z) : Qfloor (inject_Z n * Comparison.p95) = n * 95 / 100.
Proof. unfold Qfloor, Comparison.p95. simpl. reflexivity. Qed.

Lemma floor_p99 (n : Z) : Qfloor (inject_Z n * Comparison.p99) = n * 99 / 100.
Proof. unfold Qfloor, Comparison.p99. simpl. reflexivity. Qed.

Lemma floor_p95_range (n : Z) :
  1 <= n -> 0 <= Qfloor (inject_Z n * Comparison.p95) < n.
Proof.
  intros H. rewrite floor_p95. split.
  - apply Z.div_pos; lia.
  - apply Z.div_lt_upper_bound; lia.
Qed.

Lemma floor_p99_range (n : Z) :
  1 <= n -> 0 <= Qfloor (inject_Z n * Comparison.p99) < n.
Proof.
  intros H. rewrite floor_p99. split.
  - apply Z.div_pos; lia.
  - apply Z.div_lt_upper_bound; lia.
Qed.

(** ** The summary of one group *)

Ltac step H := rewrite H; cbn [bind].

Lemma min_from_In (xs : list value) (best v : value) :
  min_from best xs = Ok v -> In v (best :: xs).
Proof.
  revert best. induction xs as [| x xs IH]; simpl; intros best H.
  - injection H as <-. auto.
  - inv_bind H. apply IH in H. destruct a, H as [<- | H]; auto.
Qed.

Lemma py_min_numeric (xs : list value) :
  Forall (fun x => numeric x = true) xs -> 1 <= len xs ->
  exists v, py_min xs = Ok v /\ numeric v = true /\ In v xs.
Proof.
  intros H Hlen. destruct xs as [| x xs]; [unfold len in Hlen; simpl in Hlen; lia |].
  inversion H as [| ? ? Hx Hxs]; subst. simpl.
  destruct (min_from_numeric xs x Hx Hxs) as [v [Hv Hn]].
  exists v. repeat split; [assumption | assumption |].
  apply min_from_In. assumption.
Qed.

Lemma py_max_numeric (xs : list value) :
  Forall (fun x => numeric x = true) xs -> 1 <= len xs ->
  exists v, py_max xs = Ok v /\ numeric v = true.
Proof.
  intros H Hlen. destruct xs as [| x xs]; [unfold len in Hlen; simpl in Hlen; lia |].
  inversion H as [| ? ? Hx Hxs]; subst. simpl.
  apply max_from_numeric; assumption.
Qed.

Lemma stat_at_numeric (xs : list value) (i : Z) :
  Forall (fun x => numeric x = true) xs -> 0 <= i < len xs ->
  exists x v, index xs i = Ok x /\ py_round x 2 = Ok v.
Proof.
  intros H Hi. destruct (index_in_range xs i Hi) as [x [Hx Hin]].
  rewrite Forall_forall in H.
  destruct (py_round_numeric x 2 (H x Hin)) as [v [Hv _]]. eauto.
Qed.

(** The percentile expression selects the element at [floor(L * p)], also
    when its guard takes the single-element branch. *)
Lemma percentile_spec (xs : list value) (p : Q) :
  Forall (fun x => numeric x = true) xs -> 1 <= len xs ->
  0 <= Qfloor (inject_Z (len xs) * p) < len xs -> (0 <= p)%Q ->
  exists v, Comparison.percentile xs p = Ok v
            /\ stat_at xs (Qfloor (inject_Z (len xs) * p)) v.
Proof.
  intros H Hlen Hrange Hp. unfold Comparison.percentile, stat_at.
  destruct (1 <? len xs) eqn:E.
  - rewrite percentile_index_floor by (assumption || lia).
    destruct (stat_at_numeric xs _ H Hrange) as [x [v [Hx Hv]]].
    step Hx. rewrite Hv. exists v. split; [reflexivity |]. exists x.
    repeat split; [assumption .. | apply py_round_number_round; [lia | assumption]].
  - apply Z.ltb_ge in E. assert (Hone : len xs = 1) by lia.
    rewrite Hone in *. assert (Hz : Qfloor (inject_Z 1 * p) = 0) by lia.
    rewrite Hz.
    destruct (stat_at_numeric xs 0 H) as [x [v [Hx Hv]]]; [lia |].
    step Hx. rewrite Hv. exists v. split; [reflexivity |]. exists x.
    repeat split; [assumption .. | apply py_round_number_round; [lia | assumption]].
Qed.

Lemma summarize_latency_spec (xs : list value) :
  Forall (fun x => numeric x = true) xs -> 1 <= len xs ->
  exists lat, Comparison.summarize_latency xs = Ok lat
    /\ (exists m, py_min xs = Ok m /\ In m xs
                  /\ py_round m 2 = Ok (Comparison.min_ms lat))
    /\ stat_at xs (len xs / 2) (Comparison.median_ms lat)
    /\ stat_at xs (Qfloor (inject_Z (len xs) * Comparison.p95)) (Comparison.p95_ms lat)
    /\ stat_at xs (Qfloor (inject_Z (len xs) * Comparison.p99)) (Comparison.p99_ms lat).
Proof.
  intros H Hlen. unfold Comparison.summarize_latency.
  destruct (sum_from_numeric xs (VInt 0) eq_refl H) as [total [Ht Hnt]].
  unfold py_sum. step Ht.
  destruct (py_truediv_len total (len xs) Hnt) as [avg Havg]; [lia |]. step Havg.
  cbn [py_round].
  destruct (py_min_numeric xs H Hlen) as [mn [Hmn [Hnmn Hin]]]. step Hmn.
  destruct (py_round_numeric mn 2 Hnmn) as [mn' [Hmn' _]]. step Hmn'.
  destruct (py_max_numeric xs H Hlen) as [mx [Hmx Hnmx]]. step Hmx.
  destruct (py_round_numeric mx 2 Hnmx) as [mx' [Hmx' _]]. step Hmx'.
  assert (Hmid : 0 <= len xs / 2 < len xs).
  { split; [apply Z.div_pos; lia | apply Z.div_lt_upper_bound; lia]. }
  destruct (stat_at_numeric xs _ H Hmid) as [med [med' [Hmed Hmed']]].
  step Hmed. step Hmed'.
  destruct (percentile_spec xs Comparison.p95 H Hlen) as [q95 [Hq95 Hs95]];
    [apply floor_p95_range; assumption | discriminate |].
  step Hq95.
  destruct (percentile_spec xs Comparison.p99 H Hlen) as [q99 [Hq99 Hs99]];
    [apply floor_p99_range; assumption | discriminate |].
  step Hq99.
  eexists. split; [reflexivity |]. cbn.
  repeat split; try assumption.
  - exists mn. auto.
  - exists med.
    repeat split; [assumption .. | apply py_round_number_round; [lia | assumption]].
Qed.

Lemma summarize_processing_time_spec (xs : list value) :
  Forall (fun x => numeric x = true) xs -> 1 <= len xs ->
  exists pt, Comparison.summarize_processing_time xs = Ok pt.
Proof.
  intros H Hlen. unfold Comparison.summarize_processing_time.
  destruct (sum_from_numeric xs (VInt 0) eq_refl H) as [total [Ht Hnt]].
  unfold py_sum. step Ht.
  destruct (py_truediv_len total (len xs) Hnt) as [avg Havg]; [lia |]. step Havg.
  cbn [py_round].
  destruct (py_min_numeric xs H Hlen) as [mn [Hmn [Hnmn Hin]]]. step Hmn.
  destruct (py_round_numeric mn 2 Hnmn) as [mn' [Hmn' _]]. step Hmn'.
  destruct (py_max_numeric xs H Hlen) as [mx [Hmx Hnmx]]. step Hmx.
  destruct (py_round_numeric mx 2 Hnmx) as [mx' [Hmx' _]]. step Hmx'.
  eauto.
Qed.

Lemma summarize_spec (s : Comparison.stats) :
  Forall (fun x => numeric x = true) (Comparison.s_latencies s) ->
  Forall (fun x => numeric x = true) (Comparison.s_processing_times s) ->
  1 <= len (Comparison.s_latencies s) ->
  1 <= len (Comparison.s_processing_times s) ->
  Comparison.s_count s <> 0 ->
  exists entry, Comparison.summarize s = Ok entry /\ Spec.summary_of s entry.
Proof.
  intros Hl Hp Hnl Hnp Hc. unfold Comparison.summarize.
  destruct (sorted_numeric _ Hl) as [xs [Hxs [Hperm Hsorted]]]. step Hxs.
  destruct (sorted_numeric _ Hp) as [ys [Hys [Hperm' _]]]. step Hys.
  assert (Hxn : Forall (fun x => numeric x = true) xs)
    by (eapply Permutation_Forall; eassumption).
  assert (Hyn : Forall (fun x => numeric x = true) ys)
    by (eapply Permutation_Forall; eassumption).
  destruct (summarize_latency_spec xs Hxn) as [lat [Hlat Hfacts]];
    [rewrite <- (len_Permutation _ _ Hperm); assumption |].
  step Hlat.
  destruct (summarize_processing_time_spec ys Hyn) as [pt Hpt];
    [rewrite <- (len_Permutation _ _ Hperm'); assumption |].
  step Hpt.
  destruct (py_truediv_len (VInt (Comparison.s_successful s))
              (Comparison.s_count s) eq_refl Hc) as [rate Hrate].
  step Hrate. cbn [py_round].
  eexists. split; [reflexivity |].
  unfold summary_of. cbn.
  repeat split.
  - exists (VFloat rate). split; [assumption | reflexivity].
  - exists xs. tauto.
Qed.

(** ** Dictionary keys *)

Lemma key_eqb_sym (a b : value) : key_eqb a b = key_eqb b a.
Proof.
  unfold key_eqb.
  destruct (as_number a) as [p |] eqn:Ea, (as_number b) as [q |] eqn:Eb.
  - destruct (Qeq_bool p q) eqn:E1, (Qeq_bool q p) eqn:E2; try reflexivity.
    + apply Qeq_bool_iff in E1. symmetry in E1. apply Qeq_bool_iff in E1. congruence.
    + apply Qeq_bool_iff in E2. symmetry in E2. apply Qeq_bool_iff in E2. congruence.
  - destruct a, b; simpl in *; try discriminate; reflexivity.
  - destruct a, b; simpl in *; try discriminate; reflexivity.
  - destruct a, b; simpl in *; try discriminate; try reflexivity.
    apply String.eqb_sym.
Qed.

Lemma key_eqb_trans (a b c : value) :
  key_eqb a b = true -> key_eqb b c = true -> key_eqb a c = true.
Proof.
  unfold key_eqb.
  destruct (as_number a) as [p |] eqn:Ea, (as_number b) as [q |] eqn:Eb,
           (as_number c) as [r |] eqn:Ec.
  - intros H1 H2. apply Qeq_bool_iff in H1. apply Qeq_bool_iff in H2.
    apply Qeq_bool_iff. rewrite H1. assumption.
  - destruct b, c; simpl in *; try discriminate.
  - destruct a, b; simpl in *; try discriminate.
  - destruct a, b; simpl in *; try discriminate.
  - destruct a, b; simpl in *; try discriminate.
  - destruct a, b; simpl in *; try discriminate.
  - destruct b, c; simpl in *; try discriminate.
  - destruct a, b, c; simpl in *; try discriminate; try (intros; reflexivity).
    intros H1 H2. apply String.eqb_eq in H1. apply String.eqb_eq in H2.
    apply String.eqb_eq. congruence.
Qed.

Lemma key_eqb_refl (a : value) : hashable a = true -> key_eqb a a = true.
Proof.
  unfold key_eqb. destruct a; simpl; try discriminate; intros _;
    try reflexivity; try (apply Qeq_bool_iff; reflexivity).
  apply String.eqb_refl.
Qed.

(** A key equal to a string is that string. *)
Lemma key_eqb_str (k : value) (s : string) :
  key_eqb k (VStr s) = true -> k = VStr s.
Proof.
  unfold key_eqb. destruct k; simpl; try discriminate.
  intros H. apply String.eqb_eq in H. congruence.
Qed.

(** ** The grouping loop *)

Section Grouping.
Import Comparison.

Lemma update_keys (k : value) (f : stats -> stats) (m : list (value * stats))
    (k' : value) (s' : stats) :
  In (k', s') (update k f m) -> (exists s, In (k', s) m) \/ k' = k.
Proof.
  induction m as [| [k1 s1] m IH]; simpl.
  - intros [H | []]. injection H as <- <-. auto.
  - destruct (key_eqb k1 k).
    + intros [H | H]; [injection H as <- <- | ]; left; eauto.
    + intros [H | H]; [injection H as <- <-; left; eauto |].
      destruct (IH H) as [[s Hs] | ->]; [left | right]; eauto.
Qed.

Lemma update_keeps (k : value) (f : stats -> stats) (m : list (value * stats))
    (k' : value) (s : stats) :
  In (k', s) m -> exists s', In (k', s') (update k f m).
Proof.
  induction m as [| [k1 s1] m IH]; simpl; [tauto |].
  destruct (key_eqb k1 k); intros [H | H].
  - injection H as <- <-. eexists. left. reflexivity.
  - eexists. right. eassumption.
  - injection H as <- <-. eexists. left. reflexivity.
  - destruct (IH H) as [s' Hs']. eexists. right. eassumption.
Qed.

Lemma update_has_key (k : value) (f : stats -> stats) (m : list (value * stats)) :
  hashable k = true ->
  exists k' s', In (k', s') (update k f m) /\ key_eqb k' k = true.
Proof.
  intros Hk. induction m as [| [k1 s1] m IH]; simpl.
  - exists k, (f default_stats). split; [auto | apply key_eqb_refl; assumption].
  - destruct (key_eqb k1 k) eqn:E.
    + exists k1, (f s1). split; [left; reflexivity | assumption].
    + destruct IH as [k' [s' [Hin He]]]. exists k', s'. split; [right |]; assumption.
Qed.

Lemma update_distinct (k : value) (f : stats -> stats) (m : list (value * stats)) :
  distinct_keys m -> distinct_keys (update k f m).
Proof.
  unfold distinct_keys. induction m as [| [k1 s1] m IH]; simpl; intros H.
  - repeat constructor.
  - inversion H as [| ? ? Hhd Htl]; subst.
    destruct (key_eqb k1 k) eqn:E.
    + constructor; assumption.
    + constructor; [| apply IH; assumption].
      apply Forall_forall. intros [k' s'] Hin. simpl.
      destruct (update_keys _ _ _ _ _ Hin) as [[s Hs] | ->]; [| assumption].
      rewrite Forall_forall in Hhd. apply (Hhd (k', s) Hs).
Qed.

(** The three ways an entry of the updated dictionary arises, when the
    keys were distinct: it is the updated entry of the key, an untouched
    entry of another key, or the fresh entry of a key not yet present. *)
Lemma update_cases (k : value) (f : stats -> stats) (m : list (value * stats))
    (k' : value) (s' : stats) :
  distinct_keys m -> In (k', s') (update k f m) ->
  (exists s, In (k', s) m /\ key_eqb k' k = true /\ s' = f s)
  \/ (In (k', s') m /\ key_eqb k' k = false)
  \/ (k' = k /\ s' = f default_stats
      /\ forall k2 s2, In (k2, s2) m -> key_eqb k2 k = false).
Proof.
  unfold distinct_keys. induction m as [| [k1 s1] m IH]; simpl; intros Hd Hin.
  - destruct Hin as [H | []]. injection H as <- <-.
    right. right. repeat split; tauto.
  - inversion Hd as [| ? ? Hhd Htl]; subst.
    destruct (key_eqb k1 k) eqn:E.
    + destruct Hin as [H | H].
      * injection H as <- <-. left. exists s1. auto.
      * right. left. split; [auto |].
        rewrite Forall_forall in Hhd. specialize (Hhd _ H). simpl in Hhd.
        destruct (key_eqb k' k) eqn:E'; [| reflexivity].
        rewrite key_eqb_sym in E'.
        rewrite (key_eqb_trans _ _ _ E E') in Hhd. discriminate.
    + destruct Hin as [H | H].
      * injection H as <- <-. right. left. auto.
      * destruct (IH Htl H) as [[s [Hs [He Hf]]] | [[Hs He] | [-> [-> Hall]]]].
        -- left. exists s. auto.
        -- right. left. auto.
        -- right. right. repeat split.
           intros k2 s2 [H2 | H2]; [injection H2 as <- <-; assumption | eauto].
Qed.

Lemma group_snoc (k : value) (seen : list value) (x : value) :
  group k (seen ++ [x]) = group k seen ++ (if in_group k x then [x] else []).
Proof. unfold group. rewrite filter_app. simpl. destruct (in_group k x); reflexivity. Qed.

Lemma accumulates_hit (seen : list value) (k : value) (s : stats) (x : value) :
  accumulates seen k s -> in_group k x = true ->
  accumulates (seen ++ [x]) k
    (record_metric (latency_of x) (processing_time_of x) (status_of x) s).
Proof.
  unfold accumulates. intros [Hl [Hp [Hc [Hs Hf]]]] Hin.
  rewrite group_snoc, Hin. unfold record_metric.
  cbn [s_latencies s_processing_times s_count s_successful s_failed].
  rewrite !map_app, !filter_app, !len_app, Hl, Hp, Hc, Hs, Hf.
  cbn [map filter]. unfold is_successful.
  destruct (eq_str (status_of x) "successful"); cbn [negb];
    repeat split; unfold len; cbn [List.length]; lia.
Qed.

Lemma accumulates_miss (seen : list value) (k : value) (s : stats) (x : value) :
  accumulates seen k s -> in_group k x = false -> accumulates (seen ++ [x]) k s.
Proof.
  unfold accumulates. intros H Hin. rewrite group_snoc, Hin, app_nil_r. assumption.
Qed.

(** One iteration of the loop keeps the dictionary in step with the
    metrics seen. *)
Lemma group_metric_grouped (seen : list value) (m : list (value * stats)) (x : value) :
  grouped seen m -> well_formed x = true ->
  exists m', group_metric m x = Ok m' /\ grouped (seen ++ [x]) m'.
Proof.
  intros [Hd [Hacc Hcov]] Hwf. unfold well_formed in Hwf.
  apply andb_prop in Hwf. destruct Hwf as [Hwf Hpt].
  apply andb_prop in Hwf. destruct Hwf as [Hwf Hlat].
  apply andb_prop in Hwf. destruct Hwf as [Hdict Hhash].
  destruct x as [| | | | | | d]; try discriminate.
  unfold group_metric. cbn [py_get bind].
  change (match assoc "queue_type" d with Some v => v | None => VStr "unknown" end)
    with (queue_type_of (VDict d)).
  change (match assoc "latency_ms" d with Some v => v | None => VInt 0 end)
    with (latency_of (VDict d)).
  change (match assoc "processing_time_ms" d with Some v => v | None => VInt 0 end)
    with (processing_time_of (VDict d)).
  change (match assoc "status" d with Some v => v | None => VNone end)
    with (status_of (VDict d)).
  rewrite Hhash. cbn [negb].
  eexists. split; [reflexivity |].
  set (x := VDict d) in *.
  set (f := record_metric (latency_of x) (processing_time_of x) (status_of x)).
  assert (Hfresh : (forall k2 s2, In (k2, s2) m -> key_eqb k2 (queue_type_of x) = false)
                   -> group (queue_type_of x) seen = []).
  { intros Hall. unfold group.
    destruct (filter (in_group (queue_type_of x)) seen) as [| y ys] eqn:Ef;
      [reflexivity |].
    assert (Hy : In y (filter (in_group (queue_type_of x)) seen))
      by (rewrite Ef; left; reflexivity).
    apply filter_In in Hy. destruct Hy as [Hy1 Hy2].
    destruct (Hcov y Hy1) as [k2 [s2 [Hin2 Hg2]]].
    specialize (Hall _ _ Hin2).
    unfold in_group in Hy2, Hg2. rewrite key_eqb_sym in Hy2.
    rewrite (key_eqb_trans _ _ _ Hg2 Hy2) in Hall. discriminate. }
  split; [apply update_distinct; assumption | split].
  - intros k s H.
    destruct (update_cases _ _ _ _ _ Hd H)
      as [[s0 [Hs0 [He ->]]] | [[Hs He] | [-> [-> Hall]]]].
    + split.
      * apply accumulates_hit; [apply (Hacc _ _ Hs0) | exact He].
      * rewrite group_snoc. unfold in_group. rewrite He. intros Habs.
        apply app_eq_nil in Habs. destruct Habs; discriminate.
    + split.
      * apply accumulates_miss; [apply (Hacc _ _ Hs) | exact He].
      * rewrite group_snoc. unfold in_group. rewrite He, app_nil_r.
        apply (Hacc _ _ Hs).
    + split.
      * apply accumulates_hit.
        -- unfold accumulates. rewrite (Hfresh Hall). cbn. repeat split.
        -- unfold in_group. apply key_eqb_refl. assumption.
      * rewrite group_snoc. unfold in_group. rewrite (key_eqb_refl _ Hhash).
        intros Habs. apply app_eq_nil in Habs. destruct Habs; discriminate.
  - intros y Hy. apply in_app_or in Hy. destruct Hy as [Hy | [<- | []]].
    + destruct (Hcov y Hy) as [k [s [Hin Hg]]].
      destruct (update_keeps (queue_type_of x) f m k s Hin) as [s' Hs'].
      exists k, s'. auto.
    + destruct (update_has_key (queue_type_of x) f m Hhash) as [k' [s' [Hin He]]].
      exists k', s'. auto.
Qed.

Lemma group_metrics_grouped (rest seen : list value) (m : list (value * stats)) :
  grouped seen m -> Forall (fun x => well_formed x = true) rest ->
  exists m', group_metrics m rest = Ok m' /\ grouped (seen ++ rest) m'.
Proof.
  revert seen m. induction rest as [| x rest IH]; simpl; intros seen m Hg Hwf.
  - exists m. rewrite app_nil_r. auto.
  - inversion Hwf as [| ? ? Hx Hrest]; subst.
    destruct (group_metric_grouped seen m x Hg Hx) as [m1 [Hm1 Hg1]].
    step Hm1.
    destruct (IH (seen ++ [x]) m1 Hg1 Hrest) as [m' [Hm' Hg']].
    exists m'. rewrite <- app_assoc in Hg'. auto.
Qed.

Lemma grouped_nil : grouped [] [].
Proof.
  split; [constructor | split]; simpl; intros; tauto.
Qed.
End Grouping.

(** ** [calculate_statistics] *)

Lemma summarize_all_spec (m : list (value * Comparison.stats)) :
  (forall k s, In (k, s) m ->
     Comparison.s_count s <> 0 /\ exists e, Comparison.summarize s = Ok e) ->
  exists summary,
    Comparison.summarize_all m = Ok summary
    /\ Forall2 (fun ks ke => fst ks = fst ke
                             /\ Comparison.summarize (snd ks) = Ok (snd ke))
         m summary.
Proof.
  induction m as [| [k s] m IH]; simpl; intros H.
  - eexists; split; [reflexivity | constructor].
  - destruct (H k s (or_introl eq_refl)) as [Hc [e He]].
    destruct (Comparison.s_count s =? 0) eqn:E; [apply Z.eqb_eq in E; contradiction |].
    step He.
    destruct IH as [summary [Hs Hall]];
      [intros k' s' Hin; apply (H k' s'); right; assumption |].
    step Hs. eexists; split; [reflexivity |].
    constructor; [split; [reflexivity | assumption] | assumption].
Qed.

Lemma group_well_formed (k : value) (metrics : list value) :
  Forall (fun x => well_formed x = true) metrics ->
  Forall (fun x => numeric x = true) (map latency_of (group k metrics))
  /\ Forall (fun x => numeric x = true) (map processing_time_of (group k metrics)).
Proof.
  intros H. rewrite Forall_forall in H.
  split; apply Forall_map; apply Forall_forall; intros x Hx;
    apply filter_In in Hx; destruct Hx as [Hx _]; specialize (H x Hx);
    unfold well_formed in H; repeat (apply andb_prop in H; destruct H as [H ?]);
    assumption.
Qed.

Lemma len_map {A B : Type} (f : A -> B) (xs : list A) : len (map f xs) = len xs.
Proof. unfold len. rewrite length_map. reflexivity. Qed.

Lemma len_pos {A : Type} (xs : list A) : xs <> [] -> 1 <= len xs.
Proof. destruct xs; [congruence |]. intros _. rewrite len_cons. pose proof (len_nonneg xs). lia. Qed.

(** On well-formed metrics the function returns, and its summary has one
    entry per group of the grouping loop, computed by [summarize]. *)
Lemma calculate_statistics_spec (metrics : list value) :
  Forall (fun x => well_formed x = true) metrics ->
  exists m summary,
    Comparison.calculate_statistics metrics = Ok summary
    /\ grouped metrics m
    /\ Forall2 (fun ks ke => fst ks = fst ke
                             /\ Spec.summary_of (snd ks) (snd ke)) m summary.
Proof.
  intros Hwf. unfold Comparison.calculate_statistics.
  destruct (group_metrics_grouped metrics [] [] grouped_nil Hwf) as [m [Hm Hg]].
  simpl in Hg. step Hm.
  assert (Hall : forall k s, In (k, s) m ->
            Comparison.s_count s <> 0
            /\ exists e, Comparison.summarize s = Ok e /\ Spec.summary_of s e).
  { intros k s Hin. destruct Hg as [_ [Hacc _]].
    destruct (Hacc k s Hin) as [[Hl [Hp [Hc _]]] Hne].
    destruct (group_well_formed k metrics Hwf) as [Hnl Hnp].
    pose proof (len_pos _ Hne) as Hpos.
    assert (Hc' : Comparison.s_count s <> 0) by lia.
    split; [assumption |].
    apply summarize_spec; rewrite ?Hl, ?Hp, ?len_map; assumption. }
  destruct (summarize_all_spec m) as [summary [Hs Hf2]].
  { intros k s Hin. destruct (Hall k s Hin) as [Hc [e [He _]]]. eauto. }
  exists m, summary. split; [assumption | split; [exact Hg |]].
  clear Hs Hg Hm. induction Hf2 as [| [k s] [k' e] m summary [Hk He] Hf2 IH]; constructor.
  - simpl in *. split; [assumption |].
    destruct (Hall k s (or_introl eq_refl)) as [_ [e' [He' Hsum]]].
    congruence.
  - apply IH. intros k1 s1 Hin1. apply (Hall k1 s1). right. assumption.
Qed.

Lemma Forall2_In_r {A B : Type} (R : A -> B -> Prop) (xs : list A) (ys : list B) (y : B) :
  Forall2 R xs ys -> In y ys -> exists x, In x xs /\ R x y.
Proof.
  induction 1 as [| x y' xs ys Hxy Hrest IH]; simpl; [tauto |].
  intros [<- | Hin]; [eauto |]. destruct (IH Hin) as [x' [Hx' HR]]. eauto.
Qed.

Lemma Forall2_In_l {A B : Type} (R : A -> B -> Prop) (xs : list A) (ys : list B) (x : A) :
  Forall2 R xs ys -> In x xs -> exists y, In y ys /\ R x y.
Proof.
  induction 1 as [| x' y xs ys Hxy Hrest IH]; simpl; [tauto |].
  intros [<- | Hin]; [eauto |]. destruct (IH Hin) as [y' [Hy' HR]]. eauto.
Qed.

(** Every entry of the summary is the summary of the accumulator of its
    group. *)
Lemma calculate_statistics_entry (metrics : list value) :
  Forall (fun x => well_formed x = true) metrics ->
  exists summary,
    Comparison.calculate_statistics metrics = Ok summary
    /\ (forall k entry, In (k, entry) summary ->
          group k metrics <> []
          /\ exists s, accumulates metrics k s /\ Spec.summary_of s entry)
    /\ (forall x, In x metrics ->
          exists k entry, In (k, entry) summary /\ in_group k x = true)
    /\ ForallOrdPairs (fun a b => key_eqb (fst a) (fst b) = false) summary.
Proof.
  intros Hwf.
  destruct (calculate_statistics_spec metrics Hwf) as [m [summary [Hs [Hg Hf2]]]].
  exists summary. split; [assumption |].
  destruct Hg as [Hd [Hacc Hcov]]. repeat split.
  - destruct (Forall2_In_r _ _ _ _ Hf2 H) as [[k' s] [Hin [Hk _]]].
    simpl in Hk. subst k'. apply (Hacc k s Hin).
  - destruct (Forall2_In_r _ _ _ _ Hf2 H) as [[k' s] [Hin [Hk Hsum]]].
    simpl in Hk, Hsum. subst k'. exists s. split; [apply (Hacc k s Hin) | assumption].
  - intros x Hx. destruct (Hcov x Hx) as [k [s [Hin Hgr]]].
    destruct (Forall2_In_l _ _ _ _ Hf2 Hin) as [[k' e] [Hin' [Hk _]]].
    simpl in Hk. subst k'. eauto.
  - unfold distinct_keys in Hd. clear Hacc Hcov Hs.
    induction Hf2 as [| [k s] [k' e] m summary [Hk He] Hf2 IH]; [constructor |].
    inversion Hd as [| ? ? Hhd Htl]; subst. simpl in Hk. subst k'.
    constructor; [| apply IH; assumption].
    apply Forall_forall. intros [k2 e2] Hin2.
    destruct (Forall2_In_r _ _ _ _ Hf2 Hin2) as [[k3 s3] [Hin3 [Hk3 _]]].
    simpl in Hk3. subst k3. rewrite Forall_forall in Hhd. apply (Hhd _ Hin3).
Qed.

Lemma index_In {A : Type} (xs : list A) (i : Z) (x : A) :
  index xs i = Ok x -> In x xs.
Proof.
  unfold index.
  destruct ((if i <? 0 then i + len xs else i) <? 0); [discriminate |].
  destruct (nth_error xs (Z.to_nat (if i <? 0 then i + len xs else i))) eqn:E;
    [| discriminate].
  intros H. injection H as <-. eapply nth_error_In. eassumption.
Qed.

Lemma stat_at_rounded (lat xs : list value) (i : Z) (v : value) :
  Permutation lat xs -> Forall rounded2 lat -> stat_at xs i v -> index xs i = Ok v.
Proof.
  intros Hperm Hr [x [Hx [Hv _]]].
  assert (Hin : In x lat).
  { eapply Permutation_in; [apply Permutation_sym; exact Hperm |].
    eapply index_In. eassumption. }
  rewrite Forall_forall in Hr. specialize (Hr x Hin). unfold rounded2 in Hr.
  congruence.
Qed.

Lemma stat_at_single (x v : value) : stat_at [x] 0 v -> py_round x 2 = Ok v.
Proof. intros [y [Hy [Hv _]]]. unfold index in Hy. simpl in Hy. congruence. Qed.

(** The percentile convention holds for the summary of every group. *)
Lemma summary_percentile_convention (lat : list value) (s : Comparison.stats)
    (entry : Comparison.stat_summary) :
  Comparison.s_latencies s = lat -> lat <> [] -> summary_of s entry ->
  percentile_convention lat entry.
Proof.
  intros Hl Hne [_ [_ [_ [_ [xs [Hxs [Hperm [Hsorted [Hmin [Hmed [H95 H99]]]]]]]]]]].
  rewrite Hl in *. rewrite <- (len_Permutation _ _ Hperm) in *.
  unfold percentile_convention. split; [apply len_pos; assumption |].
  exists xs. repeat split; try assumption.
  - eapply stat_at_rounded; eassumption.
  - eapply stat_at_rounded; eassumption.
  - eapply stat_at_rounded; eassumption.
  - intros x ->. apply Permutation_length_1_inv in Hperm. subst xs.
    change (len [x]) with 1 in *. change (1 / 2) with 0 in Hmed.
    assert (Hz95 : Qfloor (inject_Z 1 * Comparison.p95) = 0) by reflexivity.
    assert (Hz99 : Qfloor (inject_Z 1 * Comparison.p99) = 0) by reflexivity.
    rewrite Hz95 in H95. rewrite Hz99 in H99.
    apply stat_at_single in Hmed, H95, H99.
    destruct Hmin as [m [Hm [Hin Hr]]]. destruct Hin as [<- | []].
    destruct (py_round x 2) as [v |]; [| discriminate].
    exists v. repeat split; congruence.
Qed.

(** Equal keys select the same group. *)
Lemma group_key_eqb (k q : value) (metrics : list value) :
  key_eqb k q = true -> group k metrics = group q metrics.
Proof.
  intros H. unfold group. apply filter_ext. intros x. unfold in_group.
  destruct (key_eqb k (queue_type_of x)) eqn:Ek, (key_eqb q (queue_type_of x)) eqn:Eq;
    try reflexivity.
  - rewrite key_eqb_sym in H. rewrite (key_eqb_trans _ _ _ H Ek) in Eq. discriminate.
  - rewrite (key_eqb_trans _ _ _ H Eq) in Ek. discriminate.
Qed.

(** ** C1 *)

(** C1.  For every list of well-formed metric records the aggregator returns
    a summary that has an entry for every non-empty group of one queue
    type, and an entry for such groups only.  In the entry of a group the
    latency statistics follow the percentile convention: with [L] the size
    of the group, the latencies are sorted ascending, the median is the
    element at position [floor(L/2)], p95 and p99 are the elements at
    positions [floor(L * 0.95)] and [floor(L * 0.99)] (0-indexed, no
    interpolation), each rounded to 2 decimals by [round] (an int stays, a
    float becomes the float nearest to its nearest multiple of 0.01), which
    leaves a latency stored with 2 decimals unchanged; in a group of one
    record min, median, p95 and p99 are all that record's latency.  For the
    latencies 10, 20, 30, 40, 50 (in any of the two orders tried) the median
    is 30 and p95 and p99 are 50; for the single latency 42 min, median, p95
    and p99 are 42. *)
Theorem C1_percentile_convention :
  (forall metrics : list value,
     Forall (fun x => well_formed x = true) metrics ->
     exists summary,
       Comparison.calculate_statistics metrics = Ok summary
       /\ (forall q, group q metrics <> [] ->
             exists k entry,
               In (k, entry) summary
               /\ key_eqb k q = true
               /\ group k metrics = group q metrics
               /\ percentile_convention (map latency_of (group q metrics)) entry)
       /\ (forall k entry,
             In (k, entry) summary ->
             group k metrics <> []
             /\ percentile_convention (map latency_of (group k metrics)) entry))
  /\ (forall latencies,
        latencies = [VInt 10; VInt 20; VInt 30; VInt 40; VInt 50]
        \/ latencies = [VInt 40; VInt 10; VInt 50; VInt 30; VInt 20] ->
        exists entry,
          Comparison.calculate_statistics (map (metric_with "sqs") latencies)
          = Ok [(VStr "sqs", entry)]
          /\ Comparison.median_ms (Comparison.latency entry) = VInt 30
          /\ Comparison.p95_ms (Comparison.latency entry) = VInt 50
          /\ Comparison.p99_ms (Comparison.latency entry) = VInt 50)
  /\ (exists entry,
        Comparison.calculate_statistics [metric_with "sqs" (VInt 42)]
        = Ok [(VStr "sqs", entry)]
        /\ Comparison.min_ms (Comparison.latency entry) = VInt 42
        /\ Comparison.median_ms (Comparison.latency entry) = VInt 42
        /\ Comparison.p95_ms (Comparison.latency entry) = VInt 42
        /\ Comparison.p99_ms (Comparison.latency entry) = VInt 42).
Proof.
  split; [| split].
  - intros metrics Hwf.
    destruct (calculate_statistics_entry metrics Hwf)
      as [summary [Hs [Hentry [Hcov _]]]].
    exists summary. split; [assumption |].
    assert (Hconv : forall k entry, In (k, entry) summary ->
              group k metrics <> []
              /\ percentile_convention (map latency_of (group k metrics)) entry).
    { intros k entry Hin. destruct (Hentry k entry Hin) as [Hne [s [Hacc Hsum]]].
      split; [assumption |].
      apply (summary_percentile_convention _ s); [apply Hacc | | assumption].
      intros Hnil. apply map_eq_nil in Hnil. contradiction. }
    split; [| exact Hconv].
    intros q Hne.
    destruct (group q metrics) as [| x rest] eqn:Eg; [contradiction |].
    assert (Hx : In x (group q metrics)) by (rewrite Eg; left; reflexivity).
    unfold group in Hx. apply filter_In in Hx. destruct Hx as [Hx Hq].
    destruct (Hcov x Hx) as [k [entry [Hin Hk]]].
    unfold in_group in Hq, Hk.
    assert (Hkq : key_eqb k q = true).
    { apply (key_eqb_trans _ (queue_type_of x)); [assumption |].
      rewrite key_eqb_sym. assumption. }
    exists k, entry. rewrite <- Eg.
    refine (conj Hin (conj Hkq (conj (group_key_eqb k q metrics Hkq) _))).
    rewrite <- (group_key_eqb k q metrics Hkq). apply (Hconv k entry Hin).
  - intros latencies [-> | ->]; eexists; (split; [vm_compute; reflexivity |]);
      repeat split.
  - eexists. split; [vm_compute; reflexivity |]. repeat split.
Qed.

(** The general part of C1 at three stored records of two queues, whose
    latencies have 2 decimals: the group of the queue [sqs] has an entry,
    whose median is the float nearest to 12.34. *)
Lemma C1_percentile_convention_witness :
  let metrics :=
    [metric_with "sqs" (VFloat (binary64 (1234 # 100)));
     metric_with "rabbitmq" (VInt 7);
     metric_with "sqs" (VFloat (binary64 (250 # 100)))] in
  Forall rounded2 (map latency_of metrics)
  /\ exists summary,
       Comparison.calculate_statistics metrics = Ok summary
       /\ (exists k entry,
             In (k, entry) summary
             /\ key_eqb k (VStr "sqs") = true
             /\ percentile_convention
                  (map latency_of (group (VStr "sqs") metrics)) entry
             /\ Comparison.median_ms (Comparison.latency entry)
                = VFloat (binary64 (1234 # 100)))
       /\ forall k entry,
            In (k, entry) summary ->
            percentile_convention (map latency_of (group k metrics)) entry.
Proof.
  assert (H : Forall (fun x => well_formed x = true)
                [metric_with "sqs" (VFloat (binary64 (1234 # 100)));
                 metric_with "rabbitmq" (VInt 7);
                 metric_with "sqs" (VFloat (binary64 (250 # 100)))])
    by (repeat constructor).
  split; [repeat constructor |].
  destruct (proj1 C1_percentile_convention _ H) as [summary [Hs [Hgroup Hall]]].
  exists summary. split; [exact Hs |]. split.
  - destruct (Hgroup (VStr "sqs")) as [k [entry [Hin [Hk [_ Hconv]]]]];
      [discriminate |].
    exists k, entry. refine (conj Hin (conj Hk (conj Hconv _))).
    vm_compute in Hs. injection Hs as <-.
    destruct Hin as [Hin | [Hin | []]]; injection Hin as <- <-;
      [reflexivity | discriminate Hk].
  - intros k entry Hin. apply (Hall k entry Hin).
Defined.

(** ** The percentile index in binary64 *)

Lemma agree_from_spec (fuel : nat) (lo n : Z) :
  Binary64.agree_from fuel lo = true ->
  lo <= n < lo + Z.of_nat fuel -> Binary64.agree_at n = true.
Proof.
  revert lo. induction fuel as [| fuel IH]; simpl Binary64.agree_from; intros lo H Hn.
  - lia.
  - apply andb_prop in H. destruct H as [Hlo Hrest].
    destruct (Z.eq_dec n lo) as [-> | Hne]; [assumption |].
    apply (IH (lo + 1)); [assumption | lia].
Qed.

(** The literals are the binary64 numbers nearest to 0.95 and 0.99: each is
    within half a unit in the last place (2^-54) of the decimal. *)
Lemma literals_nearest :
  (exists q, Binary64.to_Q Binary64.literal_0_95 = Some q
             /\ (Qabs (q - Comparison.p95) <= 1 # 2 ^ 54)%Q)
  /\ (exists q, Binary64.to_Q Binary64.literal_0_99 = Some q
                /\ (Qabs (q - Comparison.p99) <= 1 # 2 ^ 54)%Q).
Proof.
  split; eexists; (split; [reflexivity |]); vm_compute; discriminate.
Qed.

(** [binary64] agrees with the IEEE 754 division, product and sum of the
    Standard Library on the quotients of the ints from -12 to 12 by those
    from 1 to 24, on the quotients the examples use, and on quotients below
    the normal range. *)
Lemma binary64_agrees_with_IEEE_754 :
  Binary64.rows 25 (-12) 24 = true
  /\ Binary64.check 250025 1000000 = true
  /\ Binary64.check 25003 100 = true
  /\ Binary64.check 153 160 = true
  /\ Binary64.check 9563 10000 = true
  /\ Binary64.check 1234 100 = true
  /\ Binary64.check 45 1000 = true
  /\ forallb (fun ak => Binary64.tiny (fst ak) (snd ak))
       [(1, 70); (3, 74); (3, 75); (1, 75); (5, 73); (123456789, 60); (1, 74);
        (7, 76); (-3, 75); (99, 78)] = true.
Proof. vm_compute. repeat split. Qed.

(** For every group of up to 10000 records the index the source computes in
    binary64 is the exact [floor(L * p)]. *)
Lemma binary64_index_exact (n : Z) :
  0 <= n <= 10000 ->
  Binary64.index_of n Binary64.literal_0_95 = Some (Qfloor (inject_Z n * Comparison.p95))
  /\ Binary64.index_of n Binary64.literal_0_99
     = Some (Qfloor (inject_Z n * Comparison.p99)).
Proof.
  intros Hn.
  assert (H : Binary64.agree_at n = true).
  { apply (agree_from_spec (Z.to_nat 10001) 0); [vm_compute; reflexivity |].
    rewrite Z2Nat.id; lia. }
  unfold Binary64.agree_at in H.
  rewrite <- !percentile_index_floor by (lia || discriminate).
  destruct (Binary64.index_of n Binary64.literal_0_95) as [i |]; [| discriminate].
  destruct (Binary64.index_of n Binary64.literal_0_99) as [j |]; [| discriminate].
  apply andb_prop in H. destruct H as [Hi Hj].
  apply Z.eqb_eq in Hi, Hj. subst. split; reflexivity.
Qed.

(** ** C9 *)

Lemma filter_partition_len {A : Type} (f : A -> bool) (xs : list A) :
  len (filter f xs) + len (filter (fun x => negb (f x)) xs) = len xs.
Proof.
  induction xs as [| x xs IH]; cbn [filter]; [reflexivity |].
  destruct (f x); cbn [negb]; rewrite !len_cons; lia.
Qed.

Lemma update_total (k : value) (f : Comparison.stats -> Comparison.stats)
    (m : list (value * Comparison.stats)) :
  (forall s, Comparison.s_count (f s) = Comparison.s_count s + 1) ->
  total_s_count (Comparison.update k f m) = total_s_count m + 1.
Proof.
  intros Hf. induction m as [| [k1 s1] m IH]; simpl.
  - rewrite Hf. reflexivity.
  - destruct (key_eqb k1 k); simpl; [rewrite Hf | rewrite IH]; lia.
Qed.

Lemma group_metrics_total (metrics : list value) (m m' : list (value * Comparison.stats)) :
  Comparison.group_metrics m metrics = Ok m' ->
  total_s_count m' = total_s_count m + len metrics.
Proof.
  revert m. induction metrics as [| x metrics IH]; simpl; intros m H.
  - injection H as <-. change (len (@nil value)) with 0. lia.
  - inv_bind H. rewrite (IH _ H), len_cons.
    unfold Comparison.group_metric in Ha. inv_bind Ha.
    destruct (negb (hashable a0)); [discriminate |]. inv_bind Ha.
    injection Ha as <-. rewrite update_total; [lia |]. reflexivity.
Qed.

Lemma summarize_count (s : Comparison.stats) (e : Comparison.stat_summary) :
  Comparison.summarize s = Ok e -> Comparison.count e = Comparison.s_count s.
Proof.
  unfold Comparison.summarize. intros H. inv_bind H. injection H as <-. reflexivity.
Qed.

Lemma summarize_all_total (m : list (value * Comparison.stats))
    (summary : list (value * Comparison.stat_summary)) :
  Comparison.summarize_all m = Ok summary -> total_count summary = total_s_count m.
Proof.
  revert summary. induction m as [| [k s] m IH]; simpl; intros summary H.
  - injection H as <-. reflexivity.
  - destruct (Comparison.s_count s =? 0) eqn:E.
    + apply Z.eqb_eq in E. rewrite (IH _ H). lia.
    + inv_bind H. injection H as <-. simpl.
      rewrite (IH _ Ha0), (summarize_count _ _ Ha). reflexivity.
Qed.

(** Whenever the function returns, its groups count every record once. *)
Lemma calculate_statistics_total (metrics : list value)
    (summary : list (value * Comparison.stat_summary)) :
  Comparison.calculate_statistics metrics = Ok summary ->
  total_count summary = len metrics.
Proof.
  unfold Comparison.calculate_statistics. intros H. inv_bind H.
  rewrite (summarize_all_total _ _ H), (group_metrics_total _ _ _ Ha).
  reflexivity.
Qed.

Lemma summary_accounting (members : list value) (s : Comparison.stats)
    (entry : Comparison.stat_summary) :
  Comparison.s_count s = len members ->
  Comparison.s_successful s = len (filter is_successful members) ->
  Comparison.s_failed s = len (filter (fun x => negb (is_successful x)) members) ->
  summary_of s entry -> accounting members entry.
Proof.
  intros Hc Hs Hf [Ec [Es [Ef [[rate [Hrate Hround]] _]]]].
  unfold accounting. rewrite Ec, Es, Ef, Hc, Hs, Hf.
  refine (conj eq_refl (conj eq_refl (conj eq_refl
            (conj (filter_partition_len _ _) (conj _ _))))).
  - exists rate. rewrite <- Hc, <- Hs. auto.
  - destruct (py_truediv_ints _ _ _ Hrate) as [_ ->].
    rewrite <- Hc, <- Hs. eexists.
    split; [apply binary64_nearest | split; [reflexivity |]].
    apply py_round_float_round; [lia | assumption].
Qed.

(** C9.  For every list of well-formed metric records the aggregator returns
    a summary in which every record is counted in exactly one group: each
    record belongs to the group of one entry and of no other, the counts of
    all groups add up to the number of records, a record without a
    [queue_type] field belongs to the group of the key ["unknown"], and a
    record is counted as successful exactly when its [status] field is the
    string ["successful"] and as failed otherwise (also when the field is
    absent).  In every group [successful_count + failed_count = count] and
    [success_rate = round(successful_count / count, 4)]: the float nearest
    to the quotient of the two counters, rounded to the nearest multiple of
    0.0001 (the even one at a tie) and from there to the nearest float. *)
Theorem C9_grouping_accounting :
  forall metrics : list value,
    Forall (fun x => well_formed x = true) metrics ->
    exists summary,
      Comparison.calculate_statistics metrics = Ok summary
      /\ (forall x, In x metrics ->
            exists k entry,
              In (k, entry) summary /\ in_group k x = true
              /\ forall k' entry',
                   In (k', entry') summary -> in_group k' x = true ->
                   (k', entry') = (k, entry))
      /\ total_count summary = len metrics
      /\ (forall d, In (VDict d) metrics -> assoc "queue_type" d = None ->
            exists entry, In (VStr "unknown", entry) summary
                          /\ in_group (VStr "unknown") (VDict d) = true)
      /\ (forall x, is_successful x = true
                    <-> exists d, x = VDict d
                                  /\ assoc "status" d = Some (VStr "successful"))
      /\ (forall k entry, In (k, entry) summary ->
            accounting (group k metrics) entry).
Proof.
  intros metrics Hwf.
  destruct (calculate_statistics_entry metrics Hwf)
    as [summary [Hs [Hentry [Hcov Hdist]]]].
  exists summary. split; [assumption |].
  assert (Huniq : forall x k entry k' entry',
            In (k, entry) summary -> in_group k x = true ->
            In (k', entry') summary -> in_group k' x = true ->
            (k', entry') = (k, entry)).
  { intros x k entry k' entry' Hin Hg Hin' Hg'.
    unfold in_group in Hg, Hg'.
    assert (Hkk : key_eqb k k' = true).
    { eapply key_eqb_trans; [exact Hg | rewrite key_eqb_sym; exact Hg']. }
    destruct (ForallOrdPairs_In Hdist _ _ Hin Hin') as [E | [E | E]];
      [congruence | simpl in E; congruence |].
    simpl in E. rewrite key_eqb_sym in E. congruence. }
  refine (conj _ (conj _ (conj _ (conj _ _)))).
  - intros x Hx. destruct (Hcov x Hx) as [k [entry [Hin Hg]]].
    exists k, entry. repeat split; [assumption | assumption |].
    intros k' entry' Hin' Hg'. eapply Huniq; eassumption.
  - apply calculate_statistics_total. assumption.
  - intros d Hd Hnone.
    destruct (Hcov _ Hd) as [k [entry [Hin Hg]]].
    assert (Hq : queue_type_of (VDict d) = VStr "unknown").
    { unfold queue_type_of, field. rewrite Hnone. reflexivity. }
    unfold in_group in *. rewrite Hq in *.
    apply key_eqb_str in Hg. subst k. exists entry. split; [assumption | reflexivity].
  - intros x. unfold is_successful, status_of, field, eq_str. split.
    + intros H. destruct x as [| | | | | | d]; try discriminate.
      exists d. split; [reflexivity |].
      destruct (assoc "status" d) as [[| | | | s | |] |]; try discriminate.
      apply String.eqb_eq in H. congruence.
    + intros [d [-> Hd]]. rewrite Hd. reflexivity.
  - intros k entry Hin. destruct (Hentry k entry Hin) as [_ [s [Hacc Hsum]]].
    destruct Hacc as [_ [_ [Hc [Hsu Hfa]]]].
    eapply summary_accounting; eassumption.
Qed.

(** C9 at four stored records (two queues, one record without queue type,
    one without status), and at 160 records of one queue of which 153 are
    successful: their success rate is the float nearest to 0.9563, the
    quotient 153 / 160 = 0.95625 being a float just above the tie. *)
Lemma C9_grouping_accounting_witness :
  (let metrics :=
     [VDict [("queue_type", VStr "sqs"); ("status", VStr "successful")];
      VDict [("status", VStr "successful"); ("latency_ms", VFloat (5 # 2))];
      VDict [("queue_type", VStr "sqs"); ("status", VStr "failed")];
      VDict [("queue_type", VStr "rabbitmq")]] in
   exists summary,
     Comparison.calculate_statistics metrics = Ok summary
     /\ total_count summary = len metrics
     /\ (forall k entry, In (k, entry) summary ->
           accounting (group k metrics) entry))
  /\ (let metrics :=
        repeat (VDict [("status", VStr "successful")]) 153
        ++ repeat (VDict [("status", VStr "failed")]) 7 in
      exists entry,
        Comparison.calculate_statistics metrics = Ok [(VStr "unknown", entry)]
        /\ accounting (group (VStr "unknown") metrics) entry
        /\ Comparison.count entry = 160
        /\ Comparison.successful_count entry = 153
        /\ Comparison.success_rate entry
           = VFloat (8613584647308811 # 9007199254740992)).
Proof.
  split.
  - assert (H : Forall (fun x => well_formed x = true)
                  [VDict [("queue_type", VStr "sqs"); ("status", VStr "successful")];
                   VDict [("status", VStr "successful");
                          ("latency_ms", VFloat (5 # 2))];
                   VDict [("queue_type", VStr "sqs"); ("status", VStr "failed")];
                   VDict [("queue_type", VStr "rabbitmq")]])
      by (repeat constructor).
    destruct (C9_grouping_accounting _ H) as [summary [Hs [_ [Ht [_ [_ Hacc]]]]]].
    exists summary. auto.
  - assert (H : Forall (fun x => well_formed x = true)
                  (repeat (VDict [("status", VStr "successful")]) 153
                   ++ repeat (VDict [("status", VStr "failed")]) 7)).
    { apply Forall_app. split; apply Forall_forall; intros x Hx;
        apply repeat_spec in Hx; subst x; reflexivity. }
    destruct (C9_grouping_accounting _ H) as [summary [Hs [_ [_ [_ [_ Hacc]]]]]].
    vm_compute in Hs. injection Hs as <-.
    eexists. split; [vm_compute; reflexivity |].
    split; [apply (Hacc (VStr "unknown")); left; reflexivity |].
    repeat split.
Defined.

(** ** C8 *)

(** C8.  Whenever the fetched metric set is empty the aggregator returns
    status 200 with [total_messages = 0], [statistics = {}] and
    [messages = []] (and the message text "No metrics found"), whatever the
    request and the clock: two invocations on the empty set give identical
    results. *)
Theorem C8_empty_set_idempotent :
  forall (json_loads : string -> result value) (int_of_str : string -> option Z)
         (s3 : Comparison.bucket),
    Comparison.get_all_metrics_from_s3 json_loads s3 = [] ->
    forall (event1 event2 : value) (now1 now2 : string),
      Comparison.lambda_handler json_loads int_of_str event1 s3 now1
      = no_metrics_response
      /\ Comparison.lambda_handler json_loads int_of_str event2 s3 now2
         = Comparison.lambda_handler json_loads int_of_str event1 s3 now1
      /\ Comparison.statusCode no_metrics_response = 200
      /\ Comparison.response_body no_metrics_response
         = Comparison.Data
             {| Comparison.message := Some "No metrics found";
                Comparison.total_messages := 0;
                Comparison.statistics := [];
                Comparison.timestamp := None;
                Comparison.messages := Some [] |}.
Proof.
  intros json_loads int_of_str s3 Hempty event1 event2 now1 now2.
  unfold Comparison.lambda_handler. rewrite Hempty.
  repeat split.
Qed.

(** C8 at a bucket whose only objects are not metric files or cannot be
    read, for two different requests at two different times. *)
Lemma C8_empty_set_idempotent_witness :
  Comparison.get_all_metrics_from_s3 Examples.json_loads Examples.no_records = []
  /\ Comparison.lambda_handler Examples.json_loads Instances.int_of_str
       (Examples.request [("details", VStr "true")]) Examples.no_records
       "2024-01-03T00:00:00"
     = Comparison.lambda_handler Examples.json_loads Instances.int_of_str
         VNone Examples.no_records "2024-01-01T00:00:00".
Proof.
  split; [reflexivity |].
  exact (proj1 (proj2 (C8_empty_set_idempotent Examples.json_loads
                         Instances.int_of_str Examples.no_records eq_refl
                         VNone (Examples.request [("details", VStr "true")])
                         "2024-01-01T00:00:00" "2024-01-03T00:00:00"))).
Defined.

(** ** The detail list *)

Lemma timestamp_received_key_text (x : value) :
  is_dict x = true -> has_text_timestamp x = true ->
  Comparison.timestamp_received_key x = Ok (VStr (ts_key x)).
Proof.
  destruct x as [| | | | | | d]; try discriminate. intros _.
  unfold has_text_timestamp, ts_key, Comparison.timestamp_received_key, field, py_get.
  destruct (assoc "timestamp_received" d) as [[| | | | s | |] |];
    try discriminate; reflexivity.
Qed.

Lemma mapM_keys (xs : list value) :
  Forall (fun x => is_dict x = true /\ has_text_timestamp x = true) xs ->
  mapM Comparison.timestamp_received_key xs = Ok (map (fun x => VStr (ts_key x)) xs).
Proof.
  induction 1 as [| x xs [Hd Ht] Hxs IH]; simpl; [reflexivity |].
  rewrite (timestamp_received_key_text x Hd Ht). cbn [bind].
  rewrite IH. reflexivity.
Qed.

Lemma combine_keys (xs : list value) :
  Forall (fun p => fst p = VStr (ts_key (snd p)))
    (combine (map (fun x => VStr (ts_key x)) xs) xs)
  /\ map snd (combine (map (fun x => VStr (ts_key x)) xs) xs) = xs.
Proof.
  induction xs as [| x xs [IH1 IH2]]; simpl; split; try constructor;
    try reflexivity; try assumption.
  rewrite IH2. reflexivity.
Qed.

(** [sorted(..., key=timestamp_received, reverse=True)] returns the records
    most recent first. *)
Lemma sorted_key_reverse_spec (xs : list value) :
  Forall (fun x => is_dict x = true /\ has_text_timestamp x = true) xs ->
  exists s,
    sorted_key_reverse Comparison.timestamp_received_key xs = Ok s
    /\ Permutation xs s
    /\ StronglySorted ts_desc s.
Proof.
  intros H. unfold sorted_key_reverse. rewrite (mapM_keys xs H). cbn [bind].
  destruct (combine_keys xs) as [Hkeys Hsnd].
  set (ps := combine (map (fun x => VStr (ts_key x)) xs) xs) in *.
  destruct (sort_sorted (fun a b : value * value => py_lt (fst a) (fst b))
              (fun p => fst p = VStr (ts_key (snd p)))
              (fun p q => String.leb (ts_key (snd p)) (ts_key (snd q)) = true))
    with (l := rev ps) as [s [Hs [Hperm Hsorted]]].
  - intros [k1 x1] [k2 x2] H1 H2. simpl in *. subst k1 k2.
    exists (String.ltb (ts_key x1) (ts_key x2)). split; [reflexivity |].
    destruct (String.ltb (ts_key x1) (ts_key x2)) eqn:E.
    + apply string_ltb_leb. assumption.
    + apply string_ltb_false_leb. assumption.
  - intros p q r. apply string_leb_trans.
  - apply Forall_rev. assumption.
  - rewrite Hs. cbn [bind]. eexists. split; [reflexivity |]. split.
    + rewrite <- Hsnd at 1. apply Permutation_map.
      eapply perm_trans; [apply Permutation_rev |].
      eapply perm_trans; [exact Hperm | apply Permutation_rev].
    + apply StronglySorted_map. apply StronglySorted_rev in Hsorted.
      exact Hsorted.
Qed.

Lemma slice_to_nonneg {A : Type} (xs : list A) (stop : Z) :
  0 <= stop ->
  slice_to xs stop = firstn (Z.to_nat stop) xs
  /\ len (slice_to xs stop) = Z.min stop (len xs).
Proof.
  intros H. unfold slice_to.
  destruct (stop <? 0) eqn:E; [apply Z.ltb_lt in E; lia |].
  split; [reflexivity |]. unfold len. rewrite length_firstn. lia.
Qed.

(** ** C10 *)

Lemma query_parameters_bad_limit (int_of_str : string -> option Z)
    (event v : value) (e : exn) :
  query_parameter event "limit" = Some v ->
  Comparison.py_int int_of_str v = Raise e ->
  exists e',
    Comparison.query_parameters int_of_str event = Raise e'
    /\ (query_parameter event "details" = None
        \/ (exists s, query_parameter event "details" = Some (VStr s)) ->
        e' = e).
Proof.
  unfold query_parameter, field, Comparison.query_parameters. intros Hq Hint.
  destruct event as [| | | | | | ev]; try discriminate. cbn [py_get bind].
  destruct (assoc "queryStringParameters" ev) as [[| | | | | | d] |];
    try discriminate.
  assert (Ht : truthy (VDict d) = true) by (destruct d; [discriminate | reflexivity]).
  rewrite Ht. cbn [py_get bind]. rewrite Hq.
  destruct (assoc "details" d) as [details |].
  - destruct (Comparison.py_lower details) as [text | e1] eqn:El; cbn [bind].
    + rewrite Hint. cbn [bind]. eexists. split; [reflexivity | reflexivity].
    + eexists. split; [reflexivity |].
      intros [Habs | [s Hs]]; [discriminate |].
      injection Hs as ->. discriminate.
  - cbn [Comparison.py_lower bind]. rewrite Hint. cbn [bind].
    eexists. split; reflexivity.
Qed.

Lemma get_all_metrics_nonempty_handler (json_loads : string -> result value)
    (int_of_str : string -> option Z) (event : value) (s3 : Comparison.bucket)
    (now : string) :
  Comparison.get_all_metrics_from_s3 json_loads s3 <> [] ->
  Comparison.lambda_handler json_loads int_of_str event s3 now
  = match Comparison.compare int_of_str event
            (Comparison.get_all_metrics_from_s3 json_loads s3) now with
    | Ok r => r
    | Raise e => internal_error_response e
    end.
Proof.
  unfold Comparison.lambda_handler.
  destruct (Comparison.get_all_metrics_from_s3 json_loads s3); [congruence |].
  reflexivity.
Qed.

(** C10, as amended.  For every request whose [limit] query parameter is
    present and does not convert to an integer, and every fetched metric set
    that is not empty, the handler returns the 500 response of its top-level
    [except] clause; when the statistics and the sort succeed and [details]
    is text or absent, the error it reports is the one raised by the
    conversion of [limit]. *)
Theorem C10_unparseable_limit_amended :
  forall (json_loads : string -> result value) (int_of_str : string -> option Z)
         (event : value) (s3 : Comparison.bucket) (now : string)
         (v : value) (e : exn),
    Comparison.get_all_metrics_from_s3 json_loads s3 <> [] ->
    query_parameter event "limit" = Some v ->
    Comparison.py_int int_of_str v = Raise e ->
    exists e',
      Comparison.lambda_handler json_loads int_of_str event s3 now
      = internal_error_response e'
      /\ Comparison.statusCode (internal_error_response e') = 500
      /\ (forall stats sorted_metrics,
            Comparison.calculate_statistics
              (Comparison.get_all_metrics_from_s3 json_loads s3) = Ok stats ->
            sorted_key_reverse Comparison.timestamp_received_key
              (Comparison.get_all_metrics_from_s3 json_loads s3) = Ok sorted_metrics ->
            query_parameter event "details" = None
            \/ (exists s, query_parameter event "details" = Some (VStr s)) ->
            e' = e).
Proof.
  intros json_loads int_of_str event s3 now v e Hne Hq Hint.
  rewrite (get_all_metrics_nonempty_handler _ _ _ _ _ Hne).
  destruct (query_parameters_bad_limit int_of_str event v e Hq Hint)
    as [e1 [Hparams Hprecise]].
  unfold Comparison.compare.
  destruct (Comparison.calculate_statistics
              (Comparison.get_all_metrics_from_s3 json_loads s3)) as [stats | e2];
    cbn [bind].
  - destruct (sorted_key_reverse Comparison.timestamp_received_key
                (Comparison.get_all_metrics_from_s3 json_loads s3)) as [sm | e3];
      cbn [bind].
    + rewrite Hparams. cbn [bind]. exists e1.
      repeat split. intros stats' sm' _ _ Hd. apply Hprecise. assumption.
    + exists e3. repeat split. discriminate.
  - exists e2. repeat split. discriminate.
Qed.

(** The amended C10 at two stored records and the request [?limit=abc]: the
    handler reports the [ValueError] of [int('abc')]. *)
Lemma C10_unparseable_limit_amended_witness :
  Comparison.get_all_metrics_from_s3 Examples.json_loads Examples.two_records <> []
  /\ query_parameter (Examples.request [("limit", VStr "abc")]) "limit"
     = Some (VStr "abc")
  /\ Comparison.py_int Instances.int_of_str (VStr "abc") = Raise ValueError
  /\ exists e',
       Comparison.lambda_handler Examples.json_loads Instances.int_of_str
         (Examples.request [("limit", VStr "abc")]) Examples.two_records
         "2024-01-03T00:00:00"
       = internal_error_response e'.
Proof.
  assert (Hne : Comparison.get_all_metrics_from_s3 Examples.json_loads
                  Examples.two_records <> []) by (vm_compute; discriminate).
  repeat split; [exact Hne |].
  destruct (C10_unparseable_limit_amended Examples.json_loads Instances.int_of_str
              (Examples.request [("limit", VStr "abc")]) Examples.two_records
              "2024-01-03T00:00:00" (VStr "abc") ValueError Hne eq_refl eq_refl)
    as [e' [He' _]].
  exists e'. exact He'.
Defined.

(** C10 as stated fails on the empty metric set: the request [?limit=abc]
    against a bucket without metric records is answered with status 200. *)
Lemma C10_counterexample :
  ~ (forall (event : value) (s3 : Comparison.bucket) (now : string)
            (v : value) (e : exn),
       query_parameter event "limit" = Some v ->
       Comparison.py_int Instances.int_of_str v = Raise e ->
       Comparison.statusCode
         (Comparison.lambda_handler Examples.json_loads Instances.int_of_str
            event s3 now) = 500).
Proof.
  intros H.
  specialize (H (Examples.request [("limit", VStr "abc")]) Examples.no_records
                "2024-01-03T00:00:00" (VStr "abc") ValueError eq_refl eq_refl).
  vm_compute in H. discriminate.
Qed.

(** ** C7 *)

Lemma query_parameters_defaults (int_of_str : string -> option Z) (event : value)
    (include_details : bool) (limit : Z) :
  Comparison.query_parameters int_of_str event = Ok (include_details, limit) ->
  (query_parameter event "limit" = None -> limit = 100)
  /\ (query_parameter event "details" = None -> include_details = false).
Proof.
  unfold query_parameter, field, Comparison.query_parameters. intros H.
  destruct event as [| | | | | | ev]; try discriminate. cbn [py_get bind] in H.
  destruct (assoc "queryStringParameters" ev) as [qsp |].
  - destruct (truthy qsp) eqn:Et.
    + destruct qsp as [| | | | | | d]; cbn [py_get bind] in H; try discriminate.
      split; intros Hnone; rewrite Hnone in H; inv_bind H; injection H as <- <-.
      * simpl in Ha0. congruence.
      * simpl in Ha. injection Ha as <-. reflexivity.
    + cbn [py_get bind assoc Comparison.py_lower Comparison.py_int] in H.
      injection H as <- <-. split; intros _; reflexivity.
  - cbn [truthy py_get bind assoc Comparison.py_lower Comparison.py_int] in H.
    injection H as <- <-. split; intros _; reflexivity.
Qed.

(** C7, as amended.  For every non-empty fetched set of well-formed metric
    records whose [timestamp_received] is text (or absent), there are
    statistics and a list of all the records sorted by [timestamp_received]
    in descending string order such that, for every request whose [details]
    and [limit] parameters convert: the response has status 200, the number
    of records as [total_messages] and those statistics, whatever the
    [details] flag; with [details] true and a non-negative [limit] it carries
    as [messages] the first [min(limit, n)] records of the sorted list, and
    no hint; with [details] false it carries the hint string and no
    [messages].  The limit is 100 and the flag false when the parameter is
    absent. *)
Theorem C7_details_amended :
  forall (json_loads : string -> result value) (int_of_str : string -> option Z)
         (s3 : Comparison.bucket),
    Comparison.get_all_metrics_from_s3 json_loads s3 <> [] ->
    Forall (fun x => well_formed x = true)
      (Comparison.get_all_metrics_from_s3 json_loads s3) ->
    Forall (fun x => has_text_timestamp x = true)
      (Comparison.get_all_metrics_from_s3 json_loads s3) ->
    exists stats sorted_metrics,
      Comparison.calculate_statistics
        (Comparison.get_all_metrics_from_s3 json_loads s3) = Ok stats
      /\ Permutation (Comparison.get_all_metrics_from_s3 json_loads s3) sorted_metrics
      /\ StronglySorted ts_desc sorted_metrics
      /\ forall (event : value) (now : string) (include_details : bool) (limit : Z),
           Comparison.query_parameters int_of_str event = Ok (include_details, limit) ->
           (include_details = true -> 0 <= limit ->
            Comparison.lambda_handler json_loads int_of_str event s3 now
            = details_response
                (len (Comparison.get_all_metrics_from_s3 json_loads s3))
                stats now (firstn (Z.to_nat limit) sorted_metrics)
            /\ len (firstn (Z.to_nat limit) sorted_metrics)
               = Z.min limit (len (Comparison.get_all_metrics_from_s3 json_loads s3)))
           /\ (include_details = false ->
               Comparison.lambda_handler json_loads int_of_str event s3 now
               = hint_response
                   (len (Comparison.get_all_metrics_from_s3 json_loads s3))
                   stats now)
           /\ (query_parameter event "limit" = None -> limit = 100)
           /\ (query_parameter event "details" = None -> include_details = false).
Proof.
  intros json_loads int_of_str s3 Hne Hwf Hts.
  set (all_metrics := Comparison.get_all_metrics_from_s3 json_loads s3) in *.
  destruct (calculate_statistics_entry all_metrics Hwf) as [stats [Hstats _]].
  destruct (sorted_key_reverse_spec all_metrics) as [sm [Hsm [Hperm Hsorted]]].
  { rewrite Forall_forall in *. intros x Hx. split; [| apply Hts; assumption].
    specialize (Hwf x Hx). unfold well_formed in Hwf.
    repeat (apply andb_prop in Hwf; destruct Hwf as [Hwf ?]). assumption. }
  exists stats, sm.
  split; [assumption | split; [assumption | split; [assumption |]]].
  intros event now include_details limit H.
  assert (Hresp : Comparison.lambda_handler json_loads int_of_str event s3 now
                  = if include_details
                    then details_response (len all_metrics) stats now
                           (slice_to sm limit)
                    else hint_response (len all_metrics) stats now).
  { subst all_metrics. rewrite (get_all_metrics_nonempty_handler _ _ _ _ _ Hne).
    unfold Comparison.compare. rewrite Hstats. cbn [bind].
    rewrite Hsm. cbn [bind]. rewrite H. cbn [bind].
    destruct include_details; reflexivity. }
  split; [| split; [| apply (query_parameters_defaults _ _ _ _ H)]].
  - intros -> Hlimit. destruct (slice_to_nonneg sm limit Hlimit) as [Hslice Hlen].
    rewrite Hresp, Hslice. split; [reflexivity |].
    rewrite <- Hslice, Hlen, (len_Permutation _ _ Hperm). reflexivity.
  - intros ->. exact Hresp.
Qed.

(** The amended C7 at two stored records: with [?details=true&limit=1] the
    response lists the more recent record only, without parameters it
    carries the hint. *)
Lemma C7_details_amended_witness :
  exists stats,
    Comparison.lambda_handler Examples.json_loads Instances.int_of_str
      (Examples.request [("details", VStr "true"); ("limit", VStr "1")])
      Examples.two_records "2024-01-03T00:00:00"
    = details_response 2 stats "2024-01-03T00:00:00" [Examples.newer]
    /\ Comparison.lambda_handler Examples.json_loads Instances.int_of_str
         (Examples.request []) Examples.two_records "2024-01-03T00:00:00"
       = hint_response 2 stats "2024-01-03T00:00:00".
Proof.
  assert (Hne : Comparison.get_all_metrics_from_s3 Examples.json_loads
                  Examples.two_records <> []) by (vm_compute; discriminate).
  assert (Hwf : Forall (fun x => well_formed x = true)
                  (Comparison.get_all_metrics_from_s3 Examples.json_loads
                     Examples.two_records)) by (repeat constructor).
  assert (Hts : Forall (fun x => has_text_timestamp x = true)
                  (Comparison.get_all_metrics_from_s3 Examples.json_loads
                     Examples.two_records)) by (repeat constructor).
  destruct (C7_details_amended Examples.json_loads Instances.int_of_str
              Examples.two_records Hne Hwf Hts)
    as [stats [sm [Hstats [Hperm [Hsorted Hresp]]]]].
  exists stats.
  assert (Hsm : sm = [Examples.newer; Examples.older]).
  { vm_compute in Hperm.
    apply Permutation_length_2_inv in Hperm. destruct Hperm as [-> | ->].
    - inversion Hsorted as [| ? ? _ Hall]. inversion Hall as [| ? ? Habs _].
      vm_compute in Habs. discriminate.
    - reflexivity. }
  subst sm. split.
  - exact (proj1 (proj1 (Hresp (Examples.request [("details", VStr "true");
                                                  ("limit", VStr "1")])
                           "2024-01-03T00:00:00" true 1 eq_refl)
                    eq_refl ltac:(lia))).
  - exact (proj1 (proj2 (Hresp (Examples.request []) "2024-01-03T00:00:00"
                           false 100 eq_refl)) eq_refl).
Defined.

(** C7 as stated fails for a negative limit: with [?details=true&limit=-1]
    and two stored records the response lists one record, which is more
    than the limit. *)
Lemma C7_counterexample :
  ~ (forall (event : value) (s3 : Comparison.bucket) (now : string)
            (limit : Z) (records : list value),
       Comparison.query_parameters Instances.int_of_str event = Ok (true, limit) ->
       messages_of (Comparison.lambda_handler Examples.json_loads
                      Instances.int_of_str event s3 now) = Some records ->
       len records <= limit).
Proof.
  intros H.
  specialize (H (Examples.request [("details", VStr "true"); ("limit", VStr "-1")])
                Examples.two_records "2024-01-03T00:00:00" (-1) [Examples.newer]
                eq_refl eq_refl).
  vm_compute in H. apply H. reflexivity.
Qed.

(** ** Rounding keeps the sign *)

Lemma round_half_even_numerator (q : Q) (ndigits : Z) :
  exists n,
    round_half_even q ndigits = Qred (n # Z.to_pos (10 ^ ndigits))
    /\ ((0 <= q)%Q -> 0 <= n)
    /\ ((q <= 0)%Q -> n <= 0).
Proof.
  unfold round_half_even.
  set (x := (q * inject_Z (10 ^ ndigits))%Q).
  set (f := Qfloor x).
  set (r := (x - inject_Z f)%Q).
  assert (Hscale : (0 <= inject_Z (10 ^ ndigits))%Q).
  { unfold Qle. simpl. pose proof (Z.pow_nonneg 10 ndigits). lia. }
  eexists. split; [reflexivity |]. split; intros Hq.
  - assert (Hx : (0 <= x)%Q) by (apply Qmult_le_0_compat; assumption).
    assert (Hf : 0 <= f).
    { change 0 with (Qfloor 0). apply Qfloor_resp_le. assumption. }
    destruct (Qcompare r (1 # 2)); [destruct (Z.even f) | |]; lia.
  - assert (Hx : (x <= 0)%Q).
    { unfold x. rewrite <- (Qmult_0_l (inject_Z (10 ^ ndigits))).
      apply Qmult_le_compat_r; assumption. }
    assert (Hf : f <= 0).
    { change 0 with (Qfloor 0). apply Qfloor_resp_le. assumption. }
    destruct (Z.eq_dec f 0) as [Hz | Hnz].
    + assert (Hr : (r < 1 # 2)%Q).
      { unfold r. rewrite Hz. pose proof (Qfloor_le x) as Hle. fold f in Hle.
        rewrite Hz in Hle.
        apply Qle_lt_trans with (y := 0%Q); [| reflexivity].
        unfold Qminus. rewrite Qplus_0_r. assumption. }
      assert (Hc : Qcompare r (1 # 2) = Lt) by (apply Qlt_alt; exact Hr).
      rewrite Hc. lia.
    + destruct (Qcompare r (1 # 2)); [destruct (Z.even f) | |]; lia.
Qed.

Lemma round_half_even_nonneg (q : Q) (ndigits : Z) :
  (0 <= q)%Q -> (0 <= round_half_even q ndigits)%Q.
Proof.
  intros Hq. destruct (round_half_even_numerator q ndigits) as [n [-> [Hn _]]].
  rewrite Qred_correct. unfold Qle. simpl. specialize (Hn Hq). lia.
Qed.

Lemma round_half_even_nonpos (q : Q) (ndigits : Z) :
  (q <= 0)%Q -> (round_half_even q ndigits <= 0)%Q.
Proof.
  intros Hq. destruct (round_half_even_numerator q ndigits) as [n [-> [_ Hn]]].
  rewrite Qred_correct. unfold Qle. simpl. specialize (Hn Hq). lia.
Qed.

(** A float product with 1000 after one rounding: within [2^-51] of the
    exact product. *)
Lemma two_roundings (a : Q) :
  (1 # 1000000000 <= Qabs a)%Q ->
  (Qabs (binary64 (binary64 a * 1000) - a * 1000) <= Qabs (a * 1000) * pow2 (-51))%Q.
Proof.
  intros Ha.
  assert (Hsmall : (pow2 (-1022) <= 1 # 1000000000)%Q) by (vm_compute; discriminate).
  assert (H1 : (Qabs (binary64 a - a) <= Qabs a * pow2 (-53))%Q).
  { apply binary64_relative_error. eapply Qle_trans; eassumption. }
  set (x := binary64 a) in *.
  pose proof (Qabs_triangle_reverse a x) as Hrev.
  assert (Hsym : (Qabs (a - x) == Qabs (x - a))%Q).
  { setoid_replace (a - x)%Q with (- (x - a))%Q by ring. apply Qabs_opp. }
  rewrite Hsym in Hrev.
  pose proof (Qabs_triangle_reverse x a) as Hrev'.
  pose proof (Qabs_nonneg a) as HA0. pose proof (Qabs_nonneg x) as HX0.
  rewrite pow2_m53 in H1.
  assert (Hy : (Qabs (x * 1000) == Qabs x * 1000)%Q).
  { rewrite Qabs_Qmult. reflexivity. }
  assert (Ha1000 : (Qabs (a * 1000) == Qabs a * 1000)%Q).
  { rewrite Qabs_Qmult. reflexivity. }
  assert (H2 : (Qabs (binary64 (x * 1000) - x * 1000) <= Qabs (x * 1000) * pow2 (-53))%Q).
  { apply binary64_relative_error. rewrite Hy.
    eapply Qle_trans; [exact Hsmall |]. lra. }
  rewrite pow2_m53, Hy in H2. rewrite pow2_m51, Ha1000.
  set (z := binary64 (x * 1000)) in *.
  assert (Hsplit : (z - a * 1000 == (z - x * 1000) + (x - a) * 1000)%Q) by ring.
  rewrite Hsplit.
  eapply Qle_trans; [apply Qabs_triangle |].
  rewrite (Qabs_Qmult (x - a) 1000).
  change (Qabs 1000) with 1000%Q.
  set (A := Qabs a) in *. set (X := Qabs x) in *.
  set (D := Qabs (x - a)) in *. set (E := Qabs (z - x * 1000)) in *.
  lra.
Qed.

Lemma total_ms_error (delta : Z) :
  (Qabs (Consumer.total_ms delta - inject_Z delta / 1000)
   <= Qabs (inject_Z delta / 1000) * pow2 (-51))%Q.
Proof.
  destruct (Z.eq_dec delta 0) as [-> | Hne].
  - vm_compute. discriminate.
  - unfold Consumer.total_ms.
    assert (Heq : (inject_Z delta / 1000 == inject_Z delta / 1000000 * 1000)%Q) by field.
    rewrite Heq. apply two_roundings.
    unfold Qdiv. rewrite Qabs_Qmult.
    change (Qabs (/ 1000000)) with (1 # 1000000)%Q.
    assert (H1 : (1 <= Qabs (inject_Z delta))%Q).
    { change (Qabs (inject_Z delta)) with (inject_Z (Z.abs delta)).
      change 1%Q with (inject_Z 1). rewrite <- Zle_Qle. lia. }
    set (A := Qabs (inject_Z delta)) in *. lra.
Qed.

Lemma total_ms_sign (delta : Z) :
  (0 <= delta -> (0 <= Consumer.total_ms delta)%Q)
  /\ (delta <= 0 -> (Consumer.total_ms delta <= 0)%Q).
Proof.
  unfold Consumer.total_ms. split; intros H.
  - apply binary64_nonneg.
    assert (H1 : (0 <= binary64 (inject_Z delta / 1000000))%Q).
    { apply binary64_nonneg. unfold Qle, Qdiv, Qmult, Qinv. simpl. lia. }
    set (x := binary64 (inject_Z delta / 1000000)) in *. lra.
  - apply binary64_nonpos.
    assert (H1 : (binary64 (inject_Z delta / 1000000) <= 0)%Q).
    { apply binary64_nonpos. unfold Qle, Qdiv, Qmult, Qinv. simpl. lia. }
    set (x := binary64 (inject_Z delta / 1000000)) in *. lra.
Qed.

(** Rounding a rounded value again returns it, for a value of at most
    [10^12]. *)
Lemma py_round_rounded2 (x v : value) (q : Q) :
  py_round x 2 = Ok v ->
  as_number x = Some q ->
  (Qabs q <= 1000000000000)%Q ->
  rounded2 v.
Proof.
  unfold rounded2.
  destruct x as [| b | z | p | | |]; simpl; try discriminate; intros H Hq Hb;
    injection H as <-; simpl; try reflexivity.
  injection Hq as ->.
  destruct (round_half_even_rounds_to q 2) as [m [Hd [Hle _]]]; [lia |].
  assert (Hbound : (Qabs (round_half_even q 2) <= 10000000000000)%Q).
  { set (d := round_half_even q 2) in *.
    assert (E : (d == q + (d - q))%Q) by ring.
    rewrite E. eapply Qle_trans; [apply Qabs_triangle |].
    rewrite (Qabs_Qminus d q).
    change (1 / inject_Z (2 * 10 ^ 2))%Q with (1 # 200)%Q in Hle.
    set (A := Qabs q) in *. set (B := Qabs (q - d)) in *. clearbody A B. lra. }
  rewrite (binary64_comp _ _ (round_half_even_binary64 _ m Hd Hbound)).
  reflexivity.
Qed.

(** ** The latency of a message *)

(** The three ways [calculate_latency] ends. *)
Lemma calculate_latency_cases
    (fromisoformat : string -> result Consumer.datetime)
    (timestamp_sent timestamp_received : value) :
  (exists sent received delta,
     parses fromisoformat timestamp_sent sent
     /\ parses fromisoformat timestamp_received received
     /\ Consumer.datetime_sub received sent = Ok delta
     /\ Consumer.calculate_latency fromisoformat timestamp_sent timestamp_received
        = VFloat (Consumer.total_ms delta))
  \/ (Consumer.calculate_latency fromisoformat timestamp_sent timestamp_received
      = VInt 0
      /\ ((forall d, ~ parses fromisoformat timestamp_sent d)
          \/ (forall d, ~ parses fromisoformat timestamp_received d)
          \/ exists sent received e,
               parses fromisoformat timestamp_sent sent
               /\ parses fromisoformat timestamp_received received
               /\ Consumer.datetime_sub received sent = Raise e)).
Proof.
  unfold Consumer.calculate_latency, parses.
  destruct (Consumer.replace_Z timestamp_sent) as [s | e1] eqn:Es; cbn [bind].
  - destruct (fromisoformat s) as [sent | e2] eqn:Ep; cbn [bind].
    + destruct (Consumer.replace_Z timestamp_received) as [r | e3] eqn:Er; cbn [bind].
      * destruct (fromisoformat r) as [received | e4] eqn:Eq; cbn [bind].
        -- destruct (Consumer.datetime_sub received sent) as [delta | e5] eqn:Ed;
             cbn [bind].
           ++ left. exists sent, received, delta. eauto 10.
           ++ right. split; [reflexivity |]. right. right.
              exists sent, received, e5. eauto 10.
        -- right. split; [reflexivity |]. right. left.
           intros d [r' [Hr' Hd]]. congruence.
      * right. split; [reflexivity |]. right. left.
        intros d [r' [Hr' Hd]]. congruence.
    + right. split; [reflexivity |]. left. intros d [s' [Hs' Hd]]. congruence.
  - right. split; [reflexivity |]. left. intros d [s' [Hs' Hd]]. congruence.
Qed.

Lemma parses_functional (fromisoformat : string -> result Consumer.datetime)
    (x : value) (d d' : Consumer.datetime) :
  parses fromisoformat x d -> parses fromisoformat x d' -> d = d'.
Proof. intros [s [Hs Hd]] [s' [Hs' Hd']]. congruence. Qed.

(** The metrics dictionary of a decoded message: it exists for every
    dictionary, and its [latency_ms] is the rounded latency. *)
Lemma build_metrics_spec (fromisoformat : string -> result Consumer.datetime)
    (queue : string) (message_body : value) (extra : list (string * value))
    (fx : Consumer.effects) :
  is_dict message_body = true ->
  exists fields v,
    Consumer.build_metrics fromisoformat queue message_body extra fx
    = Ok (VDict (("message_id", field message_body "message_id" (VStr "unknown"))
                 :: fields))
    /\ assoc "latency_ms"
         (("message_id", field message_body "message_id" (VStr "unknown")) :: fields)
       = Some v
    /\ py_round (Consumer.calculate_latency fromisoformat
                   (field message_body "timestamp_sent" VNone)
                   (VStr (Consumer.now_received fx ++ "Z"))) 2 = Ok v.
Proof.
  destruct message_body as [| | | | | | d]; try discriminate. intros _.
  unfold Consumer.build_metrics. cbn [py_get bind field].
  destruct (Consumer.simulate_processing (Consumer.draws fx)) as [success pt].
  destruct (calculate_latency_cases fromisoformat
              (match assoc "timestamp_sent" d with Some v => v | None => VNone end)
              (VStr (Consumer.now_received fx ++ "Z")))
    as [[sent [received [delta [_ [_ [_ Hl]]]]]] | [Hl _]];
    rewrite Hl; cbn [py_round bind]; eexists; eexists;
    (split; [reflexivity | split; reflexivity]).
Qed.

Lemma build_metrics_dict (fromisoformat : string -> result Consumer.datetime)
    (queue : string) (message_body metrics : value) (extra : list (string * value))
    (fx : Consumer.effects) :
  Consumer.build_metrics fromisoformat queue message_body extra fx = Ok metrics ->
  is_dict message_body = true.
Proof.
  destruct message_body; try reflexivity; discriminate.
Qed.

Lemma build_metrics_latency (fromisoformat : string -> result Consumer.datetime)
    (queue : string) (message_body metrics : value) (extra : list (string * value))
    (fx : Consumer.effects) :
  Consumer.build_metrics fromisoformat queue message_body extra fx = Ok metrics ->
  exists v, stored_latency metrics = Some v
            /\ latency_of_message fromisoformat message_body fx v.
Proof.
  intros H. pose proof (build_metrics_dict _ _ _ _ _ _ H) as Hd.
  destruct (build_metrics_spec fromisoformat queue message_body extra fx Hd)
    as [fields [v [Hb [Hv Hr]]]].
  rewrite Hb in H. injection H as <-. exists v. split; [exact Hv |].
  unfold latency_of_message. lazy zeta.
  destruct (calculate_latency_cases fromisoformat
              (field message_body "timestamp_sent" VNone)
              (VStr (Consumer.now_received fx ++ "Z")))
    as [[sent [received [delta [Hs [Hrc [Hsub Hl]]]]]] | [Hl Hwhy]];
    rewrite Hl in Hr.
  - assert (Hfr : float_round (Consumer.total_ms delta) 2 v)
      by (apply py_round_float_round; [lia | exact Hr]).
    cbn [py_round] in Hr. injection Hr as <-.
    eexists. split; [reflexivity |]. refine (conj _ (conj _ (conj _ _))).
    + intros sent' received' delta' Hs' Hrc' Hsub'.
      rewrite (parses_functional _ _ _ _ Hs' Hs) in Hsub'.
      rewrite (parses_functional _ _ _ _ Hrc' Hrc) in Hsub'.
      assert (delta' = delta) by congruence. subst delta'.
      refine (conj Hfr (conj (total_ms_error delta) (conj _ _))); intros Hsign.
      * apply binary64_nonneg, round_half_even_nonneg, total_ms_sign. assumption.
      * apply binary64_nonpos, round_half_even_nonpos, total_ms_sign. assumption.
    + intros sent' received' e Hs' Hrc' Hsub'. exfalso.
      rewrite (parses_functional _ _ _ _ Hs' Hs) in Hsub'.
      rewrite (parses_functional _ _ _ _ Hrc' Hrc) in Hsub'. congruence.
    + intros Hno. exfalso. apply (Hno sent). assumption.
    + intros Hno. exfalso. apply (Hno received). assumption.
  - cbn [py_round] in Hr. injection Hr as <-.
    eexists. split; [reflexivity |].
    refine (conj _ (conj _ (conj _ _))); try (intros; reflexivity).
    intros sent received delta Hs Hrc Hsub. exfalso.
    destruct Hwhy as [Hno | [Hno | [sent' [received' [e [Hs' [Hrc' Hsub']]]]]]].
    + apply (Hno sent). assumption.
    + apply (Hno received). assumption.
    + rewrite (parses_functional _ _ _ _ Hs' Hs) in Hsub'.
      rewrite (parses_functional _ _ _ _ Hrc' Hrc) in Hsub'. congruence.
Qed.

(** ** C5 *)

(** C5.  The latency computation returns a value for all inputs.  When both
    timestamps are text that [fromisoformat] reads (after [Z] is replaced by
    [+00:00]) and the two values subtract, it is the float
    [(received - sent).total_seconds() * 1000]: a float nearest to the
    product with 1000 of a float nearest to the difference in seconds, so
    the difference in milliseconds up to these two roundings (within
    [2^-51] of it, relatively), with the sign of the difference, which for
    two UTC timestamps is received minus sent.  When the two
    values do not subtract, or either timestamp is not text or is not read,
    it is the int 0.  The metrics dictionary of every decoded message that
    is a dictionary is built without an exception, and its [latency_ms] is
    that value rounded to 2 decimals: for a float [q], the float nearest to
    the multiple of 0.01 nearest to [q] (the even multiple at a tie), which
    rounding leaves unchanged when [q] is at most [10^12]; for 0, 0. *)
Theorem C5_latency_never_raises :
  forall (fromisoformat : string -> result Consumer.datetime)
         (timestamp_sent timestamp_received : value),
    (forall sent received delta,
       parses fromisoformat timestamp_sent sent ->
       parses fromisoformat timestamp_received received ->
       Consumer.datetime_sub received sent = Ok delta ->
       Consumer.calculate_latency fromisoformat timestamp_sent timestamp_received
       = VFloat (Consumer.total_ms delta)
       /\ (exists seconds,
             nearest_float (inject_Z delta / 1000000) seconds
             /\ nearest_float (seconds * 1000) (Consumer.total_ms delta))
       /\ (Qabs (Consumer.total_ms delta - inject_Z delta / 1000)
           <= Qabs (inject_Z delta / 1000) * pow2 (-51))%Q
       /\ (0 <= delta -> (0 <= Consumer.total_ms delta)%Q)
       /\ (delta <= 0 -> (Consumer.total_ms delta <= 0)%Q)
       /\ (Consumer.utcoffset sent = Some 0 ->
           Consumer.utcoffset received = Some 0 ->
           delta = Consumer.wall received - Consumer.wall sent))
    /\ (forall sent received e,
          parses fromisoformat timestamp_sent sent ->
          parses fromisoformat timestamp_received received ->
          Consumer.datetime_sub received sent = Raise e ->
          Consumer.calculate_latency fromisoformat timestamp_sent timestamp_received
          = VInt 0)
    /\ ((forall d, ~ parses fromisoformat timestamp_sent d)
        \/ (forall d, ~ parses fromisoformat timestamp_received d) ->
        Consumer.calculate_latency fromisoformat timestamp_sent timestamp_received
        = VInt 0)
    /\ (forall (queue : string) (message_body : value)
               (extra : list (string * value)) (fx : Consumer.effects),
          is_dict message_body = true ->
          exists metrics v,
            Consumer.build_metrics fromisoformat queue message_body extra fx
            = Ok metrics
            /\ stored_latency metrics = Some v
            /\ py_round (Consumer.calculate_latency fromisoformat
                           (field message_body "timestamp_sent" VNone)
                           (VStr (Consumer.now_received fx ++ "Z"))) 2 = Ok v
            /\ (forall q,
                  Consumer.calculate_latency fromisoformat
                    (field message_body "timestamp_sent" VNone)
                    (VStr (Consumer.now_received fx ++ "Z")) = VFloat q ->
                  float_round q 2 v
                  /\ ((Qabs q <= 1000000000000)%Q -> rounded2 v))
            /\ (Consumer.calculate_latency fromisoformat
                  (field message_body "timestamp_sent" VNone)
                  (VStr (Consumer.now_received fx ++ "Z")) = VInt 0 ->
                v = VInt 0)).
Proof.
  intros fromisoformat timestamp_sent timestamp_received.
  refine (conj _ (conj _ (conj _ _))).
  - intros sent received delta [s [Hs Hps]] [r [Hr Hpr]] Hsub.
    unfold Consumer.calculate_latency.
    rewrite Hs. cbn [bind]. rewrite Hps. cbn [bind].
    rewrite Hr. cbn [bind]. rewrite Hpr. cbn [bind]. rewrite Hsub. cbn [bind].
    refine (conj eq_refl (conj _ (conj (total_ms_error delta)
              (conj (proj1 (total_ms_sign delta))
                 (conj (proj2 (total_ms_sign delta)) _))))).
    { exists (binary64 (inject_Z delta / 1000000)).
      split; apply binary64_nearest. }
    intros Hos Hor. unfold Consumer.datetime_sub in Hsub. rewrite Hos, Hor in Hsub.
    injection Hsub as <-. lia.
  - intros sent received e [s [Hs Hps]] [r [Hr Hpr]] Hsub.
    unfold Consumer.calculate_latency.
    rewrite Hs. cbn [bind]. rewrite Hps. cbn [bind].
    rewrite Hr. cbn [bind]. rewrite Hpr. cbn [bind]. rewrite Hsub. reflexivity.
  - intros Hno.
    destruct (calculate_latency_cases fromisoformat timestamp_sent timestamp_received)
      as [[sent [received [delta [Hs [Hr _]]]]] | [Hl _]]; [| exact Hl].
    exfalso. destruct Hno as [Hno | Hno]; [apply (Hno sent) | apply (Hno received)];
      assumption.
  - intros queue message_body extra fx Hd.
    destruct (build_metrics_spec fromisoformat queue message_body extra fx Hd)
      as [fields [v [Hb [Hv Hr]]]].
    eexists. exists v. split; [exact Hb |]. split; [exact Hv |].
    split; [exact Hr |]. split.
    + intros q Hq. rewrite Hq in Hr. split.
      * apply py_round_float_round; [lia | exact Hr].
      * intros Hbound. exact (py_round_rounded2 (VFloat q) v q Hr eq_refl Hbound).
    + intros H0. rewrite H0 in Hr. injection Hr as <-. reflexivity.
Qed.

(** C5 at a message sent 250.025 ms before it is received: the latency is
    the float next above 250.025 and the record stores the float nearest to
    250.03; at a send timestamp without a UTC offset, and at a message
    without a send timestamp, the latency is 0. *)
Lemma C5_latency_never_raises_witness :
  (Consumer.calculate_latency Instances.fromisoformat
     (VStr "2024-01-01T00:00:00.249975Z") (VStr "2024-01-01T00:00:00.500000Z")
   = VFloat (Consumer.total_ms 250025)
   /\ Consumer.total_ms 250025 = 8796972631510221 # 35184372088832)
  /\ Consumer.calculate_latency Instances.fromisoformat
       (VStr "2024-01-01T00:00:00.250000") (VStr "2024-01-01T00:00:00.500000Z")
     = VInt 0
  /\ Consumer.calculate_latency Instances.fromisoformat
       VNone (VStr "2024-01-01T00:00:00.500000Z") = VInt 0
  /\ exists metrics,
       Consumer.build_metrics Instances.fromisoformat "sqs" Examples.odd_time []
         (Examples.effects_with (Ok tt)) = Ok metrics
       /\ stored_latency metrics = Some (VFloat (8797148553370665 # 35184372088832)).
Proof.
  refine (conj (conj _ _) (conj _ (conj _ _))).
  - refine (proj1 (proj1 (C5_latency_never_raises Instances.fromisoformat
                            (VStr "2024-01-01T00:00:00.249975Z")
                            (VStr "2024-01-01T00:00:00.500000Z"))
                     {| Consumer.wall := 1704067200249975;
                        Consumer.utcoffset := Some 0 |}
                     {| Consumer.wall := 1704067200500000;
                        Consumer.utcoffset := Some 0 |}
                     250025 _ _ eq_refl)).
    + exists "2024-01-01T00:00:00.249975+00:00". split; reflexivity.
    + exists "2024-01-01T00:00:00.500000+00:00". split; reflexivity.
  - vm_compute. reflexivity.
  - refine (proj1 (proj2 (C5_latency_never_raises Instances.fromisoformat
                            (VStr "2024-01-01T00:00:00.250000")
                            (VStr "2024-01-01T00:00:00.500000Z")))
              {| Consumer.wall := 1704067200250000; Consumer.utcoffset := None |}
              {| Consumer.wall := 1704067200500000; Consumer.utcoffset := Some 0 |}
              TypeError _ _ eq_refl).
    + exists "2024-01-01T00:00:00.250000". split; reflexivity.
    + exists "2024-01-01T00:00:00.500000+00:00". split; reflexivity.
  - apply (proj1 (proj2 (proj2 (C5_latency_never_raises Instances.fromisoformat
                                  VNone (VStr "2024-01-01T00:00:00.500000Z"))))).
    left. intros d [s [Hs _]]. discriminate.
  - destruct (proj2 (proj2 (proj2 (C5_latency_never_raises Instances.fromisoformat
                                     VNone VNone)))
                "sqs" Examples.odd_time [] (Examples.effects_with (Ok tt)) eq_refl)
      as [metrics [v [Hb [Hv [Hr _]]]]].
    exists metrics. split; [exact Hb |].
    vm_compute in Hr. injection Hr as <-. exact Hv.
Defined.

(** ** C3 *)

(** C3, as amended.  For every metrics dictionary built by either consumer
    the [latency_ms] field is a number.  When both timestamps are read and
    subtract, it is the float [(received - sent).total_seconds() * 1000]
    (the difference in milliseconds, up to the rounding of its two
    operations) rounded to 2 decimals, which is non-negative when
    [timestamp_sent] is not later than [timestamp_received] and is not
    positive when it is later: nothing clamps it.  It is the int 0 when the
    two values do not subtract (a [timestamp_sent] without a UTC offset
    against the receive timestamp, which carries one) and when a timestamp
    cannot be read. *)
Theorem C3_latency_sign_amended :
  forall (fromisoformat : string -> result Consumer.datetime),
    (forall (json_loads : string -> result value) (record : value)
            (fx : Consumer.effects) (metrics : value),
       ConsumerSqs.metrics_of_record json_loads fromisoformat record fx = Ok metrics ->
       exists message_body v,
         (body <- Consumer.getitem record "body" ;;
          Consumer.py_json_loads json_loads body) = Ok message_body
         /\ stored_latency metrics = Some v
         /\ latency_of_message fromisoformat message_body fx v)
    /\ (forall (utf8_decode : string -> result string)
               (json_loads : string -> result value)
               (d : ConsumerRabbitmq.delivery) (fx : Consumer.effects)
               (metrics : value),
          ConsumerRabbitmq.metrics_of_delivery utf8_decode json_loads fromisoformat
            d fx = Ok metrics ->
          exists message_body v,
            (text <- utf8_decode (ConsumerRabbitmq.body d) ;; json_loads text)
            = Ok message_body
            /\ stored_latency metrics = Some v
            /\ latency_of_message fromisoformat message_body fx v).
Proof.
  intros fromisoformat. split.
  - intros json_loads record fx metrics H.
    unfold ConsumerSqs.metrics_of_record in H. inv_bind H.
    destruct (build_metrics_latency _ _ _ _ _ _ H) as [v [Hv Hl]].
    exists a0, v. rewrite Ha. cbn [bind]. auto.
  - intros utf8_decode json_loads d fx metrics H.
    unfold ConsumerRabbitmq.metrics_of_delivery in H. inv_bind H.
    destruct (build_metrics_latency _ _ _ _ _ _ H) as [v [Hv Hl]].
    exists a0, v. rewrite Ha. cbn [bind]. auto.
Qed.

(** The amended C3 at a push-delivered message sent 250.025 ms before it is
    received, which is stored with the float nearest to 250.03, and at one
    whose send timestamp has no UTC offset, which is stored with 0. *)
Lemma C3_latency_sign_amended_witness :
  (exists metrics,
     ConsumerSqs.metrics_of_record Examples.json_loads Instances.fromisoformat
       (Examples.sqs_record Examples.odd_time_text) (Examples.effects_with (Ok tt))
     = Ok metrics
     /\ stored_latency metrics = Some (VFloat (8797148553370665 # 35184372088832)))
  /\ (exists metrics,
        ConsumerSqs.metrics_of_record Examples.json_loads Instances.fromisoformat
          (Examples.sqs_record Examples.zoneless_text) (Examples.effects_with (Ok tt))
        = Ok metrics
        /\ stored_latency metrics = Some (VInt 0)).
Proof.
  split.
  - destruct (ConsumerSqs.metrics_of_record Examples.json_loads Instances.fromisoformat
                (Examples.sqs_record Examples.odd_time_text)
                (Examples.effects_with (Ok tt))) as [metrics | e] eqn:E.
    + destruct (proj1 (C3_latency_sign_amended Instances.fromisoformat)
                  Examples.json_loads (Examples.sqs_record Examples.odd_time_text)
                  (Examples.effects_with (Ok tt)) metrics E)
        as [message_body [v [Hm [Hv [q [_ [Hl _]]]]]]].
      vm_compute in Hm. injection Hm as <-.
      destruct (Hl {| Consumer.wall := 1704067200249975; Consumer.utcoffset := Some 0 |}
                   {| Consumer.wall := 1704067200500000; Consumer.utcoffset := Some 0 |}
                   250025) as [Hfr _].
      * exists "2024-01-01T00:00:00.249975+00:00". split; reflexivity.
      * exists "2024-01-01T00:00:00.500000+00:00". split; reflexivity.
      * reflexivity.
      * exists metrics. split; [reflexivity |]. rewrite Hv. f_equal.
        apply (float_round_functional (Consumer.total_ms 250025) 2); [lia | exact Hfr |].
        apply py_round_float_round; [lia |]. vm_compute. reflexivity.
    + vm_compute in E. discriminate.
  - destruct (ConsumerSqs.metrics_of_record Examples.json_loads Instances.fromisoformat
                (Examples.sqs_record Examples.zoneless_text)
                (Examples.effects_with (Ok tt))) as [metrics | e] eqn:E.
    + destruct (proj1 (C3_latency_sign_amended Instances.fromisoformat)
                  Examples.json_loads (Examples.sqs_record Examples.zoneless_text)
                  (Examples.effects_with (Ok tt)) metrics E)
        as [message_body [v [Hm [Hv [q [_ [_ [Hl _]]]]]]]].
      vm_compute in Hm. injection Hm as <-.
      exists metrics. split; [reflexivity |]. rewrite Hv. f_equal.
      apply (Hl {| Consumer.wall := 1704067200250000; Consumer.utcoffset := None |}
                {| Consumer.wall := 1704067200500000; Consumer.utcoffset := Some 0 |}
                TypeError).
      * exists "2024-01-01T00:00:00.250000". split; reflexivity.
      * exists "2024-01-01T00:00:00.500000+00:00". split; reflexivity.
      * reflexivity.
    + vm_compute in E. discriminate.
Defined.

(** C3 as stated fails: a message stamped one second after the clock of the
    consumer gets the latency -1000 ms. *)
Lemma C3_counterexample :
  ~ (forall (record : value) (fx : Consumer.effects) (metrics v : value) (q : Q),
       ConsumerSqs.metrics_of_record Examples.json_loads Instances.fromisoformat
         record fx = Ok metrics ->
       stored_latency metrics = Some v ->
       as_number v = Some q ->
       (0 <= q)%Q).
Proof.
  intros H.
  assert (E : exists metrics,
            ConsumerSqs.metrics_of_record Examples.json_loads Instances.fromisoformat
              (Examples.sqs_record Examples.early_clock_text)
              (Examples.effects_with (Ok tt)) = Ok metrics
            /\ stored_latency metrics = Some (VFloat (-1000 # 1)))
    by (eexists; split; vm_compute; reflexivity).
  destruct E as [metrics [E1 E2]].
  specialize (H _ _ _ _ _ E1 E2 eq_refl).
  apply H. reflexivity.
Qed.

(** ** C4 *)

Lemma store_metrics_flag (fromisoformat : string -> result Consumer.datetime)
    (queue prefix : string) (message_body metrics : value)
    (extra : list (string * value)) (fx : Consumer.effects) :
  Consumer.build_metrics fromisoformat queue message_body extra fx = Ok metrics ->
  exists obj,
    Consumer.store_metrics_to_s3 prefix metrics fx
    = match Consumer.put_object fx with
      | Ok _ => (true, [obj])
      | Raise _ => (false, [])
      end
    /\ Consumer.content obj = metrics.
Proof.
  intros H. pose proof (build_metrics_dict _ _ _ _ _ _ H) as Hd.
  destruct (build_metrics_spec fromisoformat queue message_body extra fx Hd)
    as [fields [v [Hb _]]].
  rewrite Hb in H. injection H as <-.
  exists {| Consumer.prefix := prefix; Consumer.stamp := Consumer.now_stored fx;
            Consumer.message_id := field message_body "message_id" (VStr "unknown");
            Consumer.content :=
              VDict (("message_id", field message_body "message_id" (VStr "unknown"))
                     :: fields) |}.
  split; [| reflexivity].
  unfold Consumer.store_metrics_to_s3. cbn [assoc String.eqb Ascii.eqb Bool.eqb bind].
  destruct (Consumer.put_object fx); reflexivity.
Qed.

(** One iteration of the push-mode loop adds one to exactly one counter. *)
Lemma process_record_counts (json_loads : string -> result value)
    (fromisoformat : string -> result Consumer.datetime)
    (b : ConsumerSqs.batch) (record : value) (fx : Consumer.effects) :
  let b' := ConsumerSqs.process_record json_loads fromisoformat b record fx in
  let k := if record_fails json_loads fromisoformat record fx then 1 else 0 in
  ConsumerSqs.processed_count b' = ConsumerSqs.processed_count b + (1 - k)
  /\ ConsumerSqs.failed_count b' = ConsumerSqs.failed_count b + k
  /\ len (ConsumerSqs.writes b') = len (ConsumerSqs.writes b) + (1 - k).
Proof.
  unfold ConsumerSqs.process_record, record_fails.
  destruct (ConsumerSqs.metrics_of_record json_loads fromisoformat record fx)
    as [metrics | e] eqn:E; cbn zeta.
  - unfold ConsumerSqs.metrics_of_record in E. inv_bind E.
    destruct (store_metrics_flag _ _ "sqs" _ _ _ _ E) as [obj [Hstore _]].
    rewrite Hstore.
    destruct (Consumer.put_object fx); cbn; rewrite ?len_app;
      change (len [obj]) with 1; change (len (@nil Consumer.stored_object)) with 0;
      repeat split; lia.
  - cbn. repeat split; lia.
Qed.

Lemma process_records_counts (json_loads : string -> result value)
    (fromisoformat : string -> result Consumer.datetime)
    (world : nat -> Consumer.effects) (records : list value) :
  forall (i : nat) (b : ConsumerSqs.batch),
    let b' := ConsumerSqs.process_records json_loads fromisoformat world i b records in
    let k := count_failed json_loads fromisoformat world i records in
    ConsumerSqs.processed_count b' = ConsumerSqs.processed_count b + (len records - k)
    /\ ConsumerSqs.failed_count b' = ConsumerSqs.failed_count b + k
    /\ len (ConsumerSqs.writes b') = len (ConsumerSqs.writes b) + (len records - k)
    /\ 0 <= k <= len records.
Proof.
  induction records as [| record rest IH]; intros i b; cbn zeta.
  - cbn. change (len (@nil value)) with 0. repeat split; lia.
  - cbn [ConsumerSqs.process_records count_failed]. rewrite len_cons.
    destruct (IH (S i)
                (ConsumerSqs.process_record json_loads fromisoformat b record (world i)))
      as [Hp [Hf [Hb Hk]]].
    destruct (process_record_counts json_loads fromisoformat b record (world i))
      as [Hp1 [Hf1 Hb1]].
    cbn zeta in *. rewrite Hp, Hf, Hb, Hp1, Hf1, Hb1.
    destruct (record_fails json_loads fromisoformat record (world i));
      repeat split; lia.
Qed.

(** C4.  For every batch of [N] push-delivered records, whatever their
    contents, the handler returns without an exception the summary
    [processed = N - K], [failed = K], [total = N], where [K] is the number
    of records whose processing raised or whose metrics could not be
    written; so [processed + failed = total].  The number of objects written
    is [N - K]. *)
Theorem C4_batch_accounting :
  forall (json_loads : string -> result value)
         (fromisoformat : string -> result Consumer.datetime)
         (event : value) (records : list value) (world : nat -> Consumer.effects),
    py_get event "Records" (VList []) = Ok (VList records) ->
    exists summary written,
      ConsumerSqs.lambda_handler json_loads fromisoformat event world
      = Ok (summary, written)
      /\ ConsumerSqs.statusCode summary = 200
      /\ ConsumerSqs.processed summary
         = len records - count_failed json_loads fromisoformat world 0 records
      /\ ConsumerSqs.failed summary
         = count_failed json_loads fromisoformat world 0 records
      /\ ConsumerSqs.total summary = len records
      /\ ConsumerSqs.processed summary + ConsumerSqs.failed summary
         = ConsumerSqs.total summary
      /\ 0 <= count_failed json_loads fromisoformat world 0 records <= len records
      /\ len written = ConsumerSqs.processed summary.
Proof.
  intros json_loads fromisoformat event records world Hrecords.
  unfold ConsumerSqs.lambda_handler. rewrite Hrecords. cbn [bind ConsumerSqs.iterate].
  destruct (process_records_counts json_loads fromisoformat world records 0
              {| ConsumerSqs.processed_count := 0; ConsumerSqs.failed_count := 0;
                 ConsumerSqs.writes := [] |})
    as [Hp [Hf [Hb Hk]]].
  cbn zeta in *. cbn [ConsumerSqs.processed_count ConsumerSqs.failed_count
                        ConsumerSqs.writes] in *.
  change (len (@nil Consumer.stored_object)) with 0 in Hb.
  eexists. eexists. split; [reflexivity |].
  cbn [ConsumerSqs.statusCode ConsumerSqs.processed ConsumerSqs.failed
         ConsumerSqs.total].
  rewrite Hp, Hf, Hb. repeat split; lia.
Qed.

(** C4 at a batch of four records: a well-formed message, a record that is
    not a dictionary, a record whose body is not JSON, and a well-formed
    message whose metrics cannot be written. *)
Lemma C4_batch_accounting_witness :
  let event :=
    VDict [("Records",
            VList [Examples.sqs_record Examples.on_time_text;
                   VInt 3;
                   Examples.sqs_record "not json";
                   Examples.sqs_record Examples.on_time_text])] in
  exists summary written,
    ConsumerSqs.lambda_handler Examples.json_loads Instances.fromisoformat event
      (Examples.one_failure 3)
    = Ok (summary, written)
    /\ ConsumerSqs.processed summary = 1
    /\ ConsumerSqs.failed summary = 3
    /\ ConsumerSqs.total summary = 4.
Proof.
  intros event.
  destruct (C4_batch_accounting Examples.json_loads Instances.fromisoformat event
              _ (Examples.one_failure 3) eq_refl)
    as [summary [written [Hr [_ [Hp [Hf [Ht _]]]]]]].
  exists summary, written. split; [exact Hr |].
  rewrite Hp, Hf, Ht. vm_compute. repeat split.
Defined.

(** ** C2 *)

Lemma Qle_bool_inject_Z (a b : Z) : Qle_bool (inject_Z a) (inject_Z b) = (a <=? b).
Proof. unfold Qle_bool. simpl. rewrite !Z.mul_1_r. reflexivity. Qed.

Section PollFacts.
Variable utf8_decode : string -> result string.
Variable json_loads : string -> result value.
Variable fromisoformat : string -> result Consumer.datetime.
Variable transport : nat -> result unit.
Hypothesis reliable : forall n, transport n = Ok tt.

Local Abbreviation metrics_of_delivery :=
  (ConsumerRabbitmq.metrics_of_delivery utf8_decode json_loads fromisoformat).
Local Abbreviation handle_delivery :=
  (ConsumerRabbitmq.handle_delivery utf8_decode json_loads fromisoformat transport).
Local Abbreviation consume_loop :=
  (ConsumerRabbitmq.consume_loop utf8_decode json_loads fromisoformat transport).

(** The body of the loop on a well-formed message, under a reliable
    transport. *)
Lemma handle_delivery_well_formed (max : Z) (d : ConsumerRabbitmq.delivery)
    (fx : Consumer.effects) (s : ConsumerRabbitmq.session) (metrics : value) :
  metrics_of_delivery d fx = Ok metrics ->
  exists s',
    handle_delivery (VInt max) d fx s
    = (Ok (max <=? ConsumerRabbitmq.messages_consumed s + 1), s')
    /\ ConsumerRabbitmq.calls s' = ConsumerRabbitmq.calls s ++ [decision d fx]
    /\ ConsumerRabbitmq.processed_messages s'
       = ConsumerRabbitmq.processed_messages s
         ++ kept utf8_decode json_loads fromisoformat d fx
    /\ ConsumerRabbitmq.messages_consumed s'
       = ConsumerRabbitmq.messages_consumed s + 1.
Proof.
  intros Hm. unfold kept, decision. rewrite Hm.
  unfold ConsumerRabbitmq.handle_delivery, ConsumerRabbitmq.try,
    ConsumerRabbitmq.bindM, ConsumerRabbitmq.lift, ConsumerRabbitmq.store.
  rewrite Hm.
  assert (Hb : exists body, Consumer.build_metrics fromisoformat "rabbitmq" body
                 [("delivery_tag", VInt (ConsumerRabbitmq.delivery_tag d))] fx
               = Ok metrics).
  { unfold ConsumerRabbitmq.metrics_of_delivery in Hm. inv_bind Hm. eauto. }
  destruct Hb as [body Hb].
  destruct (store_metrics_flag _ _ "rabbitmq" _ _ _ _ Hb) as [obj [Hstore _]].
  rewrite Hstore.
  destruct (Consumer.put_object fx) as [[] | e];
    unfold ConsumerRabbitmq.call, ConsumerRabbitmq.append_processed,
      ConsumerRabbitmq.count_consumed, ConsumerRabbitmq.ret, ConsumerRabbitmq.int_ge;
    cbn -[Z.leb Z.add Qle_bool inject_Z]; rewrite reliable;
    cbn -[Z.leb Z.add Qle_bool inject_Z]; rewrite Qle_bool_inject_Z;
    eexists; (split; [reflexivity |]); cbn; rewrite ?app_nil_r; auto.
Qed.

(** The loop over a run of well-formed messages that fits the bound, ended
    by an inactivity timeout or the end of the stream. *)
Lemma consume_loop_well_formed (max : Z) (world : nat -> Consumer.effects)
    (tail : list ConsumerRabbitmq.frame) (ds : list ConsumerRabbitmq.delivery) :
  tail = [] \/ (exists rest, tail = ConsumerRabbitmq.Inactive :: rest) ->
  forall (i : nat) (s : ConsumerRabbitmq.session),
    all_well_formed utf8_decode json_loads fromisoformat world i ds = true ->
    ConsumerRabbitmq.messages_consumed s + len ds <= max ->
    exists s',
      consume_loop (VInt max) world i (map ConsumerRabbitmq.Message ds ++ tail) s
      = (Ok tt, s')
      /\ ConsumerRabbitmq.calls s'
         = ConsumerRabbitmq.calls s ++ imap (fun k d => decision d (world k)) i ds
      /\ ConsumerRabbitmq.processed_messages s'
         = ConsumerRabbitmq.processed_messages s
           ++ concat (imap (fun k d => kept utf8_decode json_loads fromisoformat
                                         d (world k)) i ds).
Proof.
  intros Htail. induction ds as [| d ds IH]; intros i s Hwf Hmax.
  - cbn [map app imap concat]. rewrite !app_nil_r.
    destruct Htail as [-> | [rest ->]]; eexists; (split; [reflexivity |]); auto.
  - cbn [all_well_formed] in Hwf.
    destruct (metrics_of_delivery d (world i)) as [metrics | e] eqn:Hm;
      [| discriminate].
    destruct (handle_delivery_well_formed max d (world i) s metrics Hm)
      as [s1 [Hstep [Hcalls [Hproc Hcons]]]].
    cbn [map app ConsumerRabbitmq.consume_loop imap concat].
    unfold ConsumerRabbitmq.bindM at 1. rewrite Hstep.
    rewrite len_cons in Hmax.
    destruct (max <=? ConsumerRabbitmq.messages_consumed s + 1) eqn:Estop.
    + apply Z.leb_le in Estop. pose proof (len_nonneg ds) as Hn.
      assert (Hz : len ds = 0) by lia.
      destruct ds; [| rewrite len_cons in Hz; pose proof (len_nonneg ds); lia].
      exists s1. cbn [imap concat]. rewrite app_nil_r. auto.
    + destruct (IH (S i) s1 Hwf) as [s' [Hloop [Hcalls' Hproc']]]; [lia |].
      exists s'. split; [exact Hloop |].
      rewrite Hcalls', Hproc', Hcalls, Hproc, <- !app_assoc. auto.
Qed.
End PollFacts.

(** One poll over a run of well-formed messages that fits the bound. *)
Lemma consume_messages_well_formed
    (utf8_decode : string -> result string) (json_loads : string -> result value)
    (fromisoformat : string -> result Consumer.datetime)
    (transport : nat -> result unit) (max : Z) (world : nat -> Consumer.effects)
    (tail : list ConsumerRabbitmq.frame) (ds : list ConsumerRabbitmq.delivery) :
  (forall n, transport n = Ok tt) ->
  tail = [] \/ (exists rest, tail = ConsumerRabbitmq.Inactive :: rest) ->
  all_well_formed utf8_decode json_loads fromisoformat world 0 ds = true ->
  len ds <= max ->
  exists s,
    ConsumerRabbitmq.consume_messages_from_rabbitmq utf8_decode json_loads
      fromisoformat transport (VInt max) (Ok tt)
      (map ConsumerRabbitmq.Message ds ++ tail) world
    = (concat (imap (fun k d => kept utf8_decode json_loads fromisoformat d (world k))
                 0 ds), s)
    /\ ConsumerRabbitmq.calls s
       = imap (fun k d => decision d (world k)) 0 ds
         ++ [ConsumerRabbitmq.cancel; ConsumerRabbitmq.close].
Proof.
  intros Hrel Htail Hwf Hmax.
  destruct (consume_loop_well_formed utf8_decode json_loads fromisoformat transport
              Hrel max world tail ds Htail 0 ConsumerRabbitmq.start Hwf)
    as [s1 [Hloop [Hcalls Hproc]]]; [simpl; lia |].
  unfold ConsumerRabbitmq.consume_messages_from_rabbitmq.
  unfold ConsumerRabbitmq.bindM at 1. unfold ConsumerRabbitmq.lift at 1.
  unfold ConsumerRabbitmq.bindM at 1. rewrite Hloop.
  unfold ConsumerRabbitmq.bindM, ConsumerRabbitmq.call.
  rewrite !Hrel. cbn [ConsumerRabbitmq.processed_messages ConsumerRabbitmq.calls].
  eexists. split; [rewrite Hproc; reflexivity |].
  cbn [ConsumerRabbitmq.calls]. rewrite Hcalls, <- app_assoc. reflexivity.
Qed.

(** The body of the loop on a decoded message, for any transport and any
    value of the bound. *)
Lemma handle_delivery_decoded
    (utf8_decode : string -> result string) (json_loads : string -> result value)
    (fromisoformat : string -> result Consumer.datetime)
    (transport : nat -> result unit) (max_messages : value)
    (d : ConsumerRabbitmq.delivery) (fx : Consumer.effects)
    (s : ConsumerRabbitmq.session) (metrics : value) :
  ConsumerRabbitmq.metrics_of_delivery utf8_decode json_loads fromisoformat d fx
  = Ok metrics ->
  let tag := ConsumerRabbitmq.delivery_tag d in
  let first := transport (List.length (ConsumerRabbitmq.calls s)) in
  exists r s' cs,
    ConsumerRabbitmq.handle_delivery utf8_decode json_loads fromisoformat transport
      max_messages d fx s = (r, s')
    /\ ConsumerRabbitmq.calls s' = ConsumerRabbitmq.calls s ++ cs
    /\ (Consumer.put_object fx = Ok tt ->
        (first = Ok tt ->
         ConsumerRabbitmq.processed_messages s'
         = ConsumerRabbitmq.processed_messages s ++ [metrics]
         /\ (numeric max_messages = true -> cs = [ConsumerRabbitmq.basic_ack tag])
         /\ (numeric max_messages = false ->
             cs = [ConsumerRabbitmq.basic_ack tag;
                   ConsumerRabbitmq.basic_nack tag true]))
        /\ (forall e, first = Raise e ->
            ConsumerRabbitmq.processed_messages s'
            = ConsumerRabbitmq.processed_messages s
            /\ cs = [ConsumerRabbitmq.basic_ack tag;
                     ConsumerRabbitmq.basic_nack tag true]))
    /\ (forall e, Consumer.put_object fx = Raise e ->
        ConsumerRabbitmq.processed_messages s' = ConsumerRabbitmq.processed_messages s
        /\ (first = Ok tt -> numeric max_messages = true ->
            cs = [ConsumerRabbitmq.basic_nack tag true])
        /\ (cs = [ConsumerRabbitmq.basic_nack tag true]
            \/ cs = [ConsumerRabbitmq.basic_nack tag true;
                     ConsumerRabbitmq.basic_nack tag true])).
Proof.
  intros Hm tag first.
  assert (Hb : exists body, Consumer.build_metrics fromisoformat "rabbitmq" body
                 [("delivery_tag", VInt (ConsumerRabbitmq.delivery_tag d))] fx
               = Ok metrics).
  { unfold ConsumerRabbitmq.metrics_of_delivery in Hm. inv_bind Hm. eauto. }
  destruct Hb as [body Hb].
  destruct (store_metrics_flag _ _ "rabbitmq" _ _ _ _ Hb) as [obj [Hstore _]].
  unfold ConsumerRabbitmq.handle_delivery, ConsumerRabbitmq.try,
    ConsumerRabbitmq.bindM, ConsumerRabbitmq.lift, ConsumerRabbitmq.store.
  rewrite Hm, Hstore.
  assert (Hnum : forall c, numeric max_messages = true ->
            exists stop, ConsumerRabbitmq.int_ge c max_messages = Ok stop).
  { intros c H. unfold ConsumerRabbitmq.int_ge. unfold numeric in H.
    destruct (as_number max_messages); [eauto | discriminate]. }
  assert (Hnot : forall c, numeric max_messages = false ->
            ConsumerRabbitmq.int_ge c max_messages = Raise TypeError).
  { intros c H. unfold ConsumerRabbitmq.int_ge. unfold numeric in H.
    destruct (as_number max_messages); [discriminate | reflexivity]. }
  unfold first. clear first.
  destruct (Consumer.put_object fx) as [[] | e0];
    unfold ConsumerRabbitmq.call, ConsumerRabbitmq.append_processed,
      ConsumerRabbitmq.count_consumed, ConsumerRabbitmq.ret;
    cbn [ConsumerRabbitmq.calls ConsumerRabbitmq.processed_messages
         ConsumerRabbitmq.messages_consumed ConsumerRabbitmq.writes];
    destruct (transport (List.length (ConsumerRabbitmq.calls s))) as [[] | e1];
    cbn [ConsumerRabbitmq.calls ConsumerRabbitmq.processed_messages
         ConsumerRabbitmq.messages_consumed ConsumerRabbitmq.writes];
    try (destruct (numeric max_messages) eqn:En;
         [destruct (Hnum (ConsumerRabbitmq.messages_consumed s + 1) eq_refl)
            as [stop Hstop]; rewrite Hstop
         | rewrite (Hnot (ConsumerRabbitmq.messages_consumed s + 1) eq_refl)]);
    cbn [ConsumerRabbitmq.calls ConsumerRabbitmq.processed_messages
         ConsumerRabbitmq.messages_consumed ConsumerRabbitmq.writes];
    repeat match goal with
           | |- context [match transport ?n with _ => _ end] =>
               destruct (transport n) as [[] | ?]
           end;
    do 2 eexists; eexists;
    (split; [reflexivity |]);
    cbn [ConsumerRabbitmq.calls ConsumerRabbitmq.processed_messages
         ConsumerRabbitmq.messages_consumed ConsumerRabbitmq.writes];
    rewrite <- ?app_assoc; cbn [app];
    (split; [reflexivity |]);
    (split; [intros Hput; try discriminate Hput;
             (split; [intros Hfirst; try discriminate Hfirst;
                      repeat split; intros; congruence
                     | intros e' Hfirst; try discriminate Hfirst; split; reflexivity])
            | intros e' Hput; try discriminate Hput;
              (split; [reflexivity |]);
              (split; [intros Hfirst Hn; congruence || reflexivity | auto])]).
Qed.

(** C2, as amended.  In one poll of the pull-mode consumer:
    (1) for every message whose payload is decoded, in whatever state of the
    poll, for any transport and any value of [max_messages]: if its metrics
    are written, the loop calls [basic_ack] for its delivery tag, and the
    metrics are appended to the processed list exactly when that call
    returns; when the call raises, the message is nacked with requeue and
    nothing is appended.  If the write fails, the loop calls [basic_nack]
    with requeue for the tag, makes no other kind of call and appends
    nothing.  (A bound that is no number adds a [basic_nack] to the calls.)
    (2) over a reliable transport and a run of such messages that fits
    [max_messages], the calls on the channel are exactly those decisions in
    order, followed by [cancel] and [close], and the list returned is the
    metrics that were written;
    (3) over a reliable transport, with five such messages and a write that
    fails for exactly the [j]-th, the [j]-th is nacked with requeue, the
    other four are acked, and the list returned is the other four
    metrics. *)
Theorem C2_ack_on_persist_amended :
  forall (utf8_decode : string -> result string)
         (json_loads : string -> result value)
         (fromisoformat : string -> result Consumer.datetime)
         (transport : nat -> result unit),
    (forall (max_messages : value) (d : ConsumerRabbitmq.delivery)
            (fx : Consumer.effects) (s : ConsumerRabbitmq.session) (metrics : value),
       ConsumerRabbitmq.metrics_of_delivery utf8_decode json_loads fromisoformat d fx
       = Ok metrics ->
       let tag := ConsumerRabbitmq.delivery_tag d in
       let first := transport (List.length (ConsumerRabbitmq.calls s)) in
       exists r s' cs,
         ConsumerRabbitmq.handle_delivery utf8_decode json_loads fromisoformat
           transport max_messages d fx s = (r, s')
         /\ ConsumerRabbitmq.calls s' = ConsumerRabbitmq.calls s ++ cs
         /\ (Consumer.put_object fx = Ok tt ->
             (first = Ok tt ->
              ConsumerRabbitmq.processed_messages s'
              = ConsumerRabbitmq.processed_messages s ++ [metrics]
              /\ (numeric max_messages = true ->
                  cs = [ConsumerRabbitmq.basic_ack tag])
              /\ (numeric max_messages = false ->
                  cs = [ConsumerRabbitmq.basic_ack tag;
                        ConsumerRabbitmq.basic_nack tag true]))
             /\ (forall e, first = Raise e ->
                 ConsumerRabbitmq.processed_messages s'
                 = ConsumerRabbitmq.processed_messages s
                 /\ cs = [ConsumerRabbitmq.basic_ack tag;
                          ConsumerRabbitmq.basic_nack tag true]))
         /\ (forall e, Consumer.put_object fx = Raise e ->
             ConsumerRabbitmq.processed_messages s'
             = ConsumerRabbitmq.processed_messages s
             /\ (first = Ok tt -> numeric max_messages = true ->
                 cs = [ConsumerRabbitmq.basic_nack tag true])
             /\ (cs = [ConsumerRabbitmq.basic_nack tag true]
                 \/ cs = [ConsumerRabbitmq.basic_nack tag true;
                          ConsumerRabbitmq.basic_nack tag true])))
    /\ ((forall n, transport n = Ok tt) ->
        forall (max : Z) (world : nat -> Consumer.effects)
               (ds : list ConsumerRabbitmq.delivery),
          all_well_formed utf8_decode json_loads fromisoformat world 0 ds = true ->
          len ds <= max ->
          exists s,
            ConsumerRabbitmq.consume_messages_from_rabbitmq utf8_decode json_loads
              fromisoformat transport (VInt max) (Ok tt)
              (map ConsumerRabbitmq.Message ds ++ [ConsumerRabbitmq.Inactive]) world
            = (concat (imap (fun k d => kept utf8_decode json_loads fromisoformat
                                          d (world k)) 0 ds), s)
            /\ ConsumerRabbitmq.calls s
               = imap (fun k d => decision d (world k)) 0 ds
                 ++ [ConsumerRabbitmq.cancel; ConsumerRabbitmq.close])
    /\ ((forall n, transport n = Ok tt) ->
        forall (max : Z) (world : nat -> Consumer.effects)
               (d0 d1 d2 d3 d4 : ConsumerRabbitmq.delivery) (j : nat),
          all_well_formed utf8_decode json_loads fromisoformat world 0
            [d0; d1; d2; d3; d4] = true ->
          5 <= max ->
          (j < 5)%nat ->
          (exists e, Consumer.put_object (world j) = Raise e) ->
          (forall i, (i < 5)%nat -> i <> j -> Consumer.put_object (world i) = Ok tt) ->
          exists m0 m1 m2 m3 m4 s,
            imap (fun k d => ConsumerRabbitmq.metrics_of_delivery utf8_decode
                               json_loads fromisoformat d (world k))
              0 [d0; d1; d2; d3; d4]
            = [Ok m0; Ok m1; Ok m2; Ok m3; Ok m4]
            /\ ConsumerRabbitmq.consume_messages_from_rabbitmq utf8_decode json_loads
                 fromisoformat transport (VInt max) (Ok tt)
                 (map ConsumerRabbitmq.Message [d0; d1; d2; d3; d4]
                  ++ [ConsumerRabbitmq.Inactive]) world
               = (without j [m0; m1; m2; m3; m4], s)
            /\ ConsumerRabbitmq.calls s
               = imap (fun k d =>
                         if Nat.eqb k j
                         then ConsumerRabbitmq.basic_nack
                                (ConsumerRabbitmq.delivery_tag d) true
                         else ConsumerRabbitmq.basic_ack
                                (ConsumerRabbitmq.delivery_tag d))
                   0 [d0; d1; d2; d3; d4]
                 ++ [ConsumerRabbitmq.cancel; ConsumerRabbitmq.close]).
Proof.
  intros utf8_decode json_loads fromisoformat transport.
  split; [| split].
  - intros max_messages d fx s metrics Hm.
    apply handle_delivery_decoded. exact Hm.
  - intros Hrel max world ds Hwf Hmax.
    apply consume_messages_well_formed; eauto.
  - intros Hrel max world d0 d1 d2 d3 d4 j Hwf Hmax Hj [e He] Hother.
    destruct (consume_messages_well_formed utf8_decode json_loads fromisoformat
                transport max world [ConsumerRabbitmq.Inactive] [d0; d1; d2; d3; d4]
                Hrel) as [s [Hrun Hcalls]];
      [right; eauto | exact Hwf | exact Hmax |].
    cbn [all_well_formed] in Hwf.
    destruct (ConsumerRabbitmq.metrics_of_delivery utf8_decode json_loads
                fromisoformat d0 (world 0%nat)) as [m0 |] eqn:E0; [| discriminate].
    destruct (ConsumerRabbitmq.metrics_of_delivery utf8_decode json_loads
                fromisoformat d1 (world 1%nat)) as [m1 |] eqn:E1; [| discriminate].
    destruct (ConsumerRabbitmq.metrics_of_delivery utf8_decode json_loads
                fromisoformat d2 (world 2%nat)) as [m2 |] eqn:E2; [| discriminate].
    destruct (ConsumerRabbitmq.metrics_of_delivery utf8_decode json_loads
                fromisoformat d3 (world 3%nat)) as [m3 |] eqn:E3; [| discriminate].
    destruct (ConsumerRabbitmq.metrics_of_delivery utf8_decode json_loads
                fromisoformat d4 (world 4%nat)) as [m4 |] eqn:E4; [| discriminate].
    exists m0, m1, m2, m3, m4, s.
    cbn [imap]. rewrite E0, E1, E2, E3, E4.
    split; [reflexivity |].
    rewrite Hrun, Hcalls. unfold kept, decision, without. cbn [imap concat].
    rewrite E0, E1, E2, E3, E4.
    destruct j as [| [| [| [| [| j]]]]]; [| | | | | lia];
      rewrite He;
      try (rewrite (Hother 0%nat) by lia);
      try (rewrite (Hother 1%nat) by lia);
      try (rewrite (Hother 2%nat) by lia);
      try (rewrite (Hother 3%nat) by lia);
      try (rewrite (Hother 4%nat) by lia);
      split; reflexivity.
Qed.

(** The amended C2 at five messages with the delivery tags 1 to 5, where the
    write fails for the third: tags 1, 2, 4, 5 are acked, tag 3 is nacked
    with requeue, and four metrics are returned; and at a message whose
    metrics are written while the acknowledgement fails: it is nacked and
    nothing is appended. *)
Lemma C2_ack_on_persist_amended_witness :
  (exists processed s,
     ConsumerRabbitmq.consume_messages_from_rabbitmq Instances.utf8_decode
       Examples.json_loads Instances.fromisoformat Examples.reliable (VInt 10) (Ok tt)
       (map ConsumerRabbitmq.Message
          [Examples.delivery 1 "0"; Examples.delivery 2 "1"; Examples.delivery 3 "2";
           Examples.delivery 4 "3"; Examples.delivery 5 "4"]
        ++ [ConsumerRabbitmq.Inactive])
       (Examples.one_failure 2)
     = (processed, s)
     /\ len processed = 4
     /\ ConsumerRabbitmq.calls s
        = [ConsumerRabbitmq.basic_ack 1; ConsumerRabbitmq.basic_ack 2;
           ConsumerRabbitmq.basic_nack 3 true;
           ConsumerRabbitmq.basic_ack 4; ConsumerRabbitmq.basic_ack 5;
           ConsumerRabbitmq.cancel; ConsumerRabbitmq.close])
  /\ (exists r s',
        ConsumerRabbitmq.handle_delivery Instances.utf8_decode Examples.json_loads
          Instances.fromisoformat Extra.first_call_fails (VInt 10)
          (Examples.delivery 7 "0") (Examples.effects_with (Ok tt))
          ConsumerRabbitmq.start = (r, s')
        /\ ConsumerRabbitmq.processed_messages s' = []
        /\ ConsumerRabbitmq.calls s'
           = [ConsumerRabbitmq.basic_ack 7; ConsumerRabbitmq.basic_nack 7 true]).
Proof.
  split.
  - assert (Hwf : all_well_formed Instances.utf8_decode Examples.json_loads
                    Instances.fromisoformat (Examples.one_failure 2) 0
                    [Examples.delivery 1 "0"; Examples.delivery 2 "1";
                     Examples.delivery 3 "2"; Examples.delivery 4 "3";
                     Examples.delivery 5 "4"] = true)
      by (vm_compute; reflexivity).
    assert (Hother : forall i, (i < 5)%nat -> i <> 2%nat ->
              Consumer.put_object (Examples.one_failure 2 i) = Ok tt).
    { intros i _ Hne. unfold Examples.one_failure, Examples.effects_with.
      cbn [Consumer.put_object].
      destruct (Nat.eqb_spec i 2); [contradiction | reflexivity]. }
    destruct (proj2 (proj2 (C2_ack_on_persist_amended Instances.utf8_decode
                              Examples.json_loads Instances.fromisoformat
                              Examples.reliable))
                (fun n => eq_refl)
                10 (Examples.one_failure 2)
                (Examples.delivery 1 "0") (Examples.delivery 2 "1")
                (Examples.delivery 3 "2") (Examples.delivery 4 "3")
                (Examples.delivery 5 "4") 2%nat Hwf ltac:(lia) ltac:(lia)
                (ex_intro _ TransportError eq_refl) Hother)
      as [m0 [m1 [m2 [m3 [m4 [s [_ [Hrun Hcalls]]]]]]]].
    eexists. exists s. split; [exact Hrun |]. split; [reflexivity | exact Hcalls].
  - destruct (ConsumerRabbitmq.metrics_of_delivery Instances.utf8_decode
                Examples.json_loads Instances.fromisoformat
                (Examples.delivery 7 "0") (Examples.effects_with (Ok tt)))
      as [metrics | e] eqn:Hm; [| vm_compute in Hm; discriminate Hm].
    destruct (proj1 (C2_ack_on_persist_amended Instances.utf8_decode
                       Examples.json_loads Instances.fromisoformat
                       Extra.first_call_fails)
                (VInt 10) (Examples.delivery 7 "0") (Examples.effects_with (Ok tt))
                ConsumerRabbitmq.start metrics Hm)
      as [r [s' [cs [Hrun [Hcalls [Hok _]]]]]].
    destruct (proj2 (Hok eq_refl) TransportError eq_refl) as [Hp Hcs].
    exists r, s'. rewrite Hcalls, Hcs. auto.
Defined.

(** C2 as stated fails: when the metrics of a message are written and the
    acknowledgement then raises, the poll returns without the metrics of
    the message, although its record is in the store. *)
Lemma C2_counterexample :
  ~ (forall (transport : nat -> result unit) (d : ConsumerRabbitmq.delivery)
            (fx : Consumer.effects) (metrics : value),
       ConsumerRabbitmq.metrics_of_delivery Instances.utf8_decode Examples.json_loads
         Instances.fromisoformat d fx = Ok metrics ->
       Consumer.put_object fx = Ok tt ->
       In metrics
         (fst (ConsumerRabbitmq.consume_messages_from_rabbitmq Instances.utf8_decode
                 Examples.json_loads Instances.fromisoformat transport (VInt 10)
                 (Ok tt) [ConsumerRabbitmq.Message d; ConsumerRabbitmq.Inactive]
                 (fun _ => fx)))).
Proof.
  intros H.
  destruct (ConsumerRabbitmq.metrics_of_delivery Instances.utf8_decode
              Examples.json_loads Instances.fromisoformat
              (Examples.delivery 7 "0") (Examples.effects_with (Ok tt)))
    as [metrics | e] eqn:Hm; [| vm_compute in Hm; discriminate Hm].
  specialize (H Extra.first_call_fails (Examples.delivery 7 "0")
                (Examples.effects_with (Ok tt)) metrics Hm eq_refl).
  vm_compute in H. exact H.
Qed.

(** ** C6 *)

(** Validation of a non-empty JSON object: the first missing field is
    reported, and the body is valid when none is missing. *)
Lemma validate_request_body_dict (d : list (string * value)) :
  d <> [] ->
  Producer.validate_request_body (VDict d)
  = Ok (match first_missing (VDict d) with
        | Some name => (false, Some ("Missing required field: " ++ name)%string)
        | None => (true, None)
        end).
Proof.
  intros Hne. unfold Producer.validate_request_body.
  assert (Ht : truthy (VDict d) = true) by (destruct d; [congruence | reflexivity]).
  rewrite Ht. cbn [negb].
  unfold first_missing, missing, Producer.required_fields.
  cbn [Producer.check_fields Producer.contains Consumer.getitem find bind].
  destruct (assoc "passenger_name" d) as [v1 |]; cbn [negb bind]; [| reflexivity].
  destruct (truthy v1); cbn [negb]; [| reflexivity].
  destruct (assoc "current_address" d) as [v2 |]; cbn [negb bind]; [| reflexivity].
  destruct (truthy v2); cbn [negb]; [| reflexivity].
  destruct (assoc "destination" d) as [v3 |]; cbn [negb bind]; [| reflexivity].
  destruct (truthy v3); cbn [negb]; reflexivity.
Qed.

Lemma first_missing_none (d : list (string * value)) :
  first_missing (VDict d) = None ->
  exists v1 v2 v3,
    assoc "passenger_name" d = Some v1
    /\ assoc "current_address" d = Some v2
    /\ assoc "destination" d = Some v3.
Proof.
  unfold first_missing, missing, Producer.required_fields. cbn [find].
  destruct (assoc "passenger_name" d) as [v1 |]; [| discriminate].
  destruct (truthy v1); cbn [negb]; [| discriminate].
  destruct (assoc "current_address" d) as [v2 |]; [| discriminate].
  destruct (truthy v2); cbn [negb]; [| discriminate].
  destruct (assoc "destination" d) as [v3 |]; [| discriminate].
  intros _. exists v1, v2, v3. repeat split.
Qed.

(** C6, as amended.  For every request with a valid queue selector whose
    body is decoded: (1) if the body is empty (an empty object, or another
    falsy value), the handler answers 400 with the error "Request body is
    empty" and hands no message to a queue; (2) if the body is a non-empty
    JSON object in which one of [passenger_name], [current_address],
    [destination] is absent or empty, the handler answers 400 with an error
    naming the first such field in that order, and hands no message to a
    queue; (3) if the body is a JSON object with all three fields present and
    non-empty, validation succeeds and one message is handed to the selected
    queue. *)
Theorem C6_validation_amended :
  forall (json_loads : string -> result value) (event : value)
         (fx : Producer.effects) (queue : string) (body : value),
    Producer.selector event = Ok queue ->
    queue = "sqs" \/ queue = "rabbitmq" ->
    decoded_body json_loads event = Ok body ->
    (truthy body = false ->
     Producer.lambda_handler json_loads event fx
     = (validation_error "Request body is empty", []))
    /\ (forall d name,
          body = VDict d -> d <> [] -> first_missing body = Some name ->
          Producer.lambda_handler json_loads event fx
          = (validation_error ("Missing required field: " ++ name), []))
    /\ (forall d,
          body = VDict d -> first_missing body = None ->
          Producer.validate_request_body body = Ok (true, None)
          /\ exists r msg,
               Producer.lambda_handler json_loads event fx = (r, [(queue, msg)])
               /\ Producer.queue_type msg = queue).
Proof.
  intros json_loads event fx queue body Hsel Hq Hbody.
  unfold decoded_body in Hbody. apply bind_Ok in Hbody.
  destruct Hbody as [raw [Hraw Hloads]].
  assert (Hcheck : negb (String.eqb queue "sqs" || String.eqb queue "rabbitmq")
                   = false)
    by (destruct Hq as [-> | ->]; reflexivity).
  unfold Producer.lambda_handler, Producer.submit.
  rewrite Hsel, Hcheck, Hraw. cbn [bind]. rewrite Hloads. cbn [bind].
  split; [| split].
  - intros Hfalsy. unfold Producer.validate_request_body. rewrite Hfalsy.
    reflexivity.
  - intros d name -> Hne Hmiss.
    rewrite (validate_request_body_dict d Hne), Hmiss. reflexivity.
  - intros d -> Hnone.
    assert (Hne : d <> []).
    { intros ->. discriminate. }
    rewrite (validate_request_body_dict d Hne), Hnone.
    split; [reflexivity |].
    destruct (first_missing_none d Hnone) as [v1 [v2 [v3 [E1 [E2 E3]]]]].
    cbn [bind negb Consumer.getitem py_get]. rewrite E1, E2, E3. cbn [bind].
    destruct (Producer.send_message fx); eexists; eexists; split; reflexivity.
Qed.

(** The amended C6 at the default queue and a body without [destination]. *)
Lemma C6_validation_amended_witness :
  Producer.lambda_handler Examples.json_loads
    (VDict [("body", VStr Examples.incomplete_text)]) Examples.producer_effects
  = (validation_error "Missing required field: destination", []).
Proof.
  apply (proj1 (proj2 (C6_validation_amended Examples.json_loads
                         (VDict [("body", VStr Examples.incomplete_text)])
                         Examples.producer_effects "sqs" (VDict Examples.incomplete)
                         eq_refl (or_introl eq_refl) eq_refl))
           Examples.incomplete "destination" eq_refl).
  - discriminate.
  - reflexivity.
Defined.

(** C6 as stated fails on the empty object: all three fields are absent,
    and the error does not name [passenger_name]. *)
Lemma C6_counterexample :
  ~ (forall (event : value) (fx : Producer.effects) (queue : string)
            (body : value) (name : string),
       Producer.selector event = Ok queue ->
       queue = "sqs" \/ queue = "rabbitmq" ->
       decoded_body Examples.json_loads event = Ok body ->
       first_missing body = Some name ->
       fst (Producer.lambda_handler Examples.json_loads event fx)
       = validation_error ("Missing required field: " ++ name)).
Proof.
  intros H.
  specialize (H (VDict [("body", VStr "{}")]) Examples.producer_effects
                "sqs" (VDict []) "passenger_name"
                eq_refl (or_introl eq_refl) eq_refl eq_refl).
  vm_compute in H. discriminate.
Qed.

(** * Further properties of the code *)

Import Extra.

(** ** Fetching the metrics *)

Lemma read_objects_In (json_loads : string -> result value)
    (contents : list Comparison.s3_object) (m : value) :
  In m (Comparison.read_objects json_loads contents)
  <-> exists obj, In obj contents /\ metric_of_object json_loads obj m.
Proof.
  unfold metric_of_object.
  induction contents as [| obj rest IH]; simpl.
  - split; [tauto | intros [obj [[] _]]].
  - destruct (endswith (Comparison.Key obj) ".json") eqn:Ekey; cbn [negb].
    + destruct (Comparison.Body obj) as [text | e] eqn:Ebody; cbn [bind].
      * destruct (json_loads text) as [metric | e] eqn:Eload.
        -- split.
           ++ intros [<- | Hin].
              ** exists obj. split; [auto |]. split; [assumption |].
                 exists text. rewrite Ebody. auto.
              ** apply IH in Hin. destruct Hin as [o [Ho Hm]]. exists o. auto.
           ++ intros [o [[<- | Ho] [Hk [t [Hb Hl]]]]].
              ** left. rewrite Ebody in Hb. injection Hb as <-. congruence.
              ** right. apply IH. exists o. eauto.
        -- rewrite IH. split.
           ++ intros [o [Ho Hm]]. exists o. auto.
           ++ intros [o [[<- | Ho] [Hk [t [Hb Hl]]]]].
              ** rewrite Ebody in Hb. injection Hb as <-. congruence.
              ** exists o. eauto.
      * rewrite IH. split.
        -- intros [o [Ho Hm]]. exists o. auto.
        -- intros [o [[<- | Ho] [Hk [t [Hb Hl]]]]].
           ++ rewrite Ebody in Hb. discriminate.
           ++ exists o. eauto.
    + rewrite IH. split.
      * intros [o [Ho Hm]]. exists o. auto.
      * intros [o [[<- | Ho] [Hk Hm]]]; [congruence | exists o; auto].
Qed.

Lemma read_pages_listed (json_loads : string -> result value)
    (pages : Comparison.bucket) (all_metrics : list value) :
  Forall listed pages ->
  Comparison.read_pages json_loads pages all_metrics
  = Ok (all_metrics ++ flat_map (page_metrics json_loads) pages).
Proof.
  revert all_metrics. induction pages as [| p pages IH]; simpl; intros acc H.
  - rewrite app_nil_r. reflexivity.
  - inversion H as [| ? ? [pg ->] Hrest]; subst.
    destruct pg as [contents |]; simpl.
    + rewrite (IH _ Hrest), <- app_assoc. reflexivity.
    + apply IH. assumption.
Qed.

Lemma read_pages_failure (json_loads : string -> result value)
    (pages : Comparison.bucket) (all_metrics : list value) (e : exn) :
  In (Raise e) pages ->
  exists e', Comparison.read_pages json_loads pages all_metrics = Raise e'.
Proof.
  revert all_metrics. induction pages as [| p pages IH]; simpl; intros acc H; [tauto |].
  destruct p as [[contents |] | e1].
  - destruct H as [H | H]; [discriminate | apply IH; assumption].
  - destruct H as [H | H]; [discriminate | apply IH; assumption].
  - eauto.
Qed.

(** X1.  When every listing call succeeds, the metrics fetched are, page by
    page and in the order listed, the decoded bodies of the objects whose key
    ends in [.json] and whose body is read and decoded; every other object is
    skipped without an error. *)
Theorem X1_fetch_reads_the_decodable_json_objects :
  forall (json_loads : string -> result value) (s3 : Comparison.bucket),
    Forall listed s3 ->
    Comparison.get_all_metrics_from_s3 json_loads s3
    = flat_map (page_metrics json_loads) s3
    /\ forall m,
         In m (Comparison.get_all_metrics_from_s3 json_loads s3)
         <-> exists contents obj,
               In (Ok (Some contents)) s3 /\ In obj contents
               /\ metric_of_object json_loads obj m.
Proof.
  intros json_loads s3 H.
  assert (E : Comparison.get_all_metrics_from_s3 json_loads s3
              = flat_map (page_metrics json_loads) s3).
  { unfold Comparison.get_all_metrics_from_s3.
    rewrite (read_pages_listed json_loads s3 [] H). reflexivity. }
  split; [exact E |]. intros m. rewrite E, in_flat_map. split.
  - intros [p [Hp Hm]]. destruct p as [[contents |] | e]; simpl in Hm; try tauto.
    apply read_objects_In in Hm. destruct Hm as [obj [Ho Hm]].
    exists contents, obj. auto.
  - intros [contents [obj [Hp [Ho Hm]]]].
    exists (Ok (Some contents)). split; [assumption |]. simpl.
    apply read_objects_In. eauto.
Qed.

(** X1 at the bucket with two records: both are fetched, in order. *)
Lemma X1_fetch_reads_the_decodable_json_objects_witness :
  Forall listed Examples.two_records
  /\ Comparison.get_all_metrics_from_s3 Examples.json_loads Examples.two_records
     = [Examples.older; Examples.newer].
Proof.
  assert (H : Forall listed Examples.two_records)
    by (repeat constructor; eexists; reflexivity).
  split; [exact H |].
  rewrite (proj1 (X1_fetch_reads_the_decodable_json_objects Examples.json_loads
                    Examples.two_records H)).
  reflexivity.
Defined.

(** X2.  When one listing call fails, whatever was read before it is
    discarded: no metric is fetched, and the handler answers with the 200
    response of an empty metric set. *)
Theorem X2_failed_listing_discards_everything :
  forall (json_loads : string -> result value) (int_of_str : string -> option Z)
         (s3 : Comparison.bucket) (e : exn) (event : value) (now : string),
    In (Raise e) s3 ->
    Comparison.get_all_metrics_from_s3 json_loads s3 = []
    /\ Comparison.lambda_handler json_loads int_of_str event s3 now
       = no_metrics_response.
Proof.
  intros json_loads int_of_str s3 e event now H.
  assert (E : Comparison.get_all_metrics_from_s3 json_loads s3 = []).
  { unfold Comparison.get_all_metrics_from_s3.
    destruct (read_pages_failure json_loads s3 [] e H) as [e' ->]. reflexivity. }
  split; [exact E |]. unfold Comparison.lambda_handler. rewrite E. reflexivity.
Qed.

(** X2 at a listing whose second call fails after a page with two records. *)
Lemma X2_failed_listing_discards_everything_witness :
  Comparison.get_all_metrics_from_s3 Examples.json_loads
    (Examples.two_records ++ [Raise TransportError]) = [].
Proof.
  apply (X2_failed_listing_discards_everything Examples.json_loads
           Instances.int_of_str (Examples.two_records ++ [Raise TransportError])
           TransportError VNone EmptyString).
  simpl. auto.
Defined.

(** ** Rounding is monotone *)

Lemma pow10_pos (ndigits : Z) : 0 <= ndigits -> 0 < 10 ^ ndigits.
Proof. intros H. apply Z.pow_pos_nonneg; lia. Qed.

Lemma round_half_even_monotone (q1 q2 : Q) (ndigits : Z) :
  0 <= ndigits -> (q1 <= q2)%Q ->
  (round_half_even q1 ndigits <= round_half_even q2 ndigits)%Q.
Proof.
  intros Hn Hq. rewrite !round_half_even_nearest, !Qred_correct.
  pose proof (pow10_pos ndigits Hn) as Hpos.
  assert (H : nearest_even (q1 * inject_Z (10 ^ ndigits))
              <= nearest_even (q2 * inject_Z (10 ^ ndigits))).
  { apply nearest_even_monotone. apply Qmult_le_compat_r; [assumption |].
    unfold Qle. simpl. lia. }
  unfold Qle. simpl. apply Z.mul_le_mono_nonneg_r; [lia | assumption].
Qed.

(** Rounding an integer leaves it unchanged. *)
Lemma round_half_even_integer (z : Z) (ndigits : Z) :
  0 <= ndigits -> (round_half_even (inject_Z z) ndigits == inject_Z z)%Q.
Proof.
  intros Hn. pose proof (pow10_pos ndigits Hn) as Hpos.
  assert (Hx : (inject_Z z * inject_Z (10 ^ ndigits) == inject_Z (z * 10 ^ ndigits))%Q).
  { unfold Qeq. simpl. ring. }
  rewrite round_half_even_nearest, Qred_correct.
  rewrite (nearest_even_comp _ _ Hx), nearest_even_integer.
  unfold Qeq. simpl. rewrite Z2Pos.id by assumption. ring.
Qed.

(** An int below [2^53] in absolute value is a float. *)
Lemma binary64_pos_small_integer (a : Q) (z : Z) :
  (a == inject_Z z)%Q -> 0 < z < 2 ^ 53 -> (binary64_pos a == inject_Z z)%Q.
Proof.
  intros Ha Hz.
  assert (Hpos : (0 < a)%Q) by (rewrite Ha; unfold Qlt; simpl; lia).
  destruct (ilog2_spec a Hpos) as [Hlo _].
  assert (Hk : ilog2 a <= 52).
  { destruct (Z_le_gt_dec (ilog2 a) 52) as [H | H]; [assumption |].
    exfalso. apply (Qlt_irrefl a). eapply Qlt_le_trans; [| exact Hlo].
    eapply Qlt_le_trans; [| apply (pow2_le 53 (ilog2 a)); lia].
    rewrite Ha, (pow2_inject 53) by lia. rewrite <- Zlt_Qlt. lia. }
  unfold binary64_pos. lazy zeta.
  set (e := ulp_exponent a).
  assert (He : e <= 0) by (unfold e, ulp_exponent; lia).
  assert (Hs : (a * pow2 (- e) == inject_Z (z * 2 ^ (- e)))%Q).
  { rewrite Ha, (pow2_inject (- e)) by lia. rewrite inject_Z_mult. reflexivity. }
  rewrite (nearest_even_comp _ _ Hs), nearest_even_integer.
  rewrite inject_Z_mult, <- (pow2_inject (- e)) by lia.
  rewrite <- Qmult_assoc, pow2_cancel. ring.
Qed.

Lemma binary64_small_integer (z : Z) :
  Z.abs z < 2 ^ 53 -> (binary64 (inject_Z z) == inject_Z z)%Q.
Proof.
  intros Hz. unfold binary64. lazy zeta.
  assert (Ha : (Qred (inject_Z z) == inject_Z z)%Q) by apply Qred_correct.
  set (a := Qred (inject_Z z)) in *.
  destruct (Qcompare a 0) eqn:C.
  - apply Qeq_alt in C. rewrite <- Ha, C. reflexivity.
  - apply Qlt_alt in C. rewrite Ha in C.
    assert (Hneg : z < 0) by (rewrite Zlt_Qlt; exact C).
    rewrite Qred_correct.
    assert (Hn : (- a == inject_Z (- z))%Q) by (rewrite Ha, inject_Z_opp; reflexivity).
    rewrite (binary64_pos_small_integer (- a) (- z) Hn) by lia.
    rewrite inject_Z_opp. ring.
  - apply Qgt_alt in C. rewrite Ha in C.
    assert (Hp : 0 < z) by (rewrite Zlt_Qlt; exact C).
    rewrite Qred_correct. apply binary64_pos_small_integer; [exact Ha | lia].
Qed.

(** [round] on a number, by value. *)
Lemma py_round_value (x v : value) (q : Q) (ndigits : Z) :
  0 <= ndigits -> exact_int x = true -> as_number x = Some q ->
  py_round x ndigits = Ok v ->
  exists q', as_number v = Some q'
             /\ (q' == binary64 (round_half_even q ndigits))%Q.
Proof.
  intros Hn Hx Hq Hr.
  assert (Hint : forall z, Z.abs z < 2 ^ 53 ->
            (inject_Z z == binary64 (round_half_even (inject_Z z) ndigits))%Q).
  { intros z Hz.
    rewrite (binary64_comp _ _ (round_half_even_integer z ndigits Hn)).
    symmetry. apply binary64_small_integer. assumption. }
  destruct x as [| b | z | p | | |]; simpl in *; try discriminate;
    injection Hq as <-; injection Hr as <-; simpl; eexists; (split; [reflexivity |]).
  - destruct b; [apply (Hint 1) | apply (Hint 0)]; reflexivity.
  - apply Hint. apply Z.ltb_lt. exact Hx.
  - reflexivity.
Qed.

Lemma py_round_monotone (a b a' b' : value) (ndigits : Z) :
  0 <= ndigits -> exact_int a = true -> exact_int b = true -> num_le a b ->
  py_round a ndigits = Ok a' -> py_round b ndigits = Ok b' -> num_le a' b'.
Proof.
  intros Hn Hxa Hxb Hle Ha Hb. unfold num_le in Hle.
  destruct (as_number a) as [p |] eqn:Ea; [| tauto].
  destruct (as_number b) as [q |] eqn:Eb; [| tauto].
  destruct (py_round_value a a' p ndigits Hn Hxa Ea Ha) as [p' [Ep' Hp']].
  destruct (py_round_value b b' q ndigits Hn Hxb Eb Hb) as [q' [Eq' Hq']].
  unfold num_le. rewrite Ep', Eq', Hp', Hq'.
  apply binary64_monotone, round_half_even_monotone; assumption.
Qed.

(** ** The statistics of a group are in order *)

Lemma num_le_refl (x : value) : numeric x = true -> num_le x x.
Proof.
  intros H. destruct (numeric_as_number x H) as [q Hq].
  unfold num_le. rewrite Hq. apply Qle_refl.
Qed.

(** [min] returns a lower bound of the list, [max] an upper bound. *)
Lemma min_from_lower (xs : list value) (best v : value) :
  numeric best = true -> Forall (fun x => numeric x = true) xs ->
  min_from best xs = Ok v -> forall y, In y (best :: xs) -> num_le v y.
Proof.
  revert best. induction xs as [| x xs IH]; simpl; intros best Hb Hxs H y Hy.
  - injection H as <-. destruct Hy as [<- | []]. apply num_le_refl. assumption.
  - inversion Hxs as [| ? ? Hx Hxs']; subst.
    destruct (py_lt_numeric x best Hx Hb) as [b [Hlt Hle]].
    rewrite Hlt in H. cbn [bind] in H. destruct b.
    + pose proof (IH x Hx Hxs' H) as Hall. destruct Hy as [<- | [<- | Hy]].
      * eapply num_le_trans; [apply Hall; left; reflexivity | exact Hle].
      * apply Hall. left. reflexivity.
      * apply Hall. right. assumption.
    + pose proof (IH best Hb Hxs' H) as Hall. destruct Hy as [<- | [<- | Hy]].
      * apply Hall. left. reflexivity.
      * eapply num_le_trans; [apply Hall; left; reflexivity | exact Hle].
      * apply Hall. right. assumption.
Qed.

Lemma max_from_upper (xs : list value) (best v : value) :
  numeric best = true -> Forall (fun x => numeric x = true) xs ->
  max_from best xs = Ok v -> forall y, In y (best :: xs) -> num_le y v.
Proof.
  revert best. induction xs as [| x xs IH]; simpl; intros best Hb Hxs H y Hy.
  - injection H as <-. destruct Hy as [<- | []]. apply num_le_refl. assumption.
  - inversion Hxs as [| ? ? Hx Hxs']; subst.
    destruct (py_lt_numeric best x Hb Hx) as [b [Hlt Hle]].
    rewrite Hlt in H. cbn [bind] in H. destruct b.
    + pose proof (IH x Hx Hxs' H) as Hall. destruct Hy as [<- | [<- | Hy]].
      * eapply num_le_trans; [exact Hle | apply Hall; left; reflexivity].
      * apply Hall. left. reflexivity.
      * apply Hall. right. assumption.
    + pose proof (IH best Hb Hxs' H) as Hall. destruct Hy as [<- | [<- | Hy]].
      * apply Hall. left. reflexivity.
      * eapply num_le_trans; [exact Hle | apply Hall; left; reflexivity].
      * apply Hall. right. assumption.
Qed.

Lemma py_min_lower (xs : list value) (v : value) :
  Forall (fun x => numeric x = true) xs -> py_min xs = Ok v ->
  forall y, In y xs -> num_le v y.
Proof.
  destruct xs as [| x xs]; simpl; [discriminate |]. intros H Hv.
  inversion H; subst. eapply min_from_lower; eassumption.
Qed.

Lemma py_max_upper (xs : list value) (v : value) :
  Forall (fun x => numeric x = true) xs -> py_max xs = Ok v ->
  forall y, In y xs -> num_le y v.
Proof.
  destruct xs as [| x xs]; simpl; [discriminate |]. intros H Hv.
  inversion H; subst. eapply max_from_upper; eassumption.
Qed.

(** In a sorted list a later position holds a larger element. *)
Lemma StronglySorted_nth {A : Type} (R : A -> A -> Prop) (l : list A) :
  StronglySorted R l ->
  forall i j a b, (i < j)%nat ->
    nth_error l i = Some a -> nth_error l j = Some b -> R a b.
Proof.
  induction 1 as [| x l Hs IH Hall]; intros i j a b Hij Hi Hj.
  - destruct i; discriminate.
  - destruct j as [| j]; [lia |]. destruct i as [| i]; simpl in Hi, Hj.
    + injection Hi as <-. rewrite Forall_forall in Hall. apply Hall.
      eapply nth_error_In. eassumption.
    + apply (IH i j); [lia | assumption | assumption].
Qed.

Lemma index_nth {A : Type} (xs : list A) (i : Z) (x : A) :
  0 <= i -> index xs i = Ok x -> nth_error xs (Z.to_nat i) = Some x.
Proof.
  intros Hi. unfold index.
  destruct (i <? 0) eqn:E; [apply Z.ltb_lt in E; lia |]. rewrite E.
  destruct (nth_error xs (Z.to_nat i)); [congruence | discriminate].
Qed.

Lemma sorted_index_le (xs : list value) (i j : Z) (a b : value) :
  StronglySorted num_le xs -> Forall (fun x => numeric x = true) xs ->
  0 <= i <= j -> index xs i = Ok a -> index xs j = Ok b -> num_le a b.
Proof.
  intros Hs Hn Hij Ha Hb. destruct (Z.eq_dec i j) as [-> | Hne].
  - assert (a = b) by congruence. subst b. apply num_le_refl.
    rewrite Forall_forall in Hn. apply Hn. eapply index_In. eassumption.
  - apply (StronglySorted_nth _ _ Hs (Z.to_nat i) (Z.to_nat j));
      [lia | apply index_nth; [lia | assumption] | apply index_nth; [lia | assumption]].
Qed.

(** ** Sums and quotients *)

(** [sum] succeeds on numbers only. *)
Lemma py_add_operands (a b c : value) :
  py_add a b = Ok c -> numeric b = true /\ numeric c = true.
Proof.
  unfold py_add.
  destruct a; destruct b; simpl; try discriminate; intros H; injection H as <-;
    split; reflexivity.
Qed.

Lemma sum_from_operands (xs : list value) (start total : value) :
  sum_from start xs = Ok total -> Forall (fun x => numeric x = true) xs.
Proof.
  revert start. induction xs as [| x xs IH]; simpl; intros start H.
  - constructor.
  - inv_bind H. destruct (py_add_operands _ _ _ Ha) as [Hx _].
    constructor; [assumption | eapply IH; eassumption].
Qed.

Lemma percentile_stat_at (xs : list value) (p : Q) (v : value) :
  Forall (fun x => numeric x = true) xs -> 1 <= len xs ->
  0 <= Qfloor (inject_Z (len xs) * p) < len xs -> (0 <= p)%Q ->
  Comparison.percentile xs p = Ok v ->
  stat_at xs (Qfloor (inject_Z (len xs) * p)) v.
Proof.
  intros H Hlen Hrange Hp Hv.
  destruct (percentile_spec xs p H Hlen Hrange Hp) as [v' [Hv' Hs]].
  assert (v = v') by congruence. subst v'. assumption.
Qed.

Lemma py_max_In (xs : list value) (v : value) : py_max xs = Ok v -> In v xs.
Proof.
  destruct xs as [| x xs]; simpl; [discriminate |].
  revert x. induction xs as [| y xs IH]; simpl; intros x H.
  - injection H as <-. auto.
  - inv_bind H. apply IH in H. destruct a, H as [<- | H]; auto.
Qed.

Lemma py_min_In (xs : list value) (v : value) : py_min xs = Ok v -> In v xs.
Proof.
  destruct xs as [| x xs]; simpl; [discriminate |]. apply min_from_In.
Qed.

Lemma In_numeric (xs : list value) (x : value) :
  Forall (fun x => numeric x = true) xs -> In x xs -> numeric x = true.
Proof. intros H Hx. rewrite Forall_forall in H. apply H. assumption. Qed.

Lemma In_exact_int (xs : list value) (x : value) :
  Forall (fun x => exact_int x = true) xs -> In x xs -> exact_int x = true.
Proof. intros H Hx. rewrite Forall_forall in H. apply H. assumption. Qed.

Lemma round_min_lower (xs : list value) (m m' x x' : value) :
  Forall (fun x => numeric x = true) xs ->
  Forall (fun x => exact_int x = true) xs -> py_min xs = Ok m ->
  py_round m 2 = Ok m' -> In x xs -> py_round x 2 = Ok x' -> num_le m' x'.
Proof.
  intros H He Hm Hm' Hx Hx'.
  apply (py_round_monotone m x m' x' 2);
    [lia | apply (In_exact_int xs); [assumption | apply py_min_In; assumption]
     | apply (In_exact_int xs); assumption | | assumption | assumption].
  apply (py_min_lower xs m H Hm x Hx).
Qed.

Lemma round_max_upper (xs : list value) (m m' x x' : value) :
  Forall (fun x => numeric x = true) xs ->
  Forall (fun x => exact_int x = true) xs -> py_max xs = Ok m ->
  py_round m 2 = Ok m' -> In x xs -> py_round x 2 = Ok x' -> num_le x' m'.
Proof.
  intros H He Hm Hm' Hx Hx'.
  apply (py_round_monotone x m x' m' 2);
    [lia | apply (In_exact_int xs); assumption
     | apply (In_exact_int xs); [assumption | apply py_max_In; assumption]
     | | assumption | assumption].
  apply (py_max_upper xs m H Hm x Hx).
Qed.

(** Extremes and percentiles of a sorted list of latencies. *)
Lemma summarize_latency_ordered (xs : list value) (lat : Comparison.latency_summary) :
  Forall (fun x => numeric x = true) xs ->
  Forall (fun x => exact_int x = true) xs -> StronglySorted num_le xs ->
  1 <= len xs -> Comparison.summarize_latency xs = Ok lat ->
  num_le (Comparison.min_ms lat) (Comparison.median_ms lat)
  /\ num_le (Comparison.median_ms lat) (Comparison.p95_ms lat)
  /\ num_le (Comparison.p95_ms lat) (Comparison.p99_ms lat)
  /\ num_le (Comparison.p99_ms lat) (Comparison.max_ms lat).
Proof.
  intros Hn Hx Hs Hlen H. unfold Comparison.summarize_latency in H.
  apply bind_Ok in H. destruct H as [total [Htotal H]].
  apply bind_Ok in H. destruct H as [avg [Havg H]].
  apply bind_Ok in H. destruct H as [avg' [Havg' H]].
  apply bind_Ok in H. destruct H as [mn [Hmn H]].
  apply bind_Ok in H. destruct H as [mn' [Hmn' H]].
  apply bind_Ok in H. destruct H as [mx [Hmx H]].
  apply bind_Ok in H. destruct H as [mx' [Hmx' H]].
  apply bind_Ok in H. destruct H as [med [Hmed H]].
  apply bind_Ok in H. destruct H as [med' [Hmed' H]].
  apply bind_Ok in H. destruct H as [q95 [Hq95 H]].
  apply bind_Ok in H. destruct H as [q99 [Hq99 H]].
  injection H as <-.
  cbn [Comparison.min_ms Comparison.median_ms Comparison.p95_ms Comparison.p99_ms
       Comparison.max_ms Comparison.avg_ms].
  apply percentile_stat_at in Hq95;
    [| assumption | assumption | apply floor_p95_range; assumption | discriminate].
  apply percentile_stat_at in Hq99;
    [| assumption | assumption | apply floor_p99_range; assumption | discriminate].
  destruct Hq95 as [e95 [He95 [Hr95 _]]]. destruct Hq99 as [e99 [He99 [Hr99 _]]].
  rewrite floor_p95 in He95. rewrite floor_p99 in He99.
  pose proof (len_nonneg xs) as Hl0.
  assert (Hmed_in : In med xs) by (eapply index_In; eassumption).
  assert (H95_in : In e95 xs) by (eapply index_In; eassumption).
  assert (H99_in : In e99 xs) by (eapply index_In; eassumption).
  refine (conj _ (conj _ (conj _ _))).
  - apply (round_min_lower xs mn mn' med med'); assumption.
  - apply (py_round_monotone med e95 med' q95 2);
      [lia | apply (In_exact_int xs); assumption | apply (In_exact_int xs); assumption
       | | assumption | assumption].
    apply (sorted_index_le xs (len xs / 2) (len xs * 95 / 100)); try assumption.
    Z.to_euclidean_division_equations; lia.
  - apply (py_round_monotone e95 e99 q95 q99 2);
      [lia | apply (In_exact_int xs); assumption | apply (In_exact_int xs); assumption
       | | assumption | assumption].
    apply (sorted_index_le xs (len xs * 95 / 100) (len xs * 99 / 100)); try assumption.
    Z.to_euclidean_division_equations; lia.
  - apply (round_max_upper xs mx mx' e99 q99); assumption.
Qed.

Lemma summarize_processing_time_ordered (xs : list value)
    (pt : Comparison.processing_time_summary) :
  Forall (fun x => numeric x = true) xs ->
  Forall (fun x => exact_int x = true) xs ->
  1 <= len xs -> Comparison.summarize_processing_time xs = Ok pt ->
  num_le (Comparison.pt_min_ms pt) (Comparison.pt_max_ms pt).
Proof.
  intros Hn Hx Hlen H. unfold Comparison.summarize_processing_time in H.
  apply bind_Ok in H. destruct H as [total [Htotal H]].
  apply bind_Ok in H. destruct H as [avg [Havg H]].
  apply bind_Ok in H. destruct H as [avg' [Havg' H]].
  apply bind_Ok in H. destruct H as [mn [Hmn H]].
  apply bind_Ok in H. destruct H as [mn' [Hmn' H]].
  apply bind_Ok in H. destruct H as [mx [Hmx H]].
  apply bind_Ok in H. destruct H as [mx' [Hmx' H]].
  injection H as <-.
  cbn [Comparison.pt_min_ms Comparison.pt_avg_ms Comparison.pt_max_ms].
  apply (round_min_lower xs mn mn' mx mx'); try assumption.
  apply py_max_In. assumption.
Qed.

Lemma summarize_all_In (m : list (value * Comparison.stats))
    (summary : list (value * Comparison.stat_summary)) :
  Comparison.summarize_all m = Ok summary ->
  forall k e, In (k, e) summary ->
    exists s, In (k, s) m /\ Comparison.s_count s <> 0
              /\ Comparison.summarize s = Ok e.
Proof.
  revert summary. induction m as [| [k0 s0] m IH]; simpl; intros summary H k e Hin.
  - injection H as <-. destruct Hin.
  - destruct (Comparison.s_count s0 =? 0) eqn:E.
    + destruct (IH summary H k e Hin) as [s [Hs Hrest]]. eauto.
    + apply Z.eqb_neq in E.
      apply bind_Ok in H. destruct H as [entry [Hentry H]].
      apply bind_Ok in H. destruct H as [rest [Hrest H]].
      injection H as <-. destruct Hin as [Heq | Hin].
      * injection Heq as <- <-. exists s0. auto.
      * destruct (IH rest Hrest k e Hin) as [s [Hs Hs']]. eauto.
Qed.

(** The entries of the summary are the summaries of the groups. *)
Lemma calculate_statistics_groups (metrics : list value)
    (summary : list (value * Comparison.stat_summary)) :
  Forall (fun x => well_formed x = true) metrics ->
  Comparison.calculate_statistics metrics = Ok summary ->
  forall k e, In (k, e) summary ->
    exists s, accumulates metrics k s /\ group k metrics <> []
              /\ Comparison.summarize s = Ok e.
Proof.
  intros Hwf H k e Hin. unfold Comparison.calculate_statistics in H.
  destruct (group_metrics_grouped metrics [] [] grouped_nil Hwf) as [m [Hm Hg]].
  simpl in Hg. rewrite Hm in H. cbn [bind] in H.
  destruct (summarize_all_In m summary H k e Hin) as [s [Hs [_ He]]].
  destruct Hg as [_ [Hacc _]]. destruct (Hacc k s Hs) as [Ha Hne].
  exists s. auto.
Qed.

Lemma summarize_ordered (s : Comparison.stats) (e : Comparison.stat_summary) :
  Forall (fun x => numeric x = true) (Comparison.s_latencies s) ->
  Forall (fun x => numeric x = true) (Comparison.s_processing_times s) ->
  Forall (fun x => exact_int x = true) (Comparison.s_latencies s) ->
  Forall (fun x => exact_int x = true) (Comparison.s_processing_times s) ->
  1 <= len (Comparison.s_latencies s) ->
  1 <= len (Comparison.s_processing_times s) ->
  Comparison.summarize s = Ok e -> ordered_statistics e.
Proof.
  intros Hl Hp Hxl Hxp Hnl Hnp H. unfold Comparison.summarize in H.
  apply bind_Ok in H. destruct H as [xs [Hxs H]].
  apply bind_Ok in H. destruct H as [ys [Hys H]].
  apply bind_Ok in H. destruct H as [lat [Hlat H]].
  apply bind_Ok in H. destruct H as [pt [Hpt H]].
  apply bind_Ok in H. destruct H as [rate [Hrate H]].
  apply bind_Ok in H. destruct H as [rate' [Hrate' H]].
  injection H as <-.
  destruct (sorted_numeric _ Hl) as [xs' [Hxs' [Hperm Hsorted]]].
  assert (xs' = xs) by congruence. subst xs'.
  pose proof (sort_Permutation _ _ _ Hys) as Hperm'.
  assert (Hxn : Forall (fun x => numeric x = true) xs)
    by (eapply Permutation_Forall; eassumption).
  assert (Hyn : Forall (fun x => numeric x = true) ys)
    by (eapply Permutation_Forall; eassumption).
  assert (Hxe : Forall (fun x => exact_int x = true) xs)
    by (eapply Permutation_Forall; eassumption).
  assert (Hye : Forall (fun x => exact_int x = true) ys)
    by (eapply Permutation_Forall; eassumption).
  rewrite (len_Permutation _ _ Hperm) in Hnl.
  rewrite (len_Permutation _ _ Hperm') in Hnp.
  pose proof (summarize_latency_ordered xs lat Hxn Hxe Hsorted Hnl Hlat) as Hlo.
  pose proof (summarize_processing_time_ordered ys pt Hyn Hye Hnp Hpt) as Hpo.
  unfold ordered_statistics. cbn [Comparison.latency Comparison.processing_time].
  tauto.
Qed.

Lemma summarize_rate (s : Comparison.stats) (e : Comparison.stat_summary) :
  0 <= Comparison.s_successful s <= Comparison.s_count s ->
  Comparison.summarize s = Ok e ->
  Comparison.successful_count e = Comparison.s_successful s
  /\ Comparison.count e = Comparison.s_count s
  /\ Comparison.failed_count e = Comparison.s_failed s
  /\ num_le (VInt 0) (Comparison.success_rate e)
  /\ num_le (Comparison.success_rate e) (VInt 1)
  /\ (Comparison.s_successful s = Comparison.s_count s ->
      Comparison.success_rate e = VFloat 1)
  /\ (Comparison.s_successful s = 0 -> Comparison.success_rate e = VFloat 0).
Proof.
  intros Hr H. unfold Comparison.summarize in H.
  apply bind_Ok in H. destruct H as [xs [Hxs H]].
  apply bind_Ok in H. destruct H as [ys [Hys H]].
  apply bind_Ok in H. destruct H as [lat [Hlat H]].
  apply bind_Ok in H. destruct H as [pt [Hpt H]].
  apply bind_Ok in H. destruct H as [rate [Hrate H]].
  apply bind_Ok in H. destruct H as [rate' [Hrate' H]].
  injection H as <-.
  cbn [Comparison.successful_count Comparison.count Comparison.failed_count
       Comparison.success_rate].
  destruct (py_truediv_ints _ _ _ Hrate) as [Hc0 ->].
  set (n := Comparison.s_successful s) in *. set (c := Comparison.s_count s) in *.
  assert (Hval : rate'
                 = VFloat (binary64 (round_half_even
                                       (binary64 (inject_Z n / inject_Z c)) 4))).
  { change (Ok (VFloat (binary64 (round_half_even
                                    (binary64 (inject_Z n / inject_Z c)) 4)))
            = Ok rate') in Hrate'. congruence. }
  rewrite Hval. clear Hval Hrate'.
  assert (Hc : 0 < c) by lia.
  assert (Hcq : (0 < inject_Z c)%Q) by (unfold Qlt; simpl; lia).
  assert (Hlo : (0 <= inject_Z n / inject_Z c)%Q).
  { apply Qle_shift_div_l; [assumption |].
    rewrite Qmult_0_l. unfold Qle. simpl. lia. }
  assert (Hhi : (inject_Z n / inject_Z c <= 1)%Q).
  { apply Qle_shift_div_r; [assumption |].
    rewrite Qmult_1_l. unfold Qle. simpl. lia. }
  refine (conj eq_refl (conj eq_refl (conj eq_refl (conj _ (conj _ (conj _ _)))))).
  - unfold num_le. cbn [as_number].
    eapply Qle_trans;
      [| apply binary64_monotone, (round_half_even_monotone (binary64 0) _ 4);
         [lia | apply binary64_monotone; exact Hlo]].
    vm_compute. intros Hd. discriminate Hd.
  - unfold num_le. cbn [as_number].
    eapply Qle_trans;
      [apply binary64_monotone, (round_half_even_monotone _ (binary64 1) 4);
       [lia | apply binary64_monotone; exact Hhi] |].
    vm_compute. intros Hd. discriminate Hd.
  - intros E. rewrite E.
    assert (Hone : (inject_Z c / inject_Z c == 1)%Q).
    { field. intros Hz. apply (Qlt_irrefl 0). rewrite <- Hz at 2. assumption. }
    rewrite (binary64_comp _ _ Hone). reflexivity.
  - intros E. rewrite E.
    assert (Hzero : (inject_Z 0 / inject_Z c == 0)%Q).
    { unfold Qdiv. apply Qmult_0_l. }
    rewrite (binary64_comp _ _ Hzero). reflexivity.
Qed.

Lemma accumulates_bounds (seen : list value) (k : value) (s : Comparison.stats) :
  accumulates seen k s ->
  0 <= Comparison.s_successful s <= Comparison.s_count s
  /\ Comparison.s_successful s + Comparison.s_failed s = Comparison.s_count s.
Proof.
  intros [_ [_ [Hc [Hs Hf]]]]. rewrite Hc, Hs, Hf.
  pose proof (filter_partition_len is_successful (group k seen)) as Hp.
  pose proof (len_nonneg (filter is_successful (group k seen))).
  pose proof (len_nonneg (filter (fun x => negb (is_successful x)) (group k seen))).
  lia.
Qed.

Lemma accumulates_numeric (metrics : list value) (k : value) (s : Comparison.stats) :
  Forall (fun x => well_formed x = true) metrics ->
  accumulates metrics k s -> group k metrics <> [] ->
  Forall (fun x => numeric x = true) (Comparison.s_latencies s)
  /\ Forall (fun x => numeric x = true) (Comparison.s_processing_times s)
  /\ 1 <= len (Comparison.s_latencies s)
  /\ 1 <= len (Comparison.s_processing_times s).
Proof.
  intros Hwf [Hl [Hp _]] Hne.
  destruct (group_well_formed k metrics Hwf) as [Hnl Hnp].
  pose proof (len_pos _ Hne) as Hpos.
  rewrite Hl, Hp, !len_map. auto.
Qed.

Lemma accumulates_exact (metrics : list value) (k : value) (s : Comparison.stats) :
  Forall (fun x => float_sized x = true) metrics ->
  accumulates metrics k s ->
  Forall (fun x => exact_int x = true) (Comparison.s_latencies s)
  /\ Forall (fun x => exact_int x = true) (Comparison.s_processing_times s).
Proof.
  intros H [Hl [Hp _]]. rewrite Hl, Hp. rewrite Forall_forall in H.
  split; apply Forall_map; apply Forall_forall; intros x Hx;
    apply filter_In in Hx; destruct Hx as [Hx _]; specialize (H x Hx);
    unfold float_sized in H; apply andb_prop in H; tauto.
Qed.

(** X3.  For well-formed metric records, whose int latencies and processing
    times are below [2^53] in absolute value, the aggregator returns a
    summary, and in every entry of it the statistics of the latency are in
    the order [min_ms <= median_ms <= p95_ms <= p99_ms <= max_ms] and those
    of the processing time in the order [min_ms <= max_ms]: the rounding to
    2 decimals keeps the order of the elements they are read from.  The
    mean is not part of the order. *)
Theorem X3_statistics_are_ordered :
  forall metrics : list value,
    Forall (fun x => well_formed x = true) metrics ->
    Forall (fun x => float_sized x = true) metrics ->
    exists summary,
      Comparison.calculate_statistics metrics = Ok summary
      /\ forall k entry, In (k, entry) summary -> ordered_statistics entry.
Proof.
  intros metrics Hwf Hfs.
  destruct (calculate_statistics_entry metrics Hwf) as [summary [Hs _]].
  exists summary. split; [assumption |]. intros k e Hin.
  destruct (calculate_statistics_groups metrics summary Hwf Hs k e Hin)
    as [s [Hacc [Hne He]]].
  destruct (accumulates_numeric metrics k s Hwf Hacc Hne) as [Hl [Hp [Hnl Hnp]]].
  destruct (accumulates_exact metrics k s Hfs Hacc) as [Hxl Hxp].
  apply (summarize_ordered s e); assumption.
Qed.

(** X3 at three latencies 0.045 and a latency 0 of one queue. *)
Lemma X3_statistics_are_ordered_witness :
  exists summary,
    Comparison.calculate_statistics
      [metric_with "sqs" (VFloat (binary64 (45 # 1000)));
       metric_with "sqs" (VInt 0);
       metric_with "sqs" (VFloat (binary64 (45 # 1000)));
       metric_with "sqs" (VFloat (binary64 (45 # 1000)))] = Ok summary
    /\ forall k entry, In (k, entry) summary -> ordered_statistics entry.
Proof.
  apply X3_statistics_are_ordered;
    repeat (constructor; [reflexivity |]); constructor.
Defined.

(** X4.  In every entry of the summary of well-formed metric records the
    success rate is a number between 0 and 1; it is exactly 1.0 when no
    record of the group failed and exactly 0.0 when none succeeded. *)
Theorem X4_success_rate_is_a_fraction :
  forall metrics : list value,
    Forall (fun x => well_formed x = true) metrics ->
    exists summary,
      Comparison.calculate_statistics metrics = Ok summary
      /\ forall k entry, In (k, entry) summary ->
           num_le (VInt 0) (Comparison.success_rate entry)
           /\ num_le (Comparison.success_rate entry) (VInt 1)
           /\ (Comparison.failed_count entry = 0 ->
               Comparison.success_rate entry = VFloat 1)
           /\ (Comparison.successful_count entry = 0 ->
               Comparison.success_rate entry = VFloat 0).
Proof.
  intros metrics Hwf.
  destruct (calculate_statistics_entry metrics Hwf) as [summary [Hs _]].
  exists summary. split; [assumption |]. intros k e Hin.
  destruct (calculate_statistics_groups metrics summary Hwf Hs k e Hin)
    as [s [Hacc [Hne He]]].
  destruct (accumulates_bounds metrics k s Hacc) as [Hb Hsum].
  destruct (summarize_rate s e Hb He) as [Es [Ec [Ef [Hlo [Hhi [Hall Hnone]]]]]].
  refine (conj Hlo (conj Hhi (conj _ _))).
  - intros Hz. apply Hall. lia.
  - intros Hz. apply Hnone. lia.
Qed.

Lemma X4_success_rate_is_a_fraction_witness :
  Forall (fun x => well_formed x = true) [Examples.older; Examples.newer]
  /\ exists summary,
       Comparison.calculate_statistics [Examples.older; Examples.newer] = Ok summary
       /\ forall k entry, In (k, entry) summary ->
            num_le (VInt 0) (Comparison.success_rate entry)
            /\ num_le (Comparison.success_rate entry) (VInt 1)
            /\ (Comparison.failed_count entry = 0 ->
                Comparison.success_rate entry = VFloat 1)
            /\ (Comparison.successful_count entry = 0 ->
                Comparison.success_rate entry = VFloat 0).
Proof.
  assert (H : Forall (fun x => well_formed x = true) [Examples.older; Examples.newer]).
  { apply Forall_forall. intros x Hx. vm_compute in Hx.
    repeat (destruct Hx as [<- | Hx]; [reflexivity |]). destruct Hx. }
  split; [exact H |]. exact (X4_success_rate_is_a_fraction [Examples.older; Examples.newer] H).
Defined.

(** ** Well-formed records are necessary *)

Lemma group_metric_inv (m m' : list (value * Comparison.stats)) (x : value) :
  Comparison.group_metric m x = Ok m' ->
  is_dict x = true /\ hashable (queue_type_of x) = true
  /\ m' = Comparison.update (queue_type_of x)
            (Comparison.record_metric (latency_of x) (processing_time_of x)
               (status_of x)) m.
Proof.
  destruct x as [| | | | | | d]; try discriminate.
  unfold Comparison.group_metric. cbn [py_get bind].
  change (match assoc "queue_type" d with Some v => v | None => VStr "unknown" end)
    with (queue_type_of (VDict d)).
  change (match assoc "latency_ms" d with Some v => v | None => VInt 0 end)
    with (latency_of (VDict d)).
  change (match assoc "processing_time_ms" d with Some v => v | None => VInt 0 end)
    with (processing_time_of (VDict d)).
  change (match assoc "status" d with Some v => v | None => VNone end)
    with (status_of (VDict d)).
  destruct (hashable (queue_type_of (VDict d))); cbn [negb]; [| discriminate].
  intros H. injection H as <-. auto.
Qed.

Lemma update_In_inv (k : value) (f : Comparison.stats -> Comparison.stats)
    (m : list (value * Comparison.stats)) (k1 : value) (s1 : Comparison.stats) :
  In (k1, s1) (Comparison.update k f m) ->
  In (k1, s1) m
  \/ exists s0, s1 = f s0 /\ (s0 = Comparison.default_stats \/ In (k1, s0) m).
Proof.
  induction m as [| [k0 s0] m IH]; simpl.
  - intros [H | []]. injection H as <- <-. right. eauto.
  - destruct (key_eqb k0 k); intros [H | H].
    + injection H as <- <-. right. exists s0. auto.
    + auto.
    + auto.
    + destruct (IH H) as [Hin | [s2 [-> [-> | Hin]]]]; [auto | |]; right; eauto.
Qed.

Lemma update_In_old (k : value) (f : Comparison.stats -> Comparison.stats)
    (m : list (value * Comparison.stats)) (k0 : value) (s0 : Comparison.stats) :
  In (k0, s0) m ->
  In (k0, s0) (Comparison.update k f m) \/ In (k0, f s0) (Comparison.update k f m).
Proof.
  induction m as [| [k1 s1] m IH]; simpl; [tauto |].
  destruct (key_eqb k1 k); intros [H | H].
  - injection H as <- <-. right. left. reflexivity.
  - left. right. assumption.
  - left. left. assumption.
  - destruct (IH H); [left | right]; right; assumption.
Qed.

Lemma update_In_new (k : value) (f : Comparison.stats -> Comparison.stats)
    (m : list (value * Comparison.stats)) :
  exists k' s0, In (k', f s0) (Comparison.update k f m).
Proof.
  induction m as [| [k1 s1] m IH]; simpl.
  - exists k, Comparison.default_stats. left. reflexivity.
  - destruct (key_eqb k1 k).
    + exists k1, s1. left. reflexivity.
    + destruct IH as [k' [s0 H]]. exists k', s0. right. assumption.
Qed.

(** One iteration of the grouping loop keeps what the dictionary holds and
    adds the record. *)
Lemma group_metric_holds (m m' : list (value * Comparison.stats)) (x : value) :
  counted m -> Comparison.group_metric m x = Ok m' ->
  counted m' /\ holds_record m' x /\ forall y, holds_record m y -> holds_record m' y.
Proof.
  intros Hc H. destruct (group_metric_inv m m' x H) as [_ [_ ->]].
  set (f := Comparison.record_metric (latency_of x) (processing_time_of x) (status_of x)).
  refine (conj _ (conj _ _)).
  - intros k s Hin. destruct (update_In_inv _ _ _ _ _ Hin) as [Hold | [s0 [-> [-> | Hold]]]].
    + apply (Hc k s Hold).
    + reflexivity.
    + pose proof (Hc k s0 Hold). unfold f, Comparison.record_metric.
      cbn [Comparison.s_count]. lia.
  - destruct (update_In_new (queue_type_of x) f m) as [k' [s0 Hin]].
    exists k', (f s0). split; [assumption |].
    unfold f, Comparison.record_metric.
    cbn [Comparison.s_latencies Comparison.s_processing_times].
    split; apply in_or_app; right; left; reflexivity.
  - intros y [k [s [Hin [Hl Hp]]]].
    destruct (update_In_old (queue_type_of x) f m k s Hin) as [Hk | Hk].
    + exists k, s. auto.
    + exists k, (f s). split; [assumption |].
      unfold f, Comparison.record_metric.
      cbn [Comparison.s_latencies Comparison.s_processing_times].
      split; apply in_or_app; left; assumption.
Qed.

Lemma group_metrics_holds (metrics : list value) (m m' : list (value * Comparison.stats)) :
  counted m -> Comparison.group_metrics m metrics = Ok m' ->
  counted m'
  /\ Forall (fun x => is_dict x = true /\ hashable (queue_type_of x) = true
                      /\ holds_record m' x) metrics
  /\ forall y, holds_record m y -> holds_record m' y.
Proof.
  revert m. induction metrics as [| x metrics IH]; simpl; intros m Hc H.
  - injection H as <-. auto.
  - apply bind_Ok in H. destruct H as [m1 [Hm1 H]].
    destruct (group_metric_holds m m1 x Hc Hm1) as [Hc1 [Hx Hkeep]].
    destruct (group_metric_inv m m1 x Hm1) as [Hd [Hh _]].
    destruct (IH m1 Hc1 H) as [Hc' [Hall Hkeep']].
    refine (conj Hc' (conj _ _)).
    + constructor; [| assumption]. auto.
    + intros y Hy. apply Hkeep'. apply Hkeep. assumption.
Qed.

Lemma summarize_all_each (m : list (value * Comparison.stats))
    (summary : list (value * Comparison.stat_summary)) :
  Comparison.summarize_all m = Ok summary ->
  forall k s, In (k, s) m -> Comparison.s_count s <> 0 ->
    exists e, Comparison.summarize s = Ok e.
Proof.
  revert summary. induction m as [| [k0 s0] m IH]; simpl; intros summary H k s Hin Hc.
  - destruct Hin.
  - destruct (Comparison.s_count s0 =? 0) eqn:E.
    + destruct Hin as [Heq | Hin].
      * injection Heq as <- <-. apply Z.eqb_eq in E. contradiction.
      * apply (IH summary H k s Hin Hc).
    + apply bind_Ok in H. destruct H as [entry [Hentry H]].
      apply bind_Ok in H. destruct H as [rest [Hrest H]].
      destruct Hin as [Heq | Hin].
      * injection Heq as <- <-. eauto.
      * apply (IH rest Hrest k s Hin Hc).
Qed.

(** A group is summarized only when its latencies and processing times are
    numbers. *)
Lemma summarize_numeric (s : Comparison.stats) (e : Comparison.stat_summary) :
  Comparison.summarize s = Ok e ->
  Forall (fun x => numeric x = true) (Comparison.s_latencies s)
  /\ Forall (fun x => numeric x = true) (Comparison.s_processing_times s).
Proof.
  intros H. unfold Comparison.summarize in H.
  apply bind_Ok in H. destruct H as [xs [Hxs H]].
  apply bind_Ok in H. destruct H as [ys [Hys H]].
  apply bind_Ok in H. destruct H as [lat [Hlat H]].
  apply bind_Ok in H. destruct H as [pt [Hpt _]].
  unfold Comparison.summarize_latency in Hlat.
  apply bind_Ok in Hlat. destruct Hlat as [total [Htotal _]].
  unfold Comparison.summarize_processing_time in Hpt.
  apply bind_Ok in Hpt. destruct Hpt as [total' [Htotal' _]].
  pose proof (sum_from_operands xs (VInt 0) total Htotal) as Hx.
  pose proof (sum_from_operands ys (VInt 0) total' Htotal') as Hy.
  split; (eapply Permutation_Forall;
          [apply Permutation_sym; eapply sort_Permutation; eassumption | assumption]).
Qed.

Lemma calculate_statistics_well_formed (metrics : list value)
    (summary : list (value * Comparison.stat_summary)) :
  Comparison.calculate_statistics metrics = Ok summary ->
  Forall (fun x => well_formed x = true) metrics.
Proof.
  intros H. unfold Comparison.calculate_statistics in H.
  apply bind_Ok in H. destruct H as [m [Hm H]].
  assert (Hc0 : counted []) by (intros k s []).
  destruct (group_metrics_holds metrics [] m Hc0 Hm) as [Hc [Hall _]].
  eapply Forall_impl; [| exact Hall].
  intros x [Hd [Hh [k [s [Hin [Hl Hp]]]]]].
  pose proof (Hc k s Hin) as Hpos.
  destruct (summarize_all_each m summary H k s Hin) as [e He]; [lia |].
  destruct (summarize_numeric s e He) as [Hnl Hnp].
  unfold well_formed. rewrite Hd, Hh.
  rewrite (In_numeric _ _ Hnl Hl), (In_numeric _ _ Hnp Hp). reflexivity.
Qed.

(** X5.  For records whose int latencies and processing times are below
    [2^53] in absolute value, the aggregator computes statistics exactly
    for the lists of well-formed records: it returns a summary when every
    record is a dictionary with a hashable queue type and numeric (or
    absent) latency and processing time, and it raises as soon as one
    record of the list is not.  (The bound keeps the ints within the range
    of a float: beyond it Python's mean raises [OverflowError], which the
    arithmetic of this file does not represent.) *)
Theorem X5_statistics_exactly_for_well_formed_records :
  forall metrics : list value,
    Forall (fun x => float_sized x = true) metrics ->
    ((exists summary, Comparison.calculate_statistics metrics = Ok summary)
     <-> Forall (fun x => well_formed x = true) metrics).
Proof.
  intros metrics _. split.
  - intros [summary H]. apply (calculate_statistics_well_formed metrics summary H).
  - intros Hwf. destruct (calculate_statistics_entry metrics Hwf) as [summary [H _]].
    exists summary. assumption.
Qed.

(** X5 at two stored records, and at a list with a record whose latency is
    [null]. *)
Lemma X5_statistics_exactly_for_well_formed_records_witness :
  (exists summary,
     Comparison.calculate_statistics [Examples.older; Examples.newer] = Ok summary)
  /\ ~ (exists summary,
          Comparison.calculate_statistics [Examples.older; unmeasured] = Ok summary).
Proof.
  split.
  - apply (X5_statistics_exactly_for_well_formed_records
             [Examples.older; Examples.newer]);
      repeat (constructor; [reflexivity |]); constructor.
  - intros H.
    apply (X5_statistics_exactly_for_well_formed_records
             [Examples.older; unmeasured]) in H;
      [| repeat (constructor; [reflexivity |]); constructor].
    inversion H as [| ? ? _ H']. inversion H' as [| ? ? Hbad _]. discriminate Hbad.
Defined.

(** X6.  One fetched record that is not well-formed makes the whole request
    fail: the handler answers 500 with the body of an internal error,
    whatever the other records and the query parameters are. *)
Theorem X6_one_malformed_record_fails_the_request :
  forall (json_loads : string -> result value) (int_of_str : string -> option Z)
         (event : value) (s3 : Comparison.bucket) (now : string) (x : value),
    In x (Comparison.get_all_metrics_from_s3 json_loads s3) ->
    well_formed x = false ->
    exists e,
      Comparison.calculate_statistics
        (Comparison.get_all_metrics_from_s3 json_loads s3) = Raise e
      /\ Comparison.lambda_handler json_loads int_of_str event s3 now
         = internal_error_response e.
Proof.
  intros json_loads int_of_str event s3 now x Hin Hbad.
  unfold Comparison.lambda_handler.
  destruct (Comparison.get_all_metrics_from_s3 json_loads s3) as [| y ys] eqn:Hall;
    [destruct Hin |].
  destruct (Comparison.calculate_statistics (y :: ys)) as [summary | e] eqn:Hs.
  - exfalso. pose proof (calculate_statistics_well_formed _ _ Hs) as Hwf.
    rewrite Forall_forall in Hwf. rewrite (Hwf x Hin) in Hbad. discriminate.
  - exists e. split; [reflexivity |].
    unfold Comparison.compare. rewrite Hs. reflexivity.
Qed.

Lemma X6_one_malformed_record_fails_the_request_witness :
  In unmeasured (Comparison.get_all_metrics_from_s3 json_loads_example one_bad_record)
  /\ well_formed unmeasured = false
  /\ exists e,
       Comparison.calculate_statistics
         (Comparison.get_all_metrics_from_s3 json_loads_example one_bad_record) = Raise e
       /\ Comparison.lambda_handler json_loads_example Instances.int_of_str
            (VDict []) one_bad_record "2024-01-03T00:00:00"
          = internal_error_response e.
Proof.
  assert (Hin : In unmeasured
                  (Comparison.get_all_metrics_from_s3 json_loads_example one_bad_record)).
  { vm_compute. right. left. reflexivity. }
  assert (Hbad : well_formed unmeasured = false) by reflexivity.
  refine (conj Hin (conj Hbad _)).
  exact (X6_one_malformed_record_fails_the_request json_loads_example
           Instances.int_of_str (VDict []) one_bad_record "2024-01-03T00:00:00"
           unmeasured Hin Hbad).
Defined.

(** ** The records the consumers build *)

Lemma build_metrics_literal (fromisoformat : string -> result Consumer.datetime)
    (queue : string) (message_body metrics : value) (extra : list (string * value))
    (fx : Consumer.effects) :
  Consumer.build_metrics fromisoformat queue message_body extra fx = Ok metrics ->
  is_dict message_body = true
  /\ exists latency_ms,
       metrics = metrics_literal queue message_body latency_ms extra fx
       /\ numeric latency_ms = true
       /\ py_round (Consumer.calculate_latency fromisoformat
                      (field message_body "timestamp_sent" VNone)
                      (VStr (Consumer.now_received fx ++ "Z"))) 2 = Ok latency_ms.
Proof.
  destruct message_body as [| | | | | | d]; try discriminate.
  intros H. split; [reflexivity |]. revert H.
  unfold Consumer.build_metrics, metrics_literal. cbn [py_get bind field].
  destruct (Consumer.simulate_processing (Consumer.draws fx)) as [success pt].
  cbn [fst snd].
  destruct (calculate_latency_cases fromisoformat
              (match assoc "timestamp_sent" d with Some v => v | None => VNone end)
              (VStr (Consumer.now_received fx ++ "Z")))
    as [[sent [received [delta [_ [_ [_ Hl]]]]]] | [Hl _]];
    rewrite Hl; cbn [py_round bind]; intros H; injection H as <-;
    eexists; (split; [reflexivity | split; reflexivity]).
Qed.

Lemma metrics_literal_fields (queue : string) (message_body latency_ms : value)
    (extra : list (string * value)) (fx : Consumer.effects) :
  let metrics := metrics_literal queue message_body latency_ms extra fx in
  queue_type_of metrics = VStr queue
  /\ latency_of metrics = latency_ms
  /\ processing_time_of metrics
     = VFloat (binary64
                 (round_half_even
                    (snd (Consumer.simulate_processing (Consumer.draws fx))) 2))
  /\ status_of metrics
     = VStr (if fst (Consumer.simulate_processing (Consumer.draws fx))
             then "successful" else "failed")
  /\ field metrics "message_id" VNone = field message_body "message_id" (VStr "unknown")
  /\ field metrics "timestamp_sent" VNone = field message_body "timestamp_sent" VNone
  /\ field metrics "timestamp_received" VNone
     = VStr (Consumer.now_received fx ++ "Z")
  /\ field metrics "passenger_name" VNone
     = field message_body "passenger_name" (VStr "N/A")
  /\ field metrics "current_address" VNone
     = field message_body "current_address" (VStr "N/A")
  /\ field metrics "destination" VNone
     = field message_body "destination" (VStr "N/A").
Proof.
  repeat split.
Qed.

Lemma Qlt_bool_iff (a b : Q) : Qlt_bool a b = true <-> (a < b)%Q.
Proof.
  split; [apply Qlt_bool_true |]. intros H. unfold Qlt_bool.
  destruct (Qle_bool b a) eqn:E; [| reflexivity].
  apply Qle_bool_iff in E. exfalso. apply (Qlt_irrefl a).
  eapply Qlt_le_trans; eassumption.
Qed.

(** X7.  Every metrics dictionary a consumer builds is a record the
    aggregator accepts: a dictionary whose [queue_type] is the consumer's
    queue, with numeric latency and processing time and a text
    [timestamp_received] (the clock reading followed by [Z]).  It carries
    the message's identifier (or ["unknown"]), its send timestamp, and the
    passenger fields (or ["N/A"]) of the message unchanged. *)
Theorem X7_consumer_records_are_accepted_by_the_aggregator :
  forall (fromisoformat : string -> result Consumer.datetime)
         (queue : string) (message_body : value) (extra : list (string * value))
         (fx : Consumer.effects) (metrics : value),
    Consumer.build_metrics fromisoformat queue message_body extra fx = Ok metrics ->
    well_formed metrics = true
    /\ queue_type_of metrics = VStr queue
    /\ has_text_timestamp metrics = true
    /\ ts_key metrics = (Consumer.now_received fx ++ "Z")%string
    /\ field metrics "message_id" VNone
       = field message_body "message_id" (VStr "unknown")
    /\ field metrics "timestamp_sent" VNone = field message_body "timestamp_sent" VNone
    /\ field metrics "passenger_name" VNone
       = field message_body "passenger_name" (VStr "N/A")
    /\ field metrics "current_address" VNone
       = field message_body "current_address" (VStr "N/A")
    /\ field metrics "destination" VNone
       = field message_body "destination" (VStr "N/A").
Proof.
  intros fromisoformat queue message_body extra fx metrics H.
  destruct (build_metrics_literal _ _ _ _ _ _ H) as [_ [lat [-> [Hn _]]]].
  destruct (metrics_literal_fields queue message_body lat extra fx)
    as [Hq [Hl [Hp [_ [Hid [Hsent [Hrecv [Hname [Haddr Hdest]]]]]]]]].
  refine (conj _ (conj Hq (conj _ (conj _ (conj Hid (conj Hsent
            (conj Hname (conj Haddr Hdest)))))))).
  - unfold well_formed. rewrite Hq, Hl, Hp, Hn. reflexivity.
  - reflexivity.
  - reflexivity.
Qed.

Lemma X7_consumer_records_are_accepted_by_the_aggregator_witness :
  exists metrics,
    Consumer.build_metrics Instances.fromisoformat "sqs" Examples.on_time []
      (Examples.effects_with (Ok tt)) = Ok metrics
    /\ well_formed metrics = true
    /\ queue_type_of metrics = VStr "sqs"
    /\ field metrics "message_id" VNone = VStr "m1".
Proof.
  destruct (Consumer.build_metrics Instances.fromisoformat "sqs" Examples.on_time []
              (Examples.effects_with (Ok tt))) as [metrics | e] eqn:E.
  - exists metrics. split; [reflexivity |].
    destruct (X7_consumer_records_are_accepted_by_the_aggregator _ _ _ _ _ _ E)
      as [Hw [Hq [_ [_ [Hid _]]]]].
    auto.
  - vm_compute in E. discriminate E.
Defined.

(** X8.  The status and the processing time of a built record come from
    the two random draws alone, whatever the outcome of the later write.
    The status is ["successful"] exactly when the second draw exceeds the
    float [0.02] and ["failed"] otherwise.  The processing time is the
    float product of the first draw with 1000 (a float nearest to their
    product) rounded to 2 decimals: a float nearest to the multiple of 0.01
    nearest to that.  It is
    at least 100 when the draw is at least 0.1 and at most 500 when the
    draw is at most 0.5, and between the two bounds rounding it again
    changes nothing. *)
Theorem X8_status_and_processing_time_follow_the_draws :
  forall (fromisoformat : string -> result Consumer.datetime)
         (queue : string) (message_body : value) (extra : list (string * value))
         (fx : Consumer.effects) (metrics : value),
    Consumer.build_metrics fromisoformat queue message_body extra fx = Ok metrics ->
    (is_successful metrics = true
     <-> (binary64 (2 # 100) < Consumer.random (Consumer.draws fx))%Q)
    /\ (status_of metrics = VStr "successful" \/ status_of metrics = VStr "failed")
    /\ (exists product,
          nearest_float (Consumer.uniform (Consumer.draws fx) * 1000) product
          /\ product = binary64 (Consumer.uniform (Consumer.draws fx) * 1000)
          /\ float_round product 2 (processing_time_of metrics))
    /\ ((1 # 10 <= Consumer.uniform (Consumer.draws fx))%Q ->
        num_le (VInt 100) (processing_time_of metrics))
    /\ ((Consumer.uniform (Consumer.draws fx) <= 5 # 10)%Q ->
        num_le (processing_time_of metrics) (VInt 500))
    /\ ((1 # 10 <= Consumer.uniform (Consumer.draws fx))%Q ->
        (Consumer.uniform (Consumer.draws fx) <= 5 # 10)%Q ->
        rounded2 (processing_time_of metrics)).
Proof.
  intros fromisoformat queue message_body extra fx metrics H.
  destruct (build_metrics_literal _ _ _ _ _ _ H) as [_ [lat [-> _]]].
  destruct (metrics_literal_fields queue message_body lat extra fx)
    as [_ [_ [Hp [Hs _]]]].
  unfold is_successful. rewrite Hs, Hp.
  unfold Consumer.simulate_processing. cbn [fst snd].
  set (u := Consumer.uniform (Consumer.draws fx)).
  assert (Hlow : (1 # 10 <= u)%Q -> (100 <= binary64 (u * 1000))%Q).
  { intros Hu. change 100%Q with (binary64 100). apply binary64_monotone.
    setoid_replace (100 : Q) with ((1 # 10) * 1000)%Q by reflexivity.
    apply Qmult_le_compat_r; [exact Hu | discriminate]. }
  assert (Hhigh : (u <= 5 # 10)%Q -> (binary64 (u * 1000) <= 500)%Q).
  { intros Hu. change 500%Q with (binary64 500). apply binary64_monotone.
    setoid_replace (500 : Q) with ((5 # 10) * 1000)%Q by reflexivity.
    apply Qmult_le_compat_r; [exact Hu | discriminate]. }
  refine (conj _ (conj _ (conj _ (conj _ (conj _ _))))).
  - rewrite <- Qlt_bool_iff.
    destruct (Qlt_bool (binary64 (2 # 100)) (Consumer.random (Consumer.draws fx)));
      simpl; split; congruence.
  - destruct (Qlt_bool (binary64 (2 # 100)) (Consumer.random (Consumer.draws fx))); auto.
  - eexists. split; [apply binary64_nearest | split; [reflexivity |]].
    apply py_round_float_round; [lia | reflexivity].
  - intros Hu. unfold num_le. cbn [as_number].
    change (inject_Z 100) with (binary64 (round_half_even 100 2)).
    apply binary64_monotone, round_half_even_monotone; [lia | auto].
  - intros Hu. unfold num_le. cbn [as_number].
    change (inject_Z 500) with (binary64 (round_half_even 500 2)).
    apply binary64_monotone, round_half_even_monotone; [lia | auto].
  - intros Hu1 Hu2.
    apply (py_round_rounded2 (VFloat (binary64 (u * 1000))) _ (binary64 (u * 1000)));
      [reflexivity | reflexivity |].
    apply Qabs_Qle_condition. specialize (Hlow Hu1). specialize (Hhigh Hu2).
    set (x := binary64 (u * 1000)) in *. clearbody x. split; lra.
Qed.

(** X8 at a draw of 0.3 and a write that fails: the record is successful
    and its processing time is 300.0. *)
Lemma X8_status_and_processing_time_follow_the_draws_witness :
  exists metrics,
    Consumer.build_metrics Instances.fromisoformat "rabbitmq" Examples.on_time []
      (Examples.effects_with (Raise TransportError)) = Ok metrics
    /\ is_successful metrics = true
    /\ processing_time_of metrics = VFloat 300
    /\ num_le (VInt 100) (processing_time_of metrics)
    /\ num_le (processing_time_of metrics) (VInt 500).
Proof.
  destruct (Consumer.build_metrics Instances.fromisoformat "rabbitmq" Examples.on_time []
              (Examples.effects_with (Raise TransportError))) as [metrics | e] eqn:E.
  - exists metrics. split; [reflexivity |].
    destruct (X8_status_and_processing_time_follow_the_draws _ _ _ _ _ _ E)
      as [Hs [_ [[product [_ [-> Hfr]]] [Hlo [Hhi _]]]]].
    refine (conj _ (conj _ (conj _ _))).
    + apply Hs. vm_compute. reflexivity.
    + apply (float_round_functional
               (binary64 (Consumer.uniform
                            (Consumer.draws (Examples.effects_with
                                               (Raise TransportError))) * 1000)) 2);
        [lia | exact Hfr |].
      apply py_round_float_round; [lia |]. vm_compute. reflexivity.
    + apply Hlo. vm_compute. intros Hd. discriminate Hd.
    + apply Hhi. vm_compute. intros Hd. discriminate Hd.
  - vm_compute in E. discriminate E.
Defined.

(** ** From the consumers' bucket to the summary *)

Lemma store_metrics_to_s3_getitem (queue : string) (metrics : value)
    (fx : Consumer.effects) :
  Consumer.store_metrics_to_s3 queue metrics fx
  = match (mid <- Consumer.getitem metrics "message_id" ;;
           _ <- Consumer.put_object fx ;;
           Ok mid) with
    | Ok mid =>
        (true, [{| Consumer.prefix := queue; Consumer.stamp := Consumer.now_stored fx;
                   Consumer.message_id := mid; Consumer.content := metrics |}])
    | Raise _ => (false, [])
    end.
Proof. reflexivity. Qed.

Lemma store_metrics_written (fromisoformat : string -> result Consumer.datetime)
    (queue : string) (message_body metrics : value)
    (extra : list (string * value)) (fx : Consumer.effects) :
  Consumer.build_metrics fromisoformat queue message_body extra fx = Ok metrics ->
  Forall (written_by fromisoformat queue)
    (snd (Consumer.store_metrics_to_s3 queue metrics fx))
  /\ (forall o, In o (snd (Consumer.store_metrics_to_s3 queue metrics fx)) ->
        Consumer.content o = metrics).
Proof.
  intros H. destruct (build_metrics_literal _ _ _ _ _ _ H) as [_ [lat [Hm _]]].
  assert (Hg : Consumer.getitem metrics "message_id"
               = Ok (field message_body "message_id" (VStr "unknown")))
    by (rewrite Hm; reflexivity).
  rewrite store_metrics_to_s3_getitem, Hg. cbn [bind].
  destruct (Consumer.put_object fx) as [[] |] eqn:Hput; cbn [bind snd].
  - split.
    + constructor; [| constructor]. unfold written_by.
      cbn [Consumer.prefix Consumer.content Consumer.message_id Consumer.stamp].
      split; [reflexivity |]. split; [exact Hg |].
      exists message_body, extra, fx. auto.
    + intros o [<- | []]. reflexivity.
  - split; [constructor | intros o []].
Qed.

Lemma process_record_written (json_loads : string -> result value)
    (fromisoformat : string -> result Consumer.datetime)
    (b : ConsumerSqs.batch) (record : value) (fx : Consumer.effects) :
  Forall (written_by fromisoformat "sqs") (ConsumerSqs.writes b) ->
  Forall (written_by fromisoformat "sqs")
    (ConsumerSqs.writes (ConsumerSqs.process_record json_loads fromisoformat b record fx)).
Proof.
  intros Hb. unfold ConsumerSqs.process_record.
  destruct (ConsumerSqs.metrics_of_record json_loads fromisoformat record fx)
    as [metrics | e] eqn:E; [| exact Hb].
  unfold ConsumerSqs.metrics_of_record in E.
  apply bind_Ok in E. destruct E as [body [_ E]].
  apply bind_Ok in E. destruct E as [message_body [_ E]].
  apply bind_Ok in E. destruct E as [sqs_message_id [_ E]].
  apply bind_Ok in E. destruct E as [receipt_handle [_ E]].
  destruct (store_metrics_written _ _ _ _ _ _ E) as [Hw _].
  destruct (Consumer.store_metrics_to_s3 "sqs" metrics fx) as [ok written].
  cbn [snd] in Hw.
  destruct ok; cbn [ConsumerSqs.writes]; apply Forall_app; auto.
Qed.

Lemma process_records_written (json_loads : string -> result value)
    (fromisoformat : string -> result Consumer.datetime)
    (world : nat -> Consumer.effects) (records : list value) :
  forall (i : nat) (b : ConsumerSqs.batch),
    Forall (written_by fromisoformat "sqs") (ConsumerSqs.writes b) ->
    Forall (written_by fromisoformat "sqs")
      (ConsumerSqs.writes
         (ConsumerSqs.process_records json_loads fromisoformat world i b records)).
Proof.
  induction records as [| record rest IH]; intros i b Hb; simpl; [exact Hb |].
  apply IH. apply process_record_written. exact Hb.
Qed.

(** Records of one queue type form one group. *)
Lemma group_metrics_single (q : string) (rest : list value) :
  forall (s : Comparison.stats) (m : list (value * Comparison.stats)),
    Forall (fun x => queue_type_of x = VStr q) rest ->
    Comparison.group_metrics [(VStr q, s)] rest = Ok m ->
    exists s', m = [(VStr q, s')].
Proof.
  induction rest as [| x rest IH]; simpl; intros s m Hq H.
  - injection H as <-. eauto.
  - inversion Hq as [| ? ? Hx Hrest]; subst.
    apply bind_Ok in H. destruct H as [m1 [Hm1 H]].
    destruct (group_metric_inv _ _ _ Hm1) as [_ [_ ->]].
    rewrite Hx in H. cbn [Comparison.update] in H.
    assert (Hk : key_eqb (VStr q) (VStr q) = true) by apply String.eqb_refl.
    rewrite Hk in H. apply (IH _ _ Hrest H).
Qed.

Lemma single_queue_summary (q : string) (metrics : list value) :
  Forall (fun x => well_formed x = true) metrics ->
  Forall (fun x => queue_type_of x = VStr q) metrics ->
  metrics <> [] ->
  exists entry,
    Comparison.calculate_statistics metrics = Ok [(VStr q, entry)]
    /\ Comparison.count entry = len metrics.
Proof.
  intros Hwf Hq Hne.
  destruct (calculate_statistics_entry metrics Hwf) as [summary [Hs _]].
  pose proof (calculate_statistics_total metrics summary Hs) as Htotal.
  pose proof Hs as Hs'. unfold Comparison.calculate_statistics in Hs'.
  apply bind_Ok in Hs'. destruct Hs' as [m [Hm Hall]].
  destruct metrics as [| x rest]; [congruence |].
  inversion Hq as [| ? ? Hx Hrest]; subst.
  cbn [Comparison.group_metrics] in Hm.
  apply bind_Ok in Hm. destruct Hm as [m1 [Hm1 Hm]].
  destruct (group_metric_inv _ _ _ Hm1) as [_ [_ ->]].
  rewrite Hx in Hm. cbn [Comparison.update] in Hm.
  destruct (group_metrics_single q rest _ m Hrest Hm) as [s' ->].
  cbn [Comparison.summarize_all] in Hall.
  rewrite len_cons in Htotal. pose proof (len_nonneg rest) as Hl.
  destruct (Comparison.s_count s' =? 0).
  - injection Hall as <-. cbn in Htotal. lia.
  - apply bind_Ok in Hall. destruct Hall as [entry [_ Hall]].
    cbn [Comparison.summarize_all bind] in Hall. injection Hall as <-.
    exists entry. split; [exact Hs |].
    cbn [total_count fold_right snd] in Htotal. rewrite len_cons. lia.
Qed.

(** ** What the bucket holds after the writes *)

Section Store.
Variable str : value -> string.

Local Abbreviation key := (Consumer.key_of str).
Local Abbreviation put := (Consumer.put str).

Lemma put_In (o : Consumer.stored_object) (objects : list Consumer.stored_object) :
  In o (put o objects).
Proof.
  induction objects as [| o' rest IH]; simpl; [auto |].
  destruct (String.eqb (key o') (key o)); simpl; auto.
Qed.

Lemma put_incl (o x : Consumer.stored_object) (objects : list Consumer.stored_object) :
  In x (put o objects) -> x = o \/ In x objects.
Proof.
  induction objects as [| o' rest IH]; simpl.
  - intros [<- | []]. auto.
  - destruct (String.eqb (key o') (key o)); simpl.
    + intros [<- | H]; auto.
    + intros [<- | H]; [auto |]. destruct (IH H); auto.
Qed.

Lemma put_keys (o x : Consumer.stored_object) (objects : list Consumer.stored_object) :
  In x objects -> exists x', In x' (put o objects) /\ key x' = key x.
Proof.
  induction objects as [| o' rest IH]; simpl; [intros [] |].
  destruct (String.eqb (key o') (key o)) eqn:E; simpl.
  - intros [<- | H].
    + exists o. apply String.eqb_eq in E. auto.
    + exists x. auto.
  - intros [<- | H].
    + exists o'. auto.
    + destruct (IH H) as [x' [Hx' Hk]]. exists x'. auto.
Qed.

Lemma put_NoDup (o : Consumer.stored_object) (objects : list Consumer.stored_object) :
  NoDup (map key objects) -> NoDup (map key (put o objects)).
Proof.
  induction objects as [| o' rest IH]; simpl; intros H.
  - constructor; [intros [] | constructor].
  - inversion H as [| ? ? Hnot Hrest]; subst.
    destruct (String.eqb (key o') (key o)) eqn:E; simpl.
    + apply String.eqb_eq in E. rewrite <- E. constructor; assumption.
    + apply String.eqb_neq in E. constructor; [| apply IH; assumption].
      intros Hin. apply in_map_iff in Hin. destruct Hin as [x [Hk Hx]].
      destruct (put_incl o x rest Hx) as [-> | Hx']; [congruence |].
      apply Hnot. rewrite <- Hk. apply in_map. assumption.
Qed.

Lemma put_len (o : Consumer.stored_object) (objects : list Consumer.stored_object) :
  len (put o objects) <= len objects + 1.
Proof.
  induction objects as [| o' rest IH]; cbn [Consumer.put].
  - reflexivity.
  - destruct (String.eqb (key o') (key o)); rewrite !len_cons; lia.
Qed.

Lemma put_fresh (o : Consumer.stored_object) (objects : list Consumer.stored_object) :
  ~ In (key o) (map key objects) -> put o objects = objects ++ [o].
Proof.
  induction objects as [| o' rest IH]; simpl; intros H; [reflexivity |].
  destruct (String.eqb (key o') (key o)) eqn:E.
  - apply String.eqb_eq in E. exfalso. apply H. auto.
  - rewrite IH; [reflexivity |]. intros Hin. apply H. auto.
Qed.

(** The writes [ws] made on a bucket that holds [objects]. *)
Lemma put_all_spec (ws objects : list Consumer.stored_object) :
  let after := fold_left (fun objects o => put o objects) ws objects in
  (NoDup (map key objects) -> NoDup (map key after))
  /\ (forall x, In x after -> In x objects \/ In x ws)
  /\ (forall x, In x objects \/ In x ws -> exists x', In x' after /\ key x' = key x)
  /\ len after <= len objects + len ws
  /\ (NoDup (map key (objects ++ ws)) -> after = objects ++ ws)
  /\ (objects <> [] \/ ws <> [] -> after <> []).
Proof.
  revert objects. induction ws as [| o ws IH]; intros objects; cbn [fold_left].
  - cbn zeta. rewrite app_nil_r. change (len (@nil Consumer.stored_object)) with 0.
    refine (conj (fun H => H) (conj _ (conj _ (conj _ (conj (fun _ => eq_refl) _))))).
    + auto.
    + intros x [H | []]. eauto.
    + lia.
    + intros [H | H]; [assumption | congruence].
  - specialize (IH (put o objects)). cbn zeta in IH.
    destruct IH as [Hnd [Hin [Hkeys [Hlen [Hfresh Hne]]]]].
    set (after := fold_left (fun objects o => put o objects) ws (put o objects)) in *.
    cbn zeta. refine (conj _ (conj _ (conj _ (conj _ (conj _ _))))).
    + intros H. apply Hnd. apply put_NoDup. assumption.
    + intros x Hx. destruct (Hin x Hx) as [H | H]; [| right; right; assumption].
      destruct (put_incl o x objects H) as [-> | H']; [right; left; reflexivity | auto].
    + intros x [H | [<- | H]].
      * destruct (put_keys o x objects H) as [x1 [Hx1 Hk1]].
        destruct (Hkeys x1 (or_introl Hx1)) as [x2 [Hx2 Hk2]].
        exists x2. split; [assumption | congruence].
      * apply Hkeys. left. apply put_In.
      * apply Hkeys. right. assumption.
    + pose proof (put_len o objects). rewrite len_cons. lia.
    + intros H.
      assert (Hnew : ~ In (key o) (map key objects)).
      { rewrite map_app in H. cbn [map] in H. apply NoDup_remove_2 in H.
        intros Hin'. apply H. apply in_or_app. left. assumption. }
      rewrite (put_fresh o objects Hnew) in Hfresh.
      rewrite Hfresh; [rewrite <- app_assoc; reflexivity |].
      rewrite <- app_assoc. exact H.
    + intros _. apply Hne. left. intros Hnil.
      pose proof (put_In o objects) as Ho. rewrite Hnil in Ho. destruct Ho.
Qed.

(** The last write is in the bucket. *)
Lemma stored_last (ws : list Consumer.stored_object) (o : Consumer.stored_object) :
  In o (Consumer.stored str (ws ++ [o])).
Proof.
  unfold Consumer.stored. rewrite fold_left_app. cbn [fold_left]. apply put_In.
Qed.
End Store.

(** X9.  After any batch, every write the push-mode consumer has made lies
    under the prefix [sqs], is keyed by the identifier of its own record and
    holds a record built from a decoded message, and the number of writes
    is the [processed] number the consumer returned.  The bucket holds one
    object per key, each of them written by the batch, and under every key
    that was written: two records with the same identifier that are stored
    in the same second share a key, and the second replaces the first.  So
    the bucket holds at most [processed] objects, and exactly the writes
    when their keys differ.  The aggregator, in whatever order the objects
    are listed, summarizes them in one group, [sqs], whose count is the
    number of objects in the bucket. *)
Theorem X9_push_consumer_output_is_summarized_as_one_group :
  forall (json_loads : string -> result value)
         (fromisoformat : string -> result Consumer.datetime)
         (str : value -> string)
         (event : value) (world : nat -> Consumer.effects)
         (summary : ConsumerSqs.result_summary)
         (writes : list Consumer.stored_object),
    ConsumerSqs.lambda_handler json_loads fromisoformat event world
    = Ok (summary, writes) ->
    let objects := Consumer.stored str writes in
    Forall (written_by fromisoformat "sqs") writes
    /\ len writes = ConsumerSqs.processed summary
    /\ NoDup (map (Consumer.key_of str) objects)
    /\ (forall o, In o objects -> In o writes)
    /\ (forall o, In o writes ->
          exists o', In o' objects /\ Consumer.key_of str o' = Consumer.key_of str o)
    /\ len objects <= ConsumerSqs.processed summary
    /\ (NoDup (map (Consumer.key_of str) writes) -> objects = writes)
    /\ (writes <> [] ->
        forall listing,
          Permutation listing (map Consumer.content objects) ->
          exists entry,
            Comparison.calculate_statistics listing = Ok [(VStr "sqs", entry)]
            /\ Comparison.count entry = len objects).
Proof.
  intros json_loads fromisoformat str event world summary writes H objects.
  unfold ConsumerSqs.lambda_handler in H.
  apply bind_Ok in H. destruct H as [records [_ H]].
  apply bind_Ok in H. destruct H as [items [_ H]].
  injection H as <- Hwrites. cbn [ConsumerSqs.processed].
  set (b0 := {| ConsumerSqs.processed_count := 0; ConsumerSqs.failed_count := 0;
                ConsumerSqs.writes := [] |}) in *.
  pose proof (process_records_written json_loads fromisoformat world items 0 b0
                (Forall_nil _)) as Hw.
  destruct (process_records_counts json_loads fromisoformat world items 0 b0)
    as [Hp [_ [Hb _]]].
  cbn zeta in Hp, Hb.
  set (b := ConsumerSqs.process_records json_loads fromisoformat world 0 b0 items) in *.
  assert (Hlen : len (ConsumerSqs.writes b) = ConsumerSqs.processed_count b).
  { rewrite Hp, Hb. reflexivity. }
  rewrite Hwrites in Hw, Hlen. clear Hp Hb.
  destruct (put_all_spec str writes []) as [Hnd [Hin [Hkeys [Hle [Hfresh Hne]]]]].
  fold (Consumer.stored str writes) in Hnd, Hin, Hkeys, Hle, Hfresh, Hne.
  fold objects in Hnd, Hin, Hkeys, Hle, Hfresh, Hne.
  assert (Hsub : forall o, In o objects -> In o writes).
  { intros o Ho. destruct (Hin o Ho) as [[] | Ho']. exact Ho'. }
  refine (conj Hw (conj Hlen (conj (Hnd (NoDup_nil _)) (conj Hsub
            (conj (fun o Ho => Hkeys o (or_intror Ho)) (conj _ (conj Hfresh _))))))).
  - change (len (@nil Consumer.stored_object)) with 0 in Hle. lia.
  - intros Hnonempty listing Hperm.
    assert (Hobj : Forall (written_by fromisoformat "sqs") objects).
    { apply Forall_forall. intros o Ho. rewrite Forall_forall in Hw. auto. }
    destruct (single_queue_summary "sqs" listing) as [entry [He Hc]].
    + eapply Permutation_Forall; [apply Permutation_sym; exact Hperm |].
      apply Forall_map. eapply Forall_impl; [| exact Hobj].
      intros o [_ [_ [body [extra [fx [Hbuild _]]]]]].
      destruct (build_metrics_literal _ _ _ _ _ _ Hbuild) as [_ [lat [Hm [Hn _]]]].
      rewrite Hm. unfold well_formed.
      destruct (metrics_literal_fields "sqs" body lat extra fx) as [Hq [Hl [Hpt _]]].
      rewrite Hq, Hl, Hpt, Hn. reflexivity.
    + eapply Permutation_Forall; [apply Permutation_sym; exact Hperm |].
      apply Forall_map. eapply Forall_impl; [| exact Hobj].
      intros o [_ [_ [body [extra [fx [Hbuild _]]]]]].
      destruct (build_metrics_literal _ _ _ _ _ _ Hbuild) as [_ [lat [Hm _]]].
      rewrite Hm. reflexivity.
    + intros Hnil. rewrite Hnil in Hperm. apply Permutation_nil in Hperm.
      apply map_eq_nil in Hperm. apply Hne; auto.
    + exists entry. split; [exact He |].
      rewrite Hc, (len_Permutation _ _ Hperm), len_map. reflexivity.
Qed.

(** X9 at a batch of four records: one that is no JSON, one message twice
    and another message, all stored in the same second.  Three records are
    processed; the copy of the first message replaces it in the bucket, and
    the aggregator counts two. *)
Lemma X9_push_consumer_output_is_summarized_as_one_group_witness :
  let event :=
    VDict [("Records",
            VList [Examples.sqs_record Examples.on_time_text;
                   Examples.sqs_record "not json";
                   Examples.sqs_record Examples.early_clock_text;
                   Examples.sqs_record Examples.on_time_text])] in
  exists summary writes entry,
    ConsumerSqs.lambda_handler Examples.json_loads Instances.fromisoformat event
      Examples.all_stored = Ok (summary, writes)
    /\ ConsumerSqs.processed summary = 3
    /\ len writes = 3
    /\ map (Consumer.key_of Instances.str_of_text)
         (Consumer.stored Instances.str_of_text writes)
       = ["sqs/20240101_000000_m1.json"; "sqs/20240101_000000_m2.json"]
    /\ Comparison.calculate_statistics
         (map Consumer.content (Consumer.stored Instances.str_of_text writes))
       = Ok [(VStr "sqs", entry)]
    /\ Comparison.count entry = 2.
Proof.
  intros event.
  destruct (ConsumerSqs.lambda_handler Examples.json_loads Instances.fromisoformat
              event Examples.all_stored) as [[summary writes] | e] eqn:E.
  - destruct (X9_push_consumer_output_is_summarized_as_one_group _ _
                Instances.str_of_text _ _ _ _ E)
      as [_ [Hlen [_ [_ [_ [_ [_ Hsum]]]]]]].
    assert (Hp : ConsumerSqs.processed summary = 3).
    { vm_compute in E. injection E as <- _. reflexivity. }
    assert (Hk : map (Consumer.key_of Instances.str_of_text)
                   (Consumer.stored Instances.str_of_text writes)
                 = ["sqs/20240101_000000_m1.json"; "sqs/20240101_000000_m2.json"]).
    { vm_compute in E. injection E as _ <-. vm_compute. reflexivity. }
    destruct (Hsum ltac:(intros ->; rewrite Hp in Hlen; discriminate Hlen)
                _ (Permutation_refl _)) as [entry [He Hc]].
    exists summary, writes, entry.
    refine (conj eq_refl (conj Hp (conj _ (conj Hk (conj He _))))).
    + rewrite Hlen. exact Hp.
    + rewrite Hc. unfold len.
      rewrite <- (length_map (Consumer.key_of Instances.str_of_text)), Hk.
      reflexivity.
  - vm_compute in E. discriminate E.
Defined.

(** ** The pull-mode poll, for any transport *)

Section PollBound.
Variable utf8_decode : string -> result string.
Variable json_loads : string -> result value.
Variable fromisoformat : string -> result Consumer.datetime.
Variable transport : nat -> result unit.

Local Abbreviation metrics_of_delivery :=
  (ConsumerRabbitmq.metrics_of_delivery utf8_decode json_loads fromisoformat).
Local Abbreviation handle_delivery :=
  (ConsumerRabbitmq.handle_delivery utf8_decode json_loads fromisoformat transport).
Local Abbreviation consume_loop :=
  (ConsumerRabbitmq.consume_loop utf8_decode json_loads fromisoformat transport).

Lemma grows_refl (s : ConsumerRabbitmq.session) : grows fromisoformat s s.
Proof.
  exists [], [], []. rewrite !app_nil_r. change (len (@nil value)) with 0.
  change (len (@nil Consumer.stored_object)) with 0.
  refine (conj eq_refl (conj eq_refl (conj eq_refl (conj (Forall_nil _) (conj _ _))))).
  - intros x [].
  - lia.
Qed.

Lemma grows_trans (s1 s2 s3 : ConsumerRabbitmq.session) :
  grows fromisoformat s1 s2 -> grows fromisoformat s2 s3 -> grows fromisoformat s1 s3.
Proof.
  intros [n1 [w1 [c1 [Hp1 [Hb1 [Hc1 [Hw1 [Hin1 [Hl1 Hm1]]]]]]]]]
         [n2 [w2 [c2 [Hp2 [Hb2 [Hc2 [Hw2 [Hin2 [Hl2 Hm2]]]]]]]]].
  exists (n1 ++ n2), (w1 ++ w2), (c1 ++ c2).
  rewrite Hp2, Hp1, Hb2, Hb1, Hc2, Hc1, <- !app_assoc, !len_app.
  refine (conj eq_refl (conj eq_refl (conj eq_refl (conj _ (conj _ (conj _ _)))))).
  - apply Forall_app. auto.
  - intros x Hx. apply in_app_or in Hx. destruct Hx as [Hx | Hx].
    + destruct (Hin1 x Hx) as [o [Ho Hc]]. exists o. split; [| assumption].
      apply in_or_app. auto.
    + destruct (Hin2 x Hx) as [o [Ho Hc]]. exists o. split; [| assumption].
      apply in_or_app. auto.
  - lia.
  - lia.
Qed.

(** A call on the channel changes the list of calls only. *)
Lemma call_grows (c : ConsumerRabbitmq.channel_call) (s : ConsumerRabbitmq.session) :
  grows fromisoformat s (snd (ConsumerRabbitmq.call transport c s))
  /\ ConsumerRabbitmq.messages_consumed (snd (ConsumerRabbitmq.call transport c s))
     = ConsumerRabbitmq.messages_consumed s.
Proof.
  unfold ConsumerRabbitmq.call. cbn [snd]. split; [| reflexivity].
  exists [], [], [c].
  cbn [ConsumerRabbitmq.processed_messages ConsumerRabbitmq.writes
       ConsumerRabbitmq.calls ConsumerRabbitmq.messages_consumed].
  rewrite !app_nil_r.
  change (len (@nil value)) with 0. change (len (@nil Consumer.stored_object)) with 0.
  refine (conj eq_refl (conj eq_refl (conj eq_refl (conj (Forall_nil _) (conj _ _))))).
  - intros x [].
  - lia.
Qed.

(** One iteration of the loop, whatever the message, the write and the
    transport do. *)
Lemma handle_delivery_grows (max : Z) (d : ConsumerRabbitmq.delivery)
    (fx : Consumer.effects) (s : ConsumerRabbitmq.session) :
  let r := fst (handle_delivery (VInt max) d fx s) in
  let s' := snd (handle_delivery (VInt max) d fx s) in
  grows fromisoformat s s'
  /\ match r with
     | Ok true =>
         ConsumerRabbitmq.messages_consumed s'
         = ConsumerRabbitmq.messages_consumed s + 1
     | Ok false =>
         ConsumerRabbitmq.messages_consumed s' = ConsumerRabbitmq.messages_consumed s
         \/ (ConsumerRabbitmq.messages_consumed s'
             = ConsumerRabbitmq.messages_consumed s + 1
             /\ ConsumerRabbitmq.messages_consumed s' < max)
     | Raise _ =>
         ConsumerRabbitmq.messages_consumed s' = ConsumerRabbitmq.messages_consumed s
     end.
Proof.
  cbn zeta.
  unfold ConsumerRabbitmq.handle_delivery, ConsumerRabbitmq.try,
    ConsumerRabbitmq.bindM, ConsumerRabbitmq.lift, ConsumerRabbitmq.store.
  destruct (metrics_of_delivery d fx) as [metrics | e] eqn:Hm.
  - assert (Hb : exists body, Consumer.build_metrics fromisoformat "rabbitmq" body
                   [("delivery_tag", VInt (ConsumerRabbitmq.delivery_tag d))] fx
                 = Ok metrics).
    { unfold ConsumerRabbitmq.metrics_of_delivery in Hm. inv_bind Hm. eauto. }
    destruct Hb as [body Hb].
    destruct (store_metrics_written _ _ _ _ _ _ Hb) as [Hw Hcontent].
    destruct (Consumer.store_metrics_to_s3 "rabbitmq" metrics fx) as [ok written] eqn:Hs.
    cbn [snd] in Hw, Hcontent.
    assert (Hok : ok = true -> exists o, written = [o]).
    { rewrite store_metrics_to_s3_getitem in Hs.
      destruct (mid <- Consumer.getitem metrics "message_id" ;;
                _ <- Consumer.put_object fx ;; Ok mid);
        injection Hs as <- <-; [eauto | discriminate]. }
    destruct ok.
    + destruct (Hok eq_refl) as [o ->].
      unfold ConsumerRabbitmq.call, ConsumerRabbitmq.append_processed,
        ConsumerRabbitmq.count_consumed, ConsumerRabbitmq.ret, ConsumerRabbitmq.int_ge.
      cbn -[Z.leb Z.add Qle_bool inject_Z len].
      destruct (transport (List.length (ConsumerRabbitmq.calls s))) as [[] | e1].
      * cbn -[Z.leb Z.add Qle_bool inject_Z len]. rewrite Qle_bool_inject_Z.
        destruct (max <=? ConsumerRabbitmq.messages_consumed s + 1) eqn:E;
          cbn -[Z.leb Z.add Qle_bool inject_Z len].
        -- split; [| reflexivity].
           exists [metrics], [o], [ConsumerRabbitmq.basic_ack (ConsumerRabbitmq.delivery_tag d)].
           refine (conj eq_refl (conj eq_refl (conj eq_refl (conj Hw (conj _ _))))).
           ++ intros x [<- | []]. exists o. split; [left; reflexivity |].
              apply Hcontent. left. reflexivity.
           ++ cbn [ConsumerRabbitmq.messages_consumed].
              change (len [metrics]) with 1. change (len [o]) with 1. lia.
        -- apply Z.leb_gt in E. split; [| right; split; [reflexivity | lia]].
           exists [metrics], [o], [ConsumerRabbitmq.basic_ack (ConsumerRabbitmq.delivery_tag d)].
           refine (conj eq_refl (conj eq_refl (conj eq_refl (conj Hw (conj _ _))))).
           ++ intros x [<- | []]. exists o. split; [left; reflexivity |].
              apply Hcontent. left. reflexivity.
           ++ cbn [ConsumerRabbitmq.messages_consumed].
              change (len [metrics]) with 1. change (len [o]) with 1. lia.
      * cbn -[Z.leb Z.add Qle_bool inject_Z len].
        assert (Hg : grows fromisoformat s
                  {| ConsumerRabbitmq.processed_messages :=
                       ConsumerRabbitmq.processed_messages s;
                     ConsumerRabbitmq.messages_consumed :=
                       ConsumerRabbitmq.messages_consumed s;
                     ConsumerRabbitmq.calls :=
                       (ConsumerRabbitmq.calls s
                        ++ [ConsumerRabbitmq.basic_ack (ConsumerRabbitmq.delivery_tag d)])
                       ++ [ConsumerRabbitmq.basic_nack
                             (ConsumerRabbitmq.delivery_tag d) true];
                     ConsumerRabbitmq.writes := ConsumerRabbitmq.writes s ++ [o] |}).
        { exists [], [o], [ConsumerRabbitmq.basic_ack (ConsumerRabbitmq.delivery_tag d);
                           ConsumerRabbitmq.basic_nack (ConsumerRabbitmq.delivery_tag d) true].
          cbn [ConsumerRabbitmq.processed_messages ConsumerRabbitmq.writes
               ConsumerRabbitmq.calls ConsumerRabbitmq.messages_consumed].
          rewrite app_nil_r, <- app_assoc.
          refine (conj eq_refl (conj eq_refl (conj eq_refl (conj Hw (conj _ _))))).
          - intros x [].
          - change (len (@nil value)) with 0. change (len [o]) with 1. lia. }
        destruct (transport
                    (List.length
                       (ConsumerRabbitmq.calls s
                        ++ [ConsumerRabbitmq.basic_ack (ConsumerRabbitmq.delivery_tag d)])))
          as [[] | e2]; cbn; (split; [exact Hg |]); auto.
    + unfold ConsumerRabbitmq.call, ConsumerRabbitmq.append_processed,
        ConsumerRabbitmq.count_consumed, ConsumerRabbitmq.ret, ConsumerRabbitmq.int_ge.
      cbn -[Z.leb Z.add Qle_bool inject_Z len].
      destruct (transport (List.length (ConsumerRabbitmq.calls s))) as [[] | e1].
      * cbn -[Z.leb Z.add Qle_bool inject_Z len]. rewrite Qle_bool_inject_Z.
        destruct (max <=? ConsumerRabbitmq.messages_consumed s + 1) eqn:E;
          cbn -[Z.leb Z.add Qle_bool inject_Z len].
        -- split; [| reflexivity].
           exists [], written,
             [ConsumerRabbitmq.basic_nack (ConsumerRabbitmq.delivery_tag d) true].
           rewrite app_nil_r.
           refine (conj eq_refl (conj eq_refl (conj eq_refl (conj Hw (conj _ _))))).
           ++ intros x [].
           ++ cbn [ConsumerRabbitmq.messages_consumed].
              change (len (@nil value)) with 0. pose proof (len_nonneg written). lia.
        -- apply Z.leb_gt in E. split; [| right; split; [reflexivity | lia]].
           exists [], written,
             [ConsumerRabbitmq.basic_nack (ConsumerRabbitmq.delivery_tag d) true].
           rewrite app_nil_r.
           refine (conj eq_refl (conj eq_refl (conj eq_refl (conj Hw (conj _ _))))).
           ++ intros x [].
           ++ cbn [ConsumerRabbitmq.messages_consumed].
              change (len (@nil value)) with 0. pose proof (len_nonneg written). lia.
      * cbn -[Z.leb Z.add Qle_bool inject_Z len].
        assert (Hg : grows fromisoformat s
                  {| ConsumerRabbitmq.processed_messages :=
                       ConsumerRabbitmq.processed_messages s;
                     ConsumerRabbitmq.messages_consumed :=
                       ConsumerRabbitmq.messages_consumed s;
                     ConsumerRabbitmq.calls :=
                       (ConsumerRabbitmq.calls s
                        ++ [ConsumerRabbitmq.basic_nack
                              (ConsumerRabbitmq.delivery_tag d) true])
                       ++ [ConsumerRabbitmq.basic_nack
                             (ConsumerRabbitmq.delivery_tag d) true];
                     ConsumerRabbitmq.writes := ConsumerRabbitmq.writes s ++ written |}).
        { exists [], written,
            [ConsumerRabbitmq.basic_nack (ConsumerRabbitmq.delivery_tag d) true;
             ConsumerRabbitmq.basic_nack (ConsumerRabbitmq.delivery_tag d) true].
          cbn [ConsumerRabbitmq.processed_messages ConsumerRabbitmq.writes
               ConsumerRabbitmq.calls ConsumerRabbitmq.messages_consumed].
          rewrite app_nil_r, <- app_assoc.
          refine (conj eq_refl (conj eq_refl (conj eq_refl (conj Hw (conj _ _))))).
          - intros x [].
          - change (len (@nil value)) with 0. pose proof (len_nonneg written). lia. }
        destruct (transport
                    (List.length
                       (ConsumerRabbitmq.calls s
                        ++ [ConsumerRabbitmq.basic_nack
                              (ConsumerRabbitmq.delivery_tag d) true])))
          as [[] | e2]; cbn; (split; [exact Hg |]); auto.
  - unfold ConsumerRabbitmq.ret.
    destruct (call_grows (ConsumerRabbitmq.basic_nack (ConsumerRabbitmq.delivery_tag d) true) s)
      as [Hg Hc].
    destruct (ConsumerRabbitmq.call transport
                (ConsumerRabbitmq.basic_nack (ConsumerRabbitmq.delivery_tag d) true) s)
      as [[[] | e2] s1]; cbn [fst snd] in *; split; auto.
Qed.

(** The loop never counts more than [max] messages (one, when [max] is not
    positive). *)
Lemma consume_loop_grows (max : Z) (world : nat -> Consumer.effects)
    (frames : list ConsumerRabbitmq.frame) :
  forall (i : nat) (s : ConsumerRabbitmq.session),
    ConsumerRabbitmq.messages_consumed s = 0
    \/ ConsumerRabbitmq.messages_consumed s < max ->
    let s' := snd (consume_loop (VInt max) world i frames s) in
    grows fromisoformat s s'
    /\ ConsumerRabbitmq.messages_consumed s' <= Z.max 1 max.
Proof.
  induction frames as [| f rest IH]; intros i s Hs; cbn zeta.
  - unfold ConsumerRabbitmq.consume_loop, ConsumerRabbitmq.ret. cbn [snd].
    split; [apply grows_refl | lia].
  - destruct f as [d | | e].
    + cbn [ConsumerRabbitmq.consume_loop]. unfold ConsumerRabbitmq.bindM.
      pose proof (handle_delivery_grows max d (world i) s) as Hstep. cbn zeta in Hstep.
      destruct (handle_delivery (VInt max) d (world i) s) as [r s1].
      cbn [fst snd] in Hstep. destruct Hstep as [Hg Hr].
      destruct r as [[|] | e]; cbv beta iota in Hr.
      * unfold ConsumerRabbitmq.ret. cbn [snd]. split; [exact Hg | lia].
      * destruct (IH (S i) s1) as [Hg' Hb]; [lia |].
        split; [| exact Hb]. eapply grows_trans; eassumption.
      * cbn [snd]. split; [exact Hg | lia].
    + unfold ConsumerRabbitmq.consume_loop, ConsumerRabbitmq.ret. cbn [snd].
      split; [apply grows_refl | lia].
    + unfold ConsumerRabbitmq.consume_loop, ConsumerRabbitmq.lift. cbn [snd].
      split; [apply grows_refl | lia].
Qed.

Lemma consume_messages_grows (max : Z) (connect : result unit)
    (frames : list ConsumerRabbitmq.frame) (world : nat -> Consumer.effects) :
  let r := ConsumerRabbitmq.consume_messages_from_rabbitmq utf8_decode json_loads
             fromisoformat transport (VInt max) connect frames world in
  fst r = ConsumerRabbitmq.processed_messages (snd r)
  /\ grows fromisoformat ConsumerRabbitmq.start (snd r)
  /\ ConsumerRabbitmq.messages_consumed (snd r) <= Z.max 1 max.
Proof.
  cbn zeta. unfold ConsumerRabbitmq.consume_messages_from_rabbitmq.
  match goal with
  | |- context [let '(_, s) := ?c in _] =>
      assert (Hc : grows fromisoformat ConsumerRabbitmq.start (snd c)
                   /\ ConsumerRabbitmq.messages_consumed (snd c) <= Z.max 1 max);
      [| destruct c as [x s]; cbn [fst snd] in *; tauto]
  end.
  unfold ConsumerRabbitmq.bindM, ConsumerRabbitmq.lift.
  destruct connect as [[] | e].
  - destruct (consume_loop_grows max world frames 0 ConsumerRabbitmq.start
                (or_introl eq_refl)) as [Hg Hb].
    destruct (consume_loop (VInt max) world 0 frames ConsumerRabbitmq.start)
      as [r s1].
    cbn [snd] in Hg, Hb. destruct r as [[] | e].
    + destruct (call_grows ConsumerRabbitmq.cancel s1) as [Hg1 Hc1].
      destruct (ConsumerRabbitmq.call transport ConsumerRabbitmq.cancel s1)
        as [r1 s2].
      cbn [snd] in Hg1, Hc1. destruct r1 as [[] | e1].
      * destruct (call_grows ConsumerRabbitmq.close s2) as [Hg2 Hc2].
        destruct (ConsumerRabbitmq.call transport ConsumerRabbitmq.close s2)
          as [r2 s3].
        cbn [fst snd] in *. split; [| lia].
        eapply grows_trans; [| exact Hg2]. eapply grows_trans; eassumption.
      * cbn [fst snd]. split; [| lia]. eapply grows_trans; eassumption.
    + cbn [fst snd]. split; [exact Hg | exact Hb].
  - cbn [fst snd]. split; [apply grows_refl |].
    cbn [ConsumerRabbitmq.start ConsumerRabbitmq.messages_consumed]. lia.
Qed.
End PollBound.

(** X10.  One invocation of the pull-mode consumer with an integer
    [max_messages] (10 when the event has none) always returns status 200;
    it counts at most [max_messages] messages, and one when [max_messages]
    is not positive.  Whatever the messages, the writes and the transport
    do, every record it reports as processed was counted and was written to
    the bucket under the prefix [rabbitmq]. *)
Theorem X10_poll_is_bounded_and_reports_only_written_records :
  forall (utf8_decode : string -> result string)
         (json_loads : string -> result value)
         (fromisoformat : string -> result Consumer.datetime)
         (transport : nat -> result unit)
         (event : value) (max : Z) (connect : result unit)
         (frames : list ConsumerRabbitmq.frame)
         (world : nat -> Consumer.effects) (now : string),
    py_get event "max_messages" (VInt 10) = Ok (VInt max) ->
    exists summary s,
      ConsumerRabbitmq.lambda_handler utf8_decode json_loads fromisoformat transport
        event connect frames world now = Ok (summary, s)
      /\ ConsumerRabbitmq.statusCode summary = 200
      /\ ConsumerRabbitmq.processed summary
         = len (ConsumerRabbitmq.processed_messages s)
      /\ ConsumerRabbitmq.processed summary <= ConsumerRabbitmq.messages_consumed s
      /\ ConsumerRabbitmq.messages_consumed s <= Z.max 1 max
      /\ ConsumerRabbitmq.processed summary <= len (ConsumerRabbitmq.writes s)
      /\ Forall (written_by fromisoformat "rabbitmq") (ConsumerRabbitmq.writes s)
      /\ (forall x, In x (ConsumerRabbitmq.processed_messages s) ->
            exists o, In o (ConsumerRabbitmq.writes s) /\ Consumer.content o = x).
Proof.
  intros utf8_decode json_loads fromisoformat transport event max connect frames
    world now Hmax.
  unfold ConsumerRabbitmq.lambda_handler. rewrite Hmax. cbn [bind].
  destruct (consume_messages_grows utf8_decode json_loads fromisoformat transport
              max connect frames world) as [Hfst [Hg Hb]].
  cbn zeta in Hfst, Hg, Hb.
  destruct (ConsumerRabbitmq.consume_messages_from_rabbitmq utf8_decode json_loads
              fromisoformat transport (VInt max) connect frames world)
    as [processed s].
  cbn [fst snd] in Hfst, Hg, Hb. subst processed.
  destruct Hg as [new [written [cs [Hp [Hbk [_ [Hw [Hin [Hl Hm]]]]]]]]].
  cbn [ConsumerRabbitmq.start ConsumerRabbitmq.processed_messages
       ConsumerRabbitmq.writes ConsumerRabbitmq.messages_consumed app] in Hp, Hbk, Hm.
  exists {| ConsumerRabbitmq.statusCode := 200;
            ConsumerRabbitmq.processed := len (ConsumerRabbitmq.processed_messages s);
            ConsumerRabbitmq.timestamp := (now ++ "Z")%string |}, s.
  cbn [ConsumerRabbitmq.statusCode ConsumerRabbitmq.processed].
  rewrite Hp, Hbk.
  refine (conj eq_refl (conj eq_refl (conj eq_refl
            (conj _ (conj Hb (conj Hl (conj Hw Hin))))))).
  lia.
Qed.

Lemma X10_poll_is_bounded_and_reports_only_written_records_witness :
  exists summary s,
    ConsumerRabbitmq.lambda_handler Instances.utf8_decode Examples.json_loads
      Instances.fromisoformat Examples.reliable
      (VDict [("max_messages", VInt 2)]) (Ok tt)
      (map ConsumerRabbitmq.Message
         [Examples.delivery 1 "0"; Examples.delivery 2 "1"; Examples.delivery 3 "2"])
      Examples.all_stored "2024-01-01T00:00:02" = Ok (summary, s)
    /\ ConsumerRabbitmq.processed summary <= ConsumerRabbitmq.messages_consumed s
    /\ ConsumerRabbitmq.messages_consumed s <= 2.
Proof.
  destruct (X10_poll_is_bounded_and_reports_only_written_records
              Instances.utf8_decode Examples.json_loads Instances.fromisoformat
              Examples.reliable (VDict [("max_messages", VInt 2)]) 2 (Ok tt)
              (map ConsumerRabbitmq.Message
                 [Examples.delivery 1 "0"; Examples.delivery 2 "1";
                  Examples.delivery 3 "2"])
              Examples.all_stored "2024-01-01T00:00:02" eq_refl)
    as [summary [s [Hr [_ [_ [Hp [Hb _]]]]]]].
  exists summary, s. auto.
Defined.

(** ** Messages that cannot be decoded *)

Section PollMalformed.
Variable utf8_decode : string -> result string.
Variable json_loads : string -> result value.
Variable fromisoformat : string -> result Consumer.datetime.
Variable transport : nat -> result unit.
Hypothesis reliable : forall n, transport n = Ok tt.

Local Abbreviation metrics_of_delivery :=
  (ConsumerRabbitmq.metrics_of_delivery utf8_decode json_loads fromisoformat).
Local Abbreviation handle_delivery :=
  (ConsumerRabbitmq.handle_delivery utf8_decode json_loads fromisoformat transport).
Local Abbreviation consume_loop :=
  (ConsumerRabbitmq.consume_loop utf8_decode json_loads fromisoformat transport).

Lemma handle_delivery_malformed (max : value) (d : ConsumerRabbitmq.delivery)
    (fx : Consumer.effects) (s : ConsumerRabbitmq.session) (e : exn) :
  metrics_of_delivery d fx = Raise e ->
  handle_delivery max d fx s
  = (Ok false,
     {| ConsumerRabbitmq.processed_messages := ConsumerRabbitmq.processed_messages s;
        ConsumerRabbitmq.messages_consumed := ConsumerRabbitmq.messages_consumed s;
        ConsumerRabbitmq.calls := ConsumerRabbitmq.calls s ++ [requeue d];
        ConsumerRabbitmq.writes := ConsumerRabbitmq.writes s |}).
Proof.
  intros Hm.
  unfold ConsumerRabbitmq.handle_delivery, ConsumerRabbitmq.try,
    ConsumerRabbitmq.bindM, ConsumerRabbitmq.lift, ConsumerRabbitmq.call,
    ConsumerRabbitmq.ret.
  rewrite Hm, reliable. reflexivity.
Qed.

Lemma consume_loop_malformed (max : value) (world : nat -> Consumer.effects)
    (tail : list ConsumerRabbitmq.frame) (ds : list ConsumerRabbitmq.delivery) :
  tail = [] \/ (exists rest, tail = ConsumerRabbitmq.Inactive :: rest) ->
  forall (i : nat) (s : ConsumerRabbitmq.session),
    all_malformed utf8_decode json_loads fromisoformat world i ds = true ->
    exists s',
      consume_loop max world i (map ConsumerRabbitmq.Message ds ++ tail) s = (Ok tt, s')
      /\ ConsumerRabbitmq.calls s' = ConsumerRabbitmq.calls s ++ map requeue ds
      /\ ConsumerRabbitmq.processed_messages s' = ConsumerRabbitmq.processed_messages s
      /\ ConsumerRabbitmq.messages_consumed s' = ConsumerRabbitmq.messages_consumed s
      /\ ConsumerRabbitmq.writes s' = ConsumerRabbitmq.writes s.
Proof.
  intros Htail. induction ds as [| d ds IH]; intros i s Hbad.
  - cbn [map app]. rewrite app_nil_r.
    destruct Htail as [-> | [rest ->]]; exists s; (split; [reflexivity |]); auto.
  - cbn [all_malformed] in Hbad.
    destruct (metrics_of_delivery d (world i)) as [metrics | e] eqn:Hm;
      [discriminate |].
    cbn [map app ConsumerRabbitmq.consume_loop].
    unfold ConsumerRabbitmq.bindM at 1.
    rewrite (handle_delivery_malformed max d (world i) s e Hm).
    match goal with
    | |- context [consume_loop max world (S i) _ ?s1] =>
        destruct (IH (S i) s1 Hbad) as [s' [Hloop [Hcalls [Hp [Hc Hb]]]]]
    end.
    exists s'. split; [exact Hloop |].
    cbn [ConsumerRabbitmq.calls ConsumerRabbitmq.processed_messages
         ConsumerRabbitmq.messages_consumed ConsumerRabbitmq.writes] in *.
    rewrite Hcalls, <- app_assoc. auto.
Qed.
End PollMalformed.

(** X11.  Over a reliable transport, a message that cannot be decoded to a
    metrics dictionary is negatively acknowledged with requeue and the loop
    goes on: it is not counted towards [max_messages], whatever that value
    is.  A poll that meets only such messages nacks every one of them in
    order, writes nothing, reports nothing as processed, and then cancels
    the consumer and closes the connection. *)
Theorem X11_undecodable_messages_are_requeued_and_not_counted :
  forall (utf8_decode : string -> result string)
         (json_loads : string -> result value)
         (fromisoformat : string -> result Consumer.datetime)
         (transport : nat -> result unit) (max_messages : value)
         (world : nat -> Consumer.effects) (ds : list ConsumerRabbitmq.delivery),
    (forall n, transport n = Ok tt) ->
    all_malformed utf8_decode json_loads fromisoformat world 0 ds = true ->
    exists s,
      ConsumerRabbitmq.consume_messages_from_rabbitmq utf8_decode json_loads
        fromisoformat transport max_messages (Ok tt)
        (map ConsumerRabbitmq.Message ds ++ [ConsumerRabbitmq.Inactive]) world
      = ([], s)
      /\ ConsumerRabbitmq.calls s
         = map requeue ds ++ [ConsumerRabbitmq.cancel; ConsumerRabbitmq.close]
      /\ ConsumerRabbitmq.messages_consumed s = 0
      /\ ConsumerRabbitmq.writes s = [].
Proof.
  intros utf8_decode json_loads fromisoformat transport max_messages world ds Hrel Hbad.
  destruct (consume_loop_malformed utf8_decode json_loads fromisoformat transport
              Hrel max_messages world [ConsumerRabbitmq.Inactive] ds
              (or_intror (ex_intro _ [] eq_refl)) 0 ConsumerRabbitmq.start Hbad)
    as [s1 [Hloop [Hcalls [Hp [Hc Hb]]]]].
  unfold ConsumerRabbitmq.consume_messages_from_rabbitmq.
  unfold ConsumerRabbitmq.bindM at 1. unfold ConsumerRabbitmq.lift at 1.
  unfold ConsumerRabbitmq.bindM at 1. rewrite Hloop.
  unfold ConsumerRabbitmq.bindM, ConsumerRabbitmq.call.
  rewrite !Hrel. cbn [ConsumerRabbitmq.processed_messages ConsumerRabbitmq.calls].
  eexists. split; [rewrite Hp; reflexivity |].
  cbn [ConsumerRabbitmq.calls ConsumerRabbitmq.messages_consumed ConsumerRabbitmq.writes].
  rewrite Hcalls, Hc, Hb, <- app_assoc. auto.
Qed.

Lemma X11_undecodable_messages_are_requeued_and_not_counted_witness :
  exists s,
    ConsumerRabbitmq.consume_messages_from_rabbitmq Instances.utf8_decode
      Examples.json_loads Instances.fromisoformat Examples.reliable (VInt 1) (Ok tt)
      (map ConsumerRabbitmq.Message undecodable ++ [ConsumerRabbitmq.Inactive])
      Examples.all_stored
    = ([], s)
    /\ ConsumerRabbitmq.calls s
       = [ConsumerRabbitmq.basic_nack 1 true; ConsumerRabbitmq.basic_nack 2 true;
          ConsumerRabbitmq.basic_nack 3 true;
          ConsumerRabbitmq.cancel; ConsumerRabbitmq.close].
Proof.
  destruct (X11_undecodable_messages_are_requeued_and_not_counted
              Instances.utf8_decode Examples.json_loads Instances.fromisoformat
              Examples.reliable (VInt 1) Examples.all_stored undecodable
              (fun n => eq_refl) eq_refl)
    as [s [Hrun [Hcalls _]]].
  exists s. split; [exact Hrun | exact Hcalls].
Defined.

(** ** Failures of the broker *)

Section PollFailures.
Variable utf8_decode : string -> result string.
Variable json_loads : string -> result value.
Variable fromisoformat : string -> result Consumer.datetime.
Variable transport : nat -> result unit.
Hypothesis reliable : forall n, transport n = Ok tt.

Local Abbreviation consume_loop :=
  (ConsumerRabbitmq.consume_loop utf8_decode json_loads fromisoformat transport).

(** The loop over a run of well-formed messages that stays below the
    bound, up to the frame that follows the run. *)
Lemma consume_loop_prefix (max : Z) (world : nat -> Consumer.effects)
    (tail : list ConsumerRabbitmq.frame) (ds : list ConsumerRabbitmq.delivery) :
  forall (i : nat) (s : ConsumerRabbitmq.session),
    all_well_formed utf8_decode json_loads fromisoformat world i ds = true ->
    ConsumerRabbitmq.messages_consumed s + len ds < max ->
    exists s',
      consume_loop (VInt max) world i (map ConsumerRabbitmq.Message ds ++ tail) s
      = consume_loop (VInt max) world (i + List.length ds) tail s'
      /\ ConsumerRabbitmq.calls s'
         = ConsumerRabbitmq.calls s ++ imap (fun k d => decision d (world k)) i ds
      /\ ConsumerRabbitmq.processed_messages s'
         = ConsumerRabbitmq.processed_messages s
           ++ concat (imap (fun k d => kept utf8_decode json_loads fromisoformat
                                         d (world k)) i ds).
Proof.
  induction ds as [| d ds IH]; intros i s Hwf Hmax.
  - cbn [map app imap concat List.length]. rewrite !app_nil_r, Nat.add_0_r.
    exists s. auto.
  - cbn [all_well_formed] in Hwf.
    destruct (ConsumerRabbitmq.metrics_of_delivery utf8_decode json_loads
                fromisoformat d (world i)) as [metrics | e] eqn:Hm; [| discriminate].
    destruct (handle_delivery_well_formed utf8_decode json_loads fromisoformat
                transport reliable max d (world i) s metrics Hm)
      as [s1 [Hstep [Hcalls [Hproc Hcons]]]].
    cbn [map app ConsumerRabbitmq.consume_loop imap concat List.length].
    unfold ConsumerRabbitmq.bindM at 1. rewrite Hstep.
    rewrite len_cons in Hmax. pose proof (len_nonneg ds) as Hn.
    destruct (max <=? ConsumerRabbitmq.messages_consumed s + 1) eqn:Estop;
      [apply Z.leb_le in Estop; lia |].
    destruct (IH (S i) s1 Hwf) as [s' [Hloop [Hcalls' Hproc']]]; [lia |].
    exists s'. rewrite Nat.add_succ_r. split; [exact Hloop |].
    rewrite Hcalls', Hproc', Hcalls, Hproc, <- !app_assoc. auto.
Qed.
End PollFailures.

(** X12.  When the connection to the broker cannot be opened, the poll
    returns an empty list and has made no call and written nothing; when
    the stream of messages breaks after a run of decodable messages that
    stays below [max_messages], the poll returns the records written so
    far, and neither cancels the consumer nor closes the connection.  In
    both cases no exception escapes. *)
Theorem X12_broker_failures_end_the_poll_quietly :
  forall (utf8_decode : string -> result string)
         (json_loads : string -> result value)
         (fromisoformat : string -> result Consumer.datetime)
         (transport : nat -> result unit) (max : Z) (e : exn)
         (world : nat -> Consumer.effects)
         (ds : list ConsumerRabbitmq.delivery) (rest : list ConsumerRabbitmq.frame),
    (forall n, transport n = Ok tt) ->
    all_well_formed utf8_decode json_loads fromisoformat world 0 ds = true ->
    len ds < max ->
    ConsumerRabbitmq.consume_messages_from_rabbitmq utf8_decode json_loads
      fromisoformat transport (VInt max) (Raise e)
      (map ConsumerRabbitmq.Message ds ++ rest) world
    = ([], ConsumerRabbitmq.start)
    /\ exists s,
         ConsumerRabbitmq.consume_messages_from_rabbitmq utf8_decode json_loads
           fromisoformat transport (VInt max) (Ok tt)
           (map ConsumerRabbitmq.Message ds ++ ConsumerRabbitmq.Broken e :: rest) world
         = (concat (imap (fun k d => kept utf8_decode json_loads fromisoformat
                                       d (world k)) 0 ds), s)
         /\ ConsumerRabbitmq.calls s = imap (fun k d => decision d (world k)) 0 ds.
Proof.
  intros utf8_decode json_loads fromisoformat transport max e world ds rest
    Hrel Hwf Hmax.
  split; [reflexivity |].
  destruct (consume_loop_prefix utf8_decode json_loads fromisoformat transport
              Hrel max world (ConsumerRabbitmq.Broken e :: rest) ds
              0 ConsumerRabbitmq.start Hwf)
    as [s1 [Hloop [Hcalls Hproc]]]; [simpl; lia |].
  unfold ConsumerRabbitmq.consume_messages_from_rabbitmq.
  unfold ConsumerRabbitmq.bindM at 1. unfold ConsumerRabbitmq.lift at 1.
  unfold ConsumerRabbitmq.bindM at 1. rewrite Hloop.
  cbn [ConsumerRabbitmq.consume_loop]. unfold ConsumerRabbitmq.lift.
  exists s1. split; [rewrite Hproc; reflexivity | exact Hcalls].
Qed.

Lemma X12_broker_failures_end_the_poll_quietly_witness :
  exists s,
    ConsumerRabbitmq.consume_messages_from_rabbitmq Instances.utf8_decode
      Examples.json_loads Instances.fromisoformat Examples.reliable (VInt 10) (Ok tt)
      (map ConsumerRabbitmq.Message [Examples.delivery 1 "0"; Examples.delivery 2 "1"]
       ++ ConsumerRabbitmq.Broken TransportError :: [ConsumerRabbitmq.Inactive])
      Examples.all_stored
    = (concat (imap (fun k d => kept Instances.utf8_decode Examples.json_loads
                                  Instances.fromisoformat d (Examples.all_stored k))
                 0 [Examples.delivery 1 "0"; Examples.delivery 2 "1"]), s)
    /\ ConsumerRabbitmq.calls s
       = [ConsumerRabbitmq.basic_ack 1; ConsumerRabbitmq.basic_ack 2].
Proof.
  assert (Hwf : all_well_formed Instances.utf8_decode Examples.json_loads
                  Instances.fromisoformat Examples.all_stored 0
                  [Examples.delivery 1 "0"; Examples.delivery 2 "1"] = true)
    by (vm_compute; reflexivity).
  destruct (proj2 (X12_broker_failures_end_the_poll_quietly
                     Instances.utf8_decode Examples.json_loads Instances.fromisoformat
                     Examples.reliable 10 TransportError Examples.all_stored
                     [Examples.delivery 1 "0"; Examples.delivery 2 "1"]
                     [ConsumerRabbitmq.Inactive] (fun n => eq_refl) Hwf
                     ltac:(vm_compute; reflexivity)))
    as [s [Hrun Hcalls]].
  exists s. split; [exact Hrun | exact Hcalls].
Defined.

(** ** A bound that is not a number, and an acknowledgement that fails *)

Section PollEdges.
Variable utf8_decode : string -> result string.
Variable json_loads : string -> result value.
Variable fromisoformat : string -> result Consumer.datetime.
Variable transport : nat -> result unit.

Local Abbreviation metrics_of_delivery :=
  (ConsumerRabbitmq.metrics_of_delivery utf8_decode json_loads fromisoformat).
Local Abbreviation handle_delivery :=
  (ConsumerRabbitmq.handle_delivery utf8_decode json_loads fromisoformat transport).
Local Abbreviation consume_loop :=
  (ConsumerRabbitmq.consume_loop utf8_decode json_loads fromisoformat transport).

Hypothesis reliable : forall n, transport n = Ok tt.

(** With a bound that is no number the comparison after the counter raises:
    the message, already answered, is nacked and the loop goes on. *)
Lemma handle_delivery_unbounded (max : value) (d : ConsumerRabbitmq.delivery)
    (fx : Consumer.effects) (s : ConsumerRabbitmq.session) (metrics : value) :
  as_number max = None ->
  metrics_of_delivery d fx = Ok metrics ->
  exists s',
    handle_delivery max d fx s = (Ok false, s')
    /\ ConsumerRabbitmq.calls s'
       = ConsumerRabbitmq.calls s ++ [decision d fx; requeue d]
    /\ ConsumerRabbitmq.processed_messages s'
       = ConsumerRabbitmq.processed_messages s
         ++ kept utf8_decode json_loads fromisoformat d fx
    /\ ConsumerRabbitmq.messages_consumed s'
       = ConsumerRabbitmq.messages_consumed s + 1.
Proof.
  intros Hmax Hm. unfold kept, decision. rewrite Hm.
  unfold ConsumerRabbitmq.handle_delivery, ConsumerRabbitmq.try,
    ConsumerRabbitmq.bindM, ConsumerRabbitmq.lift, ConsumerRabbitmq.store.
  rewrite Hm.
  assert (Hb : exists body, Consumer.build_metrics fromisoformat "rabbitmq" body
                 [("delivery_tag", VInt (ConsumerRabbitmq.delivery_tag d))] fx
               = Ok metrics).
  { unfold ConsumerRabbitmq.metrics_of_delivery in Hm. inv_bind Hm. eauto. }
  destruct Hb as [body Hb].
  destruct (store_metrics_flag _ _ "rabbitmq" _ _ _ _ Hb) as [obj [Hstore _]].
  rewrite Hstore.
  destruct (Consumer.put_object fx) as [[] | e];
    unfold ConsumerRabbitmq.call, ConsumerRabbitmq.append_processed,
      ConsumerRabbitmq.count_consumed, ConsumerRabbitmq.ret, ConsumerRabbitmq.int_ge;
    cbn -[Z.add as_number]; rewrite reliable;
    cbn -[Z.add as_number]; rewrite Hmax;
    cbn -[Z.add as_number]; rewrite reliable;
    eexists; (split; [reflexivity |]); cbn -[Z.add];
    rewrite ?app_nil_r, <- ?app_assoc; auto.
Qed.

Lemma consume_loop_unbounded (max : value) (world : nat -> Consumer.effects)
    (tail : list ConsumerRabbitmq.frame) (ds : list ConsumerRabbitmq.delivery) :
  as_number max = None ->
  tail = [] \/ (exists rest, tail = ConsumerRabbitmq.Inactive :: rest) ->
  forall (i : nat) (s : ConsumerRabbitmq.session),
    all_well_formed utf8_decode json_loads fromisoformat world i ds = true ->
    exists s',
      consume_loop max world i (map ConsumerRabbitmq.Message ds ++ tail) s = (Ok tt, s')
      /\ ConsumerRabbitmq.calls s'
         = ConsumerRabbitmq.calls s
           ++ concat (imap (fun k d => [decision d (world k); requeue d]) i ds)
      /\ ConsumerRabbitmq.processed_messages s'
         = ConsumerRabbitmq.processed_messages s
           ++ concat (imap (fun k d => kept utf8_decode json_loads fromisoformat
                                         d (world k)) i ds)
      /\ ConsumerRabbitmq.messages_consumed s'
         = ConsumerRabbitmq.messages_consumed s + len ds.
Proof.
  intros Hmax Htail. induction ds as [| d ds IH]; intros i s Hwf.
  - cbn [map app imap concat]. rewrite !app_nil_r. change (len (@nil ConsumerRabbitmq.delivery)) with 0.
    destruct Htail as [-> | [rest ->]]; exists s; (split; [reflexivity |]);
      repeat split; lia.
  - cbn [all_well_formed] in Hwf.
    destruct (metrics_of_delivery d (world i)) as [metrics | e] eqn:Hm;
      [| discriminate].
    destruct (handle_delivery_unbounded max d (world i) s metrics Hmax Hm)
      as [s1 [Hstep [Hcalls [Hproc Hcons]]]].
    cbn [map app ConsumerRabbitmq.consume_loop imap concat].
    unfold ConsumerRabbitmq.bindM at 1. rewrite Hstep.
    destruct (IH (S i) s1 Hwf) as [s' [Hloop [Hcalls' [Hproc' Hcons']]]].
    exists s'. split; [exact Hloop |].
    rewrite Hcalls', Hproc', Hcons', Hcalls, Hproc, Hcons, len_cons, <- !app_assoc.
    repeat split. lia.
Qed.
End PollEdges.

(** X13.  When [max_messages] is not a number (a string, or [null]), the
    comparison of the counter with it raises inside the loop body: over a
    reliable transport every decodable message is first answered as usual
    (acked when written, nacked when not) and then nacked with requeue, the
    loop never stops at a count, and every record written is still
    reported as processed. *)
Theorem X13_a_bound_that_is_no_number_is_never_applied :
  forall (utf8_decode : string -> result string)
         (json_loads : string -> result value)
         (fromisoformat : string -> result Consumer.datetime)
         (transport : nat -> result unit) (max_messages : value)
         (world : nat -> Consumer.effects) (ds : list ConsumerRabbitmq.delivery),
    (forall n, transport n = Ok tt) ->
    as_number max_messages = None ->
    all_well_formed utf8_decode json_loads fromisoformat world 0 ds = true ->
    exists s,
      ConsumerRabbitmq.consume_messages_from_rabbitmq utf8_decode json_loads
        fromisoformat transport max_messages (Ok tt)
        (map ConsumerRabbitmq.Message ds ++ [ConsumerRabbitmq.Inactive]) world
      = (concat (imap (fun k d => kept utf8_decode json_loads fromisoformat
                                    d (world k)) 0 ds), s)
      /\ ConsumerRabbitmq.calls s
         = concat (imap (fun k d => [decision d (world k); requeue d]) 0 ds)
           ++ [ConsumerRabbitmq.cancel; ConsumerRabbitmq.close]
      /\ ConsumerRabbitmq.messages_consumed s = len ds.
Proof.
  intros utf8_decode json_loads fromisoformat transport max_messages world ds
    Hrel Hmax Hwf.
  destruct (consume_loop_unbounded utf8_decode json_loads fromisoformat transport
              Hrel max_messages world [ConsumerRabbitmq.Inactive] ds Hmax
              (or_intror (ex_intro _ [] eq_refl)) 0 ConsumerRabbitmq.start Hwf)
    as [s1 [Hloop [Hcalls [Hproc Hcons]]]].
  unfold ConsumerRabbitmq.consume_messages_from_rabbitmq.
  unfold ConsumerRabbitmq.bindM at 1. unfold ConsumerRabbitmq.lift at 1.
  unfold ConsumerRabbitmq.bindM at 1. rewrite Hloop.
  unfold ConsumerRabbitmq.bindM, ConsumerRabbitmq.call.
  rewrite !Hrel. cbn [ConsumerRabbitmq.processed_messages ConsumerRabbitmq.calls].
  eexists. split; [rewrite Hproc; reflexivity |].
  cbn [ConsumerRabbitmq.calls ConsumerRabbitmq.messages_consumed].
  rewrite Hcalls, Hcons, <- app_assoc. auto.
Qed.

Lemma X13_a_bound_that_is_no_number_is_never_applied_witness :
  exists processed s,
    ConsumerRabbitmq.consume_messages_from_rabbitmq Instances.utf8_decode
      Examples.json_loads Instances.fromisoformat Examples.reliable (VStr "1") (Ok tt)
      (map ConsumerRabbitmq.Message [Examples.delivery 1 "0"; Examples.delivery 2 "1"]
       ++ [ConsumerRabbitmq.Inactive])
      Examples.all_stored
    = (processed, s)
    /\ ConsumerRabbitmq.calls s
       = [ConsumerRabbitmq.basic_ack 1; ConsumerRabbitmq.basic_nack 1 true;
          ConsumerRabbitmq.basic_ack 2; ConsumerRabbitmq.basic_nack 2 true;
          ConsumerRabbitmq.cancel; ConsumerRabbitmq.close]
    /\ ConsumerRabbitmq.messages_consumed s = 2.
Proof.
  assert (Hwf : all_well_formed Instances.utf8_decode Examples.json_loads
                  Instances.fromisoformat Examples.all_stored 0
                  [Examples.delivery 1 "0"; Examples.delivery 2 "1"] = true)
    by (vm_compute; reflexivity).
  destruct (X13_a_bound_that_is_no_number_is_never_applied
              Instances.utf8_decode Examples.json_loads Instances.fromisoformat
              Examples.reliable (VStr "1") Examples.all_stored
              [Examples.delivery 1 "0"; Examples.delivery 2 "1"]
              (fun n => eq_refl) eq_refl Hwf)
    as [s [Hrun [Hcalls Hcons]]].
  eexists. exists s. split; [exact Hrun |]. split; [exact Hcalls | exact Hcons].
Defined.

(** X14.  When the metrics of a decoded message are written but the
    acknowledgement then fails, the message is nacked with requeue and is
    neither counted nor reported as processed, while the object has been
    written and is in the bucket: a redelivery of the message writes its
    record again. *)
Theorem X14_a_failed_acknowledgement_leaves_the_record_in_the_bucket :
  forall (utf8_decode : string -> result string)
         (json_loads : string -> result value)
         (fromisoformat : string -> result Consumer.datetime)
         (transport : nat -> result unit) (max_messages : value)
         (d : ConsumerRabbitmq.delivery) (fx : Consumer.effects)
         (s : ConsumerRabbitmq.session) (metrics : value) (e : exn),
    ConsumerRabbitmq.metrics_of_delivery utf8_decode json_loads fromisoformat d fx
    = Ok metrics ->
    Consumer.put_object fx = Ok tt ->
    transport (List.length (ConsumerRabbitmq.calls s)) = Raise e ->
    exists o s',
      ConsumerRabbitmq.handle_delivery utf8_decode json_loads fromisoformat transport
        max_messages d fx s
      = (match transport (S (List.length (ConsumerRabbitmq.calls s))) with
         | Ok _ => Ok false
         | Raise e' => Raise e'
         end, s')
      /\ ConsumerRabbitmq.writes s' = ConsumerRabbitmq.writes s ++ [o]
      /\ Consumer.content o = metrics
      /\ Consumer.prefix o = "rabbitmq"
      /\ ConsumerRabbitmq.calls s'
         = ConsumerRabbitmq.calls s
           ++ [ConsumerRabbitmq.basic_ack (ConsumerRabbitmq.delivery_tag d); requeue d]
      /\ ConsumerRabbitmq.processed_messages s' = ConsumerRabbitmq.processed_messages s
      /\ ConsumerRabbitmq.messages_consumed s' = ConsumerRabbitmq.messages_consumed s
      /\ forall str, In o (Consumer.stored str (ConsumerRabbitmq.writes s')).
Proof.
  intros utf8_decode json_loads fromisoformat transport max_messages d fx s metrics e
    Hm Hput Hack.
  assert (Hb : exists body, Consumer.build_metrics fromisoformat "rabbitmq" body
                 [("delivery_tag", VInt (ConsumerRabbitmq.delivery_tag d))] fx
               = Ok metrics).
  { unfold ConsumerRabbitmq.metrics_of_delivery in Hm. inv_bind Hm. eauto. }
  destruct Hb as [body Hb].
  destruct (store_metrics_written _ _ _ _ _ _ Hb) as [Hw Hcontent].
  destruct (store_metrics_flag _ _ "rabbitmq" _ _ _ _ Hb) as [o [Hstore Hc]].
  rewrite Hput in Hstore. rewrite Hstore in Hw. cbn [snd] in Hw.
  inversion Hw as [| ? ? [Hprefix _] _]; subst.
  unfold ConsumerRabbitmq.handle_delivery, ConsumerRabbitmq.try,
    ConsumerRabbitmq.bindM, ConsumerRabbitmq.lift, ConsumerRabbitmq.store.
  rewrite Hm, Hstore.
  unfold ConsumerRabbitmq.call, ConsumerRabbitmq.ret.
  cbn [ConsumerRabbitmq.calls ConsumerRabbitmq.processed_messages
       ConsumerRabbitmq.messages_consumed ConsumerRabbitmq.writes].
  rewrite Hack.
  cbn [ConsumerRabbitmq.calls ConsumerRabbitmq.processed_messages
       ConsumerRabbitmq.messages_consumed ConsumerRabbitmq.writes].
  rewrite length_app. cbn [List.length]. rewrite Nat.add_1_r.
  exists o. eexists. split.
  - destruct (transport (S (List.length (ConsumerRabbitmq.calls s)))) as [[] | e'];
      reflexivity.
  - cbn [ConsumerRabbitmq.calls ConsumerRabbitmq.processed_messages
         ConsumerRabbitmq.messages_consumed ConsumerRabbitmq.writes].
    rewrite <- app_assoc.
    refine (conj eq_refl (conj eq_refl (conj Hprefix (conj eq_refl
              (conj eq_refl (conj eq_refl _)))))).
    intros str. apply stored_last.
Qed.

Lemma X14_a_failed_acknowledgement_leaves_the_record_in_the_bucket_witness :
  exists o s',
    ConsumerRabbitmq.handle_delivery Instances.utf8_decode Examples.json_loads
      Instances.fromisoformat first_call_fails (VInt 10)
      (Examples.delivery 7 "0") (Examples.effects_with (Ok tt)) ConsumerRabbitmq.start
    = (Ok false, s')
    /\ ConsumerRabbitmq.writes s' = [o]
    /\ ConsumerRabbitmq.calls s'
       = [ConsumerRabbitmq.basic_ack 7; ConsumerRabbitmq.basic_nack 7 true]
    /\ ConsumerRabbitmq.processed_messages s' = [].
Proof.
  destruct (ConsumerRabbitmq.metrics_of_delivery Instances.utf8_decode
              Examples.json_loads Instances.fromisoformat
              (Examples.delivery 7 "0") (Examples.effects_with (Ok tt)))
    as [metrics | e] eqn:Hm; [| vm_compute in Hm; discriminate Hm].
  destruct (X14_a_failed_acknowledgement_leaves_the_record_in_the_bucket
              Instances.utf8_decode Examples.json_loads Instances.fromisoformat
              first_call_fails (VInt 10) (Examples.delivery 7 "0")
              (Examples.effects_with (Ok tt)) ConsumerRabbitmq.start metrics
              TransportError Hm eq_refl eq_refl)
    as [o [s' [Hrun [Hb [_ [_ [Hcalls [Hp _]]]]]]]].
  exists o, s'. auto.
Defined.

(** ** The producer *)

(** X15.  The queue selector is read before the body: a request whose
    selector, in lower case, is neither [sqs] nor [rabbitmq] is answered
    400 with the invalid-queue error and nothing is sent, whatever its body
    is.  The selector is [sqs] when the query parameters are absent, null
    or empty or have no [queue]; a text selector is compared in lower
    case. *)
Theorem X15_the_selector_is_checked_first :
  forall (json_loads : string -> result value) (event : value)
         (fx : Producer.effects),
    is_dict event = true ->
    (forall queue,
       Producer.selector event = Ok queue ->
       queue <> "sqs" -> queue <> "rabbitmq" ->
       Producer.lambda_handler json_loads event fx
       = (Producer.reply 400
            (Producer.ErrorBody Producer.invalid_queue_parameter None), []))
    /\ (truthy (field event "queryStringParameters" (VDict [])) = false ->
        Producer.selector event = Ok "sqs")
    /\ (forall params,
          field event "queryStringParameters" (VDict []) = VDict params ->
          assoc "queue" params = None ->
          Producer.selector event = Ok "sqs")
    /\ (forall params s,
          field event "queryStringParameters" (VDict []) = VDict params ->
          assoc "queue" params = Some (VStr s) ->
          Producer.selector event = Ok (lower s)).
Proof.
  intros json_loads event fx Hd.
  destruct event as [| | | | | | d]; try discriminate. clear Hd.
  refine (conj _ (conj _ (conj _ _))).
  - intros queue Hsel Hs Hr. unfold Producer.lambda_handler, Producer.submit.
    rewrite Hsel.
    destruct (String.eqb_spec queue "sqs") as [-> | _]; [congruence |].
    destruct (String.eqb_spec queue "rabbitmq") as [-> | _]; [congruence |].
    reflexivity.
  - intros Hfalsy. unfold Producer.selector. cbn [py_get bind].
    cbn [field] in Hfalsy. rewrite Hfalsy. reflexivity.
  - intros params Hp Hq. cbn [field] in Hp.
    unfold Producer.selector. cbn [py_get bind]. rewrite Hp.
    destruct params as [| kv params]; [reflexivity |].
    cbn [truthy py_get bind]. rewrite Hq. reflexivity.
  - intros params s Hp Hq. cbn [field] in Hp.
    unfold Producer.selector. cbn [py_get bind]. rewrite Hp.
    destruct params as [| kv params]; [discriminate Hq |].
    cbn [truthy py_get bind]. rewrite Hq. reflexivity.
Qed.

Lemma X15_the_selector_is_checked_first_witness :
  Producer.lambda_handler json_loads_requests
    (VDict [("queryStringParameters", VDict [("queue", VStr "Kafka")]);
            ("body", VStr "not json")])
    Examples.producer_effects
  = (Producer.reply 400 (Producer.ErrorBody Producer.invalid_queue_parameter None), [])
  /\ Producer.selector
       (VDict [("queryStringParameters", VDict [("queue", VStr "RabbitMQ")])])
     = Ok "rabbitmq".
Proof.
  split.
  - apply (proj1 (X15_the_selector_is_checked_first json_loads_requests
                    (VDict [("queryStringParameters", VDict [("queue", VStr "Kafka")]);
                            ("body", VStr "not json")])
                    Examples.producer_effects eq_refl) "kafka").
    + reflexivity.
    + discriminate.
    + discriminate.
  - apply (proj2 (proj2 (proj2 (X15_the_selector_is_checked_first json_loads_requests
                    (VDict [("queryStringParameters",
                             VDict [("queue", VStr "RabbitMQ")])])
                    Examples.producer_effects eq_refl)))
             [("queue", VStr "RabbitMQ")] "RabbitMQ"); reflexivity.
Defined.

(** X16.  With a valid selector, a body that is text but not JSON is
    answered 400 with [Invalid JSON in request body], and a body that is
    not text (the [null] of a request without body) is answered 500 with
    the internal error of a [TypeError]; in both cases nothing is sent. *)
Theorem X16_a_body_that_cannot_be_decoded :
  forall (json_loads : string -> result value) (event : value)
         (fx : Producer.effects) (queue : string),
    Producer.selector event = Ok queue ->
    queue = "sqs" \/ queue = "rabbitmq" ->
    (forall text,
       field event "body" (VStr "{}") = VStr text ->
       json_loads text = Raise JSONDecodeError ->
       Producer.lambda_handler json_loads event fx
       = (Producer.reply 400
            (Producer.ErrorBody "Invalid JSON in request body" None), []))
    /\ ((forall text, field event "body" (VStr "{}") <> VStr text) ->
        Producer.lambda_handler json_loads event fx
        = (Producer.reply 500
             (Producer.ErrorBody "Internal server error" (Some TypeError)), [])).
Proof.
  intros json_loads event fx queue Hsel Hq.
  assert (Hcheck : negb (String.eqb queue "sqs" || String.eqb queue "rabbitmq")
                   = false)
    by (destruct Hq as [-> | ->]; reflexivity).
  destruct event as [| | | | | | d]; try discriminate Hsel.
  unfold Producer.lambda_handler, Producer.submit.
  rewrite Hsel, Hcheck. cbn [py_get bind field]. split.
  - intros text Ht Hl. rewrite Ht. cbn [Consumer.py_json_loads]. rewrite Hl.
    reflexivity.
  - intros Hno.
    destruct (match assoc "body" d with Some v => v | None => VStr "{}" end)
      as [| | | | s | |] eqn:E; try reflexivity.
    exfalso. apply (Hno s). reflexivity.
Qed.

Lemma X16_a_body_that_cannot_be_decoded_witness :
  Producer.lambda_handler json_loads_requests
    (VDict [("queryStringParameters", VNone); ("body", VStr "not json")])
    Examples.producer_effects
  = (Producer.reply 400 (Producer.ErrorBody "Invalid JSON in request body" None), [])
  /\ Producer.lambda_handler json_loads_requests
       (VDict [("queryStringParameters", VNone); ("body", VNone)])
       Examples.producer_effects
     = (Producer.reply 500
          (Producer.ErrorBody "Internal server error" (Some TypeError)), []).
Proof.
  split.
  - apply (proj1 (X16_a_body_that_cannot_be_decoded json_loads_requests
                    (VDict [("queryStringParameters", VNone);
                            ("body", VStr "not json")])
                    Examples.producer_effects "sqs" eq_refl (or_introl eq_refl))
             "not json"); reflexivity.
  - apply (proj2 (X16_a_body_that_cannot_be_decoded json_loads_requests
                    (VDict [("queryStringParameters", VNone); ("body", VNone)])
                    Examples.producer_effects "sqs" eq_refl (or_introl eq_refl))).
    intros text. discriminate.
Defined.

(** Validation accepts dictionaries only. *)
Lemma validate_request_body_accepts (body : value) (m : option string) :
  Producer.validate_request_body body = Ok (true, m) -> valid_body body.
Proof.
  unfold valid_body.
  destruct body as [| b | z | q | s | l | d]; unfold Producer.validate_request_body;
    destruct (truthy _) eqn:Ht; cbn [negb]; try discriminate;
    unfold Producer.check_fields, Producer.required_fields;
    cbn [Producer.contains bind Consumer.getitem]; try discriminate.
  - destruct (String.index 0 "passenger_name" s); cbn [negb bind]; discriminate.
  - destruct (existsb (fun x => eq_str x "passenger_name") l); cbn [negb bind];
      discriminate.
  - intros H. exists d. split; [reflexivity |].
    assert (Hne : d <> []) by (intros ->; discriminate Ht).
    pose proof (validate_request_body_dict d Hne) as Hv.
    unfold Producer.validate_request_body in Hv. rewrite Ht in Hv. cbn [negb] in Hv.
    unfold Producer.check_fields, Producer.required_fields in Hv.
    cbn [Producer.contains bind Consumer.getitem] in Hv.
    rewrite Hv in H. destruct (first_missing (VDict d)); [discriminate | reflexivity].
Qed.

(** X17.  Every invocation of the producer answers 200, 400 or 500 with
    the JSON headers and hands at most one message to a queue.  A message
    is sent only for a valid selector and a body that passes validation;
    it carries the fresh identifier, the clock reading followed by [Z], the
    selected queue, the three required fields of the body unchanged and its
    [phone] (or ["N/A"]).  The answer is then 200 and echoes the identifier,
    the timestamp, the queue and the passenger name when the transport
    accepted the message, and 500 when it did not; an answer of 200 is given
    in no other case, and nothing is sent with an answer of 400. *)
Theorem X17_at_most_one_message_and_only_for_a_valid_request :
  forall (json_loads : string -> result value) (event : value)
         (fx : Producer.effects),
    let r := fst (Producer.lambda_handler json_loads event fx) in
    let sent := snd (Producer.lambda_handler json_loads event fx) in
    Producer.headers r = Comparison.json_headers
    /\ (Producer.statusCode r = 200 \/ Producer.statusCode r = 400
        \/ Producer.statusCode r = 500)
    /\ (sent = []
        \/ exists queue body,
             sent = [(queue, message_of queue body fx)]
             /\ (queue = "sqs" \/ queue = "rabbitmq")
             /\ Producer.selector event = Ok queue
             /\ decoded_body json_loads event = Ok body
             /\ valid_body body
             /\ r = match Producer.send_message fx with
                    | Ok _ =>
                        Producer.reply 200
                          (Producer.Queued (Producer.uuid4 fx)
                             (Producer.utcnow fx ++ "Z") queue "queued"
                             (field body "passenger_name" VNone))
                    | Raise e =>
                        Producer.reply 500
                          (Producer.ErrorBody "Failed to queue message" (Some e))
                    end)
    /\ (Producer.statusCode r = 200 -> sent <> [])
    /\ (Producer.statusCode r = 400 -> sent = []).
Proof.
  intros json_loads event fx. cbn zeta.
  unfold Producer.lambda_handler, Producer.submit.
  destruct (Producer.selector event) as [queue | e] eqn:Hsel.
  - destruct (negb (String.eqb queue "sqs" || String.eqb queue "rabbitmq")) eqn:Hq.
    + cbn. repeat split; auto; discriminate.
    + assert (Hqueue : queue = "sqs" \/ queue = "rabbitmq").
      { apply negb_false_iff in Hq. apply orb_true_iff in Hq.
        destruct Hq as [Hq | Hq]; apply String.eqb_eq in Hq; auto. }
      destruct (raw <- py_get event "body" (VStr "{}") ;;
                body <- Consumer.py_json_loads json_loads raw ;;
                v <- Producer.validate_request_body body ;; Ok (body, v))
        as [[body [is_valid msg]] | e] eqn:Hb.
      * apply bind_Ok in Hb. destruct Hb as [raw [Hraw Hb]].
        apply bind_Ok in Hb. destruct Hb as [body' [Hloads Hb]].
        apply bind_Ok in Hb. destruct Hb as [v [Hv Hb]].
        injection Hb as -> ->.
        destruct is_valid; cbn [negb].
        -- pose proof (validate_request_body_accepts body msg Hv) as Hvalid.
           destruct Hvalid as [d [-> Hnone]].
           destruct (first_missing_none d Hnone) as [v1 [v2 [v3 [E1 [E2 E3]]]]].
           cbn [bind Consumer.getitem py_get]. rewrite E1, E2, E3. cbn [bind].
           assert (Hmsg :
             {| Producer.message_id := Producer.uuid4 fx;
                Producer.timestamp_sent := (Producer.utcnow fx ++ "Z")%string;
                Producer.queue_type := queue;
                Producer.passenger_name := v1;
                Producer.current_address := v2;
                Producer.destination := v3;
                Producer.phone :=
                  match assoc "phone" d with Some v => v | None => VStr "N/A" end |}
             = message_of queue (VDict d) fx).
           { unfold message_of. cbn [field]. rewrite E1, E2, E3. reflexivity. }
           assert (Hdec : decoded_body json_loads event = Ok (VDict d)).
           { unfold decoded_body. rewrite Hraw. cbn [bind]. exact Hloads. }
           assert (Hname : field (VDict d) "passenger_name" VNone = v1)
             by (cbn [field]; rewrite E1; reflexivity).
           destruct (Producer.send_message fx) as [u | e] eqn:Hsend;
             cbn [fst snd Producer.headers Producer.statusCode Producer.reply
                  Producer.message_id Producer.timestamp_sent Producer.passenger_name];
             rewrite Hmsg;
             (refine (conj eq_refl (conj _ (conj _ (conj _ _))));
              [auto
              | right; exists queue, (VDict d);
                refine (conj eq_refl (conj Hqueue (conj eq_refl (conj Hdec (conj _ _)))));
                [exists d; auto | rewrite ?Hname; reflexivity]
              | intros _; discriminate
              | intros H; discriminate H]).
        -- cbn. repeat split; auto; discriminate.
      * destruct e; cbn; repeat split; auto; discriminate.
  - destruct e; cbn; repeat split; auto; discriminate.
Qed.

(** ** From a ride request to the summary *)

Lemma substring_all (t : string) : substring 0 (String.length t) t = t.
Proof. induction t as [| c t IH]; simpl; [reflexivity | rewrite IH; reflexivity]. Qed.

Lemma substring_app_right (s t : string) :
  substring (String.length s) (String.length t) (s ++ t) = t.
Proof. induction s as [| c s IH]; simpl; [apply substring_all | exact IH]. Qed.

Lemma string_length_app (s t : string) :
  String.length (s ++ t) = (String.length s + String.length t)%nat.
Proof. induction s as [| c s IH]; simpl; [reflexivity | rewrite IH; reflexivity]. Qed.

Lemma endswith_app (s t : string) : endswith (s ++ t) t = true.
Proof.
  unfold endswith. rewrite string_length_app.
  assert (Hle : (String.length t <=? String.length s + String.length t)%nat = true)
    by (apply Nat.leb_le; lia).
  rewrite Hle.
  replace (String.length s + String.length t - String.length t)%nat
    with (String.length s) by lia.
  rewrite substring_app_right. apply String.eqb_refl.
Qed.

Lemma string_app_assoc (a b c : string) : ((a ++ b) ++ c = a ++ (b ++ c))%string.
Proof. induction a as [| x a IH]; simpl; [reflexivity | rewrite IH; reflexivity]. Qed.

Lemma object_key_json (o : Consumer.stored_object) (key : string) :
  object_key o = Some key -> endswith key ".json" = true.
Proof.
  unfold object_key. destruct (Consumer.message_id o) as [| | | | id | |];
    try discriminate.
  intros H.
  assert (Hk : key = (((((Consumer.prefix o ++ "/") ++ Consumer.stamp o) ++ "_") ++ id)
                      ++ ".json")%string).
  { rewrite !string_app_assoc. congruence. }
  rewrite Hk. apply endswith_app.
Qed.

(** X18.  A ride request that the producer turned into a message reaches
    the summary under its own identifier: the consumer of the queue builds
    a record with the identifier, send timestamp and passenger fields of
    the message; when the write succeeds the object is stored under
    [<queue>/<timestamp>_<identifier>.json]; and the aggregator, reading a
    bucket that holds this object, fetches the record and counts it once,
    in the group of that queue. *)
Theorem X18_a_ride_request_reaches_the_summary :
  forall (json_loads : string -> result value)
         (fromisoformat : string -> result Consumer.datetime)
         (queue : string) (body : value) (produced : Producer.effects)
         (extra : list (string * value)) (consumed : Consumer.effects)
         (text : string),
    Consumer.put_object consumed = Ok tt ->
    exists metrics o key entry,
      Consumer.build_metrics fromisoformat queue
        (message_value (message_of queue body produced)) extra consumed = Ok metrics
      /\ field metrics "message_id" VNone = VStr (Producer.uuid4 produced)
      /\ field metrics "timestamp_sent" VNone
         = VStr (Producer.utcnow produced ++ "Z")
      /\ field metrics "passenger_name" VNone = field body "passenger_name" VNone
      /\ field metrics "destination" VNone = field body "destination" VNone
      /\ Consumer.store_metrics_to_s3 queue metrics consumed = (true, [o])
      /\ Consumer.content o = metrics
      /\ object_key o = Some key
      /\ key = (queue ++ "/" ++ Consumer.now_stored consumed ++ "_"
                ++ Producer.uuid4 produced ++ ".json")%string
      /\ (json_loads text = Ok metrics ->
          Comparison.get_all_metrics_from_s3 json_loads
            [Ok (Some [{| Comparison.Key := key; Comparison.Body := Ok text |}])]
          = [metrics])
      /\ Comparison.calculate_statistics [metrics] = Ok [(VStr queue, entry)]
      /\ Comparison.count entry = 1.
Proof.
  intros json_loads fromisoformat queue body produced extra consumed text Hput.
  set (message_body := message_value (message_of queue body produced)).
  destruct (build_metrics_spec fromisoformat queue message_body extra consumed eq_refl)
    as [fields [v [Hbuild _]]].
  set (metrics := VDict (("message_id", field message_body "message_id" (VStr "unknown"))
                         :: fields)) in *.
  destruct (build_metrics_literal _ _ _ _ _ _ Hbuild) as [_ [lat [Hm [Hn _]]]].
  destruct (metrics_literal_fields queue message_body lat extra consumed)
    as [Hq [Hl [Hp [_ [Hid [Hsent [_ [Hname [_ Hdest]]]]]]]]].
  rewrite <- Hm in Hq, Hl, Hp, Hid, Hsent, Hname, Hdest.
  assert (Hwf : well_formed metrics = true).
  { unfold well_formed. rewrite Hq, Hl, Hp, Hn. rewrite Hm. reflexivity. }
  destruct (single_queue_summary queue [metrics]) as [entry [He Hc]].
  { constructor; [exact Hwf | constructor]. }
  { constructor; [exact Hq | constructor]. }
  { discriminate. }
  assert (Hg : Consumer.getitem metrics "message_id"
               = Ok (VStr (Producer.uuid4 produced))) by reflexivity.
  set (o := {| Consumer.prefix := queue; Consumer.stamp := Consumer.now_stored consumed;
               Consumer.message_id := VStr (Producer.uuid4 produced);
               Consumer.content := metrics |}).
  set (key := (queue ++ "/" ++ Consumer.now_stored consumed ++ "_"
               ++ Producer.uuid4 produced ++ ".json")%string).
  assert (Hkey : object_key o = Some key) by reflexivity.
  exists metrics, o, key, entry.
  refine (conj Hbuild (conj _ (conj _ (conj _ (conj _ (conj _ (conj eq_refl
            (conj Hkey (conj eq_refl (conj _ (conj He Hc))))))))))).
  - rewrite Hid. reflexivity.
  - rewrite Hsent. reflexivity.
  - rewrite Hname. reflexivity.
  - rewrite Hdest. reflexivity.
  - rewrite store_metrics_to_s3_getitem, Hg, Hput. reflexivity.
  - intros Hload. unfold Comparison.get_all_metrics_from_s3.
    cbn [Comparison.read_pages Comparison.read_objects app
         Comparison.Key Comparison.Body].
    rewrite (object_key_json o key Hkey). cbn [negb bind]. rewrite Hload.
    reflexivity.
Qed.

Lemma X18_a_ride_request_reaches_the_summary_witness :
  exists metrics o entry,
    Consumer.build_metrics Instances.fromisoformat "sqs"
      (message_value (message_of "sqs" (VDict complete) Examples.producer_effects))
      [] (Examples.effects_with (Ok tt)) = Ok metrics
    /\ Consumer.store_metrics_to_s3 "sqs" metrics (Examples.effects_with (Ok tt))
       = (true, [o])
    /\ object_key o
       = Some "sqs/20240101_000000_0b0e7a3c-5f1d-4c1e-9d2a-7e6f5a4b3c2d.json"
    /\ Comparison.calculate_statistics [metrics] = Ok [(VStr "sqs", entry)]
    /\ Comparison.count entry = 1.
Proof.
  destruct (X18_a_ride_request_reaches_the_summary Examples.json_loads
              Instances.fromisoformat "sqs" (VDict complete) Examples.producer_effects
              [] (Examples.effects_with (Ok tt)) "text" eq_refl)
    as [metrics [o [key [entry [Hb [_ [_ [_ [_ [Hs [_ [Hk [-> [_ [He Hc]]]]]]]]]]]]]]].
  exists metrics, o, entry. auto.
Defined.
